(* ===== verification/_CoqProject ===== *)
-Q . S2P
Prelude.v
RustStr.v
Digest.v
Types.v
Fixtures.v
Validation.v
Reducer.v
Codec.v
Tcp.v
Incremental.v
Sse.v
WebSocket.v
H2.v
Http1.v
Json.v
Responses.v
Table.v
Sql.v
Db.v
Server.v
ServerContent.v
ServerSteps.v
Model.v
Mapping.v
Blob.v
Store.v
StoreSteps.v
Service.v
ContentUpload.v
Delivery.v
Ip.v
Attribution.v
Config.v
Titles.v
Discovery.v
Lane.v
LaneFlow.v
LaneSteps.v
LaneHttp.v
LaneInv.v
LaneStore.v
LaneFixture.v
Loops.v
Profile.v
Abi.v
Probes.v
Loader.v
EbpfLane.v
Notifier.v
Router.v
Daemon.v
Uploads.v
EndToEnd.v
EndToEndFixture.v
Announce.v
