(* ===== verification/Prelude.v ===== *)
(** * CodexWatch: a Rocq model of the program

    CodexWatch watches Codex sessions from outside.  On the client host a daemon
    captures the packets of Codex processes, reassembles their TCP streams,
    decodes the protocols on them and turns every exchange into structured
    records; it keeps these and the bodies in a store and uploads batches.
    A server keeps tasks, attempts, events and errors, answers queries, and asks
    clients for full content; a notifier polls it and sends messages.  Kernel
    programs record what a process writes before it is encrypted.  This library
    models the parts of these programs that compute, translated from the Rust
    sources under src/crates/, and proves what makes them correct.

    ** Layout

    The files come in this order, and the data flows through them.
    - Prelude, RustStr, Fixtures: the [Result] type and its binds, machine
      integers, bytes and UTF-8 strings as Rust sees them; the concrete
      instances the witnesses run on.
    - Types, Digest, Validation, Reducer, Codec: the crate [protocol].  [Types] has
      the records and enums of types.rs under their own names (fields carry
      a short prefix); [Validation] every [Validate] implementation of
      validation.rs with its error paths; [Reducer] is [TaskReducer] of state.rs;
      [Codec] the batch encoding of codec.rs.
    - Tcp, Sse, WebSocket, H2, Http1, Json, Responses: the crate [capture].  [Tcp] is
      the reassembler of tcp.rs; [Sse], [WebSocket] and [H2] the streaming decoders,
      which are clients of the interface [Incremental] (decode one frame from
      the front of a buffer); [Http1] the message parser; [Responses] the turn
      metadata and the mapping of responses to events.
    - Table, Sql, Db, Server, ServerContent, ServerSteps: the crate [server].
      [Table] has the SQL statements on lists of rows, [Sql] transactions over any
      set of tables, shared with the client's store, and statements outside a
      transaction; [Db] the tables of [migrate]
      with their keys; [Server] tokens, ingest, queries and retention;
      [ServerContent] content requests, polling, uploads and eviction;
      [ServerSteps] the server as a state machine over requests.
    - Model, Mapping, Blob, Store, StoreSteps: the crate [client], what it keeps.
      [Model] is model.rs; [Mapping] the pure functions of store.rs; [Blob] blob.rs on
      a map of paths; [Store] the tables and methods of store.rs; [StoreSteps] the
      store as a state machine over its operations.
    - Service, ContentUpload, Delivery: the rounds of service.rs and the requests
      of transport.rs; a stored body as JSON before axum's extractor and the
      server's handler; client store, network and server composed.
    - Ip, Attribution, Config, Titles, Discovery: addresses as text, the packet
      parser and the /proc tables of af_packet.rs, config.rs,
      conversation_titles.rs, and of capture_lane.rs the packet source and
      the scan of processes.
    - Lane, LaneFlow, LaneSteps, LaneHttp, LaneInv, LaneStore, LaneFixture:
      capture_lane.rs.  [Lane] has its pure part (projection of one exchange),
      [LaneFlow] the flow table, the decoding of flows and the ingest loop in the
      monad [LaneM]; the next four are its theorems, and the last concrete runs.
    - Loops: the loops of capture_lane.rs over any source, with its traits
      [LiveCaptureSource] and [ProcessDiscovery] as classes.
    - Profile, Abi, Probes, Loader, EbpfLane: the crate [profile], the record
      layouts and the decoder, the kernel programs of capture-ebpf/ebpf as trees of
      atomic accesses ([Bpf]), loader.rs, and the client's ebpf_lane.rs.
    - Notifier: notifier/src/main.rs, the daemon in the monad [Notify].
    - Router: the server's process, its configuration, commands and routes.
    - Daemon: the tasks of the client's daemon and what they share.
    - Uploads, EndToEnd, EndToEndFixture, Announce: the programs composed.
      [Uploads] says which snapshots the outbox carries, [EndToEnd] follows them from
      a captured exchange through the store, the flush and the ingest to the answer
      a reader gets, [EndToEndFixture] has the concrete runs, and [Announce] joins
      the list of the server to the poll of the notifier.

    A comment [src: file:first-last symbol] above a definition names the code
    it translates; after a colon it names the part of that symbol.

    ** How the code is modelled

    Fallible code returns [result E A], with the error values of the source.
    Code that can panic (slice bounds, integer overflow in the decoders)
    returns an [option], and [None] is the panic.  Mutable structures are state
    passed explicitly.  Integers are [Z] with their width written out where it
    can matter ([wrap32], [sat_add32], [u64_max]); bytes are [Byte.byte].  A server
    handler that writes is a function of the type [Tx] (database to result and
    database): its transaction, with the token lookup that precedes it in the
    code taken in the same step; [run_tx] keeps the old database when it fails.  A
    query is of the type [Reads]: the token lookup, the visibility check and each
    fetch are statements of their own, each with the database it finds as an
    argument, so other requests may run in between; [undisturbed] is the case
    where none does.  Readings of the clock, fresh identifiers, the order in which
    a hash map iterates and the state found at each turn of a long poll are
    arguments, so a theorem holds for all of them.

    Concurrency is interleaving.  The capture lane reads the store again at
    every access, after any operations of the other tasks ([World]); [daemon_step]
    is a turn of any task of the daemon; [sys_step] of [Delivery] a step of the
    client, the server (any request, retention included) or a network that
    loses, repeats and reorders; [kernel_step] of [Probes] an access of any of
    the kernel programs that run; the notifier's effects fail, or the process is
    killed, as a script says.

    Loops are structural where they can be.  The others carry fuel, always
    computed from the input and proved to be enough: the number of pending
    fragments in [flush_pending], the length of the buffer in the frame loops
    ([feed_concat] and the round trips consume all input), the length of the
    body in [chunk_loop], the number of conversations plus one in [evict_loop]
    ([evict_keeps_newest] says the loop ends and where), the length of a flow's
    buffer in the loop over its requests ([requests_chunking] relates its result
    to the bytes).  The long poll has no bound of its own;
    [next_command_returns] bounds its turns.  Loops that never end ([run_daemon],
    [run_ebpf_loop]) are functions of the answers they have got so far.

    ** Parameters

    Third-party crates are type classes: [UuidApi] (uuid), [DigestApi] (sha2, hex),
    [CborApi] and [ZstdApi] (ciborium, zstd), [HpackApi] (hpack), [HttparseApi],
    [HttpApi] and [UriApi] (httparse, http), [DecompressApi], [JsonApi],
    [JsonViewApi] and [EntryApi] (serde_json), [TimeApi] (time), [ReqwestApi]
    (reqwest), [EtherparseApi] (etherparse), [ProfileJsonApi], [HexApi] and [AyaApi]
    (aya), [UrlApi] (url), [AxumApi] (axum), [StateJson].  The laws assumed are
    documented behaviour and few: CBOR, zstd and the notifier's JSON read what they
    wrote ([CodecLaws], [BlobLaws], [StateJsonLaws]), digests are 64 hexadecimal
    digits ([DigestLaws]), serde writes a byte vector as an array of numbers and
    axum's extractor refuses a body of more than 2 MiB ([JsonBodyLaws]), a path is
    cut and captured as axum documents it and a URL keeps the segments it is given
    ([AxumLaws], [UrlLaws]).  Each theorem
    under a law has a witness with a concrete instance.  SQLite is not a
    parameter: the statements the programs issue are defined in [Table], with key
    conflicts as the only failing statement; I/O errors of the database are
    outside the model, and a transaction is atomic, as the pools have one
    connection.

    ** What the theorems show

    - Capture.  Whatever segments of a stream arrive, in any order, repeated and
      across the wrap of the sequence numbers, the assembler hands out
      consecutive bytes of it from the first segment on ([tcp_refines_stream]);
      given all pieces, the first one first and no wrap, it hands out the stream
      ([tcp_reassembles]).  The decoders do not
      depend on how the input is cut and return what an encoder of the protocol
      sent ([h2_roundtrip], [ws_messages_roundtrip], [h2_chunking],
      [sse_render_roundtrip], [chunked_prefix]); a decoded exchange claims only
      what the response shows ([exchange_evidence]).
    - Protocol.  Validation accepts exactly the well-formed values
      ([upload_validate_iff]); the reducer keeps its invariant and never leaves a
      terminal state ([run_invariant], [terminal_absorbing]), and what it produces
      is valid ([run_upload_valid]); the codec round-trips ([codec_roundtrip]).
    - Server.  Every reachable database satisfies [server_inv] ([reachable_inv]); a
      batch is applied exactly once whatever runs in between, unless retention has
      deleted its receipt after 400 days ([ingest_exactly_once]), and stores exactly
      its rows ([ingest_stores]); an answer shows what the tables held of a client
      the token may see ([query_scope]); chunks may come in any
      order ([chunks_any_order]); eviction keeps the newest thirty conversations
      ([evict_keeps_newest]); pages and retention ([list_tasks_page],
      [cleanup_exact]).
    - Client store.  Every reachable store is well formed and within its budgets
      ([store_reachable_inv], [outbox_budget]), no task is lost or goes back
      ([tasks_never_regress]), what is stored arrives if it fits in a request
      ([stored_blob_arrives]).
    - Capture lane.  Its effect on the store is a run of the store's own steps
      ([lane_refines_store]); it keeps its flow table well formed and its flows apart ([lane_reachable_inv],
      [segment_isolation]), cuts requests independently of segments
      ([requests_chunking]), records an exchange and an exit as it should
      ([exchange_recorded], [exit_terminates], [projection_sound]); packets go to
      the process that holds a socket listed with their ends ([attribution_exact]).
    - eBPF.  Probes are attached only to a binary that is known byte by byte
      ([uprobes_verified], [attach_plan_exact]).  The programs put the address of a
      record in the ring buffer instead of the record, so the lane sees nothing
      ([ebpf_blind]); were the records there, the decoder would misread them,
      since it expects no padding ([packed_roundtrip], [padded_record_misread]).
      Overlapping calls can get one number ([sequence_race]); failures back off
      ([ebpf_backoff]).
    - Composition.  A queued batch stays queued on a lossy network until the server
      has accepted it ([delivery_no_loss]) and one flush delivers it ([flush_delivers]); every
      interleaving of the daemon's tasks keeps the store's invariant and the order
      of the channel ([daemon_safe]); every request of the client and the notifier
      reaches the handler meant for it ([client_requests_routed],
      [notifier_requests_routed]).  From end to end: a captured exchange is shown
      to every reader of its client ([captured_turn_shown]), and a task on the
      server that calls for a notice is announced ([stored_task_announced]).
    - Notifier.  It announces exactly what is due ([notices_exact]), nothing of the
      history it finds at first ([first_poll_silent]), nothing twice but for faults
      ([notified_once]), and once a first poll has marked what it found
      loses nothing ([no_notice_lost]).
    - Limits found while modelling are theorems too: sequence numbers that wrap
      ([tcp_wrap_and_overlap_limits]), a frame length that overflows
      ([ws_length_overflow_panics]), manifests the server refuses
      ([manifest_counts_body]), objects too large for a request
      ([full_chunk_refused]), a refused result that blocks the queue of commands
      ([refused_result_starves]), processes never announced or reported as gone
      ([unindexed_process_never_announced], [replaced_executable_reports_exit]),
      malformed signatures that match anything ([malformed_signature_matches]),
      a retried batch that puts an older snapshot back ([late_batch_rewinds]), and
      tasks that another client can take over ([task_taken_over]).

    ** Not modelled, and the plan

    System interaction: sockets and the packet ring of af_packet.rs, the system
    calls behind the aya crate, the listener of the HTTP server, the timers, reading
    and parsing of files and command lines, printing.  The copies of the capture
    decoders under client/src/decode_support/ are the same text and are modelled
    once.  What is left of the programs that compute is small: the reading of
    profile directories, and the printing of the client's diagnostic commands. *)
From Stdlib Require Import ZArith Lia.
From Stdlib Require Import Strings.Byte Strings.String.
From stdpp Require Export base option list strings gmap pretty.
Export List.ListNotations.
Local Open Scope Z_scope.

(** ** The [Result] type

    [result E A] is Rust's [Result<A, E>]; [x ← m; k] is [let x = m?; k]. *)
Inductive result (E A : Type) : Type :=
| Ok (a : A)
| Err (e : E).
Arguments Ok {E A} a.
Arguments Err {E A} e.

#[export] Instance result_ret {E} : MRet (result E) := fun A a => Ok a.
#[export] Instance result_bind {E} : MBind (result E) := fun A B f m =>
  match m with
  | Ok a => f a
  | Err e => Err e
  end.
#[export] Instance result_fmap {E} : FMap (result E) := fun A B f m =>
  match m with
  | Ok a => Ok (f a)
  | Err e => Err e
  end.
#[export] Instance result_eq_dec {E A} `{EqDecision E} `{EqDecision A} :
  EqDecision (result E A).
Proof. solve_decision. Defined.

(** [Result::map_err], [Result::is_ok], [Option::ok_or]. *)
Definition map_err {E F A} (f : E -> F) (m : result E A) : result F A :=
  match m with
  | Ok a => Ok a
  | Err e => Err (f e)
  end.
Definition is_ok {E A} (m : result E A) : bool :=
  match m with
  | Ok _ => true
  | Err _ => false
  end.
Definition ok_or {E A} (e : E) (o : option A) : result E A :=
  match o with
  | Some a => Ok a
  | None => Err e
  end.

(** [guard b e] is [if !b { return Err(e) }]. *)
Definition guard_or {E} (b : bool) (e : E) : result E unit :=
  if b then Ok tt else Err e.

Lemma bind_Ok {E A B} (m : result E A) (f : A -> result E B) (b : B) :
  m ≫= f = Ok b <-> exists a, m = Ok a /\ f a = Ok b.
Proof.
  destruct m as [a|e]; cbn; split.
  - eauto.
  - by intros (a' & [= ->] & ?).
  - discriminate.
  - by intros (a' & ? & ?).
Qed.

Lemma bind_tt_Ok {E B} (m : result E unit) (f : unit -> result E B) (b : B) :
  m ≫= f = Ok b <-> m = Ok tt /\ f tt = Ok b.
Proof.
  rewrite bind_Ok. split.
  - by intros ([] & ? & ?).
  - intros [? ?]. eauto.
Qed.

Lemma guard_or_Ok {E} (b : bool) (e : E) u : guard_or b e = Ok u <-> b = true.
Proof. destruct b, u; cbn; split; congruence. Qed.

Lemma map_err_Ok {E F A} (f : E -> F) (m : result E A) (a : A) :
  map_err f m = Ok a <-> m = Ok a.
Proof. destruct m; cbn; split; congruence. Qed.

Lemma ok_or_Ok {E A} (e : E) (o : option A) a : ok_or e o = Ok a <-> o = Some a.
Proof. destruct o; cbn; split; congruence. Qed.

Lemma is_ok_true {E} (m : result E unit) : is_ok m = true <-> m = Ok tt.
Proof. destruct m as [[]|]; cbn; split; congruence. Qed.

Lemma bind_Err {E A B} (m : result E A) (f : A -> result E B) (e : E) :
  m ≫= f = Err e <-> m = Err e \/ exists a, m = Ok a /\ f a = Err e.
Proof.
  destruct m as [a|e']; cbn; split.
  - eauto.
  - intros [?|(a' & [= ->] & ?)]; done.
  - intros [= ->]. by left.
  - intros [?|(a' & ? & ?)]; [congruence | done].
Qed.

Lemma guard_or_Err {E} (b : bool) (e e' : E) :
  guard_or b e = Err e' <-> b = false /\ e = e'.
Proof. destruct b; cbn; split; [done | by intros [? _] | by intros [= ->] | by intros [_ ->]]. Qed.

Lemma map_err_Err {E F A} (f : E -> F) (m : result E A) (e : F) :
  map_err f m = Err e <-> exists e', m = Err e' /\ f e' = e.
Proof.
  destruct m as [a|e']; cbn; split.
  - done.
  - by intros (? & ? & ?).
  - intros [= <-]. eauto.
  - by intros (? & [= ->] & ->).
Qed.

Lemma result_not_Ok {E} (m : result E unit) : m <> Ok tt <-> exists e, m = Err e.
Proof. destruct m as [[]|e]; split; [done | by intros [? ?] | eauto | done]. Qed.

(** The equations that turn [_ = Ok _] on monadic code into a conjunction of
    its guards. *)
Create HintDb result discriminated.
#[export] Hint Rewrite @bind_tt_Ok @guard_or_Ok @map_err_Ok @ok_or_Ok @is_ok_true : result.
#[export] Hint Rewrite andb_true_iff orb_true_iff negb_true_iff andb_false_iff orb_false_iff
  negb_false_iff bool_decide_eq_true bool_decide_eq_false
  Z.leb_le Z.leb_gt Z.ltb_lt Z.ltb_ge Z.eqb_eq Z.eqb_neq Nat.leb_le Nat.leb_gt
  Nat.ltb_lt Nat.ltb_ge Nat.eqb_eq Nat.eqb_neq : bools.

(** [result_iff] states a result as the guards it passed; [simpl_bools] turns
    boolean guards into propositions; [inv_ok H] destructs a successful run. *)
Ltac simpl_bools := autorewrite with bools in *.
Ltac result_iff := autorewrite with result bools.
Ltac inv_ok H :=
  match type of H with
  | _ ≫= _ = Ok _ =>
    let a := fresh "a" in let H1 := fresh H in
    apply bind_Ok in H as (a & H1 & H); inv_ok H
  | guard_or _ _ = Ok _ => apply guard_or_Ok in H
  | map_err _ _ = Ok _ => apply map_err_Ok in H; inv_ok H
  | ok_or _ _ = Ok _ => apply ok_or_Ok in H
  | Ok _ = Ok _ => injection H as H
  | _ => idtac
  end.
(** A closed decidable proposition, by evaluation. *)
Ltac by_decide :=
  match goal with |- ?P => refine (bool_decide_unpack P _) end; vm_compute; exact I.
(** Case analysis on the scrutinee of the first [match] or [if] of the goal. *)
Ltac case_match_goal :=
  match goal with
  | |- context [match ?x with _ => _ end] => destruct x eqn:?
  end.

(** ** Lists *)
Lemma elem_concat_map {A B} (f : A -> list B) (l : list A) (x : B) :
  x ∈ concat (map f l) <-> exists y, y ∈ l /\ x ∈ f y.
Proof.
  rewrite list_elem_of_In, in_concat. split.
  - intros (k & Hk & Hx). apply in_map_iff in Hk as (y & <- & Hy).
    exists y. by rewrite !list_elem_of_In.
  - intros (y & Hy & Hx). rewrite !list_elem_of_In in *. exists (f y).
    split; [apply in_map_iff; eauto | done].
Qed.

(** ** Options as Rust uses them *)
Definition is_some {A} (o : option A) : bool :=
  match o with Some _ => true | None => false end.
Definition is_none {A} (o : option A) : bool := negb (is_some o).
Definition is_some_and {A} (f : A -> bool) (o : option A) : bool :=
  match o with Some a => f a | None => false end.
Definition opt_or {A} (o p : option A) : option A :=
  match o with Some _ => o | None => p end.
Definition unwrap_or {A} (d : A) (o : option A) : A :=
  match o with Some a => a | None => d end.

Lemma is_some_true {A} (o : option A) : is_some o = true <-> is_Some o.
Proof. destruct o; cbn; split; by eauto using is_Some_None. Qed.
Lemma is_some_false {A} (o : option A) : is_some o = false <-> o = None.
Proof. by destruct o. Qed.

(** ** Machine integers

    A [w]-bit unsigned integer is a [Z] in [0, 2^w); [wrapN] is Rust's
    wrapping conversion ([as uN], [wrapping_add], [wrapping_sub]). *)
Definition wrap (w : Z) (z : Z) : Z := z mod 2 ^ w.
Abbreviation wrap16 := (wrap 16).
Abbreviation wrap32 := (wrap 32).
Abbreviation wrap64 := (wrap 64).
Definition u32_max : Z := 4294967295.
Definition u64_max : Z := 18446744073709551615.
Definition i64_max : Z := 9223372036854775807.
Definition u32_ok (z : Z) : Prop := 0 <= z <= u32_max.
Definition u64_ok (z : Z) : Prop := 0 <= z <= u64_max.
(** [saturating_add] at [u32]. *)
Definition sat_add32 (a b : Z) : Z := Z.min u32_max (a + b).

Lemma wrap_bound w z : 0 <= w -> 0 <= wrap w z < 2 ^ w.
Proof. intros. apply Z.mod_pos_bound. lia. Qed.
Lemma wrap_small w z : 0 <= z < 2 ^ w -> wrap w z = z.
Proof. apply Z.mod_small. Qed.

(** ** Bytes *)
Abbreviation bytes := (list byte).

#[export] Instance byte_eq_decision : EqDecision byte.
Proof. intros x y. destruct (Byte.byte_eq_dec x y); [by left | by right]. Defined.

(** A [u8] as an integer, and an integer truncated to a [u8]. *)
Definition u8 (b : byte) : Z := Z.of_N (Byte.to_N b).
Definition to_u8 (z : Z) : byte :=
  match Byte.of_N (Z.to_N (z mod 256)) with
  | Some b => b
  | None => x00
  end.

Lemma u8_range b : 0 <= u8 b < 256.
Proof. unfold u8. pose proof (Byte.to_N_bounded b). lia. Qed.
Lemma to_u8_u8 b : to_u8 (u8 b) = b.
Proof.
  unfold to_u8, u8. rewrite Z.mod_small.
  - by rewrite N2Z.id, Byte.of_to_N.
  - pose proof (Byte.to_N_bounded b). lia.
Qed.
Lemma u8_to_u8 z : u8 (to_u8 z) = z mod 256.
Proof.
  unfold to_u8, u8.
  pose proof (Z.mod_pos_bound z 256 ltac:(lia)) as Hb.
  destruct (Byte.of_N (Z.to_N (z mod 256))) as [b|] eqn:E.
  - apply Byte.to_of_N in E. rewrite E. lia.
  - apply Byte.of_N_None_iff in E. lia.
Qed.
Lemma u8_inj a b : u8 a = u8 b -> a = b.
Proof. intros E. by rewrite <- (to_u8_u8 a), <- (to_u8_u8 b), E. Qed.

(** Big- and little-endian values of a byte slice, and the converse. *)
Definition be_val (bs : bytes) : Z := fold_left (fun acc b => acc * 256 + u8 b) bs 0.
Fixpoint le_val (bs : bytes) : Z :=
  match bs with
  | [] => 0
  | b :: bs' => u8 b + 256 * le_val bs'
  end.
Fixpoint le_bytes (n : nat) (z : Z) : bytes :=
  match n with
  | O => []
  | S n' => to_u8 z :: le_bytes n' (z / 256)
  end.
Definition be_bytes (n : nat) (z : Z) : bytes := rev (le_bytes n z).

Lemma be_val_rev bs : be_val (rev bs) = le_val bs.
Proof.
  unfold be_val. rewrite <- fold_left_rev_right, rev_involutive.
  induction bs as [|b bs IH]; cbn; [done|]. rewrite IH. lia.
Qed.
Lemma be_val_le bs : be_val bs = le_val (rev bs).
Proof. by rewrite <- be_val_rev, rev_involutive. Qed.
Lemma length_le_bytes n z : length (le_bytes n z) = n.
Proof. revert z. induction n; cbn; auto. Qed.
Lemma length_be_bytes n z : length (be_bytes n z) = n.
Proof. unfold be_bytes. by rewrite length_rev, length_le_bytes. Qed.

Lemma pow256_S n : 256 ^ Z.of_nat (S n) = 256 * 256 ^ Z.of_nat n.
Proof. rewrite Nat2Z.inj_succ, Z.pow_succ_r; lia. Qed.
Lemma pow256_pos n : 0 < 256 ^ Z.of_nat n.
Proof. apply Z.pow_pos_nonneg; lia. Qed.

Lemma le_val_bound bs : 0 <= le_val bs < 256 ^ Z.of_nat (length bs).
Proof.
  induction bs as [|b bs IH]; [cbn; lia|].
  cbn [le_val length]. rewrite pow256_S. pose proof (u8_range b). lia.
Qed.
Lemma be_val_bound bs : 0 <= be_val bs < 256 ^ Z.of_nat (length bs).
Proof. rewrite be_val_le, <- length_rev. apply le_val_bound. Qed.

Lemma le_val_le_bytes n z : le_val (le_bytes n z) = z mod 256 ^ Z.of_nat n.
Proof.
  revert z. induction n as [|n IH]; intros z.
  - cbn. by rewrite Z.mod_1_r.
  - cbn [le_bytes le_val]. rewrite IH, u8_to_u8, pow256_S.
    pose proof (pow256_pos n). rewrite Z.rem_mul_r; lia.
Qed.
Lemma be_val_be_bytes n z : 0 <= z < 256 ^ Z.of_nat n -> be_val (be_bytes n z) = z.
Proof.
  intros. unfold be_bytes. rewrite be_val_rev, le_val_le_bytes. by apply Z.mod_small.
Qed.
