(* ===== verification/RustStr.v ===== *)
(** * Rust strings

    A Rust [String]/[&str] is a [string]: its UTF-8 bytes, so that
    [String.length] is [str::len].  This file models the standard-library
    string operations the program uses: UTF-8 validation
    ([String::from_utf8], [str::from_utf8]), [trim], [trim_start],
    [starts_with], [strip_prefix], [contains], [to_ascii_lowercase],
    [eq_ignore_ascii_case], [join], [from_str_radix] and [parse].
    Each works on the byte list of the string, the way the code sees it. *)
From Stdlib Require Import ZArith Lia.
From Stdlib Require Import Strings.Byte Strings.String.
From S2P Require Import Prelude.
Local Open Scope Z_scope.

(** [str::as_bytes] and its inverse on bytes already known to be UTF-8. *)
Definition as_bytes (s : string) : bytes := list_byte_of_string s.
Definition of_bytes (l : bytes) : string := string_of_list_byte l.
Definition str_len (s : string) : Z := Z.of_nat (String.length s).

Lemma of_as_bytes s : of_bytes (as_bytes s) = s.
Proof. apply string_of_list_byte_of_string. Qed.
Lemma as_of_bytes l : as_bytes (of_bytes l) = l.
Proof. apply list_byte_of_string_of_list_byte. Qed.
Lemma as_bytes_inj s t : as_bytes s = as_bytes t -> s = t.
Proof. intros E. by rewrite <- (of_as_bytes s), <- (of_as_bytes t), E. Qed.
Lemma as_bytes_app s t : as_bytes (s +:+ t) = as_bytes s ++ as_bytes t.
Proof.
  unfold as_bytes, list_byte_of_string.
  induction s as [|a s IH]; [done|]. by apply (f_equal (cons (Ascii.byte_of_ascii a))).
Qed.
Lemma length_as_bytes s : length (as_bytes s) = String.length s.
Proof.
  unfold as_bytes, list_byte_of_string.
  induction s as [|a s IH]; cbn; [done|]. by rewrite IH.
Qed.
Lemma length_of_bytes l : String.length (of_bytes l) = length l.
Proof. by rewrite <- length_as_bytes, as_of_bytes. Qed.

(** ** UTF-8 validation, [core::str::from_utf8] *)
Definition in_range (lo hi : Z) (b : byte) : bool := (lo <=? u8 b) && (u8 b <=? hi).
Definition is_cont (b : byte) : bool := in_range 128 191 b.

Fixpoint utf8_valid (l : bytes) : bool :=
  match l with
  | [] => true
  | b :: l1 =>
    if u8 b <? 128 then utf8_valid l1
    else match l1 with
    | [] => false
    | c :: l2 =>
      if in_range 194 223 b then is_cont c && utf8_valid l2
      else match l2 with
      | [] => false
      | d :: l3 =>
        if (u8 b =? 224) then in_range 160 191 c && is_cont d && utf8_valid l3
        else if in_range 225 236 b || in_range 238 239 b then
          is_cont c && is_cont d && utf8_valid l3
        else if (u8 b =? 237) then in_range 128 159 c && is_cont d && utf8_valid l3
        else match l3 with
        | [] => false
        | e :: l4 =>
          (((u8 b =? 240) && in_range 144 191 c)
           || (in_range 241 243 b && is_cont c)
           || ((u8 b =? 244) && in_range 128 143 c))
          && is_cont d && is_cont e && utf8_valid l4
        end
      end
    end
  end.

(** [String::from_utf8(bytes).ok()]. *)
Definition from_utf8 (l : bytes) : option string :=
  if utf8_valid l then Some (of_bytes l) else None.

(** ** White space, [char::is_whitespace] on the encoded character *)
Definition ws1 (b : byte) : bool := in_range 9 13 b || (u8 b =? 32).
Definition ws2 (b c : byte) : bool :=
  (u8 b =? 194) && ((u8 c =? 133) || (u8 c =? 160)).
Definition ws3 (b c d : byte) : bool :=
  ((u8 b =? 225) && (u8 c =? 154) && (u8 d =? 128))
  || ((u8 b =? 226) && (u8 c =? 128)
      && (in_range 128 138 d || (u8 d =? 168) || (u8 d =? 169) || (u8 d =? 175)))
  || ((u8 b =? 226) && (u8 c =? 129) && (u8 d =? 159))
  || ((u8 b =? 227) && (u8 c =? 128) && (u8 d =? 128)).

Fixpoint trim_start_bytes (l : bytes) : bytes :=
  match l with
  | [] => []
  | b :: l1 =>
    if ws1 b then trim_start_bytes l1
    else match l1 with
    | [] => l
    | c :: l2 =>
      if ws2 b c then trim_start_bytes l2
      else match l2 with
      | [] => l
      | d :: l3 => if ws3 b c d then trim_start_bytes l3 else l
      end
    end
  end.

(** The same from the end; the argument is the reversed string. *)
Fixpoint trim_end_rev (l : bytes) : bytes :=
  match l with
  | [] => []
  | d :: l1 =>
    if ws1 d then trim_end_rev l1
    else match l1 with
    | [] => l
    | c :: l2 =>
      if ws2 c d then trim_end_rev l2
      else match l2 with
      | [] => l
      | b :: l3 => if ws3 b c d then trim_end_rev l3 else l
      end
    end
  end.
Definition trim_end_bytes (l : bytes) : bytes := rev (trim_end_rev (rev l)).

(** [str::trim], [str::trim_start], and [str.trim().is_empty()]. *)
Definition trim_start (s : string) : string := of_bytes (trim_start_bytes (as_bytes s)).
Definition trim (s : string) : string :=
  of_bytes (trim_end_bytes (trim_start_bytes (as_bytes s))).
(** [str::trim_end_matches] with one ASCII character. *)
Fixpoint drop_byte (c : byte) (l : bytes) : bytes :=
  match l with
  | b :: l' => if Byte.eqb b c then drop_byte c l' else l
  | [] => []
  end.
Definition trim_end_byte (c : byte) (s : string) : string :=
  of_bytes (rev (drop_byte c (rev (as_bytes s)))).
Definition str_is_empty (s : string) : bool :=
  match s with EmptyString => true | _ => false end.

(** ** Prefixes and substrings of byte slices *)
Fixpoint starts_with (p l : bytes) : bool :=
  match p, l with
  | [], _ => true
  | a :: p', b :: l' => Byte.eqb a b && starts_with p' l'
  | _ :: _, [] => false
  end.
Definition ends_with (p l : bytes) : bool := starts_with (rev p) (rev l).

(** [slice.windows(p.len()).position(|w| w == p)]. *)
Fixpoint find_sub (p l : bytes) : option nat :=
  if starts_with p l then Some O
  else match l with
  | [] => None
  | _ :: l' => S <$> find_sub p l'
  end.

(** [slice.windows(n)]. *)
Fixpoint windows (n : nat) (l : bytes) : list bytes :=
  if Nat.ltb (length l) n then []
  else match l with
  | [] => []
  | _ :: l' => take n l :: windows n l'
  end.

(** [slice.iter().position(|byte| *byte == b)]. *)
Fixpoint position (b : byte) (l : bytes) : option nat :=
  match l with
  | [] => None
  | c :: l' => if Byte.eqb c b then Some O else S <$> position b l'
  end.

(** [str::strip_prefix], [str::contains]. *)
Definition strip_prefix (p s : string) : option string :=
  if starts_with (as_bytes p) (as_bytes s)
  then Some (of_bytes (drop (String.length p) (as_bytes s))) else None.
Definition contains (s p : string) : bool := is_some (find_sub (as_bytes p) (as_bytes s)).

(** ** ASCII classes and case *)
Definition is_ascii_hexdigit (b : byte) : bool :=
  in_range 48 57 b || in_range 65 70 b || in_range 97 102 b.
Definition lower_byte (b : byte) : byte :=
  if in_range 65 90 b then to_u8 (u8 b + 32) else b.
Definition to_ascii_lowercase (s : string) : string :=
  of_bytes (map lower_byte (as_bytes s)).
Definition eq_ignore_ascii_case (s t : string) : bool :=
  bool_decide (to_ascii_lowercase s = to_ascii_lowercase t).

(** The string of one line feed. *)
Definition LF : string := of_bytes [x0a].

(** [Vec<String>::join(sep)]. *)
Fixpoint join (sep : string) (l : list string) : string :=
  match l with
  | [] => ""
  | [s] => s
  | s :: l' => s +:+ sep +:+ join sep l'
  end.

(** ** Numbers: [uN::from_str_radix] and [str::parse]

    Rust accepts one leading [+], at least one digit, and refuses a value
    above the type's maximum. *)
Definition digit_val (radix : Z) (b : byte) : option Z :=
  let v :=
    if in_range 48 57 b then u8 b - 48
    else if in_range 97 122 b then u8 b - 87
    else if in_range 65 90 b then u8 b - 55
    else 99 in
  if v <? radix then Some v else None.
Fixpoint digits (radix max acc : Z) (l : bytes) : option Z :=
  match l with
  | [] => Some acc
  | b :: l' =>
    match digit_val radix b with
    | Some v =>
      let acc' := acc * radix + v in
      if acc' <=? max then digits radix max acc' l' else None
    | None => None
    end
  end.
Definition from_str_radix (radix max : Z) (l : bytes) : option Z :=
  match l with
  | [] => None
  | b :: l' =>
    if Byte.eqb b "+"%byte then
      match l' with
      | [] => None
      | _ => digits radix max 0 l'
      end
    else digits radix max 0 l
  end.

Lemma digits_range radix max acc l v :
  (0 <= radix)%Z -> (0 <= acc <= max)%Z -> digits radix max acc l = Some v -> (0 <= v <= max)%Z.
Proof.
  intros Hr. revert acc. induction l as [|b l IH]; intros acc Ha; cbn; [congruence|].
  destruct (digit_val radix b) as [d|] eqn:Ed; [|done].
  destruct (Z.leb_spec (acc * radix + d) max)%Z; [|done]. apply IH. split; [|done].
  unfold digit_val, in_range in Ed. pose proof (u8_range b).
  repeat case_match; simplify_eq; simpl_bools; nia.
Qed.
Lemma from_str_radix_range radix max l v :
  (0 <= radix)%Z -> (0 <= max)%Z -> from_str_radix radix max l = Some v -> (0 <= v <= max)%Z.
Proof.
  intros ? ?. unfold from_str_radix. destruct l as [|b l]; [done|].
  destruct (Byte.eqb b "+"%byte); [destruct l; [done|]|]; apply digits_range; lia.
Qed.

(** [format!("{n}")] for an integer. *)
Definition show_Z (n : Z) : string := pretty n.

(** ** Lemmas *)
Lemma byte_eqb_spec a b : Bool.reflect (a = b) (Byte.eqb a b).
Proof.
  destruct (Byte.eqb a b) eqn:E; constructor.
  - by apply Byte.byte_dec_bl.
  - intros ->. by rewrite Byte.byte_dec_lb in E.
Qed.
Lemma byte_eqb_eq a b : Byte.eqb a b = true <-> a = b.
Proof. destruct (byte_eqb_spec a b); split; congruence. Qed.
Lemma byte_eqb_refl a : Byte.eqb a a = true.
Proof. by apply byte_eqb_eq. Qed.

Lemma starts_with_spec p l : starts_with p l = true <-> exists r, l = p ++ r.
Proof.
  revert l. induction p as [|a p IH]; intros l; cbn.
  - split; eauto.
  - destruct l as [|b l].
    + split; [done|]. intros [r ?]. discriminate.
    + rewrite andb_true_iff, byte_eqb_eq, IH. split.
      * intros [-> [r ->]]. eauto.
      * intros [r [= -> ->]]. eauto.
Qed.
Lemma starts_with_app p r : starts_with p (p ++ r) = true.
Proof. apply starts_with_spec. eauto. Qed.

Lemma position_None b l : position b l = None <-> b ∉ l.
Proof.
  induction l as [|c l IH]; cbn; [set_solver|].
  destruct (byte_eqb_spec c b) as [->|Hne].
  - split; [done|]. set_solver.
  - rewrite fmap_None, IH. set_solver.
Qed.
Lemma position_Some b l n :
  position b l = Some n <-> exists l1 l2, l = l1 ++ b :: l2 /\ length l1 = n /\ b ∉ l1.
Proof.
  revert n. induction l as [|c l IH]; intros n; cbn.
  - split; [done|]. intros (l1 & l2 & E & _). by destruct l1.
  - destruct (byte_eqb_spec c b) as [->|Hne].
    + split.
      * intros [= <-]. exists [], l. set_solver.
      * intros (l1 & l2 & E & Hl & Hn). destruct l1; cbn in *; [by subst|]. set_solver.
    + rewrite fmap_Some. split.
      * intros (m & Hm & ->). apply IH in Hm as (l1 & l2 & -> & <- & ?).
        exists (c :: l1), l2. set_solver.
      * intros (l1 & l2 & E & Hl & Hn). destruct l1 as [|c' l1]; cbn in *; simplify_eq/=.
        exists (length l1). split; [|done]. apply IH. exists l1, l2. set_solver.
Qed.
Lemma position_app_l b l1 l2 n : position b l1 = Some n -> position b (l1 ++ l2) = Some n.
Proof.
  rewrite !position_Some. intros (a & c & -> & ? & ?).
  exists a, (c ++ l2). by rewrite <- app_assoc.
Qed.
Lemma position_lt b l n : position b l = Some n -> (n < length l)%nat.
Proof.
  rewrite position_Some. intros (a & c & -> & <- & _). rewrite length_app. cbn. lia.
Qed.

Lemma from_utf8_Some l s : from_utf8 l = Some s <-> utf8_valid l = true /\ as_bytes s = l.
Proof.
  unfold from_utf8. destruct (utf8_valid l); split; try done.
  - intros [= <-]. by rewrite as_of_bytes.
  - intros [_ <-]. by rewrite of_as_bytes.
  - by intros [? _].
Qed.

Lemma strip_prefix_app p r : strip_prefix p (p +:+ r) = Some r.
Proof.
  unfold strip_prefix. rewrite as_bytes_app, starts_with_app.
  rewrite drop_app_length' by (symmetry; apply length_as_bytes). by rewrite of_as_bytes.
Qed.
Lemma trim_start_space s : trim_start (" " +:+ s) = trim_start s.
Proof. reflexivity. Qed.
Lemma from_utf8_as_bytes s : utf8_valid (as_bytes s) = true -> from_utf8 (as_bytes s) = Some s.
Proof. intros ?. by apply from_utf8_Some. Qed.
(** An ASCII prefix does not affect validity. *)
Lemma utf8_valid_ascii p l :
  forallb (fun b => u8 b <? 128) p = true -> utf8_valid (p ++ l) = utf8_valid l.
Proof.
  induction p as [|b p IH]; cbn [forallb app]; [done|]. intros [Hb Hp]%andb_true_iff.
  cbn [utf8_valid]. rewrite Hb. auto.
Qed.

(** ** Character boundaries *)
(** [str::is_char_boundary]. *)
Definition is_char_boundary (l : bytes) (i : nat) : bool :=
  match i with
  | O => true
  | _ => match l !! i with
         | Some b => negb (is_cont b)
         | None => Nat.eqb i (length l)
         end
  end.
(** [while !s.is_char_boundary(end) { end -= 1; }]. *)
Fixpoint floor_boundary (l : bytes) (i : nat) : nat :=
  match i with
  | O => O
  | S i' => if is_char_boundary l i then i else floor_boundary l i'
  end.
Lemma floor_boundary_spec l i :
  (floor_boundary l i <= i)%nat /\ is_char_boundary l (floor_boundary l i) = true.
Proof.
  induction i as [|i [IH1 IH2]]; [done|]. cbn [floor_boundary].
  destruct (is_char_boundary l (S i)) eqn:E; split; try done. lia.
Qed.
Lemma floor_boundary_max l i j :
  (floor_boundary l i < j <= i)%nat -> is_char_boundary l j = false.
Proof.
  induction i as [|i IH]; cbn [floor_boundary]; [lia|].
  destruct (is_char_boundary l (S i)) eqn:E; [lia|]. intros Hj.
  destruct (decide (j = S i)) as [->|]; [done|]. apply IH. lia.
Qed.
Lemma is_char_boundary_cons b l i :
  is_char_boundary (b :: l) (S i) = true -> is_char_boundary l i = true.
Proof. by destruct i. Qed.

Lemma utf8_valid_ascii_all l : forallb (fun b => u8 b <? 128) l = true -> utf8_valid l = true.
Proof. intros Hl. by rewrite <- (app_nil_r l), (utf8_valid_ascii l []). Qed.

(** One character off the front of valid UTF-8. *)
Lemma utf8_valid_char l : utf8_valid l = true -> l <> [] ->
  exists b cs rest, l = b :: cs ++ rest /\ utf8_valid rest = true
    /\ forallb is_cont cs = true
    /\ (forall tl, utf8_valid (b :: cs ++ tl) = utf8_valid tl).
Proof.
  intros Hv Hne. destruct l as [|b l1]; [done|]. cbn [utf8_valid] in Hv.
  destruct (u8 b <? 128) eqn:Hb.
  { exists b, [], l1. repeat split; [done|]. intros tl. cbn. by rewrite Hb. }
  destruct l1 as [|c l2]; [done|]. destruct (in_range 194 223 b) eqn:E2.
  { apply andb_true_iff in Hv as [Hc Hv]. exists b, [c], l2. cbn [forallb]. rewrite Hc.
    repeat split; [done|]. intros tl. cbn [app utf8_valid]. by rewrite Hb, E2, Hc. }
  destruct l2 as [|d l3]; [done|]. destruct (u8 b =? 224) eqn:E3.
  { rewrite !andb_true_iff in Hv. destruct Hv as [[Hc Hd] Hv]. exists b, [c; d], l3.
    cbn [forallb]. rewrite Hd, andb_true_r. split; [done|]. split; [done|]. split.
    - unfold is_cont, in_range in *. simpl_bools. lia.
    - intros tl. cbn [app utf8_valid]. by rewrite Hb, E2, E3, Hc, Hd. }
  destruct (in_range 225 236 b || in_range 238 239 b) eqn:E4.
  { rewrite !andb_true_iff in Hv. destruct Hv as [[Hc Hd] Hv]. exists b, [c; d], l3.
    cbn [forallb]. rewrite Hc, Hd. repeat split; [done|].
    intros tl. cbn [app utf8_valid]. by rewrite Hb, E2, E3, E4, Hc, Hd. }
  destruct (u8 b =? 237) eqn:E5.
  { rewrite !andb_true_iff in Hv. destruct Hv as [[Hc Hd] Hv]. exists b, [c; d], l3.
    cbn [forallb]. rewrite Hd, andb_true_r. split; [done|]. split; [done|]. split.
    - unfold is_cont, in_range in *. simpl_bools. lia.
    - intros tl. cbn [app utf8_valid]. by rewrite Hb, E2, E3, E4, E5, Hc, Hd. }
  destruct l3 as [|e l4]; [done|]. rewrite !andb_true_iff in Hv.
  destruct Hv as [[[H4 Hd] He] Hv]. exists b, [c; d; e], l4.
  cbn [forallb]. rewrite Hd, He, !andb_true_r. split; [done|]. split; [done|]. split.
  - unfold is_cont, in_range in *. simpl_bools. lia.
  - intros tl. cbn [app utf8_valid]. by rewrite Hb, E2, E3, E4, E5, H4, Hd, He.
Qed.

Lemma utf8_valid_app a b : utf8_valid a = true -> utf8_valid (a ++ b) = utf8_valid b.
Proof.
  induction a as [a IH] using (induction_ltof1 _ length). intros Ha.
  destruct a as [|x a]; [done|].
  destruct (utf8_valid_char (x :: a) Ha) as (y & cs & rest & E & Hr & _ & Hc); [done|].
  rewrite E. cbn [app]. rewrite <- app_assoc, Hc. apply IH; [|done].
  unfold ltof. rewrite E. cbn. rewrite length_app. lia.
Qed.
Lemma is_char_boundary_app cs l i :
  is_char_boundary (cs ++ l) (length cs + i) = true -> is_char_boundary l i = true.
Proof.
  induction cs as [|c cs IH]; [done|]. intros Hb. apply IH.
  by apply (is_char_boundary_cons c).
Qed.
(** A prefix that ends at a boundary is a string. *)
Lemma utf8_valid_take l n :
  utf8_valid l = true -> is_char_boundary l n = true -> utf8_valid (take n l) = true.
Proof.
  revert n. induction l as [l IH] using (induction_ltof1 _ length). intros n Hl Hn.
  destruct l as [|x l]; [by rewrite take_nil|]. destruct n as [|m]; [done|].
  destruct (utf8_valid_char (x :: l) Hl) as (y & cs & rest & E & Hr & Hcs & Hc); [done|].
  injection E as <- ->. destruct (Nat.lt_ge_cases m (length cs)) as [Hm|Hm].
  - exfalso. apply (lookup_lt_is_Some_2 cs) in Hm as [c Hc'].
    unfold is_char_boundary in Hn. cbn [lookup list_lookup] in Hn.
    change (list_lookup m (cs ++ rest)) with ((cs ++ rest) !! m) in Hn.
    rewrite (lookup_app_l_Some _ _ _ _ Hc') in Hn.
    rewrite forallb_forall in Hcs. rewrite (Hcs c) in Hn; [done|].
    apply list_elem_of_In. by eapply list_elem_of_lookup_2.
  - cbn [take]. replace m with (length cs + (m - length cs))%nat by lia.
    rewrite take_app_add, Hc. apply IH; [|done|].
    + unfold ltof. cbn. rewrite length_app. lia.
    + apply (is_char_boundary_app (x :: cs)). cbn [length app].
      by replace (S (length cs) + (m - length cs))%nat with (S m) by lia.
Qed.

(** A text with a printable ASCII character is not blank. *)
Definition printable (b : byte) : bool := in_range 33 126 b.
Lemma printable_ws b : printable b = true ->
  ws1 b = false /\ (forall c, ws2 b c = false) /\ (forall c, ws2 c b = false)
  /\ (forall c d, ws3 b c d = false) /\ (forall c d, ws3 c b d = false)
  /\ (forall c d, ws3 c d b = false).
Proof.
  unfold printable, ws1, ws2, ws3, in_range. intros Hb. simpl_bools.
  assert (Hne : forall z, z < 33 \/ 126 < z -> (u8 b =? z) = false) by (intros; apply Z.eqb_neq; lia).
  split; [lia|].
  rewrite !Hne by lia. repeat split; intros; rewrite ?andb_false_r; cbn; try done.
  assert ((128 <=? u8 b) = false) as -> by (apply Z.leb_gt; lia). cbn. by rewrite !andb_false_r.
Qed.
Lemma trim_start_keeps b l : printable b = true -> b ∈ l -> b ∈ trim_start_bytes l.
Proof.
  intros Hb. destruct (printable_ws b Hb) as (H1 & H2 & H3 & H4 & H5 & H6).
  induction l as [l IH] using (induction_ltof1 _ length). intros Hin.
  destruct l as [|x l1]; [done|]. cbn [trim_start_bytes].
  destruct (ws1 x) eqn:E1.
  { apply elem_of_cons in Hin as [->|Hin]; [congruence|]. apply IH; [unfold ltof; cbn; lia | done]. }
  destruct l1 as [|y l2]; [done|]. destruct (ws2 x y) eqn:E2.
  { rewrite !elem_of_cons in Hin. destruct Hin as [->|[->|Hin]]; [congruence..|].
    apply IH; [unfold ltof; cbn; lia | done]. }
  destruct l2 as [|z l3]; [done|]. destruct (ws3 x y z) eqn:E3; [|done].
  rewrite !elem_of_cons in Hin. destruct Hin as [->|[->|[->|Hin]]]; [congruence..|].
  apply IH; [unfold ltof; cbn; lia | done].
Qed.
Lemma trim_end_keeps b l : printable b = true -> b ∈ l -> b ∈ trim_end_rev l.
Proof.
  intros Hb. destruct (printable_ws b Hb) as (H1 & H2 & H3 & H4 & H5 & H6).
  induction l as [l IH] using (induction_ltof1 _ length). intros Hin.
  destruct l as [|x l1]; [done|]. cbn [trim_end_rev].
  destruct (ws1 x) eqn:E1.
  { apply elem_of_cons in Hin as [->|Hin]; [congruence|]. apply IH; [unfold ltof; cbn; lia | done]. }
  destruct l1 as [|y l2]; [done|]. destruct (ws2 y x) eqn:E2.
  { rewrite !elem_of_cons in Hin. destruct Hin as [->|[->|Hin]]; [congruence..|].
    apply IH; [unfold ltof; cbn; lia | done]. }
  destruct l2 as [|z l3]; [done|]. destruct (ws3 z y x) eqn:E3; [|done].
  rewrite !elem_of_cons in Hin. destruct Hin as [->|[->|[->|Hin]]]; [congruence..|].
  apply IH; [unfold ltof; cbn; lia | done].
Qed.
Lemma not_blank b s : printable b = true -> b ∈ as_bytes s -> str_is_empty (trim s) = false.
Proof.
  intros Hb Hin. assert (Ht : b ∈ as_bytes (trim s)).
  { unfold trim. rewrite as_of_bytes. unfold trim_end_bytes. rewrite list_elem_of_In, <- in_rev, <- list_elem_of_In.
    apply trim_end_keeps; [done|]. rewrite list_elem_of_In, <- in_rev, <- list_elem_of_In. by apply trim_start_keeps. }
  destruct (trim s); [by apply elem_of_nil in Ht | done].
Qed.

(** A decimal numeral is ASCII digits, one per power of ten. *)
Lemma pretty_N_go_bytes k x s :
  (Z.of_N x < 10 ^ Z.of_nat k)%Z ->
  exists d, as_bytes (pretty_N_go x s) = d ++ as_bytes s /\ (length d <= k)%nat
    /\ forallb (in_range 48 57) d = true.
Proof.
  revert x s. induction k as [|k IH]; intros x s Hx.
  - assert (x = 0%N) as -> by lia. exists []. by rewrite pretty_N_go_0.
  - destruct (decide (x = 0%N)) as [->|Hne]; [exists []; rewrite pretty_N_go_0; cbn; split; [done|split; [lia|done]]|].
    rewrite pretty_N_go_step by lia.
    destruct (IH (x `div` 10)%N (String (pretty_N_char (x `mod` 10)) s)) as (d & E & Hl & Hd).
    { rewrite N2Z.inj_div. apply Z.div_lt_upper_bound; [lia|].
      rewrite Nat2Z.inj_succ, Z.pow_succ_r in Hx by lia. lia. }
    exists (d ++ [Ascii.byte_of_ascii (pretty_N_char (x `mod` 10))]). rewrite E, <- app_assoc.
    split; [done|]. rewrite length_app, forallb_app, Hd. cbn. split; [lia|].
    assert (Hm : (x `mod` 10 < 10)%N) by (apply N.mod_lt; lia).
    assert (Hc : forall m, (m < 10)%N -> in_range 48 57 (Ascii.byte_of_ascii (pretty_N_char m)) = true).
    { intros m Hm'. destruct m as [|p]; [done|]. do 4 (destruct p as [p|p|]; try done; try lia). }
    by rewrite (Hc _ Hm).
Qed.
Lemma show_Z_digits k z : (0 <= z < 10 ^ Z.of_nat k)%Z -> (0 < k)%nat ->
  (0 < length (as_bytes (show_Z z)) <= k)%nat /\ forallb (in_range 48 57) (as_bytes (show_Z z)) = true.
Proof.
  intros Hz Hk. unfold show_Z. destruct z as [|p|p]; [cbn; split; [lia|done] | | lia].
  change (pretty (Z.pos p)) with (pretty (N.pos p)).
  unfold pretty, pretty_N. rewrite decide_False by done.
  destruct (pretty_N_go_bytes k (N.pos p) "") as (d & E & Hl & Hd); [cbn; lia|].
  rewrite E, app_nil_r. split; [|done]. split; [|done].
  destruct d as [|x d]; [|cbn; lia]. exfalso.
  rewrite pretty_N_go_step in E by lia.
  destruct (pretty_N_go_bytes (S k) (N.pos p `div` 10)%N
    (String (pretty_N_char (N.pos p `mod` 10)) "")) as (d' & E' & _ & _).
  { rewrite N2Z.inj_div. apply Z.div_lt_upper_bound; [lia|]. cbn [Z.of_N].
    rewrite Nat2Z.inj_succ, Z.pow_succ_r by lia. lia. }
  rewrite E' in E. by destruct d'.
Qed.

(** A numeral parses back, whatever follows it. *)
Lemma digit_val_char m : (m < 10)%N ->
  digit_val 10 (Ascii.byte_of_ascii (pretty_N_char m)) = Some (Z.of_N m).
Proof. intros Hm. destruct m as [|p]; [done|]. do 4 (destruct p as [p|p|]; try done; try lia). Qed.
Lemma pretty_digits max x s :
  (Z.of_N x <= max)%Z ->
  exists d, as_bytes (pretty_N_go x s) = d ++ as_bytes s
    /\ forall r, digits 10 max 0 (d ++ r) = digits 10 max (Z.of_N x) r.
Proof.
  revert s. induction x as [x IH] using (well_founded_induction N.lt_wf_0). intros s Hx.
  destruct (decide (x = 0%N)) as [->|Hne]; [exists []; by rewrite pretty_N_go_0|].
  rewrite pretty_N_go_step by lia.
  assert (Hd := N.div_mod x 10 ltac:(lia)). assert (Hm : (x `mod` 10 < 10)%N) by (apply N.mod_lt; lia).
  assert (Hlt : (x `div` 10 < x)%N) by (apply N.div_lt; lia).
  revert Hd Hm Hlt. generalize (x `div` 10)%N (x `mod` 10)%N. intros q m Hd Hm Hlt.
  destruct (IH q Hlt (String (pretty_N_char m) s) ltac:(lia)) as (d & E & Hr).
  exists (d ++ [Ascii.byte_of_ascii (pretty_N_char m)]). rewrite E, <- app_assoc. split; [done|].
  intros r. rewrite <- app_assoc, Hr. cbn [app digits]. rewrite digit_val_char by done.
  replace (Z.of_N q * 10 + Z.of_N m)%Z with (Z.of_N x) by lia.
  by rewrite (proj2 (Z.leb_le _ _) Hx).
Qed.
Lemma from_str_radix_digits radix max l : (forall l', l <> "+"%byte :: l') -> l <> [] ->
  from_str_radix radix max l = digits radix max 0 l.
Proof.
  destruct l as [|b l]; [done|]. intros Hp _. cbn [from_str_radix].
  destruct (byte_eqb_spec b "+"%byte) as [->|]; [by destruct (Hp l) | done].
Qed.
Lemma parse_show_Z max z : (0 <= z <= max)%Z -> from_str_radix 10 max (as_bytes (show_Z z)) = Some z.
Proof.
  intros Hz. assert (Hk : exists k, (z < 10 ^ Z.of_nat k)%Z /\ (0 < k)%nat).
  { exists (S (Z.to_nat z)). rewrite Nat2Z.inj_succ, Z2Nat.id by lia. split; [|lia].
    apply Z.lt_le_trans with (10 ^ z)%Z; [apply Z.pow_gt_lin_r; lia | apply Z.pow_le_mono_r; lia]. }
  destruct Hk as (k & Hk & Hk'). destruct (show_Z_digits k z) as [Hl Hd]; [lia..|].
  rewrite from_str_radix_digits.
  - unfold show_Z. destruct z as [|p|p]; [| | lia].
    + change (as_bytes (pretty 0%Z)) with ["0"%byte]. cbn [digits].
      change (digit_val 10 "0"%byte) with (Some 0%Z). cbn -[Z.leb].
      assert (E : (0 <=? max)%Z = true) by (apply Z.leb_le; lia). cbn in *. by rewrite ?E; try destruct max.
    + change (pretty (Z.pos p)) with (pretty (N.pos p)).
      unfold pretty, pretty_N. rewrite decide_False by done.
      destruct (pretty_digits max (N.pos p) "" ltac:(cbn; lia)) as (d & E & Hr). rewrite E. by rewrite Hr.
  - intros l' E. rewrite E in Hd. discriminate.
  - intros E. rewrite E in Hl. cbn in Hl. lia.
Qed.

(** ** [String::from_utf8_lossy]

    Every maximal invalid sequence becomes U+FFFD. *)
Definition REPLACEMENT : bytes := [xef; xbf; xbd].
Definition lossy_sep (rest : bytes) : bytes := REPLACEMENT ++ rest.
Fixpoint lossy (l : bytes) : bytes :=
  match l with
  | [] => []
  | b :: l1 =>
    if u8 b <? 128 then b :: lossy l1
    else match l1 with
    | [] => REPLACEMENT
    | c :: l2 =>
      if in_range 194 223 b then
        if is_cont c then b :: c :: lossy l2 else lossy_sep (lossy l1)
      else if ((u8 b =? 224) && in_range 160 191 c)
              || (in_range 225 236 b && is_cont c)
              || ((u8 b =? 237) && in_range 128 159 c)
              || (in_range 238 239 b && is_cont c) then
        match l2 with
        | [] => REPLACEMENT
        | d :: l3 =>
          if is_cont d then b :: c :: d :: lossy l3 else lossy_sep (lossy l2)
        end
      else if ((u8 b =? 240) && in_range 144 191 c)
              || (in_range 241 243 b && is_cont c)
              || ((u8 b =? 244) && in_range 128 143 c) then
        match l2 with
        | [] => REPLACEMENT
        | d :: l3 =>
          if is_cont d then
            match l3 with
            | [] => REPLACEMENT
            | e :: l4 =>
              if is_cont e then b :: c :: d :: e :: lossy l4 else lossy_sep (lossy l3)
            end
          else lossy_sep (lossy l2)
        end
      else lossy_sep (lossy l1)
    end
  end.
Definition from_utf8_lossy (l : bytes) : string := of_bytes (lossy l).
