(* ===== verification/Digest.v ===== *)
(** * SHA-256 and hex digests

    [sha256_bytes] and [sha256_hex] of [src/crates/protocol/src/codec.rs].
    The [sha2] and [hex] crates are parameters ([DigestApi]); what the code
    relies on is the shape of a digest ([DigestLaws]). *)
From Stdlib Require Import ZArith Strings.Byte Strings.String.
From S2P Require Import Prelude RustStr.

Class DigestApi := {
  (** [sha2::Sha256::digest] *)
  sha256_digest : bytes -> bytes;
  (** [hex::encode] *)
  hex_encode : bytes -> string }.

Section digest.
Context `{DigestApi}.

(* src: src/crates/protocol/src/codec.rs:43-50 sha256_bytes *)
Definition sha256_bytes (b : bytes) : bytes := sha256_digest b.

(* src: src/crates/protocol/src/codec.rs:53-55 sha256_hex *)
Definition sha256_hex (b : bytes) : string := hex_encode (sha256_bytes b).

(** Digests of thirty-two bytes, two lower-case digits a byte. *)
Class DigestLaws : Prop := {
  digest_length b : length (sha256_digest b) = 32%nat;
  hex_length b : length (as_bytes (hex_encode b)) = (2 * length b)%nat;
  hex_digits b : forallb is_ascii_hexdigit (as_bytes (hex_encode b)) = true;
  hex_lower b : to_ascii_lowercase (hex_encode b) = hex_encode b }.
Context `{!DigestLaws}.
Lemma sha256_hex_shape b :
  length (as_bytes (sha256_hex b)) = 64%nat
  /\ forallb is_ascii_hexdigit (as_bytes (sha256_hex b)) = true.
Proof. unfold sha256_hex, sha256_bytes. rewrite hex_length, digest_length. split; [done | apply hex_digits]. Qed.
End digest.
