(* ===== verification/Types.v ===== *)
(** * Wire types of [codexwatch-protocol]

    The records and enums of [src/crates/protocol/src/types.rs], field by
    field, with the small functions defined on them.  Integers of every
    width are [Z]; a [Uuid] is the 128-bit value of the identifier. *)
From Stdlib Require Import ZArith.
From S2P Require Import Prelude RustStr.
Local Open Scope Z_scope.
Local Open Scope string_scope.

(** [uuid::Uuid] is a 128-bit value; the [uuid] crate's accessors are
    parameters. *)
Abbreviation Uuid := N (only parsing).
Class UuidApi := {
  get_version_num : Uuid -> Z;
  uuid_to_string : Uuid -> string }.

Abbreviation TimestampMs := Z (only parsing).

(* src: src/crates/protocol/src/types.rs:6-6 PROTOCOL_VERSION *)
Definition PROTOCOL_VERSION : Z := 1.
(* src: src/crates/protocol/src/types.rs:7-7 MAX_ERROR_MESSAGE_BYTES *)
Definition MAX_ERROR_MESSAGE_BYTES : Z := 32 * 1024.
(* src: src/crates/protocol/src/types.rs:8-8 MAX_CONTENT_CHUNK_BYTES *)
Definition MAX_CONTENT_CHUNK_BYTES : Z := 1024 * 1024.

(** ** Enums *)
(* src: src/crates/protocol/src/types.rs:66-71 TaskPhase *)
Inductive TaskPhase : Type :=
| TaskPhase_Running
| TaskPhase_AwaitingTool
| TaskPhase_Retrying
| TaskPhase_Terminal.
#[export] Instance TaskPhase_eq_dec : EqDecision TaskPhase.
Proof. solve_decision. Defined.

(* src: src/crates/protocol/src/types.rs:75-81 TerminalOutcome *)
Inductive TerminalOutcome : Type :=
| TerminalOutcome_Completed
| TerminalOutcome_Failed
| TerminalOutcome_Aborted
| TerminalOutcome_Terminated
| TerminalOutcome_Lost.
#[export] Instance TerminalOutcome_eq_dec : EqDecision TerminalOutcome.
Proof. solve_decision. Defined.

(* src: src/crates/protocol/src/types.rs:85-90 IntegrityState *)
Inductive IntegrityState : Type :=
| IntegrityState_Complete
| IntegrityState_Degraded
| IntegrityState_Lost
| IntegrityState_UnsupportedBuild.
#[export] Instance IntegrityState_eq_dec : EqDecision IntegrityState.
Proof. solve_decision. Defined.

(* src: src/crates/protocol/src/types.rs:94-101 AttemptStatus *)
Inductive AttemptStatus : Type :=
| AttemptStatus_Running
| AttemptStatus_Completed
| AttemptStatus_Failed
| AttemptStatus_Incomplete
| AttemptStatus_Cancelled
| AttemptStatus_TransportLost.
#[export] Instance AttemptStatus_eq_dec : EqDecision AttemptStatus.
Proof. solve_decision. Defined.

(* src: src/crates/protocol/src/types.rs:105-117 ErrorSource *)
Inductive ErrorSource : Type :=
| ErrorSource_ResponseFailed
| ErrorSource_ResponseIncomplete
| ErrorSource_ResponseCancelled
| ErrorSource_SseError
| ErrorSource_HttpStatus
| ErrorSource_TurnComplete
| ErrorSource_TurnAborted
| ErrorSource_ProcessExit
| ErrorSource_CaptureGap
| ErrorSource_UnsupportedCodexBuild
| ErrorSource_ContentExpired.
#[export] Instance ErrorSource_eq_dec : EqDecision ErrorSource.
Proof. solve_decision. Defined.

(* src: src/crates/protocol/src/types.rs:121-124 FlowDirection *)
Inductive FlowDirection : Type :=
| FlowDirection_ClientToServer
| FlowDirection_ServerToClient.
#[export] Instance FlowDirection_eq_dec : EqDecision FlowDirection.
Proof. solve_decision. Defined.

(* src: src/crates/protocol/src/types.rs:207-225 TaskEventKind *)
Inductive TaskEventKind : Type :=
| TaskEventKind_TaskObserved
| TaskEventKind_AttemptStarted
| TaskEventKind_AttemptCompleted
| TaskEventKind_AttemptFailed
| TaskEventKind_AttemptIncomplete
| TaskEventKind_AttemptCancelled
| TaskEventKind_AttemptLost
| TaskEventKind_AwaitingTool
| TaskEventKind_Retrying
| TaskEventKind_TerminalCompleted
| TaskEventKind_TerminalFailed
| TaskEventKind_TerminalAborted
| TaskEventKind_TerminalTerminated
| TaskEventKind_TerminalLost
| TaskEventKind_CaptureGap
| TaskEventKind_UnsupportedBuild
| TaskEventKind_ProcessExit.
#[export] Instance TaskEventKind_eq_dec : EqDecision TaskEventKind.
Proof. solve_decision. Defined.

(* src: src/crates/protocol/src/types.rs:304-310 ContentPart *)
Inductive ContentPart : Type :=
| ContentPart_Request
| ContentPart_Response
| ContentPart_ToolInput
| ContentPart_ToolOutput
| ContentPart_ModelText.
#[export] Instance ContentPart_eq_dec : EqDecision ContentPart.
Proof. solve_decision. Defined.

(* src: src/crates/protocol/src/types.rs:353-357 ContentUploadStatus *)
Inductive ContentUploadStatus : Type :=
| ContentUploadStatus_Stored
| ContentUploadStatus_ContentExpired
| ContentUploadStatus_Rejected.
#[export] Instance ContentUploadStatus_eq_dec : EqDecision ContentUploadStatus.
Proof. solve_decision. Defined.

(** ** Records *)
(* src: src/crates/protocol/src/types.rs:11-18 ClientInstance *)
Record ClientInstance : Type := mkClientInstance {
  ci_client_id : string;
  ci_instance_id : Uuid;
  ci_hostname : string;
  ci_platform : string;
  ci_codex_version : string;
  ci_started_at_ms : TimestampMs }.
#[export] Instance ClientInstance_eq_dec : EqDecision ClientInstance.
Proof. solve_decision. Defined.

(* src: src/crates/protocol/src/types.rs:43-48 TaskIdentity *)
Record TaskIdentity : Type := mkTaskIdentity {
  ti_provider : string;
  ti_session_id : string;
  ti_thread_id : string;
  ti_turn_id : string }.
#[export] Instance TaskIdentity_eq_dec : EqDecision TaskIdentity.
Proof. solve_decision. Defined.

(* src: src/crates/protocol/src/types.rs:58-62 CodexTaskMetadata *)
Record CodexTaskMetadata : Type := mkCodexTaskMetadata {
  cm_request_kind : string;
  cm_parent_turn_id : option string;
  cm_root_turn_id : option string }.
#[export] Instance CodexTaskMetadata_eq_dec : EqDecision CodexTaskMetadata.
Proof. solve_decision. Defined.

(* src: src/crates/protocol/src/types.rs:127-132 UsageSummary *)
Record UsageSummary : Type := mkUsageSummary {
  us_input_tokens : Z;
  us_output_tokens : Z;
  us_reasoning_tokens : Z;
  us_total_tokens : Z }.
#[export] Instance UsageSummary_eq_dec : EqDecision UsageSummary.
Proof. solve_decision. Defined.

(* src: src/crates/protocol/src/types.rs:135-149 ErrorRecord *)
Record ErrorRecord : Type := mkErrorRecord {
  er_error_id : Uuid;
  er_task_ref : string;
  er_attempt_id : option Uuid;
  er_occurred_at_ms : TimestampMs;
  er_source : ErrorSource;
  er_wire_type : option string;
  er_code : option string;
  er_message : string;
  er_param : option string;
  er_reason : option string;
  er_http_status : option Z;
  er_exit_code : option Z;
  er_signal : option Z }.
#[export] Instance ErrorRecord_eq_dec : EqDecision ErrorRecord.
Proof. solve_decision. Defined.

(* src: src/crates/protocol/src/types.rs:164-183 TaskSnapshot *)
Record TaskSnapshot : Type := mkTaskSnapshot {
  ts_task_ref : string;
  ts_identity : TaskIdentity;
  ts_codex : CodexTaskMetadata;
  ts_conversation_title : option string;
  ts_sequence : Z;
  ts_phase : TaskPhase;
  ts_terminal : option TerminalOutcome;
  ts_integrity : IntegrityState;
  ts_model : option string;
  ts_attempt_count : Z;
  ts_tool_names : list string;
  ts_response_ids : list string;
  ts_usage : UsageSummary;
  ts_started_at_ms : TimestampMs;
  ts_updated_at_ms : TimestampMs;
  ts_completed_at_ms : option TimestampMs;
  ts_last_error : option ErrorRecord }.
#[export] Instance TaskSnapshot_eq_dec : EqDecision TaskSnapshot.
Proof. solve_decision. Defined.

(* src: src/crates/protocol/src/types.rs:186-203 AttemptRecord *)
Record AttemptRecord : Type := mkAttemptRecord {
  ar_attempt_id : Uuid;
  ar_task_ref : string;
  ar_ordinal : Z;
  ar_response_id : option string;
  ar_transport : string;
  ar_status : AttemptStatus;
  ar_http_status : option Z;
  ar_model : option string;
  ar_tool_names : list string;
  ar_usage : UsageSummary;
  ar_error : option ErrorRecord;
  ar_request_object_sha256 : option string;
  ar_response_object_sha256 : option string;
  ar_started_at_ms : TimestampMs;
  ar_ended_at_ms : option TimestampMs;
  ar_awaiting_tool : bool }.
#[export] Instance AttemptRecord_eq_dec : EqDecision AttemptRecord.
Proof. solve_decision. Defined.

(* src: src/crates/protocol/src/types.rs:261-279 TaskEvent *)
Record TaskEvent : Type := mkTaskEvent {
  te_event_id : Uuid;
  te_task_ref : string;
  te_sequence : Z;
  te_occurred_at_ms : TimestampMs;
  te_kind : TaskEventKind;
  te_phase : TaskPhase;
  te_terminal : option TerminalOutcome;
  te_attempt_id : option Uuid;
  te_response_id : option string;
  te_model : option string;
  te_tool_names : list string;
  te_usage : UsageSummary;
  te_error : option ErrorRecord;
  te_http_status : option Z;
  te_exit_code : option Z;
  te_signal : option Z;
  te_note : option string }.
#[export] Instance TaskEvent_eq_dec : EqDecision TaskEvent.
Proof. solve_decision. Defined.

(* src: src/crates/protocol/src/types.rs:152-161 CaptureGapRecord *)
Record CaptureGapRecord : Type := mkCaptureGapRecord {
  gr_gap_id : Uuid;
  gr_task_ref : option string;
  gr_flow_id : string;
  gr_direction : FlowDirection;
  gr_occurred_at_ms : TimestampMs;
  gr_start_seq : Z;
  gr_end_seq : Z;
  gr_reason : string }.
#[export] Instance CaptureGapRecord_eq_dec : EqDecision CaptureGapRecord.
Proof. solve_decision. Defined.

(* src: src/crates/protocol/src/types.rs:282-288 TaskUpload *)
Record TaskUpload : Type := mkTaskUpload {
  tu_snapshot : TaskSnapshot;
  tu_attempts : list AttemptRecord;
  tu_events : list TaskEvent;
  tu_errors : list ErrorRecord;
  tu_gaps : list CaptureGapRecord }.
#[export] Instance TaskUpload_eq_dec : EqDecision TaskUpload.
Proof. solve_decision. Defined.

(* src: src/crates/protocol/src/types.rs:31-40 Heartbeat *)
Record Heartbeat : Type := mkHeartbeat {
  hb_heartbeat_id : Uuid;
  hb_client_id : string;
  hb_instance_id : Uuid;
  hb_observed_at_ms : TimestampMs;
  hb_queue_depth : Z;
  hb_active_task_count : Z;
  hb_capture_health : IntegrityState;
  hb_note : option string }.
#[export] Instance Heartbeat_eq_dec : EqDecision Heartbeat.
Proof. solve_decision. Defined.

(* src: src/crates/protocol/src/types.rs:21-28 IngestBatch *)
Record IngestBatch : Type := mkIngestBatch {
  ib_version : Z;
  ib_batch_id : Uuid;
  ib_generated_at_ms : TimestampMs;
  ib_client : ClientInstance;
  ib_tasks : list TaskUpload;
  ib_heartbeats : list Heartbeat }.
#[export] Instance IngestBatch_eq_dec : EqDecision IngestBatch.
Proof. solve_decision. Defined.

(* src: src/crates/protocol/src/types.rs:291-300 ContentRequest *)
Record ContentRequest : Type := mkContentRequest {
  cr_request_id : Uuid;
  cr_client_id : string;
  cr_task_ref : string;
  cr_session_id : string;
  cr_thread_id : string;
  cr_created_at_ms : TimestampMs;
  cr_expires_at_ms : option TimestampMs;
  cr_parts : list ContentPart }.
#[export] Instance ContentRequest_eq_dec : EqDecision ContentRequest.
Proof. solve_decision. Defined.

(* src: src/crates/protocol/src/types.rs:313-316 ContentRequestCommand *)
Record ContentRequestCommand : Type := mkContentRequestCommand {
  crc_command_id : Uuid;
  crc_request : ContentRequest }.
#[export] Instance ContentRequestCommand_eq_dec : EqDecision ContentRequestCommand.
Proof. solve_decision. Defined.

(* src: src/crates/protocol/src/types.rs:319-327 ContentUploadChunk *)
Record ContentUploadChunk : Type := mkContentUploadChunk {
  cc_request_id : Uuid;
  cc_chunk_index : Z;
  cc_chunk_count : Z;
  cc_object_sha256 : string;
  cc_payload_sha256 : string;
  cc_payload_zstd : bytes;
  cc_is_last : bool }.
#[export] Instance ContentUploadChunk_eq_dec : EqDecision ContentUploadChunk.
Proof. solve_decision. Defined.

(* src: src/crates/protocol/src/types.rs:330-342 ContentObjectManifest *)
Record ContentObjectManifest : Type := mkContentObjectManifest {
  mf_request_id : Uuid;
  mf_task_ref : string;
  mf_session_id : string;
  mf_thread_id : string;
  mf_part : ContentPart;
  mf_object_sha256 : string;
  mf_media_type : string;
  mf_uncompressed_bytes : Z;
  mf_compressed_bytes : Z;
  mf_chunk_count : Z;
  mf_created_at_ms : TimestampMs }.
#[export] Instance ContentObjectManifest_eq_dec : EqDecision ContentObjectManifest.
Proof. solve_decision. Defined.

(* src: src/crates/protocol/src/types.rs:345-349 ContentUploadResult *)
Record ContentUploadResult : Type := mkContentUploadResult {
  ur_request_id : Uuid;
  ur_status : ContentUploadStatus;
  ur_note : option string }.
#[export] Instance ContentUploadResult_eq_dec : EqDecision ContentUploadResult.
Proof. solve_decision. Defined.

(* src: src/crates/protocol/src/types.rs:360-366 TaskDetail *)
Record TaskDetail : Type := mkTaskDetail {
  td_snapshot : TaskSnapshot;
  td_attempts : list AttemptRecord;
  td_events : list TaskEvent;
  td_errors : list ErrorRecord;
  td_gaps : list CaptureGapRecord }.

(* src: src/crates/protocol/src/types.rs:370-372 ClientCommand *)
Inductive ClientCommand : Type :=
| ClientCommand_RequestContent (x : ContentRequestCommand).

(* src: src/crates/protocol/src/types.rs:375-378 CommandPollResponse *)
Record CommandPollResponse : Type := mkCommandPollResponse {
  cp_server_time_ms : TimestampMs;
  cp_commands : list ClientCommand }.

(* src: src/crates/protocol/src/types.rs:381-387 IngestAck *)
Record IngestAck : Type := mkIngestAck {
  ak_batch_id : Uuid;
  ak_payload_sha256 : string;
  ak_accepted_tasks : Z;
  ak_accepted_heartbeats : Z;
  ak_duplicate : bool }.

(* src: src/crates/protocol/src/types.rs:390-398 TaskListQuery *)
Record TaskListQuery : Type := mkTaskListQuery {
  lq_client_id : option string;
  lq_provider : option string;
  lq_session_id : option string;
  lq_phase : option TaskPhase;
  lq_terminal : option TerminalOutcome;
  lq_cursor : option string;
  lq_limit : option Z }.

(* src: src/crates/protocol/src/types.rs:401-404 TaskListResponse *)
Record TaskListResponse : Type := mkTaskListResponse {
  lr_tasks : list TaskSnapshot;
  lr_next_cursor : option string }.

(* src: src/crates/protocol/src/types.rs:407-415 SessionDetail *)
Record SessionDetail : Type := mkSessionDetail {
  sd_client_id : string;
  sd_provider : string;
  sd_session_id : string;
  sd_thread_id : string;
  sd_conversation_title : option string;
  sd_tasks : list TaskSnapshot }.

(* src: src/crates/protocol/src/types.rs:418-420 EventListResponse *)
Record EventListResponse : Type := mkEventListResponse {
  el_events : list TaskEvent }.

(* src: src/crates/protocol/src/types.rs:423-425 ErrorListResponse *)
Record ErrorListResponse : Type := mkErrorListResponse {
  erl_errors : list ErrorRecord }.

(* src: src/crates/protocol/src/types.rs:428-433 CaptureHealthResponse *)
Record CaptureHealthResponse : Type := mkCaptureHealthResponse {
  ch_client_id : string;
  ch_instance_id : Uuid;
  ch_observed_at_ms : TimestampMs;
  ch_integrity : IntegrityState }.

(** ** Functions on the types *)
(* src: src/crates/protocol/src/types.rs:52-54 TaskIdentity::task_ref *)
Definition task_ref (i : TaskIdentity) : string :=
  ti_session_id i +:+ ":" +:+ ti_thread_id i +:+ ":" +:+ ti_turn_id i.

(* src: src/crates/protocol/src/types.rs:229-245 TaskEventKind::phase_hint *)
Definition phase_hint (k : TaskEventKind) : TaskPhase :=
  match k with
  | TaskEventKind_AwaitingTool => TaskPhase_AwaitingTool
  | TaskEventKind_AttemptFailed | TaskEventKind_AttemptIncomplete
  | TaskEventKind_AttemptCancelled | TaskEventKind_AttemptLost
  | TaskEventKind_Retrying => TaskPhase_Retrying
  | TaskEventKind_TerminalCompleted | TaskEventKind_TerminalFailed
  | TaskEventKind_TerminalAborted | TaskEventKind_TerminalTerminated
  | TaskEventKind_TerminalLost | TaskEventKind_ProcessExit => TaskPhase_Terminal
  | _ => TaskPhase_Running
  end.

(* src: src/crates/protocol/src/types.rs:248-257 TaskEventKind::terminal_hint *)
Definition terminal_hint (k : TaskEventKind) : option TerminalOutcome :=
  match k with
  | TaskEventKind_TerminalCompleted => Some TerminalOutcome_Completed
  | TaskEventKind_TerminalFailed => Some TerminalOutcome_Failed
  | TaskEventKind_TerminalAborted => Some TerminalOutcome_Aborted
  | TaskEventKind_TerminalTerminated | TaskEventKind_ProcessExit =>
    Some TerminalOutcome_Terminated
  | TaskEventKind_TerminalLost => Some TerminalOutcome_Lost
  | _ => None
  end.

(** [UsageSummary::default()]. *)
Definition UsageSummary_default : UsageSummary := mkUsageSummary 0 0 0 0.
