(* ===== verification/Fixtures.v ===== *)
(** * Concrete instances for the witnesses

    The parameter classes instantiated with concrete functions, and sample
    wire values on which the theorems of the development are exercised.
    Nothing here models code. *)
From Stdlib Require Import ZArith Strings.Byte Strings.String.
From S2P Require Import Prelude RustStr Digest Types.
Local Open Scope string_scope.
Local Open Scope Z_scope.

(** The version nibble of a 128-bit UUID is its 13th hexadecimal digit. *)
#[export] Instance uuid_fixture : UuidApi := {|
  get_version_num u := Z.of_N (N.shiftr u 76) mod 16;
  uuid_to_string u := pretty u |}.
Definition uuid7 (n : N) : Uuid := (7 * 2 ^ 76 + n)%N.

(** A 32-byte checksum and the usual hexadecimal encoding. *)
Definition hex_digit (z : Z) : byte :=
  to_u8 (if z <? 10 then 48 + z else 87 + z).
#[export] Instance digest_fixture : DigestApi := {|
  sha256_digest b := be_bytes 32 (fold_left (fun acc x => (acc * 257 + u8 x + 1) mod 2 ^ 256) b 7);
  hex_encode b := of_bytes (concat (map (fun x => [hex_digit (u8 x / 16); hex_digit (u8 x mod 16)]) b)) |}.

Lemma fixture_hex (b : bytes) :
  let s := as_bytes (@hex_encode digest_fixture b) in
  length s = (2 * length b)%nat /\ forallb is_ascii_hexdigit s = true /\ map lower_byte s = s.
Proof.
  cbv zeta. cbn [hex_encode digest_fixture]. rewrite as_of_bytes.
  induction b as [|x b (IH1 & IH2 & IH3)]; [done|].
  cbn [map concat]. rewrite length_app, IH1, forallb_app, IH2, map_app, IH3. cbn [length].
  split; [lia|]. assert (Hx : let d := [hex_digit (u8 x / 16); hex_digit (u8 x mod 16)] in
    forallb is_ascii_hexdigit d = true /\ map lower_byte d = d) by (destruct x; vm_compute; done).
  destruct Hx as [-> ->]. done.
Qed.
Lemma fixture_lower b : to_ascii_lowercase (@hex_encode digest_fixture b) = @hex_encode digest_fixture b.
Proof.
  unfold to_ascii_lowercase. destruct (fixture_hex b) as (_ & _ & ->). apply of_as_bytes.
Qed.
#[export] Instance digest_fixture_laws : DigestLaws.
Proof. split; [intros b; apply length_be_bytes | apply fixture_hex.. | apply fixture_lower]. Qed.

Definition sample_identity : TaskIdentity :=
  mkTaskIdentity "openai" "session" "thread" "turn".
Definition sample_snapshot : TaskSnapshot :=
  {| ts_task_ref := "session:thread:turn";
     ts_identity := sample_identity;
     ts_codex := mkCodexTaskMetadata "turn" None None;
     ts_conversation_title := None;
     ts_sequence := 0;
     ts_phase := TaskPhase_Running;
     ts_terminal := None;
     ts_integrity := IntegrityState_Complete;
     ts_model := None;
     ts_attempt_count := 0;
     ts_tool_names := [];
     ts_response_ids := [];
     ts_usage := UsageSummary_default;
     ts_started_at_ms := 100;
     ts_updated_at_ms := 100;
     ts_completed_at_ms := None;
     ts_last_error := None |}.
Definition sample_event (n : N) (k : TaskEventKind) (tools : list string) : TaskEvent :=
  {| te_event_id := uuid7 n;
     te_task_ref := "session:thread:turn";
     te_sequence := Z.of_N n;
     te_occurred_at_ms := 100 + Z.of_N n;
     te_kind := k;
     te_phase := phase_hint k;
     te_terminal := terminal_hint k;
     te_attempt_id := None;
     te_response_id := None;
     te_model := None;
     te_tool_names := tools;
     te_usage := UsageSummary_default;
     te_error := None;
     te_http_status := None;
     te_exit_code := None;
     te_signal := None;
     te_note := None |}.
(** Observed, one attempt that calls a tool, the tool turn, completion. *)
Definition sample_events : list TaskEvent :=
  [sample_event 1 TaskEventKind_AttemptStarted [];
   sample_event 2 TaskEventKind_AwaitingTool ["shell"];
   sample_event 3 TaskEventKind_AttemptStarted ["shell"; "patch"];
   sample_event 4 TaskEventKind_TerminalCompleted []].
