(* ===== verification/Validation.v ===== *)
(** * Semantic validation of the wire types

    [src/crates/protocol/src/validation.rs]: the [Validate] trait and its
    implementations, each a function to [result ValidationError unit] that
    returns the first violation in the order of the code, and their
    declarative specifications. *)
From Stdlib Require Import ZArith Lia Sorting.Sorted.
From S2P Require Import Prelude RustStr Digest Types.
Local Open Scope string_scope.
Local Open Scope Z_scope.

(* src: src/crates/protocol/src/validation.rs:10-10 MAX_ID_BYTES *)
Definition MAX_ID_BYTES : Z := 512.
(* src: src/crates/protocol/src/validation.rs:11-11 MAX_SHORT_TEXT_BYTES *)
Definition MAX_SHORT_TEXT_BYTES : Z := 4096.
(* src: src/crates/protocol/src/validation.rs:12-12 MAX_BATCH_TASKS *)
Definition MAX_BATCH_TASKS : nat := 1024.
(* src: src/crates/protocol/src/validation.rs:13-13 MAX_BATCH_HEARTBEATS *)
Definition MAX_BATCH_HEARTBEATS : nat := 1024.

(* src: src/crates/protocol/src/validation.rs:26-38 ValidationError *)
Record ValidationError : Type := mkVE {
  ve_path : string;
  ve_message : string }.

(* src: src/crates/protocol/src/validation.rs:40-42 ValidationError::under *)
Definition under (prefix : string) (e : ValidationError) : ValidationError :=
  mkVE (prefix +:+ "." +:+ ve_path e) (ve_message e).

(* src: src/crates/protocol/src/validation.rs:15-22 Validate *)
Class Validate (A : Type) := validate : A -> result ValidationError unit.

(** [format!("{name}[{index}]")]. *)
Definition indexed (name : string) (i : nat) : string :=
  name +:+ "[" +:+ show_Z (Z.of_nat i) +:+ "]".

Section validation.
Context `{UuidApi} `{DigestApi}.
Notation V := (result ValidationError unit).

(* src: src/crates/protocol/src/validation.rs:46-48 is_uuid_v7 *)
Definition is_uuid_v7 (u : Uuid) : bool := get_version_num u =? 7.

(* src: src/crates/protocol/src/validation.rs:50-56 validate_uuid_v7 *)
Definition validate_uuid_v7 (path : string) (u : Uuid) : V :=
  guard_or (is_uuid_v7 u) (mkVE path "must be a UUIDv7").

(* src: src/crates/protocol/src/validation.rs:58-69 validate_text *)
Definition validate_text (path value : string) (max : Z) : V :=
  _ ← guard_or (negb (str_is_empty (trim value))) (mkVE path "must not be empty");
  guard_or (str_len value <=? max)
    (mkVE path ("must not exceed " +:+ show_Z max +:+ " bytes")).

(** [value.len() == 64 && value.bytes().all(|b| b.is_ascii_hexdigit())]. *)
(* src: src/crates/protocol/src/validation.rs:72-73 validate_sha256 *)
Definition is_hex64 (value : string) : bool :=
  (str_len value =? 64) && forallb is_ascii_hexdigit (as_bytes value).

(* src: src/crates/protocol/src/validation.rs:71-80 validate_sha256 *)
Definition validate_sha256 (path value : string) : V :=
  guard_or (is_hex64 value) (mkVE path "must contain exactly 64 hexadecimal characters").

(** [if let Some(x) = o { check(x)?; }]. *)
Definition on_some {A} (o : option A) (f : A -> V) : V :=
  match o with
  | Some a => f a
  | None => Ok tt
  end.

(* src: src/crates/protocol/src/validation.rs:108-122 source_fields_valid *)
Definition source_fields_valid (e : ErrorRecord) : bool :=
  match er_source e with
  | ErrorSource_ResponseFailed | ErrorSource_ResponseCancelled | ErrorSource_SseError =>
    is_some (er_wire_type e)
  | ErrorSource_ResponseIncomplete => is_some (er_reason e)
  | ErrorSource_HttpStatus => is_some (er_http_status e)
  | ErrorSource_TurnComplete => is_none (er_http_status e)
  | ErrorSource_TurnAborted | ErrorSource_CaptureGap | ErrorSource_ContentExpired =>
    is_some (er_reason e)
  | ErrorSource_ProcessExit => is_some (er_exit_code e) || is_some (er_signal e)
  | ErrorSource_UnsupportedCodexBuild => is_some_and is_hex64 (er_code e)
  end.

(* src: src/crates/protocol/src/validation.rs:82-131 ErrorRecord::validate *)
Definition ErrorRecord_validate (e : ErrorRecord) : V :=
  _ ← validate_uuid_v7 "error_id" (er_error_id e);
  _ ← validate_text "task_ref" (er_task_ref e) MAX_ID_BYTES;
  _ ← validate_text "message" (er_message e) MAX_ERROR_MESSAGE_BYTES;
  _ ← on_some (er_wire_type e) (fun s => validate_text "wire_type" s MAX_SHORT_TEXT_BYTES);
  _ ← on_some (er_code e) (fun s => validate_text "code" s MAX_SHORT_TEXT_BYTES);
  _ ← on_some (er_param e) (fun s => validate_text "param" s MAX_SHORT_TEXT_BYTES);
  _ ← on_some (er_reason e) (fun s => validate_text "reason" s MAX_ERROR_MESSAGE_BYTES);
  _ ← on_some (er_http_status e) (fun st =>
        guard_or ((100 <=? st) && (st <=? 599))
          (mkVE "http_status" "must be between 100 and 599"));
  guard_or (source_fields_valid e)
    (mkVE "source" "required structured fields are missing for this error source").
#[export] Instance ErrorRecord_Validate : Validate ErrorRecord := ErrorRecord_validate.

(* src: src/crates/protocol/src/validation.rs:165-182 TaskSnapshot::validate *)
Definition snapshot_phase_valid (s : TaskSnapshot) : V :=
  match ts_phase s with
  | TaskPhase_Terminal =>
    guard_or (is_some (ts_terminal s) && is_some (ts_completed_at_ms s))
      (mkVE "terminal" "terminal phase requires outcome and completed_at_ms")
  | _ =>
    guard_or (is_none (ts_terminal s) && is_none (ts_completed_at_ms s))
      (mkVE "terminal" "non-terminal phase forbids outcome and completed_at_ms")
  end.

(* src: src/crates/protocol/src/validation.rs:133-190 TaskSnapshot::validate *)
Definition TaskSnapshot_validate (s : TaskSnapshot) : V :=
  let i := ts_identity s in
  _ ← validate_text "task_ref" (ts_task_ref s) MAX_ID_BYTES;
  _ ← validate_text "identity.provider" (ti_provider i) 64;
  _ ← validate_text "identity.session_id" (ti_session_id i) MAX_ID_BYTES;
  _ ← validate_text "identity.thread_id" (ti_thread_id i) MAX_ID_BYTES;
  _ ← validate_text "identity.turn_id" (ti_turn_id i) MAX_ID_BYTES;
  _ ← guard_or (bool_decide (task_ref i = ts_task_ref s))
        (mkVE "task_ref" "must match session_id:thread_id:turn_id");
  _ ← guard_or (bool_decide (cm_request_kind (ts_codex s) = "turn"))
        (mkVE "codex.request_kind" "only request_kind=turn may create a task");
  _ ← on_some (ts_conversation_title s) (fun t => validate_text "conversation_title" t 512);
  _ ← guard_or (ts_started_at_ms s <=? ts_updated_at_ms s)
        (mkVE "updated_at_ms" "must not predate started_at_ms");
  _ ← snapshot_phase_valid s;
  on_some (ts_last_error s) (fun e => map_err (under "last_error") (validate e)).
#[export] Instance TaskSnapshot_Validate : Validate TaskSnapshot := TaskSnapshot_validate.

(** [error.as_ref().is_some_and(|error| error.source == src)]. *)
Definition error_source_is (srcs : list ErrorSource) (o : option ErrorRecord) : bool :=
  is_some_and (fun e => bool_decide (er_source e ∈ srcs)) o.

(* src: src/crates/protocol/src/validation.rs:221-256 valid_terminal_fields *)
Definition valid_terminal_fields (a : AttemptRecord) : bool :=
  match ar_status a with
  | AttemptStatus_Running => is_none (ar_ended_at_ms a) && is_none (ar_error a)
  | AttemptStatus_Completed => is_some (ar_ended_at_ms a) && is_none (ar_error a)
  | AttemptStatus_Failed =>
    is_some (ar_ended_at_ms a)
    && error_source_is
         [ErrorSource_ResponseFailed; ErrorSource_SseError; ErrorSource_HttpStatus] (ar_error a)
  | AttemptStatus_Incomplete =>
    is_some (ar_ended_at_ms a)
    && error_source_is [ErrorSource_ResponseIncomplete] (ar_error a)
  | AttemptStatus_Cancelled =>
    is_some (ar_ended_at_ms a)
    && error_source_is [ErrorSource_ResponseCancelled] (ar_error a)
  | AttemptStatus_TransportLost =>
    is_some (ar_ended_at_ms a) && error_source_is [ErrorSource_CaptureGap] (ar_error a)
  end.

(* src: src/crates/protocol/src/validation.rs:192-265 AttemptRecord::validate *)
Definition AttemptRecord_validate (a : AttemptRecord) : V :=
  _ ← validate_uuid_v7 "attempt_id" (ar_attempt_id a);
  _ ← validate_text "task_ref" (ar_task_ref a) MAX_ID_BYTES;
  _ ← validate_text "transport" (ar_transport a) 64;
  _ ← guard_or (negb (ar_ordinal a =? 0)) (mkVE "ordinal" "must be greater than zero");
  _ ← guard_or (negb (is_some_and (fun e => e <? ar_started_at_ms a) (ar_ended_at_ms a)))
        (mkVE "ended_at_ms" "must not predate started_at_ms");
  _ ← on_some (ar_request_object_sha256 a) (validate_sha256 "request_object_sha256");
  _ ← on_some (ar_response_object_sha256 a) (validate_sha256 "response_object_sha256");
  _ ← on_some (ar_error a) (fun e => map_err (under "error") (validate e));
  guard_or (valid_terminal_fields a)
    (mkVE "status" "attempt status, terminal time, and error evidence are inconsistent").
#[export] Instance AttemptRecord_Validate : Validate AttemptRecord := AttemptRecord_validate.

(* src: src/crates/protocol/src/validation.rs:293-302 expected_terminal *)
Definition expected_terminal (k : TaskEventKind) : option TerminalOutcome :=
  match k with
  | TaskEventKind_TerminalCompleted => Some TerminalOutcome_Completed
  | TaskEventKind_TerminalFailed => Some TerminalOutcome_Failed
  | TaskEventKind_TerminalAborted => Some TerminalOutcome_Aborted
  | TaskEventKind_TerminalTerminated | TaskEventKind_ProcessExit =>
    Some TerminalOutcome_Terminated
  | TaskEventKind_TerminalLost => Some TerminalOutcome_Lost
  | _ => None
  end.

(** [event.phase == p]. *)
Definition phase_is (p q : TaskPhase) : bool := bool_decide (p = q).

(* src: src/crates/protocol/src/validation.rs:312-334 phase_valid *)
Definition phase_valid (e : TaskEvent) : bool :=
  match te_kind e with
  | TaskEventKind_TaskObserved | TaskEventKind_AttemptStarted =>
    phase_is (te_phase e) TaskPhase_Running
  | TaskEventKind_AttemptCompleted =>
    phase_is (te_phase e) TaskPhase_Running || phase_is (te_phase e) TaskPhase_AwaitingTool
  | TaskEventKind_AttemptFailed | TaskEventKind_AttemptIncomplete
  | TaskEventKind_AttemptCancelled | TaskEventKind_AttemptLost | TaskEventKind_Retrying =>
    phase_is (te_phase e) TaskPhase_Retrying
  | TaskEventKind_AwaitingTool => phase_is (te_phase e) TaskPhase_AwaitingTool
  | TaskEventKind_CaptureGap | TaskEventKind_UnsupportedBuild =>
    negb (phase_is (te_phase e) TaskPhase_Terminal)
  | TaskEventKind_TerminalCompleted | TaskEventKind_TerminalFailed
  | TaskEventKind_TerminalAborted | TaskEventKind_TerminalTerminated
  | TaskEventKind_TerminalLost | TaskEventKind_ProcessExit =>
    phase_is (te_phase e) TaskPhase_Terminal
  end.

(* src: src/crates/protocol/src/validation.rs:292-342 validate_event_projection *)
Definition validate_event_projection (e : TaskEvent) : V :=
  let expected := expected_terminal (te_kind e) in
  _ ← guard_or
        (bool_decide (te_terminal e = expected)
         && Bool.eqb (is_some expected) (phase_is (te_phase e) TaskPhase_Terminal))
        (mkVE "terminal" "phase and outcome must match the event kind");
  guard_or (phase_valid e) (mkVE "phase" "is not valid for the event kind").

(* src: src/crates/protocol/src/validation.rs:345-391 evidence_valid *)
Definition evidence_valid (e : TaskEvent) : bool :=
  match te_kind e with
  | TaskEventKind_TerminalCompleted => is_none (te_error e)
  | TaskEventKind_TerminalFailed => error_source_is [ErrorSource_TurnComplete] (te_error e)
  | TaskEventKind_TerminalAborted => error_source_is [ErrorSource_TurnAborted] (te_error e)
  | TaskEventKind_TerminalTerminated | TaskEventKind_ProcessExit =>
    error_source_is [ErrorSource_ProcessExit] (te_error e)
  | TaskEventKind_TerminalLost => error_source_is [ErrorSource_CaptureGap] (te_error e)
  | TaskEventKind_AttemptFailed =>
    error_source_is
      [ErrorSource_ResponseFailed; ErrorSource_SseError; ErrorSource_HttpStatus] (te_error e)
  | TaskEventKind_AttemptIncomplete =>
    error_source_is [ErrorSource_ResponseIncomplete] (te_error e)
  | TaskEventKind_AttemptCancelled =>
    error_source_is [ErrorSource_ResponseCancelled] (te_error e)
  | TaskEventKind_AttemptLost => error_source_is [ErrorSource_CaptureGap] (te_error e)
  | TaskEventKind_UnsupportedBuild =>
    error_source_is [ErrorSource_UnsupportedCodexBuild] (te_error e)
  | TaskEventKind_TaskObserved | TaskEventKind_AttemptStarted
  | TaskEventKind_AttemptCompleted | TaskEventKind_AwaitingTool
  | TaskEventKind_Retrying | TaskEventKind_CaptureGap => true
  end.

(* src: src/crates/protocol/src/validation.rs:344-399 validate_event_evidence *)
Definition validate_event_evidence (e : TaskEvent) : V :=
  guard_or (evidence_valid e)
    (mkVE "error" "structured evidence does not match the event kind").

(* src: src/crates/protocol/src/validation.rs:267-290 TaskEvent::validate *)
Definition TaskEvent_validate (e : TaskEvent) : V :=
  _ ← validate_uuid_v7 "event_id" (te_event_id e);
  _ ← validate_text "task_ref" (te_task_ref e) MAX_ID_BYTES;
  _ ← guard_or (negb (te_sequence e =? 0)) (mkVE "sequence" "must be greater than zero");
  _ ← on_some (te_error e) (fun err =>
        _ ← map_err (under "error") (validate err);
        guard_or (bool_decide (er_task_ref err = te_task_ref e))
          (mkVE "error.task_ref" "must match event task_ref"));
  _ ← validate_event_projection e;
  validate_event_evidence e.
#[export] Instance TaskEvent_Validate : Validate TaskEvent := TaskEvent_validate.

(* src: src/crates/protocol/src/validation.rs:401-414 CaptureGapRecord::validate *)
Definition CaptureGapRecord_validate (g : CaptureGapRecord) : V :=
  _ ← validate_uuid_v7 "gap_id" (gr_gap_id g);
  _ ← validate_text "flow_id" (gr_flow_id g) MAX_ID_BYTES;
  _ ← validate_text "reason" (gr_reason g) MAX_ERROR_MESSAGE_BYTES;
  guard_or (gr_start_seq g <=? gr_end_seq g)
    (mkVE "end_seq" "must not be smaller than start_seq").
#[export] Instance CaptureGapRecord_Validate : Validate CaptureGapRecord :=
  CaptureGapRecord_validate.

(* src: src/crates/protocol/src/validation.rs:422-440 TaskUpload::validate *)
Fixpoint validate_attempts (tref : string) (i : nat) (attempt_ids : gset N) (ordinals : gset Z)
    (l : list AttemptRecord) : V :=
  match l with
  | [] => Ok tt
  | a :: l' =>
    _ ← map_err (under (indexed "attempts" i)) (validate a);
    _ ← guard_or (bool_decide (ar_task_ref a = tref))
          (mkVE (indexed "attempts" i +:+ ".task_ref") "must match snapshot task_ref");
    _ ← guard_or (negb (bool_decide (ar_attempt_id a ∈ attempt_ids)
                        || bool_decide (ar_ordinal a ∈ ordinals)))
          (mkVE (indexed "attempts" i) "attempt_id and ordinal must be unique");
    validate_attempts tref (S i) ({[ar_attempt_id a]} ∪ attempt_ids)
      ({[ar_ordinal a]} ∪ ordinals) l'
  end.

(** The event loop returns [previous_sequence]. *)
(* src: src/crates/protocol/src/validation.rs:442-470 TaskUpload::validate *)
Fixpoint validate_events (tref : string) (i : nat) (previous_sequence : option Z)
    (terminal_seen : bool) (l : list TaskEvent) : result ValidationError (option Z) :=
  match l with
  | [] => Ok previous_sequence
  | e :: l' =>
    _ ← map_err (under (indexed "events" i)) (validate e);
    _ ← guard_or (bool_decide (te_task_ref e = tref))
          (mkVE (indexed "events" i +:+ ".task_ref") "must match snapshot task_ref");
    _ ← guard_or (negb terminal_seen)
          (mkVE (indexed "events" i) "no event may follow a terminal task event");
    _ ← guard_or (negb (is_some_and (fun p => te_sequence e <=? p) previous_sequence))
          (mkVE (indexed "events" i +:+ ".sequence")
             "events must be in strictly increasing sequence order");
    validate_events tref (S i) (Some (te_sequence e)) (is_some (te_terminal e)) l'
  end.

(* src: src/crates/protocol/src/validation.rs:478-489 TaskUpload::validate *)
Fixpoint validate_errors (tref : string) (i : nat) (error_ids : gset N)
    (l : list ErrorRecord) : V :=
  match l with
  | [] => Ok tt
  | e :: l' =>
    _ ← map_err (under (indexed "errors" i)) (validate e);
    _ ← guard_or (bool_decide (er_task_ref e = tref)
                  && negb (bool_decide (er_error_id e ∈ error_ids)))
          (mkVE (indexed "errors" i) "task_ref must match and error_id must be unique");
    validate_errors tref (S i) ({[er_error_id e]} ∪ error_ids) l'
  end.

(* src: src/crates/protocol/src/validation.rs:490-499 TaskUpload::validate *)
Fixpoint validate_gaps (tref : string) (i : nat) (l : list CaptureGapRecord) : V :=
  match l with
  | [] => Ok tt
  | g :: l' =>
    _ ← map_err (under (indexed "gaps" i)) (validate g);
    _ ← guard_or (negb (is_some_and (fun v => bool_decide (v <> tref)) (gr_task_ref g)))
          (mkVE (indexed "gaps" i +:+ ".task_ref") "must match snapshot task_ref");
    validate_gaps tref (S i) l'
  end.

(* src: src/crates/protocol/src/validation.rs:416-502 TaskUpload::validate *)
Definition TaskUpload_validate (u : TaskUpload) : V :=
  let s := tu_snapshot u in
  let tref := ts_task_ref s in
  _ ← map_err (under "snapshot") (validate s);
  _ ← validate_attempts tref 0 ∅ ∅ (tu_attempts u);
  previous ← validate_events tref 0 None false (tu_events u);
  _ ← guard_or (negb (is_some_and (fun q => ts_sequence s <? q) previous))
        (mkVE "snapshot.sequence" "must not predate an uploaded event sequence");
  _ ← validate_errors tref 0 ∅ (tu_errors u);
  validate_gaps tref 0 (tu_gaps u).
#[export] Instance TaskUpload_Validate : Validate TaskUpload := TaskUpload_validate.

(* src: src/crates/protocol/src/validation.rs:504-514 Heartbeat::validate *)
Definition Heartbeat_validate (h : Heartbeat) : V :=
  _ ← validate_uuid_v7 "heartbeat_id" (hb_heartbeat_id h);
  _ ← validate_uuid_v7 "instance_id" (hb_instance_id h);
  _ ← validate_text "client_id" (hb_client_id h) MAX_ID_BYTES;
  on_some (hb_note h) (fun n => validate_text "note" n MAX_ERROR_MESSAGE_BYTES).
#[export] Instance Heartbeat_Validate : Validate Heartbeat := Heartbeat_validate.

(* src: src/crates/protocol/src/validation.rs:548-558 IngestBatch::validate *)
Fixpoint validate_tasks (i : nat) (task_refs : gset string) (l : list TaskUpload) : V :=
  match l with
  | [] => Ok tt
  | t :: l' =>
    _ ← map_err (under (indexed "tasks" i)) (validate t);
    _ ← guard_or (negb (bool_decide (ts_task_ref (tu_snapshot t) ∈ task_refs)))
          (mkVE (indexed "tasks" i +:+ ".snapshot.task_ref") "must be unique within a batch");
    validate_tasks (S i) ({[ts_task_ref (tu_snapshot t)]} ∪ task_refs) l'
  end.

(* src: src/crates/protocol/src/validation.rs:559-571 IngestBatch::validate *)
Fixpoint validate_heartbeats (c : ClientInstance) (i : nat) (l : list Heartbeat) : V :=
  match l with
  | [] => Ok tt
  | h :: l' =>
    _ ← map_err (under (indexed "heartbeats" i)) (validate h);
    _ ← guard_or (bool_decide (hb_client_id h = ci_client_id c)
                  && bool_decide (hb_instance_id h = ci_instance_id c))
          (mkVE (indexed "heartbeats" i) "client identity must match the batch envelope");
    validate_heartbeats c (S i) l'
  end.

(* src: src/crates/protocol/src/validation.rs:516-574 IngestBatch::validate *)
Definition IngestBatch_validate (b : IngestBatch) : V :=
  let c := ib_client b in
  _ ← guard_or (ib_version b =? PROTOCOL_VERSION)
        (mkVE "version" ("must equal " +:+ show_Z PROTOCOL_VERSION));
  _ ← validate_uuid_v7 "batch_id" (ib_batch_id b);
  _ ← validate_uuid_v7 "client.instance_id" (ci_instance_id c);
  _ ← validate_text "client.client_id" (ci_client_id c) MAX_ID_BYTES;
  _ ← validate_text "client.hostname" (ci_hostname c) MAX_SHORT_TEXT_BYTES;
  _ ← validate_text "client.platform" (ci_platform c) MAX_SHORT_TEXT_BYTES;
  _ ← validate_text "client.codex_version" (ci_codex_version c) MAX_SHORT_TEXT_BYTES;
  _ ← guard_or (Nat.leb (length (ib_tasks b)) MAX_BATCH_TASKS
                && Nat.leb (length (ib_heartbeats b)) MAX_BATCH_HEARTBEATS)
        (mkVE "tasks" "batch contains too many tasks or heartbeats");
  _ ← validate_tasks 0 ∅ (ib_tasks b);
  validate_heartbeats c 0 (ib_heartbeats b).
#[export] Instance IngestBatch_Validate : Validate IngestBatch := IngestBatch_validate.

(* src: src/crates/protocol/src/validation.rs:576-597 ContentRequest::validate *)
Definition ContentRequest_validate (r : ContentRequest) : V :=
  _ ← validate_uuid_v7 "request_id" (cr_request_id r);
  _ ← validate_text "client_id" (cr_client_id r) MAX_ID_BYTES;
  _ ← validate_text "task_ref" (cr_task_ref r) MAX_ID_BYTES;
  _ ← validate_text "session_id" (cr_session_id r) MAX_ID_BYTES;
  _ ← validate_text "thread_id" (cr_thread_id r) MAX_ID_BYTES;
  _ ← guard_or (negb (bool_decide (cr_parts r = []))) (mkVE "parts" "must not be empty");
  guard_or (negb (is_some_and (fun e => e <=? cr_created_at_ms r) (cr_expires_at_ms r)))
    (mkVE "expires_at_ms" "must be later than created_at_ms").
#[export] Instance ContentRequest_Validate : Validate ContentRequest := ContentRequest_validate.

(* src: src/crates/protocol/src/validation.rs:599-608 ClientCommand::validate *)
Definition ClientCommand_validate (c : ClientCommand) : V :=
  match c with
  | ClientCommand_RequestContent command =>
    _ ← validate_uuid_v7 "command_id" (crc_command_id command);
    validate (crc_request command)
  end.
#[export] Instance ClientCommand_Validate : Validate ClientCommand := ClientCommand_validate.

(* src: src/crates/protocol/src/validation.rs:610-619 CommandPollResponse::validate *)
Fixpoint validate_commands (i : nat) (l : list ClientCommand) : V :=
  match l with
  | [] => Ok tt
  | c :: l' =>
    _ ← map_err (under (indexed "commands" i)) (validate c);
    validate_commands (S i) l'
  end.
#[export] Instance CommandPollResponse_Validate : Validate CommandPollResponse :=
  fun p => validate_commands 0 (cp_commands p).

(* src: src/crates/protocol/src/validation.rs:621-637 ContentObjectManifest::validate *)
Definition ContentObjectManifest_validate (m : ContentObjectManifest) : V :=
  _ ← validate_uuid_v7 "request_id" (mf_request_id m);
  _ ← validate_text "task_ref" (mf_task_ref m) MAX_ID_BYTES;
  _ ← validate_text "session_id" (mf_session_id m) MAX_ID_BYTES;
  _ ← validate_text "thread_id" (mf_thread_id m) MAX_ID_BYTES;
  _ ← validate_sha256 "object_sha256" (mf_object_sha256 m);
  _ ← validate_text "media_type" (mf_media_type m) MAX_SHORT_TEXT_BYTES;
  guard_or (negb (mf_chunk_count m =? 0)) (mkVE "chunk_count" "must be greater than zero").
#[export] Instance ContentObjectManifest_Validate : Validate ContentObjectManifest :=
  ContentObjectManifest_validate.

(** [chunk_index + 1] cannot overflow: the guard before it has
    [chunk_index < chunk_count <= u32::MAX]. *)
(* src: src/crates/protocol/src/validation.rs:639-670 ContentUploadChunk::validate *)
Definition ContentUploadChunk_validate (c : ContentUploadChunk) : V :=
  _ ← validate_uuid_v7 "request_id" (cc_request_id c);
  _ ← validate_sha256 "object_sha256" (cc_object_sha256 c);
  _ ← validate_sha256 "payload_sha256" (cc_payload_sha256 c);
  _ ← guard_or (negb ((cc_chunk_count c =? 0) || (cc_chunk_count c <=? cc_chunk_index c)))
        (mkVE "chunk_index" "must be smaller than a non-zero chunk_count");
  _ ← guard_or (Bool.eqb (cc_is_last c) (cc_chunk_index c + 1 =? cc_chunk_count c))
        (mkVE "is_last" "must identify exactly the final chunk");
  _ ← guard_or (Z.of_nat (length (cc_payload_zstd c)) <=? MAX_CONTENT_CHUNK_BYTES)
        (mkVE "payload_zstd"
           ("must not exceed " +:+ show_Z MAX_CONTENT_CHUNK_BYTES +:+ " bytes"));
  guard_or (bool_decide (sha256_hex (cc_payload_zstd c)
                         = to_ascii_lowercase (cc_payload_sha256 c)))
    (mkVE "payload_sha256" "must match payload_zstd").
#[export] Instance ContentUploadChunk_Validate : Validate ContentUploadChunk :=
  ContentUploadChunk_validate.
End validation.

(** ** Declarative specifications

    What each [validate] accepts, stated without its order of checks. *)
Definition text_ok (max : Z) (s : string) : Prop :=
  str_is_empty (trim s) = false /\ str_len s <= max.
Definition opt_ok {A} (P : A -> Prop) (o : option A) : Prop :=
  match o with Some a => P a | None => True end.

Section specs.
Context `{UuidApi} `{DigestApi}.

Definition valid {A} `{Validate A} (a : A) : Prop := validate a = Ok tt.

(** The outcome and phase of an event, from its kind alone. *)
Record event_shape (e : TaskEvent) : Prop := mk_event_shape {
  es_terminal : te_terminal e = terminal_hint (te_kind e);
  es_phase_terminal : te_phase e = TaskPhase_Terminal <-> is_Some (terminal_hint (te_kind e));
  es_phase : te_phase e = phase_hint (te_kind e)
             \/ (te_kind e = TaskEventKind_AttemptCompleted
                 /\ te_phase e = TaskPhase_AwaitingTool)
             \/ ((te_kind e = TaskEventKind_CaptureGap
                  \/ te_kind e = TaskEventKind_UnsupportedBuild)
                 /\ te_phase e <> TaskPhase_Terminal) }.

(** The evidence an event of each kind must carry. *)
Definition required_sources (k : TaskEventKind) : option (list ErrorSource) :=
  match k with
  | TaskEventKind_TerminalFailed => Some [ErrorSource_TurnComplete]
  | TaskEventKind_TerminalAborted => Some [ErrorSource_TurnAborted]
  | TaskEventKind_TerminalTerminated | TaskEventKind_ProcessExit =>
    Some [ErrorSource_ProcessExit]
  | TaskEventKind_TerminalLost | TaskEventKind_AttemptLost => Some [ErrorSource_CaptureGap]
  | TaskEventKind_AttemptFailed =>
    Some [ErrorSource_ResponseFailed; ErrorSource_SseError; ErrorSource_HttpStatus]
  | TaskEventKind_AttemptIncomplete => Some [ErrorSource_ResponseIncomplete]
  | TaskEventKind_AttemptCancelled => Some [ErrorSource_ResponseCancelled]
  | TaskEventKind_UnsupportedBuild => Some [ErrorSource_UnsupportedCodexBuild]
  | _ => None
  end.
Record event_evidence (e : TaskEvent) : Prop := mk_event_evidence {
  ee_completed : te_kind e = TaskEventKind_TerminalCompleted -> te_error e = None;
  ee_required : forall srcs, required_sources (te_kind e) = Some srcs ->
    exists err, te_error e = Some err /\ er_source err ∈ srcs }.

Record event_wf (e : TaskEvent) : Prop := mk_event_wf {
  ew_id : get_version_num (te_event_id e) = 7;
  ew_ref : text_ok MAX_ID_BYTES (te_task_ref e);
  ew_seq : te_sequence e <> 0;
  ew_error : opt_ok (fun err => valid err /\ er_task_ref err = te_task_ref e) (te_error e);
  ew_shape : event_shape e;
  ew_evidence : event_evidence e }.

(** The snapshot invariant behind [snapshot_phase_valid]. *)
Definition phase_terminal_agree (s : TaskSnapshot) : Prop :=
  (ts_phase s = TaskPhase_Terminal <-> is_Some (ts_terminal s))
  /\ (is_Some (ts_terminal s) <-> is_Some (ts_completed_at_ms s)).

Record snapshot_wf (s : TaskSnapshot) : Prop := mk_snapshot_wf {
  sw_ref : text_ok MAX_ID_BYTES (ts_task_ref s);
  sw_provider : text_ok 64 (ti_provider (ts_identity s));
  sw_session : text_ok MAX_ID_BYTES (ti_session_id (ts_identity s));
  sw_thread : text_ok MAX_ID_BYTES (ti_thread_id (ts_identity s));
  sw_turn : text_ok MAX_ID_BYTES (ti_turn_id (ts_identity s));
  sw_identity : task_ref (ts_identity s) = ts_task_ref s;
  sw_kind : cm_request_kind (ts_codex s) = "turn";
  sw_title : opt_ok (text_ok 512) (ts_conversation_title s);
  sw_time : ts_started_at_ms s <= ts_updated_at_ms s;
  sw_phase : phase_terminal_agree s;
  sw_error : opt_ok valid (ts_last_error s) }.

(** A whole upload. *)
Record upload_wf (u : TaskUpload) : Prop := mk_upload_wf {
  uw_snapshot : snapshot_wf (tu_snapshot u);
  uw_attempts : Forall (fun a => valid a /\ ar_task_ref a = ts_task_ref (tu_snapshot u))
                  (tu_attempts u);
  uw_attempt_ids : NoDup (map ar_attempt_id (tu_attempts u));
  uw_ordinals : NoDup (map ar_ordinal (tu_attempts u));
  uw_events : Forall (fun e => event_wf e /\ te_task_ref e = ts_task_ref (tu_snapshot u))
                (tu_events u);
  uw_sequence : StronglySorted Z.lt (map te_sequence (tu_events u));
  uw_terminal_last : forall l1 e l2, tu_events u = (l1 ++ e :: l2)%list ->
    is_Some (te_terminal e) -> l2 = [];
  uw_covered : Forall (fun e => te_sequence e <= ts_sequence (tu_snapshot u)) (tu_events u);
  uw_errors : Forall (fun e => valid e /\ er_task_ref e = ts_task_ref (tu_snapshot u))
                (tu_errors u);
  uw_error_ids : NoDup (map er_error_id (tu_errors u));
  uw_gaps : Forall (fun g => valid g
                    /\ opt_ok (eq (ts_task_ref (tu_snapshot u))) (gr_task_ref g)) (tu_gaps u) }.

Record batch_wf (b : IngestBatch) : Prop := mk_batch_wf {
  bw_version : ib_version b = 1;
  bw_id : get_version_num (ib_batch_id b) = 7;
  bw_instance : get_version_num (ci_instance_id (ib_client b)) = 7;
  bw_client : text_ok 512 (ci_client_id (ib_client b));
  bw_hostname : text_ok 4096 (ci_hostname (ib_client b));
  bw_platform : text_ok 4096 (ci_platform (ib_client b));
  bw_codex : text_ok 4096 (ci_codex_version (ib_client b));
  bw_tasks_len : (length (ib_tasks b) <= 1024)%nat;
  bw_heartbeats_len : (length (ib_heartbeats b) <= 1024)%nat;
  bw_tasks : Forall upload_wf (ib_tasks b);
  bw_task_refs : NoDup (map (fun t => ts_task_ref (tu_snapshot t)) (ib_tasks b));
  bw_heartbeats : Forall (fun h => valid h /\ hb_client_id h = ci_client_id (ib_client b)
                          /\ hb_instance_id h = ci_instance_id (ib_client b))
                    (ib_heartbeats b) }.

Record chunk_wf (c : ContentUploadChunk) : Prop := mk_chunk_wf {
  cw_id : get_version_num (cc_request_id c) = 7;
  cw_object : is_hex64 (cc_object_sha256 c) = true;
  cw_payload : is_hex64 (cc_payload_sha256 c) = true;
  cw_count : cc_chunk_count c <> 0;
  cw_index : cc_chunk_index c < cc_chunk_count c;
  cw_last : cc_is_last c = true <-> cc_chunk_index c = cc_chunk_count c - 1;
  cw_size : Z.of_nat (length (cc_payload_zstd c)) <= 1048576;
  cw_digest : sha256_hex (cc_payload_zstd c) = to_ascii_lowercase (cc_payload_sha256 c) }.
End specs.

Section validation_lemmas.
Context `{UuidApi} `{DigestApi}.

Lemma validate_text_Ok path s max : validate_text path s max = Ok tt <-> text_ok max s.
Proof. unfold validate_text, text_ok. by result_iff. Qed.
Lemma validate_uuid_Ok path u : validate_uuid_v7 path u = Ok tt <-> get_version_num u = 7.
Proof. unfold validate_uuid_v7, is_uuid_v7. by result_iff. Qed.
Lemma validate_sha256_Ok path s : validate_sha256 path s = Ok tt <-> is_hex64 s = true.
Proof. unfold validate_sha256. by result_iff. Qed.
Lemma on_some_Ok {A} (o : option A) f : on_some o f = Ok tt <-> opt_ok (fun a => f a = Ok tt) o.
Proof. by destruct o. Qed.
Lemma opt_ok_iff {A} (P Q : A -> Prop) (o : option A) :
  (forall a, P a <-> Q a) -> opt_ok P o <-> opt_ok Q o.
Proof. intros E. destruct o; cbn; [apply E | done]. Qed.
Lemma error_source_is_spec srcs o :
  error_source_is srcs o = true <-> exists err, o = Some err /\ er_source err ∈ srcs.
Proof.
  unfold error_source_is. destruct o as [e|]; cbn; [rewrite bool_decide_eq_true|]; split.
  - eauto.
  - by intros (? & [= ->] & ?).
  - done.
  - by intros (? & ? & ?).
Qed.
End validation_lemmas.
#[export] Hint Rewrite @validate_text_Ok @validate_uuid_Ok @validate_sha256_Ok @on_some_Ok : result.

Section validation_theorems.
Context `{UuidApi} `{DigestApi}.

Lemma phase_is_spec p q : phase_is p q = true <-> p = q.
Proof. unfold phase_is. by rewrite bool_decide_eq_true. Qed.

Lemma event_projection_Ok e : validate_event_projection e = Ok tt <-> event_shape e.
Proof.
  unfold validate_event_projection. result_iff. unfold phase_valid, phase_is.
  split.
  - intros [[Ht Hb] Hp]. split.
    + rewrite Ht. by destruct (te_kind e).
    + apply eqb_prop in Hb. destruct (te_kind e), (te_phase e); cbn in *;
        repeat case_bool_decide; split; intros Hx;
        try (by destruct Hx); done || eauto.
    + destruct (te_kind e), (te_phase e); cbn in *; repeat case_bool_decide; try done;
        auto 6.
  - intros [Ht Hb Hp]. destruct (te_kind e), (te_phase e); cbn in *; rewrite ?Ht;
      repeat case_bool_decide; split; try done;
      repeat match goal with
      | H : _ \/ _ |- _ => destruct H
      | H : _ /\ _ |- _ => destruct H
      | H : _ <-> _ |- _ => destruct H
      end; try done;
      match goal with
      | H : ?a = ?a -> is_Some None |- _ => by destruct (H eq_refl)
      | H : is_Some (Some _) -> _ |- _ => by specialize (H (ex_intro _ _ eq_refl))
      end.
Qed.

Lemma event_evidence_Ok e : validate_event_evidence e = Ok tt <-> event_evidence e.
Proof.
  unfold validate_event_evidence. result_iff. unfold evidence_valid. split.
  - intros He. split.
    + intros Hk. rewrite Hk in He. by destruct (te_error e).
    + intros srcs Hs. apply error_source_is_spec.
      destruct (te_kind e); cbn in Hs; by simplify_eq.
  - intros [Hc Hr]. destruct (te_kind e); try done;
      first [by rewrite Hc | by apply error_source_is_spec, Hr].
Qed.

Lemma TaskEvent_validate_Ok e : valid e <-> event_wf e.
Proof.
  unfold valid, validate, TaskEvent_Validate, TaskEvent_validate. result_iff.
  rewrite event_projection_Ok, event_evidence_Ok.
  rewrite (opt_ok_iff _ (fun err => valid err /\ er_task_ref err = te_task_ref e))
    by (intros; by result_iff).
  split; [intros (?&?&?&?&?&?); by constructor | intros []; tauto].
Qed.

Lemma snapshot_phase_Ok s : snapshot_phase_valid s = Ok tt <-> phase_terminal_agree s.
Proof.
  unfold snapshot_phase_valid, phase_terminal_agree, is_none.
  destruct (ts_phase s), (ts_terminal s), (ts_completed_at_ms s); cbn; split;
    try done; intros;
    repeat match goal with
    | H : _ /\ _ |- _ => destruct H
    | H : _ <-> _ |- _ => destruct H
    end; try done; try (split; split; intros; by eauto || by destruct_and?);
    naive_solver.
Qed.

Lemma TaskSnapshot_validate_Ok s : valid s <-> snapshot_wf s.
Proof.
  unfold valid, validate, TaskSnapshot_Validate, TaskSnapshot_validate. result_iff.
  rewrite snapshot_phase_Ok.
  rewrite (opt_ok_iff (fun t => validate_text _ _ _ = _) (text_ok 512)) by (intros; by result_iff).
  rewrite (opt_ok_iff (fun e => map_err _ _ = _) valid) by (intros; by result_iff).
  split; [intros (?&?&?&?&?&?&?&?&?&?&?); by constructor | intros []; tauto].
Qed.

(** The loops, against the sets they carry. *)
Lemma validate_attempts_Ok tref i ids ords l :
  validate_attempts tref i ids ords l = Ok tt <->
  Forall (fun a => valid a /\ ar_task_ref a = tref) l
  /\ NoDup (map ar_attempt_id l) /\ NoDup (map ar_ordinal l)
  /\ Forall (fun a => ar_attempt_id a ∉ ids /\ ar_ordinal a ∉ ords) l.
Proof.
  revert i ids ords. induction l as [|a l IH]; intros i ids ords; cbn.
  - split; [|done]. repeat split; constructor.
  - result_iff. rewrite IH, !Forall_cons, !NoDup_cons. clear IH.
    rewrite !Forall_forall, !list_elem_of_fmap. set_solver.
Qed.

(** Events: [previous_sequence] and [terminal_seen] as a sorted prefix. *)
Definition terminal_last (l : list TaskEvent) : Prop :=
  forall l1 e l2, l = (l1 ++ e :: l2)%list -> is_Some (te_terminal e) -> l2 = [].

Lemma terminal_last_cons e l :
  terminal_last (e :: l) <-> (is_Some (te_terminal e) -> l = []) /\ terminal_last l.
Proof.
  split.
  - intros Ht. split; [by apply (Ht [])|].
    intros l1 e' l2 ->. by apply (Ht (e :: l1)).
  - intros [He Ht] l1 e' l2 E. destruct l1 as [|e1 l1]; injection E as <- E.
    + by subst.
    + by apply (Ht l1 e').
Qed.

Lemma validate_events_Ok tref i prev seen l p :
  validate_events tref i prev seen l = Ok p <->
  Forall (fun e => event_wf e /\ te_task_ref e = tref) l
  /\ StronglySorted Z.lt (option_list prev ++ map te_sequence l)%list
  /\ (seen = true -> l = []) /\ terminal_last l
  /\ p = match last l with Some e => Some (te_sequence e) | None => prev end.
Proof.
  revert i prev seen. induction l as [|e l IH]; intros i prev seen; cbn [validate_events].
  - split.
    + intros [= ->]. repeat split; try done; [destruct p; cbn; repeat constructor|].
      intros [|] ? ? ?; done.
    + by intros (_ & _ & _ & _ & ->).
  - rewrite !bind_tt_Ok, map_err_Ok, !guard_or_Ok, IH, terminal_last_cons, Forall_cons.
    change (validate e = Ok tt) with (valid e). rewrite TaskEvent_validate_Ok.
    simpl_bools. cbn [map option_list app]. rewrite last_cons.
    assert (Hseen : (is_some (te_terminal e) = true -> l = [])
                    <-> (is_Some (te_terminal e) -> l = [])) by (by rewrite is_some_true).
    rewrite Hseen.
    assert (Hp : p = match last l with Some e0 => Some (te_sequence e0)
                                | None => Some (te_sequence e) end
            <-> p = match match last l with Some y => Some y | None => Some e end with
                    | Some e0 => Some (te_sequence e0) | None => prev end)
      by (by destruct (last l)).
    rewrite Hp.
    assert (Hs : is_some_and (fun q => te_sequence e <=? q) prev = false
            /\ StronglySorted Z.lt (te_sequence e :: map te_sequence l)
            <-> StronglySorted Z.lt (option_list prev ++ te_sequence e :: map te_sequence l)%list).
    { destruct prev as [q|]; cbn [option_list app is_some_and]; [|naive_solver]. rewrite Z.leb_gt. split.
      - intros [? Hs]. constructor; [done|]. constructor; [done|].
        apply StronglySorted_inv in Hs as [_ Hall]. eapply Forall_impl; [done|].
        cbn. intros. lia.
      - intros Hs. apply StronglySorted_inv in Hs as [? Hall].
        by apply Forall_cons in Hall as [? _]. }
    rewrite <- Hs. destruct seen; naive_solver.
Qed.

Lemma validate_errors_Ok tref i ids l :
  validate_errors tref i ids l = Ok tt <->
  Forall (fun e => valid e /\ er_task_ref e = tref) l
  /\ NoDup (map er_error_id l) /\ Forall (fun e => er_error_id e ∉ ids) l.
Proof.
  revert i ids. induction l as [|a l IH]; intros i ids; cbn.
  - split; [|done]. repeat split; constructor.
  - result_iff. rewrite IH, !Forall_cons, !NoDup_cons. clear IH.
    rewrite !Forall_forall, !list_elem_of_fmap. set_solver.
Qed.

Lemma validate_gaps_Ok tref i l :
  validate_gaps tref i l = Ok tt <->
  Forall (fun g => valid g /\ opt_ok (eq tref) (gr_task_ref g)) l.
Proof.
  revert i. induction l as [|g l IH]; intros i; cbn; [done|].
  result_iff. rewrite IH, Forall_cons. unfold valid.
  destruct (gr_task_ref g) as [s|]; cbn; [|tauto].
  case_bool_decide as Hs; split; intros; destruct_and?; repeat split; try done;
    by destruct (decide (s = tref)).
Qed.

(** A nonempty sorted list is bounded by its last element. *)
Lemma sorted_le_last (l : list TaskEvent) (e : TaskEvent) :
  StronglySorted Z.lt (map te_sequence l) -> last l = Some e ->
  Forall (fun x => te_sequence x <= te_sequence e) l.
Proof.
  induction l as [|x l IH]; [done|]. cbn [map]. intros Hs Hl. apply StronglySorted_inv in Hs as [Hs Hall].
  rewrite last_cons in Hl. destruct (last l) as [y|] eqn:El.
  - injection Hl as ->. constructor; [|by apply IH].
    apply last_Some in El as [l' ->]. rewrite map_app in Hall.
    apply Forall_app in Hall as [_ Hy]. apply Forall_cons in Hy as [? _]. cbn in *. lia.
  - injection Hl as ->. apply last_None in El as ->. constructor; [lia | constructor].
Qed.

Lemma covered_iff (l : list TaskEvent) (q : Z) :
  StronglySorted Z.lt (map te_sequence l) ->
  is_some_and (fun p => q <? p)
    match last l with Some e => Some (te_sequence e) | None => None end = false
  <-> Forall (fun e => te_sequence e <= q) l.
Proof.
  intros Hs. destruct (last l) as [e|] eqn:El; cbn.
  - rewrite Z.ltb_ge. split.
    + intros ?. eapply Forall_impl; [by apply sorted_le_last|]. cbn. intros. lia.
    + intros Hall. apply last_Some in El as [l' ->].
      apply Forall_app in Hall as [_ Hall]. by apply Forall_cons in Hall as [? _].
  - apply last_None in El as ->. split; [constructor | done].
Qed.

Lemma upload_wf_Ok (u : TaskUpload) : validate u = Ok tt <-> upload_wf u.
Proof.
  change (validate u) with (TaskUpload_validate u). unfold TaskUpload_validate.
  rewrite !bind_tt_Ok, bind_Ok, map_err_Ok, validate_attempts_Ok.
  change (validate (tu_snapshot u) = Ok tt) with (valid (tu_snapshot u)).
  rewrite TaskSnapshot_validate_Ok. split.
  - intros (?&(?&?&?&_)&p&(?&Hs&_&?&->)%validate_events_Ok&Hr).
    rewrite !bind_tt_Ok, guard_or_Ok, validate_errors_Ok, validate_gaps_Ok in Hr.
    destruct Hr as (Hc&(?&?&_)&?).
    apply negb_true_iff in Hc. apply (covered_iff _ _ Hs) in Hc. by constructor.
  - intros []. split; [done|]. split; [repeat split; try done; apply Forall_true; set_solver|].
    eexists. split; [by apply validate_events_Ok|].
    rewrite !bind_tt_Ok, guard_or_Ok, validate_errors_Ok, validate_gaps_Ok.
    rewrite negb_true_iff. unfold option_list. cbn. rewrite covered_iff by done.
    repeat split; try done. apply Forall_true; set_solver.
Qed.

(** [C24] [TaskUpload::validate] accepts exactly the well-formed uploads: each
    part is valid and belongs to the snapshot's task, attempt ids, ordinals
    and error ids are unique, event sequences strictly increase up to the
    snapshot's, and no event follows a terminal one. *)
Theorem upload_validate_iff (u : TaskUpload) : validate u = Ok tt <-> upload_wf u.
Proof. apply upload_wf_Ok. Qed.

Lemma validate_tasks_Ok i refs l :
  validate_tasks i refs l = Ok tt <->
  Forall upload_wf l /\ NoDup (map (fun t => ts_task_ref (tu_snapshot t)) l)
  /\ Forall (fun t => ts_task_ref (tu_snapshot t) ∉ refs) l.
Proof.
  revert i refs. induction l as [|t l IH]; intros i refs; cbn.
  - split; [|done]. repeat split; constructor.
  - rewrite !bind_tt_Ok, map_err_Ok, guard_or_Ok, IH, upload_wf_Ok, !Forall_cons, !NoDup_cons.
    simpl_bools. clear IH. rewrite !Forall_forall, !list_elem_of_fmap. set_solver.
Qed.

Lemma validate_heartbeats_Ok c i l :
  validate_heartbeats c i l = Ok tt <->
  Forall (fun h => valid h /\ hb_client_id h = ci_client_id c
          /\ hb_instance_id h = ci_instance_id c) l.
Proof.
  revert i. induction l as [|h l IH]; intros i; cbn; [done|].
  rewrite !bind_tt_Ok, map_err_Ok, guard_or_Ok, IH, Forall_cons. simpl_bools. tauto.
Qed.

Lemma batch_wf_Ok (b : IngestBatch) : validate b = Ok tt <-> batch_wf b.
Proof.
  change (validate b) with (IngestBatch_validate b). unfold IngestBatch_validate. result_iff.
  rewrite validate_tasks_Ok, validate_heartbeats_Ok.
  unfold PROTOCOL_VERSION, MAX_ID_BYTES, MAX_SHORT_TEXT_BYTES, MAX_BATCH_TASKS,
    MAX_BATCH_HEARTBEATS.
  split.
  - intros (?&?&?&?&?&?&?&[??]&(?&?&_)&?). by constructor.
  - intros []. do 7 (split; [done|]). split; [done|]. split; [|done].
    do 2 (split; [done|]). apply Forall_true; set_solver.
Qed.

(** [IngestBatch::validate] accepts exactly the well-formed batches: the
    protocol version, a v7 identity, at most 1024 well-formed uploads of
    distinct tasks, and heartbeats of the sending client only. *)
Theorem batch_validate_iff (b : IngestBatch) : validate b = Ok tt <-> batch_wf b.
Proof. apply batch_wf_Ok. Qed.

(** Whatever [TaskEvent::validate] accepts has the outcome its kind
    implies ([terminal_hint]), is in the terminal phase exactly when there is
    one, and carries the structured error its kind requires, about the same
    task. *)
Theorem event_validate_iff (e : TaskEvent) : validate e = Ok tt <-> event_wf e.
Proof. apply TaskEvent_validate_Ok. Qed.

Lemma chunk_validate_spec (c : ContentUploadChunk) : validate c = Ok tt <-> chunk_wf c.
Proof.
  change (validate c) with (ContentUploadChunk_validate c).
  unfold ContentUploadChunk_validate. result_iff. unfold MAX_CONTENT_CHUNK_BYTES. split.
  - intros (?&?&?&[??]&Hl&?&?). apply eqb_prop in Hl. constructor; try done.
    rewrite Hl. rewrite Z.eqb_eq. lia.
  - intros [? ? ? ? ? Hl ? ?]. do 4 (split; [done|]). split; [|done].
    destruct (cc_is_last c), (Z.eqb_spec (cc_chunk_index c + 1) (cc_chunk_count c)); cbn; try done.
    + destruct Hl as [Hl _]. specialize (Hl eq_refl). lia.
    + destruct Hl as [_ Hl]. discriminate Hl. lia.
Qed.

(** A content chunk is accepted exactly when its index is inside its
    count, [is_last] marks precisely the final one, it holds at most one
    mebibyte and its bytes hash to its digest. *)
Theorem chunk_validate_iff (c : ContentUploadChunk) : validate c = Ok tt <-> chunk_wf c.
Proof. apply chunk_validate_spec. Qed.
End validation_theorems.
