(* ===== verification/Reducer.v ===== *)
(** * The task reducer

    [src/crates/protocol/src/state.rs]: [TaskReducer::apply] folds validated,
    consecutive events into the projection of a task.  [apply] returns the
    reducer after the call next to the [Result] it returns, so that what an
    error leaves behind can be stated.  A run of events is a [Step]-relation;
    its invariant is proved by rule induction. *)
From Stdlib Require Import ZArith Lia Sorting.Sorted.
From stdpp Require Import sorting.
From S2P Require Import Prelude RustStr Digest Types Fixtures Validation.
Local Open Scope string_scope.
Local Open Scope Z_scope.

(* src: src/crates/protocol/src/state.rs:6-10 ReduceOutcome *)
Record ReduceOutcome : Type := mkReduceOutcome {
  ro_snapshot : TaskSnapshot;
  ro_changed : bool }.

(* src: src/crates/protocol/src/state.rs:12-46 ReduceError *)
Inductive ReduceError : Type :=
| ReduceError_InvalidEvent (e : ValidationError)
| ReduceError_TaskRefMismatch (event_task_ref reducer_task_ref : string)
| ReduceError_NonMonotonicSequence (event_sequence current_sequence : Z)
| ReduceError_SequenceGap (event_sequence expected_sequence : Z)
| ReduceError_TimestampRegression (event_timestamp snapshot_timestamp : Z)
| ReduceError_AlreadyTerminal (existing : TerminalOutcome) (incoming : option TerminalOutcome)
| ReduceError_InvalidPhaseTransition (from to : TaskPhase).

(* src: src/crates/protocol/src/state.rs:165-190 valid_phase_transition *)
Definition valid_phase_transition (from to : TaskPhase) : bool :=
  match from with
  | TaskPhase_Running =>
    match to with
    | TaskPhase_Running | TaskPhase_AwaitingTool | TaskPhase_Retrying
    | TaskPhase_Terminal => true
    end
  | TaskPhase_AwaitingTool =>
    match to with
    | TaskPhase_AwaitingTool | TaskPhase_Running | TaskPhase_Retrying
    | TaskPhase_Terminal => true
    end
  | TaskPhase_Retrying =>
    match to with
    | TaskPhase_Retrying | TaskPhase_Running | TaskPhase_AwaitingTool
    | TaskPhase_Terminal => true
    end
  | TaskPhase_Terminal => false
  end.

(** [if !l.iter().any(|item| item == s) { l.push(s) }]. *)
(* src: src/crates/protocol/src/state.rs:126-135 TaskReducer::apply *)
Definition push_unique (l : list string) (s : string) : list string :=
  if bool_decide (s ∈ l) then l else (l ++ [s])%list.

(** The field updates before the [match event.kind]. *)
(* src: src/crates/protocol/src/state.rs:109-139 TaskReducer::apply *)
Definition apply_fields (s : TaskSnapshot) (e : TaskEvent) : TaskSnapshot :=
  {| ts_task_ref := ts_task_ref s;
     ts_identity := ts_identity s;
     ts_codex := ts_codex s;
     ts_conversation_title := ts_conversation_title s;
     ts_sequence := te_sequence e;
     ts_phase := te_phase e;
     ts_terminal := te_terminal e;
     ts_integrity := ts_integrity s;
     ts_model := opt_or (te_model e) (ts_model s);
     ts_attempt_count := ts_attempt_count s;
     ts_tool_names := fold_left push_unique (te_tool_names e) (ts_tool_names s);
     ts_response_ids :=
       match te_response_id e with
       | Some response_id => push_unique (ts_response_ids s) response_id
       | None => ts_response_ids s
       end;
     ts_usage := te_usage e;
     ts_started_at_ms := ts_started_at_ms s;
     ts_updated_at_ms := te_occurred_at_ms e;
     ts_completed_at_ms := ts_completed_at_ms s;
     ts_last_error := opt_or (te_error e) (ts_last_error s) |}.

(** Functional updates of the three fields the [match event.kind] assigns. *)
Definition set_outcome (s : TaskSnapshot) (attempts : Z) (i : IntegrityState)
    (completed : option Z) : TaskSnapshot :=
  {| ts_task_ref := ts_task_ref s;
     ts_identity := ts_identity s;
     ts_codex := ts_codex s;
     ts_conversation_title := ts_conversation_title s;
     ts_sequence := ts_sequence s;
     ts_phase := ts_phase s;
     ts_terminal := ts_terminal s;
     ts_integrity := i;
     ts_model := ts_model s;
     ts_attempt_count := attempts;
     ts_tool_names := ts_tool_names s;
     ts_response_ids := ts_response_ids s;
     ts_usage := ts_usage s;
     ts_started_at_ms := ts_started_at_ms s;
     ts_updated_at_ms := ts_updated_at_ms s;
     ts_completed_at_ms := completed;
     ts_last_error := ts_last_error s |}.

(* src: src/crates/protocol/src/state.rs:141-158 TaskReducer::apply *)
Definition apply_kind (s : TaskSnapshot) (e : TaskEvent) : TaskSnapshot :=
  match te_kind e with
  | TaskEventKind_AttemptStarted =>
    set_outcome s (sat_add32 (ts_attempt_count s) 1) (ts_integrity s) (ts_completed_at_ms s)
  | TaskEventKind_CaptureGap =>
    set_outcome s (ts_attempt_count s) IntegrityState_Degraded (ts_completed_at_ms s)
  | TaskEventKind_UnsupportedBuild =>
    set_outcome s (ts_attempt_count s) IntegrityState_UnsupportedBuild (ts_completed_at_ms s)
  | TaskEventKind_TerminalLost =>
    set_outcome s (ts_attempt_count s) IntegrityState_Lost (Some (te_occurred_at_ms e))
  | kind =>
    if is_some (terminal_hint kind)
    then set_outcome s (ts_attempt_count s) (ts_integrity s) (Some (te_occurred_at_ms e))
    else s
  end.

Section reducer.
Context `{UuidApi} `{DigestApi}.

(** The guards of [apply], in their order. *)
(* src: src/crates/protocol/src/state.rs:71-107 TaskReducer::apply *)
Definition apply_guards (s : TaskSnapshot) (e : TaskEvent) : result ReduceError unit :=
  _ ← map_err ReduceError_InvalidEvent (validate e);
  _ ← guard_or (bool_decide (te_task_ref e = ts_task_ref s))
        (ReduceError_TaskRefMismatch (te_task_ref e) (ts_task_ref s));
  _ ← guard_or (negb (te_sequence e <=? ts_sequence s))
        (ReduceError_NonMonotonicSequence (te_sequence e) (ts_sequence s));
  let expected_sequence := ts_sequence s + 1 in
  _ ← guard_or (te_sequence e =? expected_sequence)
        (ReduceError_SequenceGap (te_sequence e) expected_sequence);
  _ ← guard_or (negb (te_occurred_at_ms e <? ts_updated_at_ms s))
        (ReduceError_TimestampRegression (te_occurred_at_ms e) (ts_updated_at_ms s));
  _ ← match ts_terminal s with
      | Some existing => Err (ReduceError_AlreadyTerminal existing (te_terminal e))
      | None => Ok tt
      end;
  guard_or (valid_phase_transition (ts_phase s) (te_phase e))
    (ReduceError_InvalidPhaseTransition (ts_phase s) (te_phase e)).

(** [&mut self] is returned next to the result. *)
(* src: src/crates/protocol/src/state.rs:48-163 TaskReducer::apply *)
Definition apply (s : TaskSnapshot) (e : TaskEvent)
    : TaskSnapshot * result ReduceError ReduceOutcome :=
  match apply_guards s e with
  | Err err => (s, Err err)
  | Ok _ =>
    let s' := apply_kind (apply_fields s e) e in
    (s', Ok (mkReduceOutcome s' true))
  end.

(** Applying a list of events the way a caller does: a refused event leaves
    the reducer where it was. *)
Definition apply_all (s : TaskSnapshot) (es : list TaskEvent) : TaskSnapshot :=
  fold_left (fun s e => fst (apply s e)) es s.

(** One accepted event. *)
Inductive Step (s : TaskSnapshot) (e : TaskEvent) (s' : TaskSnapshot) : Prop :=
| step_apply o : apply s e = (s', Ok o) -> Step s e s'.

(** Runs of accepted events. *)
Inductive Run (s : TaskSnapshot) : list TaskEvent -> TaskSnapshot -> Prop :=
| run_nil : Run s [] s
| run_snoc es e s1 s2 : Run s es s1 -> Step s1 e s2 -> Run s (es ++ [e])%list s2.

(** What acceptance means, and what the reducer promises of a projection. *)
Record accepts (s : TaskSnapshot) (e : TaskEvent) : Prop := mk_accepts {
  ac_event : event_wf e;
  ac_ref : te_task_ref e = ts_task_ref s;
  ac_seq : te_sequence e = ts_sequence s + 1;
  ac_time : ts_updated_at_ms s <= te_occurred_at_ms e;
  ac_open : ts_terminal s = None;
  ac_phase : ts_phase s <> TaskPhase_Terminal }.

Record projection_wf (s : TaskSnapshot) : Prop := mk_projection_wf {
  pw_snapshot : snapshot_wf s;
  pw_tools : NoDup (ts_tool_names s);
  pw_responses : NoDup (ts_response_ids s) }.

(** [IntegrityState] after an event, from the event alone. *)
Definition integrity_after (k : TaskEventKind) (i : IntegrityState) : IntegrityState :=
  match k with
  | TaskEventKind_CaptureGap => IntegrityState_Degraded
  | TaskEventKind_UnsupportedBuild => IntegrityState_UnsupportedBuild
  | TaskEventKind_TerminalLost => IntegrityState_Lost
  | _ => i
  end.
Definition attempts_in (es : list TaskEvent) : Z :=
  Z.of_nat (length (filter (fun e => te_kind e = TaskEventKind_AttemptStarted) es)).

(** ** Lemmas *)
Lemma valid_phase_transition_spec p q :
  valid_phase_transition p q = true <-> p <> TaskPhase_Terminal.
Proof. by destruct p, q. Qed.

Lemma apply_guards_Ok s e : apply_guards s e = Ok tt <-> accepts s e.
Proof.
  unfold apply_guards. result_iff. rewrite valid_phase_transition_spec.
  change (validate e = Ok tt) with (valid e). rewrite TaskEvent_validate_Ok.
  destruct (ts_terminal s) as [t|] eqn:Et.
  - split; [by intros (?&?&?&?&?&?&?) | intros []; congruence].
  - split; [intros (?&?&?&?&?&?&?); by constructor|].
    intros [?? Hs ???]. do 2 (split; [done|]). do 3 (split; [lia|]). done.
Qed.

Lemma push_unique_NoDup l s : NoDup l -> NoDup (push_unique l s).
Proof.
  unfold push_unique. case_bool_decide as Hs; [done|]. intros.
  apply NoDup_app. split; [done|]. split; [set_solver | apply NoDup_singleton].
Qed.
Lemma push_unique_elem l s x : x ∈ push_unique l s <-> x ∈ l \/ x = s.
Proof. unfold push_unique. case_bool_decide; set_solver. Qed.
Lemma push_all_NoDup xs l : NoDup l -> NoDup (fold_left push_unique xs l).
Proof. revert l. induction xs; cbn; auto using push_unique_NoDup. Qed.
Lemma push_all_elem xs l x : x ∈ fold_left push_unique xs l <-> x ∈ l \/ x ∈ xs.
Proof.
  revert l. induction xs as [|y xs IH]; intros l; cbn; [set_solver|].
  rewrite IH, push_unique_elem. set_solver.
Qed.

Lemma apply_Ok s e : accepts s e ->
  apply s e = (apply_kind (apply_fields s e) e,
               Ok (mkReduceOutcome (apply_kind (apply_fields s e) e) true)).
Proof. intros Ha. unfold apply. by apply apply_guards_Ok in Ha as ->. Qed.

Lemma apply_inv s e : 
  (accepts s e /\ apply s e = (apply_kind (apply_fields s e) e,
                               Ok (mkReduceOutcome (apply_kind (apply_fields s e) e) true)))
  \/ exists err, apply_guards s e = Err err /\ apply s e = (s, Err err).
Proof.
  unfold apply. destruct (apply_guards s e) as [[]|err] eqn:E.
  - left. split; [by apply apply_guards_Ok | done].
  - right. eauto.
Qed.

Lemma Step_iff s e s' : Step s e s' <-> accepts s e /\ s' = apply_kind (apply_fields s e) e.
Proof.
  split.
  - intros [o Ho]. destruct (apply_inv s e) as [[Ha E]|(err & _ & E)]; rewrite E in Ho;
      by simplify_eq.
  - intros [Ha ->]. econstructor. by apply apply_Ok.
Qed.

(** The fields no event changes, and those every event sets. *)
Lemma apply_kind_fields s e :
  let s' := apply_kind (apply_fields s e) e in
  ts_task_ref s' = ts_task_ref s /\ ts_identity s' = ts_identity s
  /\ ts_codex s' = ts_codex s /\ ts_conversation_title s' = ts_conversation_title s
  /\ ts_started_at_ms s' = ts_started_at_ms s
  /\ ts_sequence s' = te_sequence e /\ ts_updated_at_ms s' = te_occurred_at_ms e
  /\ ts_phase s' = te_phase e /\ ts_terminal s' = te_terminal e
  /\ ts_usage s' = te_usage e
  /\ ts_tool_names s' = fold_left push_unique (te_tool_names e) (ts_tool_names s)
  /\ ts_response_ids s' = match te_response_id e with
                          | Some r => push_unique (ts_response_ids s) r
                          | None => ts_response_ids s
                          end
  /\ ts_model s' = opt_or (te_model e) (ts_model s)
  /\ ts_last_error s' = opt_or (te_error e) (ts_last_error s)
  /\ ts_integrity s' = integrity_after (te_kind e) (ts_integrity s)
  /\ ts_completed_at_ms s' = (if is_some (terminal_hint (te_kind e))
                              then Some (te_occurred_at_ms e) else ts_completed_at_ms s)
  /\ ts_attempt_count s' = (if bool_decide (te_kind e = TaskEventKind_AttemptStarted)
                            then sat_add32 (ts_attempt_count s) 1 else ts_attempt_count s).
Proof. unfold apply_kind. destruct (te_kind e); cbn; repeat split; done. Qed.

Lemma Step_wf s e s' : projection_wf s -> Step s e s' -> projection_wf s'.
Proof.
  intros [Hs Ht Hr] [Ha ->]%Step_iff. destruct Ha as [He Href Hseq Htime Hopen Hphase].
  pose proof (apply_kind_fields s e) as F. cbn zeta in F.
  set (s' := apply_kind (apply_fields s e) e) in *. clearbody s'.
  destruct F as (E1&E2&E3&E4&E5&E6&E7&E8&E9&E10&E11&E12&E13&E14&E15&E16&E17).
  destruct He as [_ _ _ Herr [Hterm Hpt _] _]. destruct Hs.
  assert (Hnc : ts_completed_at_ms s = None).
  { destruct sw_phase as [_ [_ Hc]]. destruct (ts_completed_at_ms s); [|done].
    destruct Hc as [? E]; [eauto|]. congruence. }
  split; [split|..]; rewrite ?E1, ?E2, ?E3, ?E4, ?E5, ?E7; try done.
  - lia.
  - unfold phase_terminal_agree. rewrite E8, E9, E16, Hterm. split; [done|].
    destruct (terminal_hint (te_kind e)); cbn; rewrite ?Hnc; [split; eauto | done].
  - rewrite E14. destruct (te_error e) as [err|]; [by destruct Herr | done].
  - rewrite E11. by apply push_all_NoDup.
  - rewrite E12. destruct (te_response_id e); auto using push_unique_NoDup.
Qed.

Lemma Run_wf s es s' : projection_wf s -> Run s es s' -> projection_wf s'.
Proof. induction 2; eauto using Step_wf. Qed.

(** What a run leaves in the fields it moves. *)
Lemma Run_fields s es s' : Run s es s' ->
  ts_task_ref s' = ts_task_ref s
  /\ ts_sequence s' = ts_sequence s + Z.of_nat (length es)
  /\ ts_updated_at_ms s <= ts_updated_at_ms s'
  /\ (forall t, t ∈ ts_tool_names s' <-> t ∈ ts_tool_names s \/ exists e, e ∈ es /\ t ∈ te_tool_names e)
  /\ ts_terminal s' = match last es with Some e => te_terminal e | None => ts_terminal s end
  /\ ts_integrity s' = fold_left (fun i e => integrity_after (te_kind e) i) es (ts_integrity s).
Proof.
  induction 1 as [|es e s1 s2 HR (IH1&IH2&IH3&IH4&IH5&IH6) [Ha ->]%Step_iff].
  - cbn. repeat split; try lia; set_solver.
  - pose proof (apply_kind_fields s1 e) as F. cbn zeta in F.
    destruct F as (->&_&_&_&_&->&->&_&->&_&->&_&_&_&->&_&_). destruct Ha.
    rewrite length_app, last_snoc, fold_left_app, IH6. cbn.
    repeat split; try congruence; try lia; intros Hx.
    + apply push_all_elem in Hx as [Hx|Hx]; [apply IH4 in Hx|]; set_solver.
    + apply push_all_elem. rewrite IH4. set_solver.
Qed.

Lemma Run_attempts s es s' : Run s es s' -> 0 <= ts_attempt_count s <= u32_max ->
  ts_attempt_count s' = Z.min u32_max (ts_attempt_count s + attempts_in es).
Proof.
  intros HR H1. induction HR as [|es e s1 s2 HR IH [Ha ->]%Step_iff].
  - unfold attempts_in. cbn. lia.
  - pose proof (apply_kind_fields s1 e) as F. cbn zeta in F.
    destruct F as (_&_&_&_&_&_&_&_&_&_&_&_&_&_&_&_&->). rewrite IH.
    unfold attempts_in, sat_add32. rewrite filter_app, length_app, filter_cons, filter_nil.
    case_bool_decide; [rewrite decide_True by done | rewrite decide_False by done]; cbn; lia.
Qed.

(** The events of a run are what an upload may carry. *)
Lemma Run_events s es s' : Run s es s' ->
  Forall (fun e => event_wf e /\ te_task_ref e = ts_task_ref s) es
  /\ StronglySorted Z.lt (map te_sequence es)
  /\ Forall (fun e => ts_sequence s < te_sequence e <= ts_sequence s') es
  /\ terminal_last es.
Proof.
  induction 1 as [|es e s1 s2 HR (IH1&IH2&IH3&IH4) [Ha ->]%Step_iff].
  - repeat split; try constructor. by intros [|] ? ? ?.
  - pose proof (Run_fields _ _ _ HR) as (Href&Hseq&_&_&Hterm&_). destruct Ha.
    pose proof (apply_kind_fields s1 e) as F. cbn zeta in F.
    destruct F as (_&_&_&_&_&->&_). split; [|split; [|split]].
    + apply Forall_app. split; [done|]. constructor; [|constructor]. split; [done|congruence].
    + rewrite map_app. apply StronglySorted_app. split; [|split; [done|repeat constructor]].
      intros x y Hx Hy. cbn in Hy.
      apply list_elem_of_singleton in Hy as ->. apply list_elem_of_fmap in Hx as (e' & -> & He').
      rewrite Forall_forall in IH3. specialize (IH3 _ He'). lia.
    + apply Forall_app. split; [|constructor; [lia|constructor]].
      eapply Forall_impl; [done|]. cbn. lia.
    + intros l1 x l2 E Hx. destruct l2 as [|y l2] using rev_ind; [done|]. clear IHl2.
      rewrite app_comm_cons, app_assoc in E. apply app_inj_tail in E as [E ->].
      specialize (IH4 _ _ _ E Hx) as ->. rewrite E, last_snoc in Hterm.
      rewrite <- Hterm in Hx. rewrite ac_open0 in Hx. by destruct Hx.
Qed.

(** An executable [Run]: all events accepted. *)
Fixpoint run_events (s : TaskSnapshot) (es : list TaskEvent) : option TaskSnapshot :=
  match es with
  | [] => Some s
  | e :: es' => match apply s e with
               | (s', Ok _) => run_events s' es'
               | (_, Err _) => None
               end
  end.

Lemma Run_cons s e s1 es s2 : Step s e s1 -> Run s1 es s2 -> Run s (e :: es) s2.
Proof.
  intros H1. induction 1 as [|es e' s2 s3 HR IH HS].
  - apply (run_snoc s [] e s); [constructor | done].
  - by apply (run_snoc s (e :: es) e' s2).
Qed.
Lemma run_events_Run s es s' : run_events s es = Some s' -> Run s es s'.
Proof.
  revert s. induction es as [|e es IH]; intros s Hr; cbn in Hr.
  - injection Hr as <-. constructor.
  - destruct (apply s e) as [s1 [o|]] eqn:E; [|done].
    eapply Run_cons; [by econstructor | by apply IH].
Qed.

(** ** Properties *)

(** [apply] accepts exactly the valid, consecutive, non-regressing events
    of its own open task; an accepted event moves the projection as the
    fields of the event say; every refusal leaves the projection as it was. *)
Theorem apply_spec s e :
  (accepts s e <-> exists o, snd (apply s e) = Ok o)
  /\ (forall o, snd (apply s e) = Ok o -> ro_snapshot o = fst (apply s e) /\ ro_changed o = true)
  /\ (forall err, snd (apply s e) = Err err -> fst (apply s e) = s)
  /\ (accepts s e ->
      let s' := fst (apply s e) in
      ts_task_ref s' = ts_task_ref s /\ ts_identity s' = ts_identity s
      /\ ts_started_at_ms s' = ts_started_at_ms s
      /\ ts_sequence s' = te_sequence e /\ ts_updated_at_ms s' = te_occurred_at_ms e
      /\ ts_phase s' = te_phase e /\ ts_terminal s' = te_terminal e
      /\ ts_usage s' = te_usage e
      /\ ts_last_error s' = opt_or (te_error e) (ts_last_error s)
      /\ ts_integrity s' = integrity_after (te_kind e) (ts_integrity s)
      /\ ts_completed_at_ms s' = (if is_some (terminal_hint (te_kind e))
                                  then Some (te_occurred_at_ms e) else ts_completed_at_ms s)).
Proof.
  pose proof (apply_kind_fields s e) as F. cbn zeta in F.
  destruct (apply_inv s e) as [[Ha ->]|(err & Hg & ->)]; cbn [fst snd].
  - split; [split; eauto|]. split; [by intros o [= <-]|]. split; [done|].
    intros _. cbn zeta. tauto.
  - assert (Hn : ~ accepts s e) by (intros Ha%apply_guards_Ok; congruence).
    split; [split; [done | by intros [? ?]]|]. split; [done|]. split; [done|]. done.
Qed.

(** A terminal projection is absorbing: whatever events are offered, each
    one is refused and the projection never changes. *)
Theorem terminal_absorbing s es :
  is_Some (ts_terminal s) ->
  apply_all s es = s /\ (forall e, e ∈ es -> exists err, snd (apply s e) = Err err).
Proof.
  intros [t Ht].
  assert (Hr : forall e, exists err, apply s e = (s, Err err)).
  { intros e. destruct (apply_inv s e) as [[Ha _]|(err & _ & E)]; [|eauto].
    destruct Ha. congruence. }
  split.
  - unfold apply_all. induction es as [|e es IH]; cbn; [done|].
    destruct (Hr e) as [err ->]. done.
  - intros e _. destruct (Hr e) as [err ->]. eauto.
Qed.

(** Replaying an event that was accepted is refused as non-monotonic and
    has no effect, so that a projection does not depend on redelivery. *)
Theorem apply_replay_refused s e s' :
  Step s e s' ->
  apply s' e = (s', Err (ReduceError_NonMonotonicSequence (te_sequence e) (ts_sequence s'))).
Proof.
  intros [Ha ->]%Step_iff. pose proof (apply_kind_fields s e) as F. cbn zeta in F.
  set (s' := apply_kind (apply_fields s e) e) in *. clearbody s'.
  destruct F as (Er&_&_&_&_&Es&_). destruct Ha.
  unfold apply, apply_guards. apply TaskEvent_validate_Ok in ac_event0. unfold valid in *.
  rewrite ac_event0. cbn. rewrite Er, bool_decide_eq_true_2 by done. cbn.
  by rewrite Es, Z.leb_refl.
Qed.

(** [C23] Every run of accepted events preserves the projection invariant: a
    valid snapshot with duplicate-free tool names and response ids, in the
    terminal phase exactly when it has an outcome and a completion time; its
    sequence counts the events, its time never runs back, its tools are those
    the events named, and its attempt count is the number of started attempts,
    saturating at the maximum of a [u32]. *)
Theorem run_invariant s es s' :
  projection_wf s -> 0 <= ts_attempt_count s <= u32_max -> Run s es s' ->
  projection_wf s'
  /\ ts_sequence s' = ts_sequence s + Z.of_nat (length es)
  /\ ts_updated_at_ms s <= ts_updated_at_ms s'
  /\ ts_attempt_count s' = Z.min u32_max (ts_attempt_count s + attempts_in es)
  /\ ts_integrity s' = fold_left (fun i e => integrity_after (te_kind e) i) es (ts_integrity s)
  /\ (forall t, t ∈ ts_tool_names s' <->
        t ∈ ts_tool_names s \/ exists e, e ∈ es /\ t ∈ te_tool_names e).
Proof.
  intros Hw Hc HR. pose proof (Run_fields _ _ _ HR) as (?&?&?&?&?&?).
  split; [by eapply Run_wf|]. do 2 (split; [done|]).
  split; [by apply Run_attempts|]. done.
Qed.

(** [C32] What the reducer produces is what the wire contract accepts: the final
    snapshot of any run from a valid projection, with the events of the run,
    is an upload that [TaskUpload::validate] accepts. *)
Theorem run_upload_valid s es s' :
  projection_wf s -> Run s es s' -> validate (mkTaskUpload s' [] es [] []) = Ok tt.
Proof.
  intros Hw HR. apply upload_wf_Ok.
  pose proof (Run_events _ _ _ HR) as (He & Hs & Hc & Ht).
  pose proof (Run_fields _ _ _ HR) as (Href & _).
  pose proof (Run_wf _ _ _ Hw HR) as [Hw' _ _].
  constructor; cbn; try done; try constructor.
  - by rewrite Href.
  - eapply Forall_impl; [done|]. cbn. intros. lia.
Qed.
End reducer.

(** ** Witnesses *)
Lemma sample_snapshot_wf : projection_wf sample_snapshot.
Proof.
  split; [|constructor..]. apply TaskSnapshot_validate_Ok. by vm_compute.
Qed.
Lemma sample_run : exists s', Run sample_snapshot sample_events s'
  /\ ts_terminal s' = Some TerminalOutcome_Completed.
Proof.
  destruct (run_events sample_snapshot sample_events) as [s'|] eqn:E.
  - exists s'. split; [by apply run_events_Run|]. vm_compute in E. by injection E as <-.
  - exfalso. by vm_compute in E.
Qed.

Lemma terminal_absorbing_witness : exists s, is_Some (ts_terminal s)
  /\ apply_all s sample_events = s.
Proof.
  destruct sample_run as (s & _ & Hs). exists s.
  split; [by exists TerminalOutcome_Completed|].
  apply (terminal_absorbing s sample_events). by exists TerminalOutcome_Completed.
Defined.

Lemma apply_replay_refused_witness :
  let e := sample_event 1 TaskEventKind_AttemptStarted [] in
  exists s', Step sample_snapshot e s'
  /\ apply s' e = (s', Err (ReduceError_NonMonotonicSequence 1 (ts_sequence s'))).
Proof.
  intros e. exists (fst (apply sample_snapshot e)).
  assert (HS : Step sample_snapshot e (fst (apply sample_snapshot e)))
    by (econstructor; vm_compute; reflexivity).
  split; [exact HS|]. exact (apply_replay_refused sample_snapshot e _ HS).
Defined.

Lemma run_invariant_witness : exists s', Run sample_snapshot sample_events s'
  /\ ts_sequence s' = 4 /\ ts_attempt_count s' = 2.
Proof.
  destruct sample_run as (s' & HR & _). exists s'. split; [done|].
  destruct (run_invariant sample_snapshot sample_events s' sample_snapshot_wf)
    as (_ & Hs & _ & Hc & _); [by vm_compute | done |].
  by rewrite Hs, Hc.
Defined.

Lemma run_upload_valid_witness : exists s',
  validate (mkTaskUpload s' [] sample_events [] []) = Ok tt.
Proof.
  destruct sample_run as (s' & HR & _). exists s'.
  exact (run_upload_valid sample_snapshot sample_events s' sample_snapshot_wf HR).
Defined.
