(* ===== verification/Codec.v ===== *)
(** * The batch codec

    [src/crates/protocol/src/codec.rs]: CBOR and zstd around a validated
    [IngestBatch].  The [ciborium] and [zstd] crates are parameters; what the
    code relies on of them is [CodecLaws]. *)
From Stdlib Require Import ZArith Lia Strings.Byte.
From S2P Require Import Prelude RustStr Digest Types Fixtures Validation.
Local Open Scope string_scope.
Local Open Scope Z_scope.

(* src: src/crates/protocol/src/codec.rs:7-7 MAX_DECOMPRESSED_BATCH_BYTES *)
Definition MAX_DECOMPRESSED_BATCH_BYTES : Z := 2 * 1024 * 1024.

(** A [Read] stream: the bytes it delivers and how it ends. *)
Record Stream (E : Type) : Type := mkStream {
  st_bytes : bytes;
  st_error : option E }.
Arguments mkStream {E}.
Arguments st_bytes {E}.
Arguments st_error {E}.

(** [stream.take(n).read_to_end()]: the error is met only when the stream ends
    before the limit does. *)
Definition take_read_to_end {E} (n : Z) (s : Stream E) : result E bytes :=
  if n <=? Z.of_nat (length (st_bytes s)) then Ok (take (Z.to_nat n) (st_bytes s))
  else match st_error s with
       | Some e => Err e
       | None => Ok (st_bytes s)
       end.

Class CborApi := {
  ser_error : Type;
  de_error : Type;
  (** [ciborium::ser::into_writer] into an empty vector *)
  into_writer : IngestBatch -> result ser_error bytes;
  (** [ciborium::de::from_reader] on a cursor: the value and the position *)
  from_reader : bytes -> result de_error (IngestBatch * nat) }.
Class ZstdApi := {
  io_error : Type;
  (** [zstd::stream::encode_all] *)
  encode_all : bytes -> Z -> result io_error bytes;
  (** [zstd::stream::Decoder::new] *)
  decoder_new : bytes -> result io_error (Stream io_error) }.
(** Both crates decode what they encoded, to the end of the input. *)
Class CodecLaws `{CborApi} `{ZstdApi} : Prop := {
  cbor_roundtrip b p : into_writer b = Ok p -> from_reader p = Ok (b, length p);
  zstd_roundtrip p level c :
    encode_all p level = Ok c -> decoder_new c = Ok (mkStream p None) }.

(* src: src/crates/protocol/src/codec.rs:10-15 EncodedBatch *)
Record EncodedBatch : Type := mkEncodedBatch {
  eb_batch_id : Uuid;
  eb_payload_sha256 : string;
  eb_uncompressed_len : nat;
  eb_bytes : bytes }.
(* src: src/crates/protocol/src/codec.rs:18-22 DecodedBatch *)
Record DecodedBatch : Type := mkDecodedBatch {
  db_batch : IngestBatch;
  db_payload_sha256 : string;
  db_payload : bytes }.

Section codec.
Context `{UuidApi} `{DigestApi} `{CborApi} `{ZstdApi}.

(* src: src/crates/protocol/src/codec.rs:25-40 CodecError *)
Inductive CodecError : Type :=
| CodecError_InvalidBatch (e : ValidationError)
| CodecError_Encode (e : ser_error)
| CodecError_Decode (e : de_error)
| CodecError_Compress (e : io_error)
| CodecError_Decompress (e : io_error)
| CodecError_PayloadTooLarge
| CodecError_TrailingData.

(* src: src/crates/protocol/src/codec.rs:57-78 encode_batch *)
Definition encode_batch (batch : IngestBatch) : result CodecError EncodedBatch :=
  _ ← map_err CodecError_InvalidBatch (validate batch);
  payload ← map_err CodecError_Encode (into_writer batch);
  _ ← guard_or (Z.of_nat (length payload) <=? MAX_DECOMPRESSED_BATCH_BYTES)
        CodecError_PayloadTooLarge;
  let payload_sha256 := sha256_hex payload in
  b ← map_err CodecError_Compress (encode_all payload 9);
  mret (mkEncodedBatch (ib_batch_id batch) payload_sha256 (length payload) b).

(* src: src/crates/protocol/src/codec.rs:90-117 decode_batch_with_payload *)
Definition decode_batch_with_payload (b : bytes) : result CodecError DecodedBatch :=
  decoder ← map_err CodecError_Decompress (decoder_new b);
  payload ← map_err CodecError_Decompress
              (take_read_to_end (MAX_DECOMPRESSED_BATCH_BYTES + 1) decoder);
  _ ← guard_or (Z.of_nat (length payload) <=? MAX_DECOMPRESSED_BATCH_BYTES)
        CodecError_PayloadTooLarge;
  let payload_sha256 := sha256_hex payload in
  '(batch, position) ← map_err CodecError_Decode (from_reader payload);
  _ ← guard_or (position =? length payload)%nat CodecError_TrailingData;
  _ ← map_err CodecError_InvalidBatch (validate batch);
  mret (mkDecodedBatch batch payload_sha256 payload).

(* src: src/crates/protocol/src/codec.rs:80-88 decode_batch *)
Definition decode_batch (b : bytes) : result CodecError IngestBatch :=
  db_batch <$> decode_batch_with_payload b.

(** ** Lemmas *)
Lemma take_read_bound {E} n (s : Stream E) p :
  0 <= n -> take_read_to_end n s = Ok p -> Z.of_nat (length p) <= n.
Proof.
  intros ?. unfold take_read_to_end. destruct (Z.leb_spec n (Z.of_nat (length (st_bytes s)))).
  - intros [= <-]. rewrite length_take. lia.
  - destruct (st_error s); [done|]. intros [= <-]. lia.
Qed.
Lemma take_read_all {E} n (p : bytes) :
  Z.of_nat (length p) < n -> take_read_to_end n (mkStream (E := E) p None) = Ok p.
Proof.
  intros. unfold take_read_to_end. cbn.
  by destruct (Z.leb_spec n (Z.of_nat (length p))); [lia|].
Qed.

(** Encoding, then decoding. *)
Lemma encode_decode `{!CodecLaws} batch e :
  encode_batch batch = Ok e ->
  exists payload,
    decode_batch_with_payload (eb_bytes e)
    = Ok (mkDecodedBatch batch (eb_payload_sha256 e) payload)
    /\ eb_payload_sha256 e = sha256_hex payload
    /\ eb_uncompressed_len e = length payload /\ eb_batch_id e = ib_batch_id batch
    /\ decode_batch (eb_bytes e) = Ok batch.
Proof.
  unfold encode_batch. intros He.
  apply bind_tt_Ok in He as [Hv%map_err_Ok He].
  apply bind_Ok in He as (payload & Hp%map_err_Ok & He).
  apply bind_tt_Ok in He as [Hl%guard_or_Ok He].
  apply bind_Ok in He as (c & Hc%map_err_Ok & He). injection He as <-. cbn.
  assert (Hd : decode_batch_with_payload c
               = Ok (mkDecodedBatch batch (sha256_hex payload) payload)).
  { unfold decode_batch_with_payload. apply zstd_roundtrip in Hc as ->. cbn [map_err mbind result_bind].
    apply Z.leb_le in Hl as Hl'. rewrite take_read_all by lia. cbn [map_err mbind result_bind].
    rewrite Hl. cbn [guard_or mbind result_bind]. apply cbor_roundtrip in Hp as ->.
    cbn [map_err mbind result_bind]. rewrite Nat.eqb_refl. cbn [guard_or mbind result_bind].
    by rewrite Hv. }
  exists payload. unfold decode_batch. rewrite Hd. done.
Qed.

(** ** Properties *)

(** Decoding returns what was encoded: the same batch, the payload whose
    length and digest the encoder reported. *)
Theorem codec_roundtrip `{!CodecLaws} batch e :
  encode_batch batch = Ok e ->
  exists payload,
    decode_batch_with_payload (eb_bytes e)
    = Ok (mkDecodedBatch batch (eb_payload_sha256 e) payload)
    /\ eb_payload_sha256 e = sha256_hex payload
    /\ eb_uncompressed_len e = length payload /\ eb_batch_id e = ib_batch_id batch
    /\ decode_batch (eb_bytes e) = Ok batch.
Proof. apply encode_decode. Qed.

(** What a successful decoding went through. *)
Lemma decode_inv b d :
  decode_batch_with_payload b = Ok d ->
  batch_wf (db_batch d)
  /\ Z.of_nat (length (db_payload d)) <= 2097152
  /\ from_reader (db_payload d) = Ok (db_batch d, length (db_payload d))
  /\ db_payload_sha256 d = sha256_hex (db_payload d).
Proof.
  unfold decode_batch_with_payload. intros He.
  apply bind_Ok in He as (dec & Hdec & He).
  apply bind_Ok in He as (payload & Hp & He).
  apply bind_tt_Ok in He as [Hl%guard_or_Ok%Z.leb_le He].
  apply bind_Ok in He as ([batch pos] & Hr%map_err_Ok & He).
  apply bind_tt_Ok in He as [Hpos%guard_or_Ok%Nat.eqb_eq He].
  apply bind_tt_Ok in He as [Hv%map_err_Ok He]. injection He as <-. cbn.
  split; [by apply batch_wf_Ok|]. unfold MAX_DECOMPRESSED_BATCH_BYTES in Hl.
  split; [lia|]. by subst.
Qed.

(** Whatever the bytes, a decoded batch is well formed, came from a payload
    of at most two mebibytes that the CBOR reader consumed entirely, and is
    reported with the digest of that payload. *)
Theorem decode_sound b d :
  decode_batch_with_payload b = Ok d ->
  batch_wf (db_batch d)
  /\ Z.of_nat (length (db_payload d)) <= 2097152
  /\ from_reader (db_payload d) = Ok (db_batch d, length (db_payload d))
  /\ db_payload_sha256 d = sha256_hex (db_payload d).
Proof. apply decode_inv. Qed.

(** A stream that inflates past the limit is refused as too large, however
    long it is and however it ends: at most one byte over the limit is read. *)
Theorem decode_bomb_refused b s :
  decoder_new b = Ok s -> MAX_DECOMPRESSED_BATCH_BYTES < Z.of_nat (length (st_bytes s)) ->
  decode_batch_with_payload b = Err CodecError_PayloadTooLarge
  /\ forall p, take_read_to_end (MAX_DECOMPRESSED_BATCH_BYTES + 1) s = Ok p ->
       Z.of_nat (length p) <= MAX_DECOMPRESSED_BATCH_BYTES + 1.
Proof.
  intros Hs Hl. split; [|intros p; by apply take_read_bound].
  unfold decode_batch_with_payload.
  apply bind_Err; right. exists s. rewrite Hs. split; [done|].
  apply bind_Err; right. exists (take (Z.to_nat (MAX_DECOMPRESSED_BATCH_BYTES + 1)) (st_bytes s)).
  split.
  - unfold take_read_to_end. rewrite (proj2 (Z.leb_le _ _)) by lia. reflexivity.
  - apply bind_Err; left. apply guard_or_Err. split; [|done]. apply Z.leb_gt.
    rewrite length_take. lia.
Qed.
End codec.

(** ** Witnesses *)
Module CodecFixture.
Definition sample_batch : IngestBatch :=
  mkIngestBatch 1 (uuid7 1) 1000
    (mkClientInstance "client" (uuid7 2) "host" "linux" "0.1" 900)
    [mkTaskUpload sample_snapshot [] [] [] []]
    [mkHeartbeat (uuid7 3) "client" (uuid7 2) 1000 0 1 IntegrityState_Complete None].

(** A CBOR writer that knows one batch, and a zstd whose frames are stored
    blocks; a frame of type 1 is a run of zeros of the given length. *)
#[export] Instance cbor : CborApi := {|
  ser_error := unit; de_error := unit;
  into_writer b := if decide (b = sample_batch) then Ok [x2a; x2b] else Err tt;
  from_reader p := if decide (take 2 p = [x2a; x2b]) then Ok (sample_batch, 2%nat) else Err tt |}.
#[export] Instance zstd : ZstdApi := {|
  io_error := unit;
  encode_all p _ := Ok (x02 :: p);
  decoder_new b := match b with
                   | x02 :: p => Ok (mkStream p None)
                   | x01 :: n => Ok (mkStream (replicate (Z.to_nat (be_val n)) x00) None)
                   | _ => Err tt
                   end |}.
#[export] Instance laws : CodecLaws.
Proof.
  split.
  - intros b p. cbn. case_decide; [|done]. intros [= <-]. subst. cbn. done.
  - intros p level c [= <-]. done.
Qed.

Lemma codec_roundtrip_witness : exists e payload, encode_batch sample_batch = Ok e
  /\ decode_batch_with_payload (eb_bytes e)
     = Ok (mkDecodedBatch sample_batch (eb_payload_sha256 e) payload).
Proof.
  assert (Hok : is_ok (encode_batch sample_batch) = true) by (vm_compute; reflexivity).
  destruct (encode_batch sample_batch) as [e|] eqn:E; [|discriminate Hok].
  destruct (codec_roundtrip sample_batch e E) as (payload & Hd & _). by exists e, payload.
Defined.

Lemma decode_sound_witness : exists d, decode_batch_with_payload [x02; x2a; x2b] = Ok d
  /\ batch_wf (db_batch d).
Proof.
  assert (Hok : is_ok (decode_batch_with_payload [x02; x2a; x2b]) = true)
    by (vm_compute; reflexivity).
  destruct (decode_batch_with_payload [x02; x2a; x2b]) as [d|] eqn:E; [|discriminate Hok].
  destruct (decode_sound _ _ E) as [Hw _]. by exists d.
Defined.

Lemma zstd_run n : decoder_new (x01 :: n) = Ok (mkStream (replicate (Z.to_nat (be_val n)) x00) None).
Proof. reflexivity. Qed.
Lemma decode_bomb_refused_witness :
  decode_batch_with_payload [x01; x20; x00; x01] = Err CodecError_PayloadTooLarge.
Proof.
  refine (proj1 (decode_bomb_refused [x01; x20; x00; x01] _ (zstd_run _) _)).
  cbn [st_bytes]. rewrite length_replicate, Z2Nat.id; [reflexivity | by vm_compute].
Defined.
End CodecFixture.
