(* ===== verification/Tcp.v ===== *)
(** * TCP reassembly

    [src/crates/capture/src/tcp.rs].  Sequence numbers are [u32]s ([Z] with
    [wrap32]); the [BTreeMap] of out-of-order fragments is a [gmap] (the code
    never iterates over it); a slice expression out of range panics, which
    [None] stands for.  The theorems relate the assembler to the byte stream
    its segments were cut from. *)
From Stdlib Require Import ZArith Lia Strings.Byte.
From S2P Require Import Prelude.
Local Open Scope Z_scope.

Definition blen (b : bytes) : Z := Z.of_nat (length b).

(** [&b[from..to]]. *)
Definition slice (b : bytes) (from to : Z) : option bytes :=
  if (0 <=? from) && (from <=? to) && (to <=? blen b)
  then Some (take (Z.to_nat (to - from)) (drop (Z.to_nat from) b)) else None.

(* src: src/crates/capture/src/tcp.rs:4-8 AssembledChunk *)
Record AssembledChunk : Type := mkChunk {
  ac_bytes : bytes;
  ac_fin : bool;
  ac_rst : bool }.

(* src: src/crates/capture/src/tcp.rs:11-16 AssemblerResult *)
Inductive AssemblerResult : Type :=
| Pending
| Advanced (c : AssembledChunk)
| GapDetected
| ConflictDetected.

(* src: src/crates/capture/src/tcp.rs:19-23 PendingFragment *)
Record PendingFragment : Type := mkFragment {
  pf_payload : bytes;
  pf_fin : bool;
  pf_rst : bool }.

(* src: src/crates/capture/src/tcp.rs:26-29 DeliveredSegment *)
Record DeliveredSegment : Type := mkDelivered {
  dl_seq : Z;
  dl_bytes : bytes }.

(* src: src/crates/capture/src/tcp.rs:32-40 TcpAssembler *)
Record TcpAssembler : Type := mkAssembler {
  next_seq : option Z;
  pending : gmap Z PendingFragment;
  delivered : list DeliveredSegment;
  delivered_bytes : Z;
  history_limit : Z;
  max_gap : Z;
  degraded : bool }.

(* src: src/crates/capture/src/tcp.rs:43-53 TcpAssembler::default *)
Definition TcpAssembler_new : TcpAssembler :=
  {| next_seq := None;
     pending := ∅;
     delivered := [];
     delivered_bytes := 0;
     history_limit := 1024 * 1024;
     max_gap := 256 * 1024;
     degraded := false |}.

Definition set_degraded (s : TcpAssembler) : TcpAssembler :=
  {| next_seq := next_seq s; pending := pending s; delivered := delivered s;
     delivered_bytes := delivered_bytes s; history_limit := history_limit s;
     max_gap := max_gap s; degraded := true |}.
Definition set_pending (s : TcpAssembler) (p : gmap Z PendingFragment) : TcpAssembler :=
  {| next_seq := next_seq s; pending := p; delivered := delivered s;
     delivered_bytes := delivered_bytes s; history_limit := history_limit s;
     max_gap := max_gap s; degraded := degraded s |}.

(** The [while] loop of [record]. *)
(* src: src/crates/capture/src/tcp.rs:215-227 TcpAssembler::record *)
Fixpoint evict_history (limit : Z) (bytes_held : Z) (l : list DeliveredSegment)
    : list DeliveredSegment * Z :=
  if limit <? bytes_held then
    match l with
    | [] => ([], bytes_held)
    | segment :: l' =>
      evict_history limit (Z.max 0 (bytes_held - blen (dl_bytes segment))) l'
    end
  else (l, bytes_held).

(* src: src/crates/capture/src/tcp.rs:215-227 TcpAssembler::record *)
Definition record (s : TcpAssembler) (seq : Z) (payload : bytes) : TcpAssembler :=
  let '(l, n) :=
    evict_history (history_limit s) (delivered_bytes s + blen payload)
      (delivered s ++ [mkDelivered seq payload]) in
  {| next_seq := next_seq s; pending := pending s; delivered := l;
     delivered_bytes := n; history_limit := history_limit s;
     max_gap := max_gap s; degraded := degraded s |}.

(** One iteration of the loop of [match_overlap]: the bytes matched, [Some None]
    for the [return false]. *)
(* src: src/crates/capture/src/tcp.rs:183-207 TcpAssembler::match_overlap *)
Definition overlap_segment (seq : Z) (payload : bytes) (segment : DeliveredSegment)
    : option (option Z) :=
  let overlap_end := wrap32 (seq + blen payload) in
  let seg_end := wrap32 (dl_seq segment + blen (dl_bytes segment)) in
  if (overlap_end <=? dl_seq segment) || (seg_end <=? seq) then Some (Some 0)
  else
    let start := Z.max seq (dl_seq segment) in
    let stop := Z.min overlap_end seg_end in
    let seg_offset := wrap32 (start - dl_seq segment) in
    let payload_offset := wrap32 (start - seq) in
    let len := wrap32 (stop - start) in
    a ← slice (dl_bytes segment) seg_offset (seg_offset + len);
    b ← slice payload payload_offset (payload_offset + len);
    Some (if bool_decide (a = b) then Some len else None).

(* src: src/crates/capture/src/tcp.rs:183-207 TcpAssembler::match_overlap *)
Fixpoint overlap_loop (seq : Z) (payload : bytes) (matched : Z) (l : list DeliveredSegment)
    : option bool :=
  match l with
  | [] => Some (matched =? blen payload)
  | segment :: l' =>
    r ← overlap_segment seq payload segment;
    match r with
    | None => Some false
    | Some len => overlap_loop seq payload (matched + len) l'
    end
  end.

(* src: src/crates/capture/src/tcp.rs:183-207 TcpAssembler::match_overlap *)
Definition match_overlap (s : TcpAssembler) (seq : Z) (payload : bytes) : option bool :=
  overlap_loop seq payload 0 (delivered s).

(* src: src/crates/capture/src/tcp.rs:209-213 TcpAssembler::is_exact_retransmit *)
Definition is_exact_retransmit (s : TcpAssembler) (seq : Z) (payload : bytes) : bool :=
  existsb (fun segment => (dl_seq segment =? seq) && bool_decide (dl_bytes segment = payload))
    (delivered s).

(** The tail of [accept_fragment]: the fragment starts at the next byte. *)
(* src: src/crates/capture/src/tcp.rs:131-164 TcpAssembler::accept_fragment *)
Definition deliver (s : TcpAssembler) (seq : Z) (payload : bytes) (fin rst : bool)
    : TcpAssembler * AssemblerResult :=
  let s1 := {| next_seq := Some (wrap32 (seq + blen payload)); pending := pending s;
               delivered := delivered s; delivered_bytes := delivered_bytes s;
               history_limit := history_limit s; max_gap := max_gap s;
               degraded := degraded s |} in
  (record s1 seq payload, Advanced (mkChunk payload fin rst)).

(** [next] is [self.next_seq.expect("initialized")]; the recursive call of the
    code starts at [next], so it is its tail [deliver]. *)
(* src: src/crates/capture/src/tcp.rs:131-164 TcpAssembler::accept_fragment *)
Definition accept_fragment (s : TcpAssembler) (next : Z) (seq : Z) (payload : bytes)
    (fin rst : bool) : option (TcpAssembler * AssemblerResult) :=
  if seq <? next then
    let overlap := wrap32 (next - seq) in
    if blen payload <=? overlap then
      m ← match_overlap s seq payload;
      Some (if (m : bool) then (s, Pending) else (set_degraded s, ConflictDetected))
    else
      head ← slice payload 0 overlap;
      m ← match_overlap s seq head;
      if (m : bool) then
        tail ← slice payload overlap (blen payload);
        Some (deliver s next tail fin rst)
      else Some (set_degraded s, ConflictDetected)
  else Some (deliver s seq payload fin rst).

(** The [while let] loop: every iteration removes a fragment, so the number of
    fragments is enough fuel. *)
(* src: src/crates/capture/src/tcp.rs:166-181 TcpAssembler::flush_pending *)
Fixpoint flush_pending (fuel : nat) (s : TcpAssembler) (current : AssembledChunk)
    : option (TcpAssembler * AssemblerResult) :=
  match fuel, next_seq s with
  | S fuel', Some next =>
    match pending s !! next with
    | None => Some (s, Advanced current)
    | Some fragment =>
      let s1 := set_pending s (delete next (pending s)) in
      '(s2, r) ← accept_fragment s1 next next (pf_payload fragment) (pf_fin fragment)
                   (pf_rst fragment);
      match r with
      | Advanced nxt =>
        flush_pending fuel' s2
          (mkChunk (ac_bytes current ++ ac_bytes nxt) (ac_fin current || ac_fin nxt)
             (ac_rst current || ac_rst nxt))
      | other => Some (s2, other)
      end
    end
  | _, _ => Some (s, Advanced current)
  end.

(* src: src/crates/capture/src/tcp.rs:66-120 TcpAssembler::push_segment *)
Definition push_segment (s : TcpAssembler) (seq : Z) (payload : bytes) (fin rst : bool)
    : option (TcpAssembler * AssemblerResult) :=
  if degraded s then Some (s, ConflictDetected)
  else match next_seq s with
  | None => Some (deliver s seq payload fin rst)
  | Some next =>
    match payload with
    | [] => Some (s, if fin || rst then Advanced (mkChunk [] fin rst) else Pending)
    | _ =>
      if next <? seq then
        let gap := wrap32 (seq - next) in
        if max_gap s <? gap then Some (set_degraded s, GapDetected)
        else
          Some (match pending s !! seq with
                | Some _ => s
                | None => set_pending s (<[seq := mkFragment payload fin rst]> (pending s))
                end, Pending)
      else if is_exact_retransmit s seq payload && negb fin && negb rst then Some (s, Pending)
      else
        '(s1, r) ← accept_fragment s next seq payload fin rst;
        match r with
        | Advanced chunk => flush_pending (size (pending s1)) s1 chunk
        | other => Some (s1, other)
        end
    end
  end.

(* src: src/crates/capture/src/tcp.rs:62-64 TcpAssembler::push *)
Definition push (s : TcpAssembler) (seq : Z) (payload : bytes)
    : option (TcpAssembler * AssemblerResult) := push_segment s seq payload false false.

(* src: src/crates/capture/src/tcp.rs:122-129 TcpAssembler::finish *)
Definition finish (s : TcpAssembler) : TcpAssembler * AssemblerResult :=
  if degraded s || negb (bool_decide (pending s = ∅)) then (set_degraded s, GapDetected)
  else (s, Pending).

(** ** The history and [match_overlap] *)
Definition history (l : list DeliveredSegment) : bytes := concat (map dl_bytes l).

(** The delivered segments follow one another from sequence number [a] on. *)
Fixpoint contiguous (a : Z) (l : list DeliveredSegment) : Prop :=
  match l with
  | [] => True
  | d :: l' => dl_seq d = a /\ contiguous (a + blen (dl_bytes d)) l'
  end.

(** Two byte ranges agree where both have a byte. *)
Definition agree (a : Z) (h : bytes) (seq : Z) (p : bytes) : Prop :=
  forall x, a <= x < a + blen h -> seq <= x < seq + blen p ->
  h !! Z.to_nat (x - a) = p !! Z.to_nat (x - seq).
Definition overlap_len (a la seq lp : Z) : Z :=
  Z.max 0 (Z.min (seq + lp) (a + la) - Z.max seq a).

Lemma blen_app l1 l2 : blen (l1 ++ l2) = blen l1 + blen l2.
Proof. unfold blen. rewrite length_app. lia. Qed.
Lemma blen_nonneg l : 0 <= blen l.
Proof. unfold blen. lia. Qed.
Lemma blen_nil : blen [] = 0.
Proof. done. Qed.
Lemma blen_pos b l : 0 < blen (b :: l).
Proof. unfold blen. cbn. lia. Qed.
Lemma wrap32_small z : 0 <= z < 2 ^ 32 -> wrap32 z = z.
Proof. apply wrap_small. Qed.

Lemma slice_Some b from to :
  0 <= from -> from <= to -> to <= blen b ->
  slice b from to = Some (take (Z.to_nat (to - from)) (drop (Z.to_nat from) b)).
Proof.
  intros. unfold slice.
  by rewrite (proj2 (Z.leb_le _ _) H), (proj2 (Z.leb_le _ _) H0), (proj2 (Z.leb_le _ _) H1).
Qed.

Lemma overlap_segment_spec seq p d :
  0 <= dl_seq d -> dl_seq d + blen (dl_bytes d) < 2 ^ 32 ->
  0 <= seq -> seq + blen p < 2 ^ 32 ->
  (overlap_segment seq p d
     = Some (Some (overlap_len (dl_seq d) (blen (dl_bytes d)) seq (blen p)))
   /\ agree (dl_seq d) (dl_bytes d) seq p)
  \/ (overlap_segment seq p d = Some None /\ ~ agree (dl_seq d) (dl_bytes d) seq p).
Proof.
  destruct d as [a h]. cbn. intros Ha Hh Hs Hp.
  pose proof (blen_nonneg h). pose proof (blen_nonneg p).
  unfold overlap_segment, overlap_len, agree. cbn.
  rewrite (wrap32_small (seq + blen p)), (wrap32_small (a + blen h)) by lia.
  destruct (Z.leb_spec (seq + blen p) a); cbn;
    [left; split; [do 2 f_equal; lia | intros; lia]|].
  destruct (Z.leb_spec (a + blen h) seq);
    [left; split; [do 2 f_equal; lia | intros; lia]|].
  remember (Z.max seq a) as st eqn:Hst. remember (Z.min (seq + blen p) (a + blen h)) as e eqn:He.
  assert (0 <= e - st /\ a <= st /\ seq <= st) as Hse by lia.
  rewrite (wrap32_small (st - a)), (wrap32_small (st - seq)), (wrap32_small (e - st)) by lia.
  rewrite !slice_Some by lia. cbn.
  replace (st - a + (e - st) - (st - a)) with (e - st) by lia.
  replace (st - seq + (e - st) - (st - seq)) with (e - st) by lia.
  case_bool_decide as Heq; [left|right]; (split; [do 2 f_equal; lia|]).
  - intros x Hx1 Hx2. apply (f_equal (lookup (Z.to_nat (x - st)))) in Heq.
    rewrite !lookup_take_lt, !lookup_drop in Heq by lia.
    replace (Z.to_nat (st - a) + Z.to_nat (x - st))%nat with (Z.to_nat (x - a)) in Heq by lia.
    by replace (Z.to_nat (st - seq) + Z.to_nat (x - st))%nat with (Z.to_nat (x - seq)) in Heq by lia.
  - intros Hag. apply Heq. apply list_eq. intros i.
    destruct (decide (i < Z.to_nat (e - st))%nat); [|by rewrite !lookup_take_ge by lia].
    rewrite !lookup_take_lt, !lookup_drop by lia.
    specialize (Hag (st + Z.of_nat i)).
    replace (Z.to_nat (st - a) + i)%nat with (Z.to_nat (st + Z.of_nat i - a)) by lia.
    replace (Z.to_nat (st - seq) + i)%nat with (Z.to_nat (st + Z.of_nat i - seq)) by lia.
    apply Hag; lia.
Qed.

Lemma agree_app a h1 h2 seq p :
  agree a (h1 ++ h2) seq p <-> agree a h1 seq p /\ agree (a + blen h1) h2 seq p.
Proof.
  unfold agree. rewrite blen_app. pose proof (blen_nonneg h1). pose proof (blen_nonneg h2).
  split.
  - intros Hag. split; intros x Hx1 Hx2; specialize (Hag x ltac:(lia) Hx2); rewrite <- Hag.
    + rewrite lookup_app_l; [done|]. unfold blen in *. lia.
    + rewrite lookup_app_r by (unfold blen in *; lia). f_equal. unfold blen in *. lia.
  - intros [H1 H2] x Hx1 Hx2. destruct (decide (x < a + blen h1)).
    + rewrite lookup_app_l by (unfold blen in *; lia). apply H1; lia.
    + rewrite lookup_app_r by (unfold blen in *; lia). rewrite <- H2 by lia. f_equal.
      unfold blen in *. lia.
Qed.

Lemma overlap_loop_spec seq p l a m :
  contiguous a l -> 0 <= a -> a + blen (history l) < 2 ^ 32 ->
  0 <= seq -> seq + blen p < 2 ^ 32 ->
  exists r, overlap_loop seq p m l = Some r
  /\ (r = true <-> agree a (history l) seq p
                   /\ m + overlap_len a (blen (history l)) seq (blen p) = blen p).
Proof.
  revert a m. induction l as [|d l IH]; intros a m Hc Ha Hh Hs Hp.
  - exists (m =? blen p). split; [done|]. rewrite Z.eqb_eq.
    pose proof (blen_nonneg p). unfold agree, overlap_len. change (blen (history [])) with 0.
    split; [intros ->; split; [intros x ? ?; lia | lia] | intros [_ ?]; lia].
  - cbn in Hc. destruct Hc as [Hd Hc]. change (history (d :: l)) with (dl_bytes d ++ history l) in *.
    rewrite blen_app in *. pose proof (blen_nonneg (history l)). pose proof (blen_nonneg (dl_bytes d)).
    pose proof (blen_nonneg p).
    cbn [overlap_loop]. setoid_rewrite agree_app.
    destruct (overlap_segment_spec seq p d) as [[-> Hag]|[-> Hag]]; try lia; rewrite Hd in *; cbn.
    + destruct (IH (a + blen (dl_bytes d)) (m + overlap_len a (blen (dl_bytes d)) seq (blen p)))
        as (r & -> & Hr); try done; try lia.
      exists r. split; [done|]. rewrite Hr.
      replace (overlap_len a (blen (dl_bytes d) + blen (history l)) seq (blen p))
        with (overlap_len a (blen (dl_bytes d)) seq (blen p)
              + overlap_len (a + blen (dl_bytes d)) (blen (history l)) seq (blen p))
        by (unfold overlap_len; lia).
      rewrite Z.add_assoc. tauto.
    + exists false. split; [done|]. split; [done|]. tauto.
Qed.

(** [match_overlap] compares a range with the retained history: it is true
    exactly when the history holds that range with those bytes. *)
Lemma match_overlap_spec s a seq p :
  contiguous a (delivered s) -> 0 <= a -> a + blen (history (delivered s)) < 2 ^ 32 ->
  0 <= seq -> seq + blen p < 2 ^ 32 -> p <> [] ->
  exists r, match_overlap s seq p = Some r
  /\ (r = true <-> a <= seq /\ seq + blen p <= a + blen (history (delivered s))
                   /\ take (length p) (drop (Z.to_nat (seq - a)) (history (delivered s))) = p).
Proof.
  intros Hc Ha Hh Hs Hp Hne. destruct (overlap_loop_spec seq p _ a 0 Hc Ha Hh Hs Hp) as (r & Hr & Hiff).
  exists r. split; [done|]. rewrite Hiff. clear Hr Hiff. set (h := history (delivered s)) in *.
  assert (0 < blen p) by (destruct p; [done | apply blen_pos]).
  unfold overlap_len. split.
  - intros [Hag Ho]. assert (a <= seq /\ seq + blen p <= a + blen h) as [H1 H2] by lia.
    split; [done|]. split; [done|]. apply list_eq. intros i.
    destruct (decide (i < length p)%nat).
    + rewrite lookup_take_lt, lookup_drop by done. specialize (Hag (seq + Z.of_nat i)).
      unfold blen in *. transitivity (p !! Z.to_nat (seq + Z.of_nat i - seq)); [|f_equal; lia].
      rewrite <- Hag by lia. f_equal. lia.
    + rewrite lookup_take_ge by lia. symmetry. apply lookup_ge_None. lia.
  - intros (H1 & H2 & E). split; [|lia]. intros x Hx1 Hx2.
    transitivity (take (length p) (drop (Z.to_nat (seq - a)) h) !! Z.to_nat (x - seq));
      [|by rewrite E].
    unfold blen in *. rewrite lookup_take_lt, lookup_drop by lia. f_equal. lia.
Qed.

(** ** Runs *)
Record Segment : Type := mkSegment {
  sg_seq : Z;
  sg_payload : bytes;
  sg_fin : bool;
  sg_rst : bool }.

(** [push_segment] on each segment in order of arrival, with what it returned. *)
Fixpoint assemble (s : TcpAssembler) (segs : list Segment)
    : option (TcpAssembler * list AssemblerResult) :=
  match segs with
  | [] => Some (s, [])
  | g :: segs' =>
    '(s1, r) ← push_segment s (sg_seq g) (sg_payload g) (sg_fin g) (sg_rst g);
    '(s2, rs) ← assemble s1 segs';
    Some (s2, r :: rs)
  end.
Definition chunk_of (r : AssemblerResult) : bytes :=
  match r with Advanced c => ac_bytes c | _ => [] end.
(** Everything the caller was handed. *)
Definition emitted (rs : list AssemblerResult) : bytes := concat (map chunk_of rs).

(** ** Cuts of a stream *)
Section cuts.
Context (S : bytes).
(** [p] is what the stream holds from offset [off]. *)
Definition cut (off : nat) (p : bytes) : Prop := exists rest, drop off S = p ++ rest.
Lemma cut_length off p : cut off p -> (length p <= length S - off)%nat.
Proof. intros [r E]. apply (f_equal length) in E. rewrite length_drop, length_app in E. lia. Qed.
Lemma cut_take off p : cut off p -> take (length p) (drop off S) = p.
Proof. intros [r ->]. by rewrite take_app_length. Qed.
Lemma cut_drop off p k : cut off p -> (k <= length p)%nat -> cut (off + k) (drop k p).
Proof.
  intros [r E] Hk. exists r. rewrite <- drop_drop, E, drop_app_le by lia. done.
Qed.
Lemma take_add n k : take (n + k) S = take n S ++ take k (drop n S).
Proof. by rewrite take_take_drop. Qed.
End cuts.
Arguments cut_length {S off p} _.
Arguments cut_take {S off p} _.
Arguments cut_drop {S off p k} _ _.
Arguments take_add {S} _ _.

(** ** Any stream of up to two gibibytes *)
Section wrapped.
(** [S] is the stream, [b] the sequence number of its first byte; sequence numbers
    wrap around. *)
Context (S : bytes) (b : Z) (Hlen : blen S <= 2 ^ 31).
Definition seq_at (off : nat) : Z := wrap32 (b + Z.of_nat off).
Definition wrapped_segment (g : Segment) : Prop :=
  exists off, sg_seq g = seq_at off /\ (off <= length S)%nat /\ cut S off (sg_payload g).

Lemma seq_at_range off : 0 <= seq_at off < 2 ^ 32.
Proof. apply wrap_bound. lia. Qed.
(** Offsets in the stream differ by less than half the sequence space. *)
Lemma seq_at_sub n off k : (n <= length S)%nat -> (off <= length S)%nat ->
  seq_at n - seq_at off = k -> 0 <= k < 2 ^ 31 -> Z.of_nat n - Z.of_nat off = k.
Proof.
  unfold seq_at, wrap, blen in *. intros Hn Ho. Z.to_euclidean_division_equations. lia.
Qed.
Lemma seq_at_inj n off : (n <= length S)%nat -> (off <= length S)%nat ->
  seq_at off = seq_at n -> off = n.
Proof. intros Hn Ho E. pose proof (seq_at_sub n off 0 Hn Ho). lia. Qed.
Lemma seq_at_add off k : wrap32 (seq_at off + Z.of_nat k) = seq_at (off + k).
Proof.
  unfold seq_at, wrap. rewrite Zplus_mod_idemp_l. f_equal. lia.
Qed.

(** After [n] bytes of the stream: the next sequence number, the pending fragments
    are cuts, and what is retained is no longer than the stream. *)
Record WInv (n : nat) (s : TcpAssembler) : Prop := mk_WInv {
  wi_next : next_seq s = Some (seq_at n);
  wi_n : (n <= length S)%nat;
  wi_pending : forall k f, pending s !! k = Some f ->
    exists off, k = seq_at off /\ (off <= length S)%nat /\ cut S off (pf_payload f);
  wi_delivered : Forall (fun d => 0 <= dl_seq d < 2 ^ 32 /\ blen (dl_bytes d) <= blen S) (delivered s) }.

Lemma cut_blen off p : cut S off p -> (off <= length S)%nat -> Z.of_nat off + blen p <= blen S.
Proof. intros Hc%cut_length Ho. unfold blen. lia. Qed.
(** No slice of [match_overlap] is out of range, for a range that does not itself
    wrap around. *)
Lemma overlap_segment_total seq p d : 0 <= seq -> seq + blen p < 2 ^ 32 -> blen p <= blen S ->
  0 <= dl_seq d < 2 ^ 32 -> blen (dl_bytes d) <= blen S -> exists r, overlap_segment seq p d = Some r.
Proof.
  intros Hs Hp Hps Hd Hds. destruct (Z.lt_ge_cases (dl_seq d + blen (dl_bytes d)) (2 ^ 32)) as [Hlt|Hge].
  - destruct (overlap_segment_spec seq p d) as [[-> _]|[-> _]]; eauto; lia.
  - unfold overlap_segment. pose proof (blen_nonneg p). rewrite (wrap32_small (seq + blen p)) by lia.
    assert (wrap32 (dl_seq d + blen (dl_bytes d)) = dl_seq d + blen (dl_bytes d) - 2 ^ 32) as ->.
    { unfold wrap. Z.to_euclidean_division_equations. lia. }
    destruct (Z.leb_spec (seq + blen p) (dl_seq d)); cbn [orb]; [by eexists|].
    destruct (Z.leb_spec (dl_seq d + blen (dl_bytes d) - 2 ^ 32) seq); [by eexists|]. lia.
Qed.
Lemma match_overlap_total n s seq p : WInv n s -> 0 <= seq -> seq + blen p < 2 ^ 32 -> blen p <= blen S ->
  exists r, match_overlap s seq p = Some r.
Proof.
  intros HI Hs Hp Hps. unfold match_overlap. generalize 0 as m.
  induction (wi_delivered _ _ HI) as [|d l [Hd Hl] _ IH]; intros m; cbn [overlap_loop]; [by eexists|].
  destruct (overlap_segment_total seq p d Hs Hp Hps Hd Hl) as (r & ->). cbn [mbind option_bind].
  destruct r as [len|]; [apply IH | by eexists].
Qed.
Lemma evict_Forall {P : DeliveredSegment -> Prop} limit m l :
  Forall P l -> Forall P (evict_history limit m l).1.
Proof.
  intros Hl. revert m. induction Hl as [|d l Hd Hl IH]; intros m; cbn [evict_history]; destruct (limit <? m);
    [constructor.. | apply IH | by constructor].
Qed.
Lemma WInv_deliver n s p fin rst : WInv n s -> cut S n p ->
  exists s', deliver s (seq_at n) p fin rst = (s', Advanced (mkChunk p fin rst))
    /\ WInv (n + length p) s' /\ pending s' = pending s.
Proof.
  intros [Hx Hn Hp Hd] Hc. pose proof (cut_blen _ _ Hc Hn) as Hl. unfold deliver, record. cbn.
  assert (Forall (fun d => 0 <= dl_seq d < 2 ^ 32 /\ blen (dl_bytes d) <= blen S)
            (delivered s ++ [mkDelivered (seq_at n) p])) as Hd'.
  { apply Forall_app. split; [done|]. constructor; [|done]. cbn. split; [apply seq_at_range | lia]. }
  apply (evict_Forall (history_limit s) (delivered_bytes s + blen p)) in Hd'.
  destruct (evict_history _ _ _) as [l m]. eexists. split; [reflexivity|]. split; [|done].
  split; cbn; [by rewrite <- seq_at_add | unfold blen in *; lia | done | exact Hd'].
Qed.
Lemma WInv_pending n s p : WInv n s -> p ⊆ pending s -> WInv n (set_pending s p).
Proof. intros [Hx Hn Hp Hd] Hsub. split; cbn; try done. intros k f Hk. eapply Hp, lookup_weaken; eauto. Qed.
Lemma WInv_degraded n s : WInv n s -> WInv n (set_degraded s).
Proof. by intros []; split. Qed.

(** What a step hands out. *)
Definition goes_on (n : nat) (o : option (TcpAssembler * AssemblerResult)) : Prop :=
  exists s r m, o = Some (s, r) /\ (n <= m)%nat /\ WInv m s /\ chunk_of r = take (m - n) (drop n S).
Lemma goes_nowhere n s r : WInv n s -> chunk_of r = [] -> goes_on n (Some (s, r)).
Proof. intros HI Hr. exists s, r, n. by rewrite Nat.sub_diag, take_0. Qed.
(** A fragment at or before the next byte is dropped, refused, or its tail delivered. *)
Lemma accept_wrapped n s off p fin rst : WInv n s -> (off <= length S)%nat -> cut S off p ->
  seq_at off <= seq_at n ->
  exists s' r, accept_fragment s (seq_at n) (seq_at off) p fin rst = Some (s', r)
    /\ ((WInv n s' /\ chunk_of r = [] /\ (forall c, r <> Advanced c))
        \/ exists q, r = Advanced (mkChunk q fin rst) /\ cut S n q /\ WInv (n + length q) s').
Proof.
  intros HI Ho Hc Hle. pose proof (wi_n _ _ HI) as Hn. pose proof (cut_blen _ _ Hc Ho) as Hl.
  pose proof (seq_at_range n). pose proof (seq_at_range off). pose proof (blen_nonneg p). unfold accept_fragment.
  destruct (Z.ltb_spec (seq_at off) (seq_at n)) as [Hlt|Hge].
  - rewrite wrap32_small by lia. destruct (Z.leb_spec (blen p) (seq_at n - seq_at off)) as [Hall|Htail].
    + destruct (match_overlap_total n s (seq_at off) p HI) as (m & ->); [lia..|]. cbn [mbind option_bind].
      destruct m; eexists _, _; (split; [reflexivity|]); left; [done | split; [by apply WInv_degraded | done]].
    + assert (Hk : Z.of_nat n - Z.of_nat off = seq_at n - seq_at off)
        by (apply seq_at_sub; try done; lia).
      rewrite !slice_Some by lia. cbn [mbind option_bind]. rewrite drop_0, Z.sub_0_r.
      set (k := Z.to_nat (seq_at n - seq_at off)) in *.
      destruct (match_overlap_total n s (seq_at off) (take k p) HI) as (m & ->);
        [lia | unfold blen in *; rewrite length_take; lia..|]. cbn [mbind option_bind].
      destruct m; [|eexists _, _; split; [reflexivity|]; left; split; [by apply WInv_degraded | done]].
      rewrite firstn_all2 by (rewrite length_drop; unfold blen, k in *; lia).
      assert (Hcut : cut S n (drop k p)).
      { replace n with (off + k)%nat by (unfold k; lia). apply cut_drop; [done | unfold blen, k in *; lia]. }
      destruct (WInv_deliver n s (drop k p) fin rst HI Hcut) as (s' & Hd & HI' & _).
      eexists _, _. split; [by rewrite Hd|]. right. by exists (drop k p).
  - assert (off = n) as -> by (apply seq_at_inj; try done; lia).
    destruct (WInv_deliver n s p fin rst HI Hc) as (s' & Hd & HI' & _).
    eexists _, _. split; [by rewrite Hd|]. right. by exists p.
Qed.
Lemma flush_wrapped fuel n s c : WInv n s ->
  exists s' m fin rst, flush_pending fuel s c
    = Some (s', Advanced (mkChunk (ac_bytes c ++ take (m - n) (drop n S)) fin rst))
  /\ (n <= m)%nat /\ WInv m s'.
Proof.
  revert n s c. induction fuel as [|fuel IH]; intros n s c HI.
  - exists s, n, (ac_fin c), (ac_rst c). cbn. rewrite Nat.sub_diag, take_0, app_nil_r. by destruct c.
  - cbn [flush_pending]. rewrite (wi_next _ _ HI).
    destruct (pending s !! seq_at n) as [f|] eqn:Ef.
    + destruct (wi_pending _ _ HI _ _ Ef) as (off & Hoff%symmetry & Ho & Hc).
      apply seq_at_inj in Hoff as ->; [|apply HI | done]. unfold accept_fragment. rewrite Z.ltb_irrefl.
      destruct (WInv_deliver n (set_pending s (delete (seq_at n) (pending s))) (pf_payload f) (pf_fin f) (pf_rst f))
        as (s2 & Hd & HI2 & _); [by apply WInv_pending, delete_subseteq | done|].
      rewrite Hd. cbn [mbind option_bind ac_bytes ac_fin ac_rst].
      destruct (IH (n + length (pf_payload f))%nat s2
        (mkChunk (ac_bytes c ++ pf_payload f) (ac_fin c || pf_fin f) (ac_rst c || pf_rst f)) HI2)
        as (s' & m & fin & rst & -> & Hm & HI').
      exists s', m, fin, rst. cbn [ac_bytes]. split; [|split; [lia | done]].
      do 4 f_equal. rewrite <- app_assoc. f_equal.
      replace (m - n)%nat with (length (pf_payload f) + (m - (n + length (pf_payload f))))%nat by lia.
      rewrite <- (take_take_drop (drop n S)), drop_drop. by rewrite (cut_take Hc).
    + exists s, n, (ac_fin c), (ac_rst c). rewrite Nat.sub_diag, take_0, app_nil_r. by destruct c.
Qed.
Lemma push_wrapped n s g : WInv n s -> wrapped_segment g ->
  goes_on n (push_segment s (sg_seq g) (sg_payload g) (sg_fin g) (sg_rst g)).
Proof.
  intros HI (off & -> & Ho & Hc). unfold push_segment. destruct (degraded s); [by apply goes_nowhere|].
  rewrite (wi_next _ _ HI). destruct (sg_payload g) as [|x p] eqn:Ep.
  { apply goes_nowhere; [done|]. by destruct (_ || _). }
  rewrite <- Ep in *. destruct (Z.ltb_spec (seq_at n) (seq_at off)) as [Hlt|Hge].
  - destruct (_ <? _); [by apply goes_nowhere; [apply WInv_degraded|]|].
    apply goes_nowhere; [|done]. destruct (pending s !! seq_at off) as [f|] eqn:Ef; [done|].
    destruct HI as [Hx Hn Hp Hd]. split; cbn; try done. intros k f [[<- <-]|[_ Hk]]%lookup_insert_Some; eauto.
  - destruct (is_exact_retransmit _ _ _ && _ && _); [by apply goes_nowhere|].
    destruct (accept_wrapped n s off (sg_payload g) (sg_fin g) (sg_rst g) HI Ho Hc Hge)
      as (s1 & r & -> & [(HI1 & Hr & Hno)|(q & -> & Hq & HI1)]); cbn [mbind option_bind].
    + destruct r; try by apply goes_nowhere. by destruct (Hno c).
    + destruct (flush_wrapped (size (pending s1)) _ s1 (mkChunk q (sg_fin g) (sg_rst g)) HI1)
        as (s' & m & fin & rst & -> & Hm & HI'). eexists _, _, m. split; [reflexivity|].
      split; [lia|]. split; [done|]. cbn [chunk_of ac_bytes].
      replace (m - n)%nat with (length q + (m - (n + length q)))%nat by lia.
      by rewrite <- (take_take_drop (drop n S)), drop_drop, (cut_take Hq).
Qed.
Lemma assemble_wrapped segs n s : WInv n s -> Forall wrapped_segment segs ->
  exists s' rs m, assemble s segs = Some (s', rs) /\ (n <= m)%nat /\ WInv m s'
    /\ emitted rs = take (m - n) (drop n S).
Proof.
  intros HI Hall. revert n s HI. induction Hall as [|g segs Hg _ IH]; intros n s HI.
  - exists s, [], n. cbn. by rewrite Nat.sub_diag, take_0.
  - cbn [assemble]. destruct (push_wrapped n s g HI Hg) as (s1 & r & m1 & -> & Hm1 & HI1 & Hr).
    destruct (IH m1 s1 HI1) as (s' & rs & m & Ha & Hm & HI' & He). cbn [mbind option_bind]. rewrite Ha.
    exists s', (r :: rs), m. split; [done|]. split; [lia|]. split; [done|].
    change (emitted (r :: rs)) with (chunk_of r ++ emitted rs). rewrite Hr, He.
    replace (m - n)%nat with ((m1 - n) + (m - m1))%nat by lia.
    rewrite <- (take_take_drop (drop n S)), drop_drop. do 3 f_equal. lia.
Qed.

(** [C1] The assembler refines the byte stream.  The segments are cuts of one
    stream of at most 2 GiB, numbered from any initial sequence number on, so
    that the numbers may wrap around; they arrive in any order, overlapping,
    repeated, with any flags, and the first to arrive need not start the stream.
    Then no slice expression panics, and the bytes handed out are, at all
    times, those of the stream from where the first segment starts to
    [next_seq].  A gap or a conflict (reported needlessly where the numbers
    wrap around) may stop the stream, never corrupt it. *)
Theorem tcp_refines_stream g o segs :
  sg_seq g = seq_at o -> (o <= length S)%nat -> cut S o (sg_payload g) -> Forall wrapped_segment segs ->
  exists s rs n, assemble TcpAssembler_new (g :: segs) = Some (s, rs)
  /\ (o + length (sg_payload g) <= n <= length S)%nat /\ emitted rs = take (n - o) (drop o S)
  /\ next_seq s = Some (seq_at n).
Proof.
  intros Hs Ho Hc Hall. cbn [assemble push_segment TcpAssembler_new degraded next_seq]. rewrite Hs.
  set (s0 := mkAssembler (Some (seq_at o)) ∅ [] 0 (1024 * 1024) (256 * 1024) false).
  destruct (WInv_deliver o s0 (sg_payload g) (sg_fin g) (sg_rst g)) as (s1 & Hd & HI & _); [|done|].
  { split; cbn; [done.. | constructor]. }
  change (deliver _ (seq_at o) _ _ _) with (deliver s0 (seq_at o) (sg_payload g) (sg_fin g) (sg_rst g)).
  rewrite Hd. cbn [mbind option_bind].
  destruct (assemble_wrapped segs _ s1 HI Hall) as (s' & rs & m & Ha & Hm & HI' & He). rewrite Ha.
  eexists s', _, m. split; [reflexivity|]. split; [split; [lia | apply HI']|]. split; [|apply HI'].
  change (emitted (_ :: rs)) with (sg_payload g ++ emitted rs). rewrite He.
  replace (m - o)%nat with (length (sg_payload g) + (m - (o + length (sg_payload g))))%nat by lia.
  by rewrite <- (take_take_drop (drop o S)), drop_drop, (cut_take Hc).
Qed.
End wrapped.

Section stream.
(** [S] is the stream, [b] the sequence number of its first byte; in this section
    the numbers do not wrap around. *)
Context (S : bytes) (b : Z) (Hb : 0 <= b) (Hfit : b + blen S < 2 ^ 32).
#[local] Abbreviation cut := (cut S).

(** After [n] bytes of the stream: the next sequence number, the pending
    fragments are cuts, the history is a suffix of what was delivered. *)
Record Inv (n : nat) (s : TcpAssembler) : Prop := mk_Inv {
  inv_next : next_seq s = Some (b + Z.of_nat n);
  inv_n : (n <= length S)%nat;
  inv_pending : forall k f, pending s !! k = Some f ->
    exists off, k = b + Z.of_nat off /\ cut off (pf_payload f) /\ pf_payload f <> [];
  inv_hist : exists h, (h <= n)%nat /\ contiguous (b + Z.of_nat h) (delivered s)
    /\ take n S = take h S ++ history (delivered s)
    /\ (blen S <= history_limit s -> h = 0%nat);
  inv_bytes : delivered_bytes s = blen (history (delivered s));
  inv_limit : blen (history (delivered s)) <= history_limit s }.

Lemma contiguous_app a l1 l2 :
  contiguous a (l1 ++ l2) <-> contiguous a l1 /\ contiguous (a + blen (history l1)) l2.
Proof.
  revert a. induction l1 as [|d l1 IH]; intros a; cbn.
  - unfold history. cbn. rewrite blen_nil, Z.add_0_r. tauto.
  - rewrite IH. unfold history. cbn. rewrite blen_app, Z.add_assoc. tauto.
Qed.
Lemma history_app l1 l2 : history (l1 ++ l2) = history l1 ++ history l2.
Proof. unfold history. by rewrite map_app, concat_app. Qed.

Lemma history_single q p : history [mkDelivered q p] = p.
Proof. unfold history. cbn. by rewrite app_nil_r. Qed.

Lemma evict_spec limit l :
  let '(l', n) := evict_history limit (blen (history l)) l in
  exists pre, l = pre ++ l' /\ n = blen (history l')
  /\ (0 <= limit -> n <= limit) /\ (blen (history l) <= limit -> pre = []).
Proof.
  induction l as [|d l IH]; cbn [evict_history].
  - unfold history; cbn. rewrite blen_nil. destruct (limit <? 0) eqn:E; exists []; repeat split; lia.
  - destruct (Z.ltb_spec limit (blen (history (d :: l)))).
    + assert (blen (history (d :: l)) = blen (dl_bytes d) + blen (history l)) as E
        by apply blen_app.
      pose proof (blen_nonneg (history l)).
      replace (Z.max 0 (blen (history (d :: l)) - blen (dl_bytes d))) with (blen (history l)) by lia.
      destruct (evict_history limit (blen (history l)) l) as [l' n].
      destruct IH as (pre & -> & -> & Hl & _). exists (d :: pre). repeat split; try done. lia.
    + exists []. repeat split; lia.
Qed.

(** [deliver] moves the invariant by the fragment it delivers. *)
Lemma deliver_spec n s p fin rst :
  Inv n s -> cut n p -> 0 <= history_limit s ->
  exists s', deliver s (b + Z.of_nat n) p fin rst = (s', Advanced (mkChunk p fin rst))
  /\ Inv (n + length p) s' /\ pending s' = pending s /\ degraded s' = degraded s
  /\ history_limit s' = history_limit s /\ max_gap s' = max_gap s.
Proof.
  intros [Hnx Hn Hp (h & Hh & Hc & E & Hf) Hby Hl] Hcut Hlim.
  pose proof (cut_length Hcut) as Hlen.
  unfold deliver, record. cbn.
  pose proof (evict_spec (history_limit s) (delivered s ++ [mkDelivered (b + Z.of_nat n) p])) as He.
  rewrite history_app, blen_app, history_single in He. rewrite Hby.
  destruct (evict_history _ _ _) as [l' m]. destruct He as (pre & Hpre & -> & Hm & Hfull).
  eexists. split; [reflexivity|]. cbn. split; [|done].
  assert (Hhist : blen (history (delivered s)) = Z.of_nat n - Z.of_nat h).
  { apply (f_equal length) in E. rewrite length_app, !length_take in E. unfold blen. lia. }
  assert (Hc' : contiguous (b + Z.of_nat h) (pre ++ l')).
  { rewrite <- Hpre. apply contiguous_app. split; [done|]. rewrite Hhist. cbn. split; [lia | done]. }
  assert (E' : take (n + length p) S = take h S ++ history pre ++ history l').
  { rewrite <- history_app, <- Hpre, history_app, app_assoc, <- E, take_add.
    by rewrite (cut_take Hcut), history_single. }
  apply contiguous_app in Hc' as [_ Hc'].
  assert (Hlp : (h + length (history pre) <= n + length p)%nat).
  { apply (f_equal length) in E'. rewrite !length_app, !length_take in E'. lia. }
  constructor; cbn; try done.
  - f_equal. rewrite wrap32_small; unfold blen in *; lia.
  - lia.
  - exists (h + length (history pre))%nat. split; [done|].
    split; [by replace (b + Z.of_nat (h + length (history pre)))
              with (b + Z.of_nat h + blen (history pre)) by (unfold blen; lia)|].
    split.
    + rewrite E', app_assoc. f_equal.
      apply (f_equal (take (h + length (history pre)))) in E'.
      rewrite take_take, Nat.min_l in E' by lia. rewrite E', app_assoc.
      symmetry. apply take_app_length'. rewrite length_app, length_take. lia.
    + intros HS. rewrite (Hf HS) in *. cbn. rewrite Hfull; [done|]. unfold blen in *. lia.
  - by apply Hm.
Qed.

(** [accept_fragment] on a cut that is not ahead of the stream. *)
(** The head of a retransmission agrees with a full history. *)
Lemma overlap_in_history n s off q :
  Inv n s -> cut off q -> q <> [] -> (off < n)%nat -> (off + length q <= n)%nat -> 0 <= history_limit s ->
  exists r, match_overlap s (b + Z.of_nat off) q = Some r /\ (r = false -> history_limit s < blen S).
Proof.
  intros HI Hcq Hq Hlt Hle Hlim. pose proof (cut_length Hcq).
  destruct HI as [_ Hn _ (h & Hh & Hc & E & Hf) _ _].
  assert (Hhist : blen (history (delivered s)) = Z.of_nat n - Z.of_nat h).
  { apply (f_equal length) in E. rewrite length_app, !length_take in E. unfold blen. lia. }
  assert (0 < length q)%nat by (destruct q; [done | cbn; lia]).
  destruct (match_overlap_spec s (b + Z.of_nat h) (b + Z.of_nat off) q Hc)
    as (r & Hr & Hiff); try done; try (unfold blen in *; lia).
  exists r. split; [done|]. intros ->. apply Z.nle_gt. intros HS. specialize (Hf HS) as ->.
  apply diff_false_true, Hiff. split; [lia|]. split; [unfold blen in *; lia|].
  rewrite take_0 in E. cbn [app] in E. rewrite <- E. replace (Z.to_nat _) with off by lia.
  rewrite skipn_firstn_comm, take_take, Nat.min_l by lia. by apply cut_take.
Qed.
Lemma accept_spec n s off p fin rst :
  Inv n s -> cut off p -> p <> [] -> (off <= n)%nat -> 0 <= history_limit s ->
  exists s' r,
    accept_fragment s (b + Z.of_nat n) (b + Z.of_nat off) p fin rst = Some (s', r)
  /\ ((r = Pending /\ s' = s /\ (off + length p <= n)%nat)
      \/ (r = ConflictDetected /\ s' = set_degraded s /\ history_limit s < blen S
          /\ (off < n)%nat)
      \/ (exists q, r = Advanced (mkChunk q fin rst) /\ q = drop (n - off) p /\ cut n q
          /\ (n < off + length p)%nat /\ n + length q = off + length p
          /\ deliver s (b + Z.of_nat n) q fin rst = (s', r))%nat).
Proof.
  intros HI Hcut Hne Hle Hlim. pose proof (cut_length Hcut) as Hlen.
  assert (0 < length p)%nat by (destruct p; [done | cbn; lia]). pose proof (inv_n _ _ HI) as Hn.
  assert (Hm : forall q, q <> [] -> cut off q -> (off < n)%nat -> (off + length q <= n)%nat ->
            exists r, match_overlap s (b + Z.of_nat off) q = Some r
            /\ (r = false -> history_limit s < blen S)).
  { intros. by apply (overlap_in_history n). }
  unfold accept_fragment. destruct (Z.ltb_spec (b + Z.of_nat off) (b + Z.of_nat n)).
  - replace (wrap32 _) with (Z.of_nat (n - off)) by (rewrite wrap32_small; unfold blen in *; lia).
    destruct (Z.leb_spec (blen p) (Z.of_nat (n - off))); unfold blen in *.
    + destruct (Hm p Hne Hcut) as (r & -> & Hr); [lia..|]. cbn. destruct r.
      * exists s, Pending. split; [done|]. left. repeat split. lia.
      * exists (set_degraded s), ConflictDetected. split; [done|]. right; left.
        repeat split; auto; lia.
    + assert (Hct : cut off (take (n - off) p)).
      { destruct Hcut as [rest E']. exists (drop (n - off) p ++ rest).
        by rewrite app_assoc, take_drop. }
      rewrite !slice_Some by (unfold blen; lia). cbn [mbind option_bind].
      rewrite drop_0, Z.sub_0_r, !Nat2Z.id. cbn [drop].
      destruct (Hm (take (n - off) p)) as (r & -> & Hr);
        [intros Et%(f_equal length); rewrite length_take in Et; cbn in Et; lia | done | lia
        | rewrite length_take; lia |].
      cbn [mbind option_bind]. destruct r.
      * rewrite firstn_all2 by (rewrite length_drop; unfold blen; lia).
        eexists _, _. split; [reflexivity|]. right; right.
        exists (drop (n - off) p). split; [done|]. split; [done|].
        split; [by replace n with (off + (n - off))%nat at 1 by lia; apply cut_drop; [|lia]|].
        rewrite length_drop. repeat split; lia.
      * exists (set_degraded s), ConflictDetected. split; [done|]. right; left.
        repeat split; auto; lia.
  - replace off with n in * by lia. eexists _, _. split; [reflexivity|]. right; right.
    exists p. rewrite Nat.sub_diag. repeat split; try done. lia.
Qed.

(** Dropping pending fragments keeps the invariant. *)
Lemma Inv_pending n s pd :
  Inv n s -> pd ⊆ pending s -> Inv n (set_pending s pd).
Proof.
  intros [] Hsub. constructor; cbn; try done. intros k f Hk. eapply inv_pending0.
  by eapply lookup_weaken.
Qed.
Lemma Inv_degraded n s : Inv n s -> Inv n (set_degraded s).
Proof. intros []. by constructor. Qed.

(** What a step may change, besides the position. *)
Record frame (s s' : TcpAssembler) : Prop := mk_frame {
  fr_limit : history_limit s' = history_limit s;
  fr_gap : max_gap s' = max_gap s;
  fr_open : degraded s' = degraded s }.

(** The fragments between two positions are used up, the others are kept. *)
Definition drained (n m : nat) (p p' : gmap Z PendingFragment) : Prop :=
  p' ⊆ p /\ forall k f, p !! k = Some f ->
    p' !! k = Some f \/ b + Z.of_nat n <= k < b + Z.of_nat m.

(** Every pending fragment begins at a boundary, at or after [n], and no
    fragment has a boundary strictly inside. *)
Definition tidy (B : nat -> Prop) (n : nat) (pd : gmap Z PendingFragment) : Prop :=
  forall k f, pd !! k = Some f -> exists o, k = b + Z.of_nat o /\ (n <= o)%nat /\ B o
    /\ B (o + length (pf_payload f))%nat /\ forall o', B o' -> (o < o')%nat -> (o + length (pf_payload f) <= o')%nat.

Lemma tidy_mono B n pd pd' : tidy B n pd -> pd' ⊆ pd -> tidy B n pd'.
Proof. intros Ht Hs k f Hk. apply (Ht k f). by eapply lookup_weaken. Qed.
Lemma tidy_advance B n m pd :
  tidy B n pd -> (forall o, B o -> (n < o)%nat -> (m <= o)%nat) -> pd !! (b + Z.of_nat n) = None ->
  tidy B m pd.
Proof.
  intros Ht Hm Hn k f Hk. destruct (Ht k f Hk) as (o & -> & Ho & Bo & Be & Hx).
  exists o. repeat split; try done. apply Hm; [done|].
  destruct (decide (o = n)) as [->|]; [congruence | lia].
Qed.

(** The loop of [flush_pending] advances from [n] to [m] through pending
    fragments, each ending where the next begins, until none begins at [m]. *)
Lemma flush_spec fuel n s c (B : nat -> Prop) :
  Inv n s -> 0 <= history_limit s -> (size (pending s) <= fuel)%nat -> B n ->
  (forall k f off, pending s !! k = Some f -> k = b + Z.of_nat off ->
     B (off + length (pf_payload f))%nat) ->
  exists s' m fin rst,
    flush_pending fuel s c
      = Some (s', Advanced (mkChunk (ac_bytes c ++ take (m - n) (drop n S)) fin rst))
  /\ (n <= m)%nat /\ Inv m s' /\ frame s s' /\ drained n m (pending s) (pending s')
  /\ pending s' !! (b + Z.of_nat m) = None /\ B m
  /\ (tidy B n (pending s) -> tidy B m (pending s')).
Proof.
  revert n s c. induction fuel as [|fuel IH]; intros n s c HI Hlim Hsz Bn HB.
  - exists s, n, (ac_fin c), (ac_rst c). cbn. rewrite Nat.sub_diag, take_0, app_nil_r.
    assert (pending s = ∅) as Hemp by (apply map_size_empty_inv; lia).
    split; [by destruct c|]. do 2 (split; [done|]). split; [done|].
    split; [split; eauto|]. split; [rewrite Hemp; apply lookup_empty | done].
  - cbn [flush_pending]. rewrite (inv_next _ _ HI).
    destruct (pending s !! (b + Z.of_nat n)) as [f|] eqn:Ef.
    + destruct (inv_pending _ _ HI _ _ Ef) as (off & Hoff & Hcut & Hne).
      assert (off = n) as -> by lia. set (s1 := set_pending s _).
      assert (HI1 : Inv n s1) by (apply Inv_pending; [done | apply delete_subseteq]).
      unfold accept_fragment. rewrite Z.ltb_irrefl. cbn [mbind option_bind].
      destruct (deliver_spec n s1 (pf_payload f) (pf_fin f) (pf_rst f) HI1 Hcut Hlim)
        as (s2 & -> & HI2 & Hp2 & Hd2 & Hl2 & Hg2).
      cbn [mbind option_bind ac_bytes ac_fin ac_rst].
      destruct (IH (n + length (pf_payload f))%nat s2
                  (mkChunk (ac_bytes c ++ pf_payload f) (ac_fin c || pf_fin f) (ac_rst c || pf_rst f)))
        as (s' & m & fin & rst & -> & Hm & HI' & [? ? ?] & [Hsub Hkeep] & Hnone & Bm & Htidy).
      * done.
      * by rewrite Hl2.
      * rewrite Hp2. cbn. rewrite map_size_delete_Some by eauto. lia.
      * eapply HB; eauto.
      * rewrite Hp2. cbn. intros k g o Hk. apply HB. by apply lookup_delete_Some in Hk as [_ ?].
      * exists s', m, fin, rst. cbn [ac_bytes]. rewrite Hp2 in *. unfold s1 in *. cbn in Hd2, Hl2, Hg2, Hsub, Hkeep.
        split.
        { do 4 f_equal. rewrite <- app_assoc. f_equal.
          replace (m - n)%nat with (length (pf_payload f) + (m - (n + length (pf_payload f))))%nat by lia.
          rewrite <- (take_take_drop (drop n S)), drop_drop. by rewrite (cut_take Hcut). }
        split; [lia|]. split; [done|]. split; [by constructor; congruence|].
        split; [|split; [done|]; split; [done|]; intros Ht; apply Htidy;
          destruct (Ht _ _ Ef) as (o & Ho & _ & _ & _ & Hx); assert (o = n) as -> by lia;
          by eapply tidy_advance; [eapply tidy_mono; [done | apply delete_subseteq] | |
            apply lookup_delete_eq]].
        split; [etrans; [done | apply delete_subseteq]|]. intros k g Hk. destruct (decide (k = b + Z.of_nat n)) as [->|Hkn].
        { right. assert (0 < length (pf_payload f))%nat by (by destruct (pf_payload f); cbn; [|lia]).
          lia. }
        destruct (Hkeep k g) as [?|?]; [by rewrite lookup_delete_ne | by left | right; lia].
    + exists s, n, (ac_fin c), (ac_rst c). rewrite Nat.sub_diag, take_0, app_nil_r.
      split; [by destruct c|]. do 2 (split; [done|]). split; [done|].
      split; [split; eauto | done].
Qed.

(** What one [push_segment] of a segment cut from the stream has done: it went on
    from [n] to [m]; [B] and [tidy] follow the ends of the pieces. *)
Definition push_post (n off : nat) (p : bytes) (B : nat -> Prop) (s s' : TcpAssembler) (r : AssemblerResult)
    (m : nat) : Prop :=
  (n <= m)%nat /\ Inv m s' /\ chunk_of r = take (m - n) (drop n S)
  /\ history_limit s' = history_limit s /\ max_gap s' = max_gap s
  /\ pending s' !! (b + Z.of_nat m) = None /\ B m
  /\ (degraded s = true -> degraded s' = true)
  /\ (degraded s = false -> blen S <= history_limit s -> blen S <= max_gap s ->
      degraded s' = false /\ r <> ConflictDetected /\ r <> GapDetected)
  /\ (forall k f, pending s' !! k = Some f ->
        pending s !! k = Some f \/ (k = b + Z.of_nat off /\ pf_payload f = p))
  /\ (forall k f, pending s !! k = Some f ->
        pending s' !! k = Some f \/ b + Z.of_nat n <= k < b + Z.of_nat m)
  /\ (p <> [] -> degraded s = false -> blen S <= history_limit s -> blen S <= max_gap s ->
        (off < m)%nat \/ is_Some (pending s' !! (b + Z.of_nat off)))
  /\ (tidy B n (pending s) -> B off ->
      (forall o', B o' -> (off < o')%nat -> (off + length p <= o')%nat) ->
      tidy B m (pending s')).
(** Nothing moves, and what is pending stays. *)
Lemma push_post_same n off p B s s' r : Inv n s' -> chunk_of r = [] -> pending s' = pending s ->
  history_limit s' = history_limit s -> max_gap s' = max_gap s -> pending s !! (b + Z.of_nat n) = None -> B n ->
  (degraded s = true -> degraded s' = true) ->
  (degraded s = false -> blen S <= history_limit s -> blen S <= max_gap s ->
     degraded s' = false /\ r <> ConflictDetected /\ r <> GapDetected
     /\ (p <> [] -> (off < n)%nat \/ is_Some (pending s !! (b + Z.of_nat off)))) ->
  push_post n off p B s s' r n.
Proof.
  intros HI Hr Hp Hh Hg Hn Bn Hd Hfine. unfold push_post. rewrite Hp, Nat.sub_diag, take_0.
  do 8 (split; [done|]). split; [intros E H1 H2; by destruct (Hfine E H1 H2) as (? & ? & ? & _)|].
  do 2 (split; [by auto|]). split; [intros Hne E H1 H2; by apply (Hfine E H1 H2) | done].
Qed.
(** An early segment is kept. *)
Lemma push_early n s off p fin rst (B : nat -> Prop) : Inv n s -> cut off p -> (n < off)%nat -> p <> [] ->
  degraded s = false -> B n -> B (off + length p)%nat ->
  pending s !! (b + Z.of_nat n) = None -> pending s !! (b + Z.of_nat off) = None ->
  push_post n off p B s (set_pending s (<[b + Z.of_nat off := mkFragment p fin rst]> (pending s))) Pending n.
Proof.
  intros HI Hcut Hlt Hp Edeg Bn Bp Hnone Ef. unfold push_post. rewrite Nat.sub_diag, take_0. split; [done|]. split.
  { destruct HI. constructor; cbn; try done. intros k g [[<- <-]|[_ Hk]]%lookup_insert_Some; [|eauto].
    exists off. cbn. done. }
  cbn. do 3 (split; [done|]). split; [rewrite lookup_insert_ne; [done | lia]|]. split; [done|].
  split; [by rewrite Edeg|]. split; [done|].
  split; [intros k g [[<- <-]|[_ Hk]]%lookup_insert_Some; [by right | by left]|].
  split; [intros k g Hk; left; rewrite lookup_insert_ne; [done|]; intros Hk'; subst k; congruence|].
  split; [intros; right; rewrite lookup_insert_eq; eauto|].
  intros Ht Boff Hx k g [[<- <-]|[_ Hk]]%lookup_insert_Some; [|by apply Ht].
  exists off. repeat split; try done. lia.
Qed.
(** What has been handed out before contains what is sent again. *)
Lemma retransmit_covered n s off p : Inv n s -> p <> [] -> blen S <= history_limit s ->
  is_exact_retransmit s (b + Z.of_nat off) p = true -> (off < n)%nat.
Proof.
  intros HI Hp HS Hx. apply existsb_exists in Hx as (d & Hd%list_elem_of_In & [Hs Hpl]%andb_true_iff).
  apply Z.eqb_eq in Hs. apply bool_decide_eq_true in Hpl.
  destruct HI as [_ _ _ (h & Hh & Hc & E & _) _ _].
  assert (0 < length p)%nat by (by destruct p; cbn; [|lia]).
  enough (off + length p <= n)%nat by lia.
  apply list_elem_of_split in Hd as (l1 & l2 & Hl).
  rewrite Hl in Hc, E. apply contiguous_app in Hc as [_ [Hd _]].
  rewrite history_app in E. apply (f_equal length) in E.
  rewrite !length_app, !length_take in E. cbn in E. rewrite length_app, Hpl in E.
  unfold blen, history in *. lia.
Qed.
(** A new piece is delivered, and then what was waiting for it. *)
Lemma push_deliver n s off p q fin rst (B : nat -> Prop) s1 :
  Inv n s -> 0 <= history_limit s -> B n -> B (off + length p)%nat ->
  (forall k f o, pending s !! k = Some f -> k = b + Z.of_nat o -> B (o + length (pf_payload f))%nat) ->
  pending s !! (b + Z.of_nat n) = None -> (off <= n)%nat -> degraded s = false -> (n < off + length p)%nat ->
  cut n q -> (n + length q = off + length p)%nat ->
  deliver s (b + Z.of_nat n) q fin rst = (s1, Advanced (mkChunk q fin rst)) ->
  exists s' r m, flush_pending (size (pending s1)) s1 (mkChunk q fin rst) = Some (s', r)
    /\ push_post n off p B s s' r m.
Proof.
  intros HI Hlim Bn Bp HB Hnone Hoff Edeg Hl Hcq Hnq Hd.
  destruct (deliver_spec n s q fin rst HI Hcq Hlim) as (s1' & Hd' & HI1 & Hp1 & Hg1 & Hl1 & Hm1).
  rewrite Hd in Hd'. injection Hd' as <-. rewrite Hnq in HI1.
  destruct (flush_spec (size (pending s1)) (off + length p) s1 (mkChunk q fin rst) B)
    as (s' & m & fin' & rst' & -> & Hm & HI' & [? ? ?] & [Hsub Hkeep] & Hno & Bm & Htidy);
    try done; [by rewrite Hl1 | rewrite Hp1; eauto |].
  rewrite Hp1 in *. eexists s', _, m. split; [reflexivity|]. split; [lia|]. split; [done|]. split.
  { cbn. replace (m - n)%nat with (length q + (m - (off + length p)))%nat by lia.
    rewrite <- (take_take_drop (drop n S)), drop_drop, (cut_take Hcq). by rewrite Hnq. }
  split; [congruence|]. split; [congruence|]. split; [done|]. split; [done|].
  split; [congruence|]. split; [intros; split; [congruence | done]|].
  split; [intros k f Hk; left; by eapply lookup_weaken|].
  split; [|split; [intros; left; cbn in *; lia|]; intros Ht Boff Hx; apply Htidy;
    assert (off = n) as -> by (destruct (decide (off < n)%nat); [specialize (Hx n Bn); lia | lia]);
    by eapply tidy_advance].
  intros k f Hk. destruct (Hkeep k f Hk) as [?|?]; [by left | right; cbn in *; lia].
Qed.
(** One [push_segment] of a segment cut from the stream. *)
Lemma push_spec n s off p fin rst (B : nat -> Prop) :
  Inv n s -> 0 <= history_limit s -> cut off p -> (off <= length S)%nat ->
  B n -> B (off + length p)%nat ->
  (forall k f o, pending s !! k = Some f -> k = b + Z.of_nat o -> B (o + length (pf_payload f))%nat) ->
  pending s !! (b + Z.of_nat n) = None ->
  exists s' r m, push_segment s (b + Z.of_nat off) p fin rst = Some (s', r) /\ push_post n off p B s s' r m.
Proof.
  intros HI Hlim Hcut Hoff Bn Bp HB Hnone. pose proof (cut_length Hcut) as Hlen.
  unfold push_segment. destruct (degraded s) eqn:Edeg.
  { exists s, ConflictDetected, n. split; [done|]. by apply push_post_same; [..|congruence]. }
  rewrite (inv_next _ _ HI). destruct p as [|x p].
  { exists s, (if fin || rst then Advanced (mkChunk [] fin rst) else Pending), n. split; [done|].
    apply push_post_same; try done; [by destruct (fin || rst) | by destruct (fin || rst)]. }
  set (pl := x :: p) in *. assert (pl <> []) as Hne by done.
  destruct (Z.ltb_spec (b + Z.of_nat n) (b + Z.of_nat off)) as [Hlt|Hge].
  - rewrite wrap32_small by (unfold blen in *; lia).
    destruct (Z.ltb_spec (max_gap s) (b + Z.of_nat off - (b + Z.of_nat n))).
    + exists (set_degraded s), GapDetected, n. split; [done|].
      apply push_post_same; try done; [by apply Inv_degraded | unfold blen in *; lia].
    + eexists _, Pending, n. split; [reflexivity|].
      destruct (pending s !! (b + Z.of_nat off)) as [f|] eqn:Ef; [|apply push_early; try done; lia].
      apply push_post_same; try done. intros. repeat split; try done. right. by eexists.
  - destruct (is_exact_retransmit s (b + Z.of_nat off) pl && negb fin && negb rst) eqn:Eex.
    + exists s, Pending, n. split; [done|]. apply push_post_same; try done. intros _ HS _. repeat split; try done.
      left. apply andb_true_iff in Eex as [[Hx _]%andb_true_iff _]. by eapply retransmit_covered.
    + destruct (accept_spec n s off pl fin rst) as (s1 & r & -> & [Hr|[Hr|Hr]]); try done; try lia;
        cbn [mbind option_bind].
      * destruct Hr as (-> & -> & Hl). exists s, Pending, n. split; [done|]. apply push_post_same; try done.
        intros. repeat split; try done. left. cbn in *. lia.
      * destruct Hr as (-> & -> & Hl & Hon). exists (set_degraded s), ConflictDetected, n. split; [done|].
        apply push_post_same; try done; [by apply Inv_degraded | lia].
      * destruct Hr as (q & -> & Hq & Hcq & Hl & Hnq & Hd). apply push_deliver; try done. lia.
Qed.

Lemma first_push g :
  sg_seq g = b -> cut 0 (sg_payload g) ->
  exists s', push_segment TcpAssembler_new (sg_seq g) (sg_payload g) (sg_fin g) (sg_rst g)
    = Some (s', Advanced (mkChunk (sg_payload g) (sg_fin g) (sg_rst g)))
  /\ Inv (length (sg_payload g)) s' /\ pending s' = ∅ /\ degraded s' = false
  /\ history_limit s' = 1048576 /\ max_gap s' = 262144.
Proof.
  intros Hs Hc.
  set (s0 := {| next_seq := Some b; pending := ∅; delivered := []; delivered_bytes := 0;
                history_limit := 1048576; max_gap := 262144; degraded := false |}).
  assert (HI : Inv 0 s0).
  { constructor; cbn; try done; [f_equal; lia | lia | exists 0%nat; repeat split; lia]. }
  destruct (deliver_spec 0 s0 (sg_payload g) (sg_fin g) (sg_rst g) HI Hc) as (s' & Hd & HI' & ?);
    [done|].
  exists s'. cbn in *. rewrite Z.add_0_r in Hd. rewrite Hs.
  split; [|tauto]. unfold push_segment. cbn. f_equal. exact Hd.
Qed.

(** A cut of the stream into consecutive non-empty pieces. *)
Fixpoint tiles (o : nat) (P : list (nat * bytes)) : Prop :=
  match P with
  | [] => o = length S
  | (o', p) :: P' => o' = o /\ p <> [] /\ cut o p /\ tiles (o + length p) P'
  end.
Definition boundary (P : list (nat * bytes)) (o : nat) : Prop :=
  o = length S \/ exists p, (o, p) ∈ P.

Lemma tiles_ge o P o' p : tiles o P -> (o', p) ∈ P -> (o <= o')%nat.
Proof.
  revert o. induction P as [|[o1 p1] P IH]; intros o; cbn; [set_solver|].
  intros (-> & Hne & Hc & Ht) [[= -> ->]|Hin]%elem_of_cons; [done|].
  specialize (IH _ Ht Hin). lia.
Qed.
Lemma tiles_piece o P o' p : tiles o P -> (o', p) ∈ P ->
  p <> [] /\ cut o' p /\ boundary P (o' + length p)
  /\ forall o2, boundary P o2 -> (o' < o2)%nat -> (o' + length p <= o2)%nat.
Proof.
  revert o. induction P as [|[o1 p1] P IH]; intros o; cbn; [set_solver|].
  intros (-> & Hne & Hc & Ht) [[= -> ->]|Hin]%elem_of_cons.
  - split; [done|]. split; [done|]. split.
    + destruct P as [|[o2 p2] P]; cbn in Ht; [by left|]. destruct Ht as [-> _].
      right. exists p2. set_solver.
    + intros o2 [->|[p2 [[= -> ->]|Hin]%elem_of_cons]] Hlt.
      * pose proof (cut_length Hc). lia.
      * lia.
      * by eapply tiles_ge.
  - destruct (IH _ Ht Hin) as (? & ? & Hb' & Hx). split; [done|]. split; [done|]. split.
    + destruct Hb' as [?|[p2 ?]]; [by left | right; exists p2; set_solver].
    + intros o2 [->|[p2 [[= -> ->]|Hin2]%elem_of_cons]] Hlt.
      * apply Hx; [by left | done].
      * pose proof (tiles_ge _ _ _ _ Ht Hin). lia.
      * apply Hx; [|done]. right. eauto.
Qed.
Lemma tiles_functional o P o' p q : tiles o P -> (o', p) ∈ P -> (o', q) ∈ P -> p = q.
Proof.
  revert o. induction P as [|[o1 p1] P IH]; intros o; cbn; [set_solver|].
  intros (-> & Hne & Hc & Ht) [[= -> ->]|Hin]%elem_of_cons [[= <-]|Hin2]%elem_of_cons; try done.
  - pose proof (tiles_ge _ _ _ _ Ht Hin2). destruct p1; cbn in *; [done | lia].
  - pose proof (tiles_ge _ _ _ _ Ht Hin). destruct p1; cbn in *; [done | lia].
  - eauto.
Qed.

Definition piece_segment (P : list (nat * bytes)) (g : Segment) : Prop :=
  exists o, sg_seq g = b + Z.of_nat o /\ (o, sg_payload g) ∈ P.

(** A run over pieces: besides [Inv], every piece seen so far is behind the
    position or pending. *)
Lemma assemble_pieces P segs n s :
  tiles 0 P -> blen S <= history_limit s -> blen S <= max_gap s ->
  Inv n s -> pending s !! (b + Z.of_nat n) = None -> degraded s = false ->
  boundary P n -> tidy (boundary P) n (pending s) ->
  Forall (piece_segment P) segs ->
  exists s' rs m, assemble s segs = Some (s', rs) /\ (n <= m)%nat /\ Inv m s'
  /\ emitted rs = take (m - n) (drop n S) /\ degraded s' = false
  /\ boundary P m /\ pending s' !! (b + Z.of_nat m) = None
  /\ tidy (boundary P) m (pending s')
  /\ (forall k f, pending s !! k = Some f ->
        is_Some (pending s' !! k) \/ k < b + Z.of_nat m)
  /\ Forall (fun g => sg_seq g < b + Z.of_nat m \/ is_Some (pending s' !! sg_seq g)) segs.
Proof.
  intros HP. revert n s. induction segs as [|g segs IH]; intros n s Hh Hg HI Hno Hop Bn Ht Hall.
  - exists s, [], n. cbn. rewrite Nat.sub_diag, take_0. repeat split; try done; try apply HI.
    intros k f ->. left. eauto.
  - apply Forall_cons in Hall as [(o & Hs & Hin) Hall]. cbn [assemble]. rewrite Hs.
    destruct (tiles_piece _ _ _ _ HP Hin) as (Hne & Hc & Bp & Hx).
    pose proof (cut_length Hc) as Hlen.
    assert (0 < length (sg_payload g))%nat by (by destruct (sg_payload g); cbn; [|lia]).
    pose proof (blen_nonneg S).
    destruct (push_spec n s o (sg_payload g) (sg_fin g) (sg_rst g) (boundary P))
      as (s1 & r & m1 & -> & Hm1 & HI1 & Hr & Hl1 & Hg1 & Hno1 & Bm1 & _ & Hcl & _ & Hkeep & Hseen & Htd);
      try done; try lia.
    { intros k f o2 Hk ->. destruct (Ht _ _ Hk) as (o3 & E & _ & _ & Be & _).
      by assert (o3 = o2) as -> by lia. }
    destruct (Hcl Hop ltac:(lia) ltac:(lia)) as (Hop1 & _).
    assert (Ht1 : tidy (boundary P) m1 (pending s1)) by (apply Htd; [done | right; eauto | done]).
    destruct (IH m1 s1) as (s' & rs & m & Ha & Hm & HI' & He & Hop' & Bm & Hno' & Ht' & Hk' & Hall');
      try done; try lia.
    cbn [mbind option_bind]. rewrite Ha. exists s', (r :: rs), m.
    split; [done|]. split; [lia|]. split; [done|]. split.
    { change (emitted (r :: rs)) with (chunk_of r ++ emitted rs). rewrite Hr, He.
      replace (m - n)%nat with ((m1 - n) + (m - m1))%nat by lia.
      rewrite <- (take_take_drop (drop n S)), drop_drop. do 3 f_equal. lia. }
    do 4 (split; [done|]). split.
    + intros k f Hk. destruct (Hkeep _ _ Hk) as [Hk1|?]; [by eapply Hk' | right; lia].
    + constructor; [|done]. rewrite Hs.
      destruct (Hseen Hne Hop ltac:(lia) ltac:(lia)) as [?|[f Hf]]; [left; lia|].
      destruct (Hk' _ _ Hf); [by right | by left].
Qed.

(** ** Properties *)

(** All pieces of a stream, the first one first. *)
Lemma reassemble_spec P g segs :
  blen S <= 262144 -> tiles 0 P -> piece_segment P g -> sg_seq g = b ->
  Forall (piece_segment P) segs ->
  (forall o p, (o, p) ∈ P -> exists g', g' ∈ g :: segs /\ sg_seq g' = b + Z.of_nat o) ->
  exists s rs, assemble TcpAssembler_new (g :: segs) = Some (s, rs)
  /\ emitted rs = S /\ degraded s = false /\ finish s = (s, Pending).
Proof.
  intros HS HP (o & Hgo & Hin) Hg Hall Hcover.
  assert (o = 0%nat) as -> by lia.
  destruct (tiles_piece _ _ _ _ HP Hin) as (Hne & Hc & Bp & _). cbn in Bp.
  assert (0 < length (sg_payload g))%nat by (by destruct (sg_payload g); cbn; [|lia]).
  cbn [assemble].
  destruct (first_push g Hg Hc) as (s1 & -> & HI & Hp & Hd & Hl & Hgp). cbn [mbind option_bind].
  destruct (assemble_pieces P segs (length (sg_payload g)) s1 HP)
    as (s' & rs & m & Ha & Hm & HI' & He & Hop & Bm & Hno & Ht & _ & Hseen);
    try done; [by rewrite Hl; lia | by rewrite Hgp | by rewrite Hp, lookup_empty
              | by rewrite Hp; intros k f; rewrite lookup_empty |].
  rewrite Ha.
  assert (m = length S) as ->.
  { destruct Bm as [?|[p Hin']]; [done|]. exfalso.
    destruct (Hcover _ _ Hin') as (g' & Hg' & Es).
    apply elem_of_cons in Hg' as [->|Hg']; [lia|].
    rewrite Forall_forall in Hseen. destruct (Hseen _ Hg') as [?|Hpd]; [lia|].
    rewrite Es, Hno in Hpd. by destruct Hpd. }
  eexists s', _. split; [reflexivity|]. split; [|split; [done|]].
  - unfold emitted in *. cbn. rewrite He, firstn_all2 by (rewrite length_drop; lia).
    rewrite <- (cut_take Hc) at 1. rewrite drop_0. apply take_drop.
  - unfold finish. rewrite Hop. cbn. rewrite bool_decide_eq_true_2; [done|].
    apply map_empty. intros k. destruct (pending s' !! k) as [f|] eqn:Ek; [|done]. exfalso.
    destruct (Ht _ _ Ek) as (o & -> & Ho & Bo & _).
    destruct (inv_pending _ _ HI' _ _ Ek) as (o' & E & Hc' & Hne').
    assert (o' = o) as -> by lia. pose proof (cut_length Hc').
    destruct (pf_payload f); cbn in *; [done | lia].
Qed.
End stream.

(** [C30] Out-of-order delivery completes.  Let a stream of at most 256 KiB, whose
    sequence numbers do not wrap around, be cut into pieces.  When the piece that
    starts the stream arrives first, and the others in any order after it, each at
    least once and all with any repetitions, exactly the stream is handed out,
    and [finish] reports neither a gap nor a conflict.  Where the numbers wrap
    around this fails ([tcp_wrap_and_overlap_limits]), and bytes before the first
    segment to arrive are never handed out. *)
Theorem tcp_reassembles (S : bytes) (b : Z) P g segs :
  0 <= b -> b + blen S < 2 ^ 32 -> blen S <= 262144 ->
  tiles S 0 P -> piece_segment b P g -> sg_seq g = b -> Forall (piece_segment b P) segs ->
  (forall o p, (o, p) ∈ P -> exists g', g' ∈ g :: segs /\ sg_seq g' = b + Z.of_nat o) ->
  exists s rs, assemble TcpAssembler_new (g :: segs) = Some (s, rs)
  /\ emitted rs = S /\ degraded s = false /\ finish s = (s, Pending).
Proof. intros Hb Hfit. by apply reassemble_spec. Qed.

(** Retained history is authoritative: a fragment that lies behind the stream
    is accepted only if the retained history holds exactly its bytes;
    otherwise the flow is degraded, and a degraded flow hands out nothing
    more. *)
Theorem tcp_conflict_detected s a next seq p fin rst :
  contiguous a (delivered s) -> 0 <= a -> next = a + blen (history (delivered s)) ->
  next < 2 ^ 32 -> 0 <= seq -> p <> [] -> seq + blen p <= next ->
  (accept_fragment s next seq p fin rst = Some (s, Pending)
   /\ a <= seq /\ take (length p) (drop (Z.to_nat (seq - a)) (history (delivered s))) = p)
  \/ (accept_fragment s next seq p fin rst = Some (set_degraded s, ConflictDetected)
      /\ (seq < a \/ take (length p) (drop (Z.to_nat (seq - a)) (history (delivered s))) <> p)
      /\ forall segs s' rs, assemble (set_degraded s) segs = Some (s', rs) ->
           emitted rs = [] /\ s' = set_degraded s).
Proof.
  intros Hc Ha Hn Hlt Hs Hne Hle.
  assert (0 < blen p) by (destruct p; [done | apply blen_pos]).
  destruct (match_overlap_spec s a seq p Hc) as (r & Hr & Hiff); try done; try lia.
  unfold accept_fragment. rewrite (proj2 (Z.ltb_lt _ _)) by lia.
  rewrite wrap32_small by lia. rewrite (proj2 (Z.leb_le _ _)) by lia. rewrite Hr. cbn.
  destruct r.
  - left. split; [done|]. destruct Hiff as [Hiff _]. destruct (Hiff eq_refl) as (? & _ & ?). done.
  - right. split; [done|]. split.
    + destruct (decide (seq < a)); [by left|]. right. intros E.
      apply diff_false_true, Hiff. split; [lia|]. split; [lia | done].
    + induction segs as [|g segs IH]; cbn; intros s' rs Hrun; [by injection Hrun as <- <-|].
      unfold push_segment in Hrun. cbn in Hrun.
      destruct (assemble (set_degraded s) segs) as [[s2 rs2]|]; [|done].
      injection Hrun as <- <-. destruct (IH _ _ eq_refl) as [He ->]. by split.
Qed.

(** ** Concrete runs *)
Module TcpFixture.
Definition hello : bytes := [x68; x65; x6c; x6c; x6f; x21].
Definition seg (q : Z) (p : bytes) : Segment := mkSegment q p false false.

(** Across the wrap-around of the numbers, the first byte never seen, out of order,
    overlapping, repeated. *)
Lemma tcp_refines_stream_witness : exists s rs n,
  assemble TcpAssembler_new
    [seg 4294967295 [x65; x6c]; seg 2 [x6f]; seg 1 [x6c; x6f]; seg 3 [x21]; seg 1 [x6c; x6f]] = Some (s, rs)
  /\ emitted rs = take n [x65; x6c; x6c; x6f; x21].
Proof.
  destruct (tcp_refines_stream hello 4294967294 ltac:(vm_compute; discriminate) (seg 4294967295 [x65; x6c]) 1
    [seg 2 [x6f]; seg 1 [x6c; x6f]; seg 3 [x21]; seg 1 [x6c; x6f]])
    as (s & rs & n & Ha & _ & He & _).
  - reflexivity.
  - cbn. lia.
  - by exists [x6c; x6f; x21].
  - repeat constructor.
    + exists 4%nat. split; [reflexivity|]. split; [cbn; lia | by exists [x21]].
    + exists 3%nat. split; [reflexivity|]. split; [cbn; lia | by exists [x21]].
    + exists 5%nat. split; [reflexivity|]. split; [cbn; lia | by exists []].
    + exists 3%nat. split; [reflexivity|]. split; [cbn; lia | by exists [x21]].
  - by exists s, rs, (n - 1)%nat.
Defined.

Definition pieces : list (nat * bytes) := [(0, [x68; x65]); (2, [x6c; x6c]); (4, [x6f; x21])]%nat.
Lemma tcp_reassembles_witness : exists s rs,
  assemble TcpAssembler_new
    [seg 7 [x68; x65]; seg 11 [x6f; x21]; seg 7 [x68; x65]; seg 9 [x6c; x6c]] = Some (s, rs)
  /\ emitted rs = hello.
Proof.
  destruct (tcp_reassembles hello 7 pieces
    (seg 7 [x68; x65]) [seg 11 [x6f; x21]; seg 7 [x68; x65]; seg 9 [x6c; x6c]])
    as (s & rs & Ha & He & _).
  - lia.
  - vm_compute. reflexivity.
  - by vm_compute.
  - unfold pieces. cbn. repeat split; try done; by eexists.
  - exists 0%nat. split; [done|]. set_solver.
  - done.
  - repeat constructor.
    + exists 4%nat. split; [done|]. set_solver.
    + exists 0%nat. split; [done|]. set_solver.
    + exists 2%nat. split; [done|]. set_solver.
  - intros o p Hin. unfold pieces in Hin.
    rewrite !elem_of_cons in Hin. destruct Hin as [[= -> ->]|[[= -> ->]|[[= -> ->]|[]%elem_of_nil]]].
    + exists (seg 7 [x68; x65]). split; [set_solver | done].
    + exists (seg 9 [x6c; x6c]). split; [set_solver | done].
    + exists (seg 11 [x6f; x21]). split; [set_solver | done].
  - by exists s, rs.
Defined.

(** After "hell", a retransmission of offset 1 with other bytes. *)
Definition after_hell : TcpAssembler := fst (deliver TcpAssembler_new 100 [x68; x65; x6c; x6c] false false).
Lemma tcp_conflict_detected_witness :
  accept_fragment after_hell 104 101 [x65; x00] false false
    = Some (set_degraded after_hell, ConflictDetected).
Proof.
  destruct (tcp_conflict_detected after_hell 100 104 101 [x65; x00] false false)
    as [(_ & _ & E)|(E & _)]; try done; try by vm_compute.
Defined.

(** Two limits of the code, as concrete runs.  Positions are compared as
    plain integers: once a stream has passed sequence number 2^32, a
    retransmitted segment is reported as a gap, and a segment that arrives one
    place early across the wrap is reported as a conflict.  And a fragment
    overtaken by an overlapping one is never flushed: its bytes are lost and
    [finish] reports a gap. *)
Theorem tcp_wrap_and_overlap_limits :
  (exists s rs, assemble TcpAssembler_new
      [seg 4294967295 [x68]; seg 0 [x65]; seg 4294967295 [x68]] = Some (s, rs)
    /\ last rs = Some GapDetected)
  /\ (exists s rs, assemble TcpAssembler_new
      [seg 4294967294 [x68]; seg 0 [x6c]; seg 4294967295 [x65]] = Some (s, rs)
    /\ emitted rs = [x68] /\ last rs = Some ConflictDetected)
  /\ (exists s rs, assemble TcpAssembler_new
      [seg 0 [x68]; seg 3 [x6c; x6f; x21]; seg 1 [x65; x6c; x6c]] = Some (s, rs)
    /\ emitted rs = [x68; x65; x6c; x6c] /\ snd (finish s) = GapDetected).
Proof. split; [|split]; vm_compute; eauto. Qed.
End TcpFixture.
