(* ===== verification/Incremental.v ===== *)
(** * Incremental decoders

    The stream decoders of the capture crate share one shape: [push] appends
    to a buffer and a [while] loop takes frames off its front until there is
    not enough of one.  [Framer] is that shape as an interface: [frame] looks
    at the buffer and either needs more, takes [n] bytes producing outputs, or
    stops with an error.  Its laws say that a decision once made does not
    change when more bytes arrive, and that a frame uses up bytes; from them
    this file proves, once, that the loop terminates and that decoding does
    not depend on how the stream was cut into chunks.  The decoders of
    Sse, WebSocket and H2 discharge the laws. *)
From Stdlib Require Import Lia.
From S2P Require Import Prelude.

Inductive Frame (C O E : Type) : Type :=
| Need
| Take (n : nat) (c : C) (os : list O)
| Stop (n : nat) (c : C) (e : E).
Arguments Need {C O E}.
Arguments Take {C O E} n c os.
Arguments Stop {C O E} n c e.

Class Framer (C O E : Type) := frame : C -> bytes -> Frame C O E.
Class FramerLaws (C O E : Type) `{Framer C O E} : Prop := {
  frame_mono c buf x : frame c buf <> Need -> frame c (buf ++ x) = frame c buf;
  frame_take c buf n c' os : frame c buf = Take n c' os -> (0 < n <= length buf)%nat;
  frame_stop c buf n c' e : frame c buf = Stop n c' e -> (n <= length buf)%nat }.

Section incremental.
Context {C O E : Type} `{Framer C O E}.

(** The [while] loop of [push]; outputs of a failing call are lost. *)
Fixpoint drain (fuel : nat) (c : C) (buf : bytes) : C * bytes * result E (list O) :=
  match fuel with
  | 0 => (c, buf, Ok [])
  | S fuel' =>
    match frame c buf with
    | Need => (c, buf, Ok [])
    | Stop n c' e => (c', drop n buf, Err e)
    | Take n c' os =>
      let '(c2, buf2, r) := drain fuel' c' (drop n buf) in (c2, buf2, app os <$> r)
    end
  end.
(** Every iteration takes a byte, so this fuel is never exhausted. *)
Definition drain_all (c : C) (buf : bytes) : C * bytes * result E (list O) :=
  drain (S (length buf)) c buf.

#[global] Arguments drain_all : simpl never.

(** A stream fed chunk by chunk, up to the first error. *)
Fixpoint feed (c : C) (buf : bytes) (chunks : list bytes) : result E (C * bytes * list O) :=
  match chunks with
  | [] => Ok (c, buf, [])
  | x :: chunks' =>
    match drain_all c (buf ++ x) with
    | (c', buf', Ok os) => 
      match feed c' buf' chunks' with
      | Ok (c2, buf2, os2) => Ok (c2, buf2, os ++ os2)
      | Err e => Err e
      end
    | (_, _, Err e) => Err e
    end
  end.

Context `{!FramerLaws C O E}.

Lemma drain_fuel f1 f2 c buf :
  (length buf < f1)%nat -> (length buf < f2)%nat -> drain f1 c buf = drain f2 c buf.
Proof.
  revert f2 c buf. induction f1 as [|f1 IH]; intros [|f2] c buf H1 H2; try lia. cbn.
  destruct (frame c buf) as [|n c' os|n c' e] eqn:Ef; [done| |done].
  apply frame_take in Ef. rewrite (IH f2); [done | rewrite length_drop; lia..].
Qed.

(** The loop ends because the framer needs more, never because of the fuel. *)
Lemma drain_all_Ok c buf c' buf' os :
  drain_all c buf = (c', buf', Ok os) -> frame c' buf' = Need.
Proof.
  unfold drain_all. assert (length buf < S (length buf))%nat as Hf by lia. revert Hf.
  generalize (S (length buf)) as f. intros f. revert c buf c' buf' os.
  induction f as [|f IH]; intros c buf c' buf' os Hl Hd; [lia|]. cbn in Hd.
  destruct (frame c buf) as [|n c1 o1|n c1 e] eqn:Ef; try done.
  - by simplify_eq.
  - apply frame_take in Ef. destruct (drain f c1 (drop n buf)) as [[c2 b2] [os2|e]] eqn:Ed;
      simplify_eq/=. eapply IH; [|done]. rewrite length_drop; lia.
Qed.

Lemma drain_all_unfold c buf :
  drain_all c buf =
    match frame c buf with
    | Need => (c, buf, Ok [])
    | Stop n c' e => (c', drop n buf, Err e)
    | Take n c' os =>
      let '(c2, buf2, r) := drain_all c' (drop n buf) in (c2, buf2, app os <$> r)
    end.
Proof.
  unfold drain_all at 1. cbn. destruct (frame c buf) as [|n c' os|] eqn:Ef; try done.
  apply frame_take in Ef. unfold drain_all.
  rewrite (drain_fuel _ (S (length (drop n buf)))); [done | rewrite length_drop; lia | lia].
Qed.

(** Bytes that arrive later are decoded from where the first ones ended. *)
Lemma drain_app c buf x :
  drain_all c (buf ++ x) =
    match drain_all c buf with
    | (c', buf', Ok os) =>
      let '(c2, buf2, r) := drain_all c' (buf' ++ x) in (c2, buf2, app os <$> r)
    | (c', buf', Err e) => (c', buf' ++ x, Err e)
    end.
Proof.
  remember (length buf) as l eqn:El. revert c buf El.
  induction (lt_wf l) as [l _ IH]; intros c buf ->.
  rewrite (drain_all_unfold c buf). destruct (frame c buf) as [|n c' os|n c' e] eqn:Ef.
  - destruct (drain_all c (buf ++ x)) as [[? ?] [?|?]]; done.
  - rewrite drain_all_unfold, frame_mono, Ef by congruence.
    pose proof (frame_take _ _ _ _ _ Ef). rewrite drop_app_le by lia.
    rewrite (IH (length (drop n buf)) ltac:(rewrite length_drop; lia) c' (drop n buf) eq_refl).
    destruct (drain_all c' (drop n buf)) as [[c1 b1] [o1|e]]; cbn; [|done].
    destruct (drain_all c1 (b1 ++ x)) as [[c2 b2] [o2|e]]; cbv [fmap result_fmap]; by rewrite ?app_assoc.
  - rewrite drain_all_unfold, frame_mono, Ef by congruence.
    pose proof (frame_stop _ _ _ _ _ Ef). by rewrite drop_app_le by lia.
Qed.

(** Decoding a chunked stream is decoding the stream: same outputs, same final
    state, same error. *)
Lemma feed_concat c buf chunks : frame c buf = Need ->
  feed c buf chunks =
    match drain_all c (buf ++ concat chunks) with
    | (c', buf', Ok os) => Ok (c', buf', os)
    | (_, _, Err e) => Err e
    end.
Proof.
  revert c buf. induction chunks as [|x chunks IH]; intros c buf Hn; cbn.
  - by rewrite app_nil_r, drain_all_unfold, Hn.
  - rewrite app_assoc, (drain_app c (buf ++ x)).
    destruct (drain_all c (buf ++ x)) as [[c1 b1] [o1|e]] eqn:Ed; [|done].
    rewrite IH by (by eapply drain_all_Ok).
    destruct (drain_all c1 (b1 ++ concat chunks)) as [[c2 b2] [o2|e]]; done.
Qed.
End incremental.
