(* ===== verification/Sse.v ===== *)
(** * Server-sent events

    [src/crates/capture/src/sse.rs], a [Framer] whose frames are lines, and the
    event-stream body that [synthesize_ws_response] of
    [src/crates/client/src/capture_lane.rs] renders. *)
From Stdlib Require Import ZArith Lia Strings.Byte Strings.String.
From S2P Require Import Prelude RustStr Incremental.
Local Open Scope string_scope.
Local Open Scope list_scope.

(* src: src/crates/capture/src/sse.rs:4-7 SseEvent *)
Record SseEvent : Type := mkSseEvent {
  se_event : option string;
  se_data : string }.

(* src: src/crates/capture/src/sse.rs:10-13 SseError *)
Inductive SseError : Type :=
| SseError_InvalidUtf8.

(* src: src/crates/capture/src/sse.rs:16-19 EventBuilder *)
Record EventBuilder : Type := mkBuilder {
  bl_event : option string;
  bl_data_lines : list string }.
Definition EventBuilder_default : EventBuilder := mkBuilder None [].

(* src: src/crates/capture/src/sse.rs:22-25 SseDecoder *)
Record SseDecoder : Type := mkSseDecoder {
  sd_buffer : bytes;
  sd_current : EventBuilder }.

(* src: src/crates/capture/src/sse.rs:27-31 SseDecoder::new *)
Definition SseDecoder_new : SseDecoder := mkSseDecoder [] EventBuilder_default.

(* src: src/crates/capture/src/sse.rs:90-99 EventBuilder::finish *)
Definition EventBuilder_finish (c : EventBuilder) : EventBuilder * option SseEvent :=
  if is_none (bl_event c) && bool_decide (bl_data_lines c = []) then (c, None)
  else (EventBuilder_default, Some (mkSseEvent (bl_event c) (join LF (bl_data_lines c)))).

(** The [event:] and [data:] fields, common to [push] and [finish]. *)
(* src: src/crates/capture/src/sse.rs:57-61 SseDecoder::push *)
Definition apply_line (c : EventBuilder) (line : string) : EventBuilder :=
  match strip_prefix "event:" line with
  | Some rest => mkBuilder (Some (trim rest)) (bl_data_lines c)
  | None =>
    match strip_prefix "data:" line with
    | Some rest => mkBuilder (bl_event c) (bl_data_lines c ++ [trim_start rest])
    | None => c
    end
  end.

(** [if line.last() == Some(&b) { line.pop(); }]. *)
(* src: src/crates/capture/src/sse.rs:39-44 SseDecoder::push *)
Definition pop_last (b : byte) (l : bytes) : bytes :=
  match last l with
  | Some c => if Byte.eqb c b then removelast l else l
  | None => l
  end.

(** One iteration of the loop of [push]; [line_end] is the index of the line
    feed. *)
(* src: src/crates/capture/src/sse.rs:37-62 SseDecoder::push *)
Definition sse_frame (c : EventBuilder) (buf : bytes) : Frame EventBuilder SseEvent SseError :=
  match position x0a buf with
  | None => Need
  | Some line_end =>
    let line := pop_last x0d (pop_last x0a (take (S line_end) buf)) in
    match from_utf8 line with
    | None => Stop (S line_end) c SseError_InvalidUtf8
    | Some line =>
      if str_is_empty line then
        let '(c', ev) := EventBuilder_finish c in
        Take (S line_end) c' (option_list ev)
      else if starts_with [x3a] (as_bytes line) then Take (S line_end) c []
      else Take (S line_end) (apply_line c line) []
    end
  end.
#[export] Instance SseFramer : Framer EventBuilder SseEvent SseError := sse_frame.

(* src: src/crates/capture/src/sse.rs:33-65 SseDecoder::push *)
Definition push (d : SseDecoder) (b : bytes) : SseDecoder * result SseError (list SseEvent) :=
  let '(c, buf, r) := drain_all (sd_current d) (sd_buffer d ++ b) in
  (mkSseDecoder buf c, r).

(* src: src/crates/capture/src/sse.rs:67-79 SseDecoder::finish *)
Definition finish (d : SseDecoder) : SseDecoder * result SseError (list SseEvent) :=
  let done c :=
    let '(c', ev) := EventBuilder_finish c in (mkSseDecoder [] c', Ok (option_list ev)) in
  match sd_buffer d with
  | [] => done (sd_current d)
  | buf =>
    match from_utf8 buf with
    | None => (mkSseDecoder [] (sd_current d), Err SseError_InvalidUtf8)
    | Some line => done (apply_line (sd_current d) line)
    end
  end.

(* src: src/crates/capture/src/sse.rs:82-87 parse_sse_events *)
Definition parse_sse_events (b : bytes) : result SseError (list SseEvent) :=
  let '(d, r) := push SseDecoder_new b in
  events ← r;
  let '(_, r') := finish d in
  more ← r';
  mret (events ++ more).

(** The event stream of [synthesize_ws_response]. *)
(* src: src/crates/client/src/capture_lane.rs:1846-1853 synthesize_ws_response *)
Definition ws_event_stream (events : list string) : bytes :=
  concat (map (fun event =>
    as_bytes "event: message" ++ [x0a] ++ as_bytes "data: " ++ as_bytes event ++ [x0a; x0a]) events).

(** A stream arriving in chunks, then [finish]. *)
Fixpoint push_chunks (d : SseDecoder) (chunks : list bytes)
    : result SseError (SseDecoder * list SseEvent) :=
  match chunks with
  | [] => Ok (d, [])
  | x :: chunks' =>
    let '(d1, r) := push d x in
    events ← r;
    '(d2, more) ← push_chunks d1 chunks';
    mret (d2, events ++ more)
  end.
Definition parse_chunks (chunks : list bytes) : result SseError (list SseEvent) :=
  '(d, events) ← push_chunks SseDecoder_new chunks;
  more ← snd (finish d);
  mret (events ++ more).

(** ** Lemmas *)
#[export] Instance sse_framer_laws : FramerLaws EventBuilder SseEvent SseError.
Proof.
  assert (Hcase : forall c buf, frame c buf = Need \/ exists n, position x0a buf = Some n
            /\ ((exists c' os, frame c buf = Take (S n) c' os)
                \/ (exists c' e, frame c buf = Stop (S n) c' e))).
  { intros c buf. unfold frame, SseFramer, sse_frame.
    destruct (position x0a buf) as [n|]; [right; exists n | by left]. split; [done|].
    destruct (from_utf8 _) as [line|]; [left | right; eauto].
    destruct (str_is_empty line); [destruct (EventBuilder_finish c)|destruct (starts_with _ _)]; eauto. }
  split.
  - intros c buf x. unfold frame, SseFramer, sse_frame.
    destruct (position x0a buf) as [n|] eqn:En; [intros _|done].
    rewrite (position_app_l _ _ _ _ En). apply position_lt in En. by rewrite take_app_le by lia.
  - intros c buf n c' os E. destruct (Hcase c buf) as [E'|(k & Hk & [(?&?&E')|(?&?&E')])];
      rewrite E' in E; simplify_eq. apply position_lt in Hk. lia.
  - intros c buf n c' e E. destruct (Hcase c buf) as [E'|(k & Hk & [(?&?&E')|(?&?&E')])];
      rewrite E' in E; simplify_eq. apply position_lt in Hk. lia.
Qed.

Lemma sse_push_chunks_feed c buf chunks :
  push_chunks (mkSseDecoder buf c) chunks =
    (fun '(c', buf', os) => (mkSseDecoder buf' c', os)) <$> feed c buf chunks.
Proof.
  revert c buf. induction chunks as [|x chunks IH]; intros c buf; [done|].
  cbn [push_chunks feed push sd_current sd_buffer]. unfold push. cbn [sd_current sd_buffer].
  destruct (drain_all c (buf ++ x)) as [[c1 b1] [o1|e]]; [|done]. cbn [mbind result_bind].
  rewrite IH. by destruct (feed c1 b1 chunks) as [[[c2 b2] o2]|e].
Qed.

Lemma pop_last_snoc b l : pop_last b (l ++ [b]) = l.
Proof. unfold pop_last. by rewrite last_snoc, byte_eqb_refl, removelast_last. Qed.
Lemma pop_last_other b l : last l <> Some b -> pop_last b l = l.
Proof.
  unfold pop_last. destruct (last l) as [c|]; [|done]. intros Hc.
  destruct (byte_eqb_spec c b); congruence.
Qed.

(** The frame of a complete line that needs no carriage return stripped. *)
Lemma frame_line c l rest line :
  x0a ∉ l -> last l <> Some x0d -> from_utf8 l = Some line ->
  frame c (l ++ x0a :: rest) =
    if str_is_empty line then
      let '(c', ev) := EventBuilder_finish c in Take (S (length l)) c' (option_list ev)
    else if starts_with [x3a] (as_bytes line) then Take (S (length l)) c []
    else Take (S (length l)) (apply_line c line) [].
Proof.
  intros Hn Hr Hu. unfold frame, SseFramer, sse_frame.
  assert (position x0a (l ++ x0a :: rest) = Some (length l)) as ->
    by (apply position_Some; eauto).
  replace (take (S (length l)) (l ++ x0a :: rest)) with (l ++ [x0a]).
  - by rewrite pop_last_snoc, pop_last_other, Hu.
  - change (x0a :: rest) with ([x0a] ++ rest). rewrite (app_assoc l [x0a] rest), take_app_length'; [done|].
    rewrite length_app. cbn. lia.
Qed.

Lemma drop_line (l rest : bytes) : drop (S (length l)) (l ++ x0a :: rest) = rest.
Proof.
  change (x0a :: rest) with ([x0a] ++ rest). rewrite (app_assoc l [x0a] rest), drop_app_length'; [done|].
  rewrite length_app. cbn. lia.
Qed.

(** ** Properties *)

(** Decoding does not depend on how the stream was cut: feeding any chunks
    and finishing gives what [parse_sse_events] gives on their concatenation,
    the same events or the same error. *)
Theorem sse_chunking chunks : parse_chunks chunks = parse_sse_events (concat chunks).
Proof.
  unfold parse_chunks, parse_sse_events, push, SseDecoder_new. cbn [sd_buffer sd_current app].
  rewrite sse_push_chunks_feed, feed_concat by done. cbn [app].
  destruct (drain_all EventBuilder_default (concat chunks)) as [[c b] [os|e]]; [|done].
  cbn. by destruct (finish (mkSseDecoder b c)) as [d [more|e]].
Qed.

(** An event the renderer can carry: UTF-8 without line ends or leading space. *)
Definition renderable (e : string) : Prop :=
  utf8_valid (as_bytes e) = true /\ x0a ∉ as_bytes e /\ last (as_bytes e) <> Some x0d
  /\ trim_start e = e.

Lemma apply_event_line c : apply_line c "event: message" = mkBuilder (Some "message") (bl_data_lines c).
Proof. reflexivity. Qed.
Lemma apply_data_line c e : trim_start e = e ->
  apply_line c ("data: " +:+ e) = mkBuilder (bl_event c) (bl_data_lines c ++ [e]).
Proof.
  intros Ht. unfold apply_line.
  change (strip_prefix "event:" ("data: " +:+ e)) with (@None string).
  change ("data: " +:+ e) with ("data:" +:+ (" " +:+ e)).
  by rewrite strip_prefix_app, trim_start_space, Ht.
Qed.

Lemma ws_event_drain e rest :
  renderable e ->
  drain_all EventBuilder_default
    (as_bytes "event: message" ++ [x0a] ++ as_bytes "data: " ++ as_bytes e ++ [x0a; x0a] ++ rest)
  = let '(c, b, r) := drain_all EventBuilder_default rest in
    (c, b, app [mkSseEvent (Some "message") e] <$> r).
Proof.
  intros (Hu & Hn & Hr & Ht).
  replace (as_bytes "data: " ++ as_bytes e ++ [x0a; x0a] ++ rest)
    with (as_bytes ("data: " +:+ e) ++ x0a :: [] ++ x0a :: rest)
    by (rewrite as_bytes_app, <- app_assoc; done).
  assert (Hc : x0a ∉ as_bytes ("data: " +:+ e) /\ last (as_bytes ("data: " +:+ e)) <> Some x0d
               /\ utf8_valid (as_bytes ("data: " +:+ e)) = true).
  { rewrite as_bytes_app. split; [|split].
    - rewrite elem_of_app. intros [Hx|Hx]; [|done]. revert Hx. change (x0a ∉ as_bytes "data: "). by_decide.
    - rewrite last_app. destruct (last (as_bytes e)); [done | by vm_compute].
    - by rewrite utf8_valid_ascii. }
  destruct Hc as (Hc1 & Hc2 & Hc3).
  rewrite drain_all_unfold. change ([x0a] ++ ?l) with (x0a :: l).
  rewrite (frame_line _ (as_bytes "event: message") _ "event: message") by
    (first [reflexivity | by_decide]).
  cbn [str_is_empty]. change (starts_with [x3a] (as_bytes "event: message")) with false. cbv iota.
  rewrite drop_line, apply_event_line.
  rewrite drain_all_unfold, (frame_line _ _ _ _ Hc1 Hc2 (from_utf8_as_bytes _ Hc3)).
  change (str_is_empty ("data: " +:+ e)) with false.
  change (starts_with [x3a] (as_bytes ("data: " +:+ e))) with false. cbv iota.
  rewrite drop_line, apply_data_line by done. cbn [app].
  rewrite drain_all_unfold, (frame_line _ [] rest "") by (done || set_solver).
  cbn [str_is_empty]. cbn. rewrite drop_0.
  destruct (drain_all EventBuilder_default rest) as [[c b] [os|err]]; done.
Qed.

(** What the WebSocket lane renders as an event stream, the SSE decoder reads
    back: one [message] event per payload, with its data unchanged, in order. *)
Theorem sse_render_roundtrip events :
  Forall renderable events ->
  parse_sse_events (ws_event_stream events) = Ok (map (mkSseEvent (Some "message")) events).
Proof.
  intros Hall. unfold parse_sse_events, push, SseDecoder_new. cbn [sd_current sd_buffer app].
  assert (drain_all EventBuilder_default (ws_event_stream events)
          = (EventBuilder_default, [], Ok (map (mkSseEvent (Some "message")) events))) as ->.
  { induction Hall as [|e events He _ IH]; [done|].
    unfold ws_event_stream in *. cbn [map concat]. rewrite <- !app_assoc.
    by rewrite ws_event_drain, IH. }
  cbn. by rewrite app_nil_r.
Qed.

Lemma sse_render_roundtrip_witness :
  parse_sse_events (ws_event_stream ["{}"; "[DONE]"])
  = Ok [mkSseEvent (Some "message") "{}"; mkSseEvent (Some "message") "[DONE]"].
Proof.
  apply (sse_render_roundtrip ["{}"; "[DONE]"]).
  repeat constructor; first [reflexivity | by_decide].
Defined.
