(* ===== verification/WebSocket.v ===== *)
(** * WebSocket frames

    [src/crates/capture/src/websocket.rs]: the streaming decoder, which joins
    continuation frames, as a [Framer], and the batch decoder.  A frame length
    is a [u64] ([Z]); [cursor + len] past [usize::MAX] panics ([WsPanic]). *)
From Stdlib Require Import ZArith Lia Strings.Byte.
From S2P Require Import Prelude Incremental.
Local Open Scope Z_scope.

(* src: src/crates/capture/src/websocket.rs:4-8 WebSocketFrame *)
Record WebSocketFrame : Type := mkWsFrame {
  wf_opcode : Z;
  wf_payload : bytes;
  wf_fin : bool }.

(* src: src/crates/capture/src/websocket.rs:18-23 WebSocketError *)
Inductive WebSocketError : Type :=
| WebSocketError_Truncated
| WebSocketError_InvalidContinuation.
Inductive WsFailure : Type :=
| WsError (e : WebSocketError)
| WsPanic.

(** [continuation_opcode] and [continuation_payload]. *)
Record Continuation : Type := mkCont {
  ct_opcode : option Z;
  ct_payload : bytes }.
Definition Continuation_default : Continuation := mkCont None [].

(* src: src/crates/capture/src/websocket.rs:11-15 WebSocketDecoder *)
Record WebSocketDecoder : Type := mkWsDecoder {
  ws_buffer : bytes;
  ws_continuation : Continuation }.
(* src: src/crates/capture/src/websocket.rs:25-29 WebSocketDecoder::new *)
Definition WebSocketDecoder_new : WebSocketDecoder := mkWsDecoder [] Continuation_default.

(** [byte ^ mask[index % 4]] over [iter().enumerate()]. *)
Definition xor_byte (a b : byte) : byte := to_u8 (Z.lxor (u8 a) (u8 b)).
(* src: src/crates/capture/src/websocket.rs:119-127 WebSocketDecoder::try_decode_next *)
Definition unmask (mask : bytes) (payload : bytes) : bytes :=
  imap (fun index b => xor_byte b (nth (index mod 4) mask x00)) payload.

(** [buffer[a..a + n]] when it is there. *)
Definition get_range (b : bytes) (a n : Z) : option bytes :=
  if a + n <=? Z.of_nat (length b)
  then Some (take (Z.to_nat n) (drop (Z.to_nat a) b)) else None.

(** What [try_decode_next] returns, with the bytes it drains. *)
Inductive TryDecode : Type :=
| TdNone
| TdPanic
| TdFrame (f : WebSocketFrame) (drained : nat).

(** The payload, once the header ends at [cursor]. *)
(* src: src/crates/capture/src/websocket.rs:112-135 WebSocketDecoder::try_decode_next *)
Definition decode_body (buf : bytes) (fin : bool) (opcode : Z) (mask : option bytes)
    (len cursor : Z) : TryDecode :=
  if u64_max <? cursor + len then TdPanic
  else match get_range buf cursor len with
  | None => TdNone
  | Some payload =>
    let payload := match mask with Some mask => unmask mask payload | None => payload end in
    TdFrame (mkWsFrame opcode payload fin) (Z.to_nat (cursor + len))
  end.

(** The mask and the payload, once the length is known. *)
(* src: src/crates/capture/src/websocket.rs:98-111 WebSocketDecoder::try_decode_next *)
Definition decode_payload (buf : bytes) (fin : bool) (opcode : Z) (masked : bool)
    (len cursor : Z) : TryDecode :=
  if masked then
    match get_range buf cursor 4 with
    | Some mask => decode_body buf fin opcode (Some mask) len (cursor + 4)
    | None => TdNone
    end
  else decode_body buf fin opcode None len cursor.

(** The header byte by byte; [b0] and [b1] are the first two of [buf]. *)
(* src: src/crates/capture/src/websocket.rs:69-96 WebSocketDecoder::try_decode_next *)
Definition decode_header (b0 b1 : byte) (buf : bytes) : TryDecode :=
  let fin := negb (Z.land (u8 b0) 128 =? 0) in
  let opcode := Z.land (u8 b0) 15 in
  let masked := negb (Z.land (u8 b1) 128 =? 0) in
  let len := Z.land (u8 b1) 127 in
  if len =? 126 then
    match get_range buf 2 2 with
    | None => TdNone
    | Some l => decode_payload buf fin opcode masked (be_val l) 4
    end
  else if len =? 127 then
    match get_range buf 2 8 with
    | None => TdNone
    | Some l => decode_payload buf fin opcode masked (be_val l) 10
    end
  else decode_payload buf fin opcode masked len 2.

(* src: src/crates/capture/src/websocket.rs:65-136 WebSocketDecoder::try_decode_next *)
Definition try_decode_next (buf : bytes) : TryDecode :=
  match buf with
  | b0 :: b1 :: _ => decode_header b0 b1 buf
  | _ => TdNone
  end.

(** One iteration of the loop of [push]. *)
(* src: src/crates/capture/src/websocket.rs:34-61 WebSocketDecoder::push *)
Definition ws_frame (c : Continuation) (buf : bytes)
    : Frame Continuation WebSocketFrame WsFailure :=
  match try_decode_next buf with
  | TdNone => Need
  | TdPanic => Stop 0 c WsPanic
  | TdFrame f n =>
    if wf_opcode f =? 0 then
      match ct_opcode c with
      | None => Stop n c (WsError WebSocketError_InvalidContinuation)
      | Some opcode =>
        let payload := ct_payload c ++ wf_payload f in
        if wf_fin f then Take n (mkCont None []) [mkWsFrame opcode payload true]
        else Take n (mkCont (Some opcode) payload) []
      end
    else if negb (wf_fin f) then Take n (mkCont (Some (wf_opcode f)) (wf_payload f)) []
    else Take n c [f]
  end.
#[export] Instance WsFramer : Framer Continuation WebSocketFrame WsFailure := ws_frame.

(* src: src/crates/capture/src/websocket.rs:31-63 WebSocketDecoder::push *)
Definition push (d : WebSocketDecoder) (b : bytes)
    : WebSocketDecoder * result WsFailure (list WebSocketFrame) :=
  let '(c, buf, r) := drain_all (ws_continuation d) (ws_buffer d ++ b) in
  (mkWsDecoder buf c, r).

(** [bytes.get(a..b).ok_or(Truncated)?]. *)
Definition get_or (b : bytes) (a n : Z) : result WsFailure bytes :=
  if u64_max <? a + n then Err WsPanic
  else ok_or (WsError WebSocketError_Truncated) (get_range b a n).

(** One frame of the batch decoder, from [cursor]. *)
(* src: src/crates/capture/src/websocket.rs:143-189 decode_websocket_frames *)
Definition batch_frame (b : bytes) (cursor : Z) : result WsFailure (WebSocketFrame * Z) :=
  h0 ← get_or b cursor 1;
  h1 ← get_or b (cursor + 1) 1;
  let b0 := be_val h0 in
  let b1 := be_val h1 in
  let fin := negb (Z.land b0 128 =? 0) in
  let opcode := Z.land b0 15 in
  let masked := negb (Z.land b1 128 =? 0) in
  let len := Z.land b1 127 in
  let cursor := cursor + 2 in
  '(len, cursor) ←
    (if len =? 126 then l ← get_or b cursor 2; mret (be_val l, cursor + 2)
     else if len =? 127 then l ← get_or b cursor 8; mret (be_val l, cursor + 8)
     else mret (len, cursor));
  '(mask, cursor) ←
    (if masked : bool then m ← get_or b cursor 4; mret (Some m, cursor + 4)
     else mret (None, cursor));
  payload ← get_or b cursor len;
  let cursor := cursor + len in
  let payload := match mask with Some mask => unmask mask payload | None => payload end in
  mret (mkWsFrame opcode payload fin, cursor).

(** Every frame has two bytes or more, so the fuel of the loop is its length. *)
(* src: src/crates/capture/src/websocket.rs:142-190 decode_websocket_frames *)
Fixpoint batch_loop (fuel : nat) (b : bytes) (cursor : Z) : result WsFailure (list WebSocketFrame) :=
  if Z.of_nat (length b) <=? cursor then Ok []
  else match fuel with
  | O => Ok []
  | S fuel' =>
    '(f, cursor) ← batch_frame b cursor;
    fs ← batch_loop fuel' b cursor;
    mret (f :: fs)
  end.
(* src: src/crates/capture/src/websocket.rs:139-192 decode_websocket_frames *)
Definition decode_websocket_frames (b : bytes) : result WsFailure (list WebSocketFrame) :=
  batch_loop (length b) b 0.

(** ** Lemmas *)
Lemma get_range_Some b a n r :
  0 <= a -> 0 <= n ->
  get_range b a n = Some r <-> a + n <= Z.of_nat (length b)
    /\ r = take (Z.to_nat n) (drop (Z.to_nat a) b).
Proof.
  intros. unfold get_range. destruct (Z.leb_spec (a + n) (Z.of_nat (length b))).
  - split; [by intros [= <-] | by intros [_ ->]].
  - split; [done | intros [? _]; lia].
Qed.
Lemma get_range_app b x a n r :
  0 <= a -> 0 <= n -> get_range b a n = Some r -> get_range (b ++ x) a n = Some r.
Proof.
  intros Ha Hn. rewrite !get_range_Some by lia. rewrite length_app. intros [Hl ->].
  split; [lia|]. rewrite drop_app_le by lia. rewrite take_app_le; [done|].
  rewrite length_drop. lia.
Qed.

Lemma decode_body_app buf x fin op mask len cursor :
  0 <= len -> 0 <= cursor -> decode_body buf fin op mask len cursor <> TdNone ->
  decode_body (buf ++ x) fin op mask len cursor = decode_body buf fin op mask len cursor.
Proof.
  intros Hl Hc. unfold decode_body. destruct (u64_max <? cursor + len); [done|].
  destruct (get_range buf cursor len) as [p|] eqn:Ep; [|done].
  by rewrite (get_range_app _ x _ _ _ Hc Hl Ep).
Qed.
Lemma decode_payload_app buf x fin op m len cursor :
  0 <= len -> 0 <= cursor -> decode_payload buf fin op m len cursor <> TdNone ->
  decode_payload (buf ++ x) fin op m len cursor = decode_payload buf fin op m len cursor.
Proof.
  intros Hl Hc. unfold decode_payload. destruct m; [|by apply decode_body_app].
  destruct (get_range buf cursor 4) as [mask|] eqn:Em; [|done].
  rewrite (get_range_app buf x cursor 4 mask Hc ltac:(lia) Em). intros. apply decode_body_app; [done | lia | done].
Qed.
Lemma decode_payload_drained buf fin op m len cursor f n :
  0 <= len -> 0 < cursor -> decode_payload buf fin op m len cursor = TdFrame f n ->
  (0 < n <= length buf)%nat.
Proof.
  intros Hl Hc.
  assert (Hb : forall mask cur, 0 < cur -> decode_body buf fin op mask len cur = TdFrame f n ->
            (0 < n <= length buf)%nat).
  { intros mask cur Hcur. unfold decode_body. destruct (u64_max <? cur + len); [done|].
    destruct (get_range buf cur len) as [p|] eqn:Ep; [|done]. intros [= _ <-].
    apply get_range_Some in Ep as [? _]; lia. }
  unfold decode_payload. destruct m; [|by apply Hb].
  destruct (get_range buf cursor 4); [|done]. apply Hb. lia.
Qed.

Lemma be_val_nonneg l : 0 <= be_val l.
Proof. apply be_val_bound. Qed.
Lemma len7_nonneg b : 0 <= Z.land (u8 b) 127.
Proof. apply Z.land_nonneg. lia. Qed.

Lemma try_decode_app buf x :
  try_decode_next buf <> TdNone -> try_decode_next (buf ++ x) = try_decode_next buf.
Proof.
  destruct buf as [|b0 [|b1 buf]]; [done..|]. cbn [app try_decode_next].
  change (b0 :: b1 :: buf ++ x) with ((b0 :: b1 :: buf) ++ x).
  generalize (b0 :: b1 :: buf) as b. intros b. unfold decode_header.
  pose proof (len7_nonneg b1).
  destruct (_ =? 126); [|destruct (_ =? 127)].
  - destruct (get_range b 2 2) as [l|] eqn:El; [|done].
    rewrite (get_range_app b x 2 2 l ltac:(lia) ltac:(lia) El).
    apply decode_payload_app; [apply be_val_nonneg | lia].
  - destruct (get_range b 2 8) as [l|] eqn:El; [|done].
    rewrite (get_range_app b x 2 8 l ltac:(lia) ltac:(lia) El).
    apply decode_payload_app; [apply be_val_nonneg | lia].
  - by apply decode_payload_app.
Qed.
Lemma try_decode_drained buf f n :
  try_decode_next buf = TdFrame f n -> (0 < n <= length buf)%nat.
Proof.
  destruct buf as [|b0 [|b1 buf]]; [done..|]. unfold try_decode_next, decode_header.
  pose proof (len7_nonneg b1).
  destruct (_ =? 126); [|destruct (_ =? 127)];
    [destruct (get_range _ 2 2); [|done] | destruct (get_range _ 2 8); [|done] |];
    apply decode_payload_drained; auto using be_val_nonneg; lia.
Qed.

#[export] Instance ws_framer_laws : FramerLaws Continuation WebSocketFrame WsFailure.
Proof.
  split.
  - intros c buf x. unfold frame, WsFramer, ws_frame. intros Hn.
    rewrite try_decode_app; [done|]. intros E. by rewrite E in Hn.
  - intros c buf n c' os. unfold frame, WsFramer, ws_frame.
    destruct (try_decode_next buf) as [| |f m] eqn:E; try done. apply try_decode_drained in E.
    repeat case_match; intros; simplify_eq; lia.
  - intros c buf n c' e. unfold frame, WsFramer, ws_frame.
    destruct (try_decode_next buf) as [| |f m] eqn:E; try done.
    + intros [= <- _ _]. lia.
    + apply try_decode_drained in E. repeat case_match; intros; simplify_eq; lia.
Qed.

(** ** An encoder (RFC 6455), the reference for the decoders *)
Record WireFrame : Type := mkWire {
  wr_frame : WebSocketFrame;
  wr_mask : option bytes }.
Definition bit7 (b : bool) : Z := if b then 128 else 0.
Definition encode_length (masked : bool) (n : Z) : bytes :=
  if n <? 126 then [to_u8 (bit7 masked + n)]
  else if n <? 65536 then to_u8 (bit7 masked + 126) :: be_bytes 2 n
  else to_u8 (bit7 masked + 127) :: be_bytes 8 n.
Definition encode_frame (w : WireFrame) : bytes :=
  let f := wr_frame w in
  to_u8 (bit7 (wf_fin f) + wf_opcode f)
  :: encode_length (is_some (wr_mask w)) (Z.of_nat (length (wf_payload f)))
  ++ match wr_mask w with
     | Some mask => mask ++ unmask mask (wf_payload f)
     | None => wf_payload f
     end.
Record wire_ok (w : WireFrame) : Prop := mk_wire_ok {
  wo_opcode : 0 <= wf_opcode (wr_frame w) < 16;
  wo_mask : forall m, wr_mask w = Some m -> length m = 4%nat;
  wo_len : Z.of_nat (length (wf_payload (wr_frame w))) <= i64_max }.

(** A message sent in fragments. *)
Record Message : Type := mkMessage {
  ms_opcode : Z;
  ms_fragments : list (bytes * option bytes) }.
Fixpoint fragments (opcode : Z) (l : list (bytes * option bytes)) : list WireFrame :=
  match l with
  | [] => []
  | [(p, m)] => [mkWire (mkWsFrame opcode p true) m]
  | (p, m) :: l' => mkWire (mkWsFrame opcode p false) m :: fragments 0 l'
  end.
Definition encode_message (m : Message) : bytes :=
  concat (map encode_frame (fragments (ms_opcode m) (ms_fragments m))).
Definition message_frame (m : Message) : WebSocketFrame :=
  mkWsFrame (ms_opcode m) (concat (map fst (ms_fragments m))) true.
Definition message_ok (m : Message) : Prop :=
  0 < ms_opcode m < 16 /\ ms_fragments m <> []
  /\ Forall wire_ok (fragments (ms_opcode m) (ms_fragments m)).

Lemma xor_byte_involutive a b : xor_byte (xor_byte a b) b = a.
Proof.
  unfold xor_byte. rewrite u8_to_u8.
  assert (0 <= Z.lxor (u8 a) (u8 b) < 256).
  { pose proof (u8_range a). pose proof (u8_range b).
    split; [apply Z.lxor_nonneg; lia|].
    destruct (Z.eq_dec (Z.lxor (u8 a) (u8 b)) 0) as [->|Hne]; [lia|].
    change 256 with (2 ^ 8). apply Z.log2_lt_pow2; [|].
    - pose proof (proj2 (Z.lxor_nonneg (u8 a) (u8 b))). lia.
    - eapply Z.le_lt_trans; [apply Z.log2_lxor; lia|].
      apply Z.max_lub_lt; (destruct (Z.eq_dec (u8 a) 0) as [E|]; destruct (Z.eq_dec (u8 b) 0) as [E'|];
        rewrite ?E, ?E'; try (cbn; lia); apply Z.log2_lt_pow2; lia). }
  rewrite Z.mod_small by done. rewrite Z.lxor_assoc, Z.lxor_nilpotent, Z.lxor_0_r.
  apply to_u8_u8.
Qed.
Lemma unmask_involutive mask p : unmask mask (unmask mask p) = p.
Proof.
  unfold unmask. apply list_eq. intros i. rewrite !list_lookup_imap.
  destruct (p !! i); cbn; [by rewrite xor_byte_involutive | done].
Qed.
Lemma length_unmask mask p : length (unmask mask p) = length p.
Proof. apply length_imap. Qed.

Lemma land_bit7 x : 0 <= x < 256 -> negb (Z.land x 128 =? 0) = (128 <=? x).
Proof.
  intros Hx.
  assert (H : forallb (fun x => Bool.eqb (negb (Z.land x 128 =? 0)) (128 <=? x))
            (map Z.of_nat (seq 0 256)) = true) by (vm_compute; reflexivity).
  rewrite forallb_forall in H. apply eqb_prop, H. apply in_map_iff. exists (Z.to_nat x).
  split; [lia|]. apply in_seq. lia.
Qed.
Lemma land_low b n k x : 0 <= k -> x = 2 ^ k - 1 -> 0 <= n <= x -> k <= 7 ->
  Z.land (bit7 b + n) x = n.
Proof.
  intros Hk -> Hn H7.
  replace (2 ^ k - 1) with (Z.ones k) by (rewrite Z.ones_equiv; lia).
  rewrite Z.land_ones by done.
  assert (bit7 b = (if b then 2 ^ (7 - k) else 0) * 2 ^ k) as ->.
  { destruct b; cbn [bit7]; [|lia]. rewrite <- Z.pow_add_r by lia. by replace (7 - k + k) with 7 by lia. }
  rewrite Z.add_comm, Z_mod_plus_full. apply Z.mod_small. lia.
Qed.
Lemma bit7_u8 b n : 0 <= n < 128 -> u8 (to_u8 (bit7 b + n)) = bit7 b + n.
Proof. intros. rewrite u8_to_u8. apply Z.mod_small. destruct b; cbn; lia. Qed.
Lemma bit7_test b n : 0 <= n < 128 -> negb (Z.land (bit7 b + n) 128 =? 0) = b.
Proof. intros. rewrite land_bit7 by (destruct b; cbn; lia). destruct b; cbn [bit7]; lia. Qed.

Lemma get_range_at a b c x n :
  Z.of_nat (length a) = x -> Z.of_nat (length b) = n -> get_range (a ++ b ++ c) x n = Some b.
Proof.
  intros <- <-. apply get_range_Some; [lia..|]. rewrite !length_app, !Nat2Z.id. split; [lia|].
  by rewrite drop_app_length, take_app_length.
Qed.

Definition wire_tail (w : WireFrame) : bytes :=
  match wr_mask w with
  | Some mask => mask ++ unmask mask (wf_payload (wr_frame w))
  | None => wf_payload (wr_frame w)
  end.

Lemma decode_payload_tail hdr w rest cursor n :
  wire_ok w -> Z.of_nat (length hdr) = cursor -> cursor <= 10 ->
  n = Z.of_nat (length (wf_payload (wr_frame w))) ->
  decode_payload (hdr ++ wire_tail w ++ rest) (wf_fin (wr_frame w)) (wf_opcode (wr_frame w))
    (is_some (wr_mask w)) n cursor
  = TdFrame (wr_frame w) (length hdr + length (wire_tail w)).
Proof.
  intros [_ Hm Hl] Hc Hc10 ->. unfold decode_payload, wire_tail, decode_body.
  unfold i64_max in Hl. unfold u64_max.
  destruct w as [[op p fin] [mask|]]; cbn [wr_frame wr_mask wf_payload wf_fin wf_opcode is_some] in *.
  - specialize (Hm _ eq_refl). rewrite <- app_assoc.
    rewrite (get_range_at hdr mask _ _ 4) by lia. rewrite (proj2 (Z.ltb_ge _ _)) by lia.
    rewrite app_assoc, (get_range_at (hdr ++ mask)) by (rewrite ?length_app, ?length_unmask; lia).
    rewrite unmask_involutive, length_app, length_unmask. f_equal. lia.
  - rewrite (proj2 (Z.ltb_ge _ _)) by lia. rewrite (get_range_at hdr) by lia. f_equal. lia.
Qed.

(** One encoded frame, whatever follows it. *)
Lemma decode_encode_frame w rest : wire_ok w ->
  try_decode_next (encode_frame w ++ rest) = TdFrame (wr_frame w) (length (encode_frame w)).
Proof.
  intros Hw. pose proof Hw as [Ho _ Hl]. unfold i64_max in Hl.
  set (n := Z.of_nat (length (wf_payload (wr_frame w)))).
  set (b0 := to_u8 (bit7 (wf_fin (wr_frame w)) + wf_opcode (wr_frame w))).
  assert (He : encode_frame w = b0 :: encode_length (is_some (wr_mask w)) n ++ wire_tail w) by done.
  assert (Hb0 : negb (Z.land (u8 b0) 128 =? 0) = wf_fin (wr_frame w)
                /\ Z.land (u8 b0) 15 = wf_opcode (wr_frame w)).
  { unfold b0. rewrite bit7_u8 by lia. split; [apply bit7_test; lia | apply (land_low _ _ 4); lia]. }
  assert (Hb1 : forall k, 0 <= k <= 127 ->
    negb (Z.land (u8 (to_u8 (bit7 (is_some (wr_mask w)) + k))) 128 =? 0) = is_some (wr_mask w)
    /\ Z.land (u8 (to_u8 (bit7 (is_some (wr_mask w)) + k))) 127 = k).
  { intros k Hk. rewrite bit7_u8 by lia. split; [apply bit7_test; lia | apply (land_low _ _ 7); lia]. }
  destruct Hb0 as [Hfin Hop]. rewrite He. unfold encode_length.
  destruct (Z.ltb_spec n 126); [|destruct (Z.ltb_spec n 65536)]; cbn [app try_decode_next].
  - destruct (Hb1 n ltac:(lia)) as [Hmask Hlen]. unfold decode_header. rewrite Hfin, Hop, Hmask, Hlen.
    rewrite (proj2 (Z.eqb_neq _ _)), (proj2 (Z.eqb_neq n 127)) by lia.
    set (b1 := to_u8 _). by apply (decode_payload_tail [b0; b1]).
  - destruct (Hb1 126 ltac:(lia)) as [Hmask Hlen]. unfold decode_header. rewrite Hfin, Hop, Hmask, Hlen.
    cbn [Z.eqb Pos.eqb]. set (b1 := to_u8 _).
    change (b0 :: b1 :: ?l) with ([b0; b1] ++ l). rewrite <- app_assoc.
    rewrite (get_range_at [b0; b1]) by (rewrite ?length_be_bytes; done).
    rewrite be_val_be_bytes by (cbn; lia). rewrite app_assoc.
    by rewrite decode_payload_tail.
  - destruct (Hb1 127 ltac:(lia)) as [Hmask Hlen]. unfold decode_header. rewrite Hfin, Hop, Hmask, Hlen.
    cbn [Z.eqb Pos.eqb]. set (b1 := to_u8 _).
    change (b0 :: b1 :: ?l) with ([b0; b1] ++ l). rewrite <- app_assoc.
    rewrite (get_range_at [b0; b1]) by (rewrite ?length_be_bytes; done).
    rewrite be_val_be_bytes by (cbn; lia). rewrite app_assoc.
    by rewrite decode_payload_tail.
Qed.

(** The decoder's loop on the frames of one message. *)
Lemma drain_fragment c w rest c' os :
  wire_ok w ->
  match (if wf_opcode (wr_frame w) =? 0 then
           match ct_opcode c with
           | None => None
           | Some opcode =>
             if wf_fin (wr_frame w)
             then Some (mkCont None [], [mkWsFrame opcode (ct_payload c ++ wf_payload (wr_frame w)) true])
             else Some (mkCont (Some opcode) (ct_payload c ++ wf_payload (wr_frame w)), [])
           end
         else if negb (wf_fin (wr_frame w))
         then Some (mkCont (Some (wf_opcode (wr_frame w))) (wf_payload (wr_frame w)), [])
         else Some (c, [wr_frame w])) with
  | Some r => r = (c', os)
  | None => False
  end ->
  drain_all c (encode_frame w ++ rest) =
    let '(c2, b, r) := drain_all c' rest in (c2, b, app os <$> r).
Proof.
  intros Hw Hr. rewrite drain_all_unfold. unfold frame, WsFramer, ws_frame.
  rewrite decode_encode_frame by done.
  destruct (wf_opcode (wr_frame w) =? 0).
  - destruct (ct_opcode c); [|done].
    destruct (wf_fin (wr_frame w)); injection Hr as <- <-; by rewrite drop_app_length.
  - destruct (wf_fin (wr_frame w)); cbn in *; injection Hr as <- <-; by rewrite drop_app_length.
Qed.

Lemma drain_continuation op acc l rest :
  l <> [] -> Forall wire_ok (fragments 0 l) ->
  drain_all (mkCont (Some op) acc) (concat (map encode_frame (fragments 0 l)) ++ rest) =
    let '(c2, b, r) := drain_all (mkCont None []) rest in
    (c2, b, app [mkWsFrame op (acc ++ concat (map fst l)) true] <$> r).
Proof.
  revert acc. induction l as [|[p m] l IH]; [done|]. intros acc _ Hall.
  destruct l as [|q l].
  - cbn in Hall. apply Forall_cons in Hall as [Hw _]. cbn [fragments map concat app fst].
    rewrite !app_nil_r. by rewrite (drain_fragment _ _ _ (mkCont None []) [mkWsFrame op (acc ++ p) true]).
  - change (fragments 0 ((p, m) :: q :: l))
      with (mkWire (mkWsFrame 0 p false) m :: fragments 0 (q :: l)) in *.
    apply Forall_cons in Hall as [Hw Hall]. cbn [map concat]. rewrite <- app_assoc.
    rewrite (drain_fragment _ _ _ (mkCont (Some op) (acc ++ p)) []) by done.
    rewrite IH by done. cbn [fst]. rewrite <- app_assoc. 
    change (map fst ((p, m) :: q :: l)) with (p :: map fst (q :: l)). cbn [concat].
    by destruct (drain_all (mkCont None []) rest) as [[? ?] [?|?]].
Qed.

Lemma drain_message m rest :
  message_ok m ->
  drain_all Continuation_default (encode_message m ++ rest) =
    let '(c2, b, r) := drain_all Continuation_default rest in
    (c2, b, app [message_frame m] <$> r).
Proof.
  intros (Ho & Hne & Hall). unfold encode_message, message_frame.
  destruct m as [op [|[p mk] [|q l]]]; cbn [ms_opcode ms_fragments] in *; [done| |].
  - cbn in Hall. apply Forall_cons in Hall as [Hw _]. cbn [fragments map concat app fst].
    rewrite !app_nil_r.
    apply (drain_fragment _ _ _ Continuation_default [mkWsFrame op p true]); [done|]. cbn.
    by rewrite (proj2 (Z.eqb_neq op 0)) by lia.
  - change (fragments op ((p, mk) :: q :: l))
      with (mkWire (mkWsFrame op p false) mk :: fragments 0 (q :: l)) in *.
    apply Forall_cons in Hall as [Hw Hall]. cbn [map concat]. rewrite <- app_assoc.
    rewrite (drain_fragment _ _ _ (mkCont (Some op) p) []); [|done|].
    + rewrite drain_continuation by done. change (mkCont None []) with Continuation_default.
      by destruct (drain_all Continuation_default rest) as [[? ?] [?|?]].
    + cbn. by rewrite (proj2 (Z.eqb_neq op 0)) by lia.
Qed.

(** ** The batch decoder against the streaming one *)
Lemma get_or_cases b cursor k n :
  0 <= cursor <= Z.of_nat (length b) -> Z.of_nat (length b) <= i64_max -> 0 <= k -> 0 <= n ->
  match get_range (drop (Z.to_nat cursor) b) k n with
  | Some l => get_or b (cursor + k) n = Ok l
  | None => exists e, get_or b (cursor + k) n = Err e
  end.
Proof.
  intros Hc Hl Hk Hn. unfold get_or, get_range, i64_max, u64_max in *. rewrite length_drop, drop_drop.
  replace (Z.of_nat (length b - Z.to_nat cursor)) with (Z.of_nat (length b) - cursor) by lia.
  destruct (Z.leb_spec (k + n) (Z.of_nat (length b) - cursor)).
  - rewrite (proj2 (Z.ltb_ge _ _)), (proj2 (Z.leb_le _ _)) by lia. cbn. do 3 f_equal. lia.
  - destruct (_ <? _); [eauto|]. rewrite (proj2 (Z.leb_gt _ _)) by lia. cbn. eauto.
Qed.

(** The rest of [batch_frame] once the length is known, and once the mask is. *)
Definition batch_body (b : bytes) (op : Z) (fin : bool) (mask : option bytes) (len cursor : Z)
    : result WsFailure (WebSocketFrame * Z) :=
  payload ← get_or b cursor len;
  let cursor := cursor + len in
  let payload := match mask with Some mask => unmask mask payload | None => payload end in
  mret (mkWsFrame op payload fin, cursor).
Definition batch_payload (b : bytes) (op : Z) (fin masked : bool) (len cursor : Z)
    : result WsFailure (WebSocketFrame * Z) :=
  '(mask, cursor) ←
    (if masked : bool then m ← get_or b cursor 4; mret (Some m, cursor + 4)
     else mret (None, cursor));
  batch_body b op fin mask len cursor.

(** The two decoders agree: [r] from position [cursor] is the frame [t] takes
    off the buffer that starts there. *)
Definition agrees (cursor : Z) (t : TryDecode) (r : result WsFailure (WebSocketFrame * Z)) : Prop :=
  match t with
  | TdFrame f n => r = Ok (f, cursor + Z.of_nat n)
  | _ => exists e, r = Err e
  end.

Section batch.
Context (b : bytes) (cursor : Z) (Hc : 0 <= cursor < Z.of_nat (length b))
  (Hl : Z.of_nat (length b) <= i64_max).
Let buf := drop (Z.to_nat cursor) b.

Lemma get_or_at k n : 0 <= k -> 0 <= n ->
  match get_range buf k n with
  | Some l => get_or b (cursor + k) n = Ok l
  | None => exists e, get_or b (cursor + k) n = Err e
  end.
Proof. intros. apply get_or_cases; lia. Qed.

Lemma batch_body_spec mask len cur fin op : 0 <= len -> 0 <= cur ->
  agrees cursor (decode_body buf fin op mask len cur)
    (batch_body b op fin mask len (cursor + cur)).
Proof.
  intros Hlen Hcur. unfold agrees, decode_body, batch_body.
  pose proof (get_or_at cur len Hcur Hlen) as Hx.
  destruct (Z.ltb_spec u64_max (cur + len)).
  - unfold get_or. rewrite (proj2 (Z.ltb_lt _ _)) by lia. cbn. eauto.
  - destruct (get_range buf cur len) as [pl|]; cbn.
    + rewrite Hx. cbn. do 2 f_equal. lia.
    + destruct Hx as [e ->]. cbn. eauto.
Qed.
Lemma batch_payload_spec masked len cur fin op : 0 <= len -> 0 <= cur ->
  agrees cursor (decode_payload buf fin op masked len cur)
    (batch_payload b op fin masked len (cursor + cur)).
Proof.
  intros Hlen Hcur. unfold decode_payload, batch_payload. destruct masked.
  - pose proof (get_or_at cur 4 Hcur ltac:(lia)) as Hx. destruct (get_range buf cur 4) as [m|].
    + rewrite Hx. cbn [mbind result_bind mret result_ret]. rewrite <- Z.add_assoc.
      apply batch_body_spec; lia.
    + destruct Hx as [e ->]. cbn. eauto.
  - cbn [mbind result_bind mret result_ret]. by apply batch_body_spec.
Qed.

Lemma batch_frame_unfold : batch_frame b cursor =
  (h0 ← get_or b cursor 1;
   h1 ← get_or b (cursor + 1) 1;
   let len := Z.land (be_val h1) 127 in
   let fin := negb (Z.land (be_val h0) 128 =? 0) in
   let masked := negb (Z.land (be_val h1) 128 =? 0) in
   let op := Z.land (be_val h0) 15 in
   if len =? 126 then
     l ← get_or b (cursor + 2) 2; batch_payload b op fin masked (be_val l) (cursor + 4)
   else if len =? 127 then
     l ← get_or b (cursor + 2) 8; batch_payload b op fin masked (be_val l) (cursor + 10)
   else batch_payload b op fin masked len (cursor + 2)).
Proof.
  unfold batch_frame. destruct (get_or b cursor 1) as [h0|]; [|done].
  destruct (get_or b (cursor + 1) 1) as [h1|]; [|done]. cbn [mbind result_bind].
  cbv zeta. destruct (_ =? 126); [|destruct (_ =? 127)]; [| |done].
  - destruct (get_or b (cursor + 2) 2) as [l|]; [|done].
    cbn [mbind result_bind mret result_ret]. by replace (cursor + 2 + 2) with (cursor + 4) by lia.
  - destruct (get_or b (cursor + 2) 8) as [l|]; [|done].
    cbn [mbind result_bind mret result_ret]. by replace (cursor + 2 + 8) with (cursor + 10) by lia.
Qed.

(** A frame of the batch decoder is a frame of the streaming decoder. *)
Lemma batch_frame_spec : agrees cursor (try_decode_next buf) (batch_frame b cursor).
Proof.
  rewrite batch_frame_unfold.
  pose proof (get_or_at 0 1 ltac:(lia) ltac:(lia)) as H0. rewrite Z.add_0_r in H0.
  pose proof (get_or_at 1 1 ltac:(lia) ltac:(lia)) as H1.
  pose proof (get_or_at 2 2 ltac:(lia) ltac:(lia)) as H2.
  pose proof (get_or_at 2 8 ltac:(lia) ltac:(lia)) as H8.
  pose proof (batch_payload_spec) as Hp.
  assert (Hlen : Z.of_nat (length buf) = Z.of_nat (length b) - cursor)
    by (unfold buf; rewrite length_drop; lia).
  clearbody buf. destruct buf as [|b0 [|b1 rest]]; [cbn in Hlen; lia | |].
  { cbn in H0, H1. destruct H1 as [e He]. rewrite H0, He. cbn. eauto. }
  pose proof (get_range_at [] [b0] (b1 :: rest) 0 1 eq_refl eq_refl) as E0.
  pose proof (get_range_at [b0] [b1] rest 1 1 eq_refl eq_refl) as E1.
  cbn [app] in E0, E1. rewrite E0 in H0. rewrite E1 in H1.
  rewrite H0, H1. cbn [mbind result_bind try_decode_next]. unfold decode_header.
  change (be_val [b0]) with (u8 b0). change (be_val [b1]) with (u8 b1). cbv zeta.
  pose proof (len7_nonneg b1). destruct (_ =? 126); [|destruct (_ =? 127)].
  - destruct (get_range _ 2 2) as [l|].
    + rewrite H2. cbn [mbind result_bind]. apply Hp; [apply be_val_nonneg | lia].
    + destruct H2 as [e ->]. cbn. eauto.
  - destruct (get_range _ 2 8) as [l|].
    + rewrite H8. cbn [mbind result_bind]. apply Hp; [apply be_val_nonneg | lia].
    + destruct H8 as [e ->]. cbn. eauto.
  - by apply Hp.
Qed.
End batch.

(** The frames the streaming decoder takes off a buffer, without joining. *)
Fixpoint raw_frames (fuel : nat) (buf : bytes) : option (list WebSocketFrame) :=
  match buf, fuel with
  | [], _ => Some []
  | _, O => None
  | _, S fuel' =>
    match try_decode_next buf with
    | TdFrame f n => cons f <$> raw_frames fuel' (drop n buf)
    | _ => None
    end
  end.

Lemma batch_loop_raw fuel1 fuel2 b cursor :
  0 <= cursor -> Z.of_nat (length b) <= i64_max ->
  Z.of_nat (length b) <= cursor + Z.of_nat fuel1 ->
  Z.of_nat (length b) <= cursor + Z.of_nat fuel2 ->
  match raw_frames fuel1 (drop (Z.to_nat cursor) b) with
  | Some fs => batch_loop fuel2 b cursor = Ok fs
  | None => exists e, batch_loop fuel2 b cursor = Err e
  end.
Proof.
  revert fuel2 cursor. induction fuel1 as [|fuel1 IH]; intros fuel2 cursor Hc Hl H1 H2.
  - rewrite drop_ge by lia. cbn. destruct fuel2; cbn; by rewrite (proj2 (Z.leb_le _ _)) by lia.
  - destruct (Z.leb_spec (Z.of_nat (length b)) cursor).
    { rewrite drop_ge by lia. cbn. destruct fuel2; cbn; by rewrite (proj2 (Z.leb_le _ _)) by lia. }
    destruct fuel2 as [|fuel2]; [lia|]. cbn [batch_loop].
    rewrite (proj2 (Z.leb_gt _ _)) by lia.
    pose proof (batch_frame_spec b cursor ltac:(lia) Hl) as Hf. unfold agrees in Hf.
    destruct (drop (Z.to_nat cursor) b) as [|x buf] eqn:Ed.
    { apply (f_equal length) in Ed. rewrite length_drop in Ed. cbn in Ed. lia. }
    cbn [raw_frames]. rewrite <- Ed in *. clear Ed.
    destruct (try_decode_next _) as [| |f n] eqn:Et;
      [destruct Hf as [e ->]; cbn; eauto.. |].
    apply try_decode_drained in Et. rewrite Hf. cbn [mbind result_bind].
    rewrite drop_drop.
    specialize (IH fuel2 (cursor + Z.of_nat n)).
    replace (Z.to_nat (cursor + Z.of_nat n)) with (Z.to_nat cursor + n)%nat in IH by lia.
    specialize (IH ltac:(lia) Hl ltac:(lia) ltac:(lia)).
    destruct (raw_frames fuel1 _) as [fs|]; cbn; [by rewrite IH|].
    destruct IH as [e ->]. cbn. eauto.
Qed.

(** A stream arriving in chunks. *)
Fixpoint push_chunks (d : WebSocketDecoder) (chunks : list bytes)
    : result WsFailure (WebSocketDecoder * list WebSocketFrame) :=
  match chunks with
  | [] => Ok (d, [])
  | x :: chunks' =>
    let '(d1, r) := push d x in
    frames ← r;
    '(d2, more) ← push_chunks d1 chunks';
    mret (d2, frames ++ more)
  end.
Lemma ws_push_chunks_feed c buf chunks :
  push_chunks (mkWsDecoder buf c) chunks =
    (fun '(c', buf', os) => (mkWsDecoder buf' c', os)) <$> feed c buf chunks.
Proof.
  revert c buf. induction chunks as [|x chunks IH]; intros c buf; [done|].
  cbn [push_chunks feed]. unfold push. cbn [ws_continuation ws_buffer].
  destruct (drain_all c (buf ++ x)) as [[c1 b1] [o1|e]]; [|done]. cbn [mbind result_bind].
  rewrite IH. by destruct (feed c1 b1 chunks) as [[[c2 b2] o2]|e].
Qed.

(** ** Properties *)

(** [C31] Whole messages come back whole: messages of any opcode, fragmented and
    masked in any way and delivered in chunks cut anywhere, are decoded to
    exactly one frame each, with the concatenated payload, and the decoder
    ends where it began. *)
Theorem ws_messages_roundtrip msgs chunks :
  Forall message_ok msgs -> concat chunks = concat (map encode_message msgs) ->
  push_chunks WebSocketDecoder_new chunks = Ok (WebSocketDecoder_new, map message_frame msgs).
Proof.
  intros Hall Hc. unfold WebSocketDecoder_new. rewrite ws_push_chunks_feed, feed_concat by done.
  cbn [app]. rewrite Hc. clear Hc chunks.
  assert (drain_all Continuation_default (concat (map encode_message msgs))
          = (Continuation_default, [], Ok (map message_frame msgs))) as ->; [|done].
  induction Hall as [|m msgs Hm _ IH]; [done|]. cbn [map concat].
  by rewrite drain_message, IH.
Qed.

(** The batch decoder and the streaming decoder see the same frames: the batch
    decoder accepts a byte string exactly when the streaming one consumes all
    of it, with the same frames, and refuses it otherwise. *)
Theorem ws_batch_streaming b :
  Z.of_nat (length b) <= i64_max ->
  match raw_frames (length b) b with
  | Some fs => decode_websocket_frames b = Ok fs
  | None => exists e, decode_websocket_frames b = Err e
  end.
Proof. intros Hl. by apply (batch_loop_raw (length b) (length b) b 0). Qed.

(** A frame whose 64-bit length field is close to [2^64] makes both decoders
    panic on the overflow of [cursor + len]. *)
Theorem ws_length_overflow_panics :
  let evil := [x82; x7f; xff; xff; xff; xff; xff; xff; xff; xff] in
  snd (push WebSocketDecoder_new evil) = Err WsPanic
  /\ decode_websocket_frames evil = Err WsPanic.
Proof. vm_compute. split; reflexivity. Qed.

Module WebSocketFixture.
Definition hello : Message :=
  mkMessage 1 [([x68; x65], Some [x01; x02; x03; x04]); ([x6c; x6c; x6f], None)].
Definition wire : bytes := encode_message hello ++ encode_message (mkMessage 2 [([x00; xff], None)]).

Lemma ws_messages_roundtrip_witness :
  push_chunks WebSocketDecoder_new [take 3 wire; drop 3 wire]
  = Ok (WebSocketDecoder_new, [mkWsFrame 1 [x68; x65; x6c; x6c; x6f] true; mkWsFrame 2 [x00; xff] true]).
Proof.
  refine (ws_messages_roundtrip [hello; mkMessage 2 [([x00; xff], None)]] _ _ _).
  - repeat constructor; cbn; try lia; try done; intros m [= <-]; done.
  - by vm_compute.
Defined.

Lemma ws_batch_streaming_witness :
  decode_websocket_frames [x81; x02; x68; x69; x88; x00]
  = Ok [mkWsFrame 1 [x68; x69] true; mkWsFrame 8 [] true].
Proof.
  exact (ws_batch_streaming [x81; x02; x68; x69; x88; x00] ltac:(vm_compute; discriminate)).
Defined.
End WebSocketFixture.
