(* ===== verification/H2.v ===== *)
(** * HTTP/2 frames

    [src/crates/capture/src/h2.rs] (the client's [decode_support/h2.rs] is the
    same file): a frame decoder per direction, the client's after the
    connection preface.  HPACK is a parameter.  The loop over frames is a
    [Framer]; header blocks split over CONTINUATION frames are its core state. *)
From Stdlib Require Import ZArith Lia Strings.Byte Strings.String.
From S2P Require Import Prelude RustStr Incremental.
Local Open Scope string_scope.
Local Open Scope list_scope.
Local Open Scope Z_scope.

(** The [hpack] crate: a decoder with a dynamic table; the error is its
    [Debug] rendering. *)
Class HpackApi := {
  hpack_state : Type;
  hpack_new : hpack_state;
  hpack_decode : hpack_state -> bytes -> hpack_state * result string (list (bytes * bytes)) }.

(* src: src/crates/capture/src/h2.rs:3-3 CLIENT_PREFACE *)
Definition CLIENT_PREFACE : bytes :=
  as_bytes "PRI * HTTP/2.0" ++ [x0d; x0a; x0d; x0a] ++ as_bytes "SM" ++ [x0d; x0a; x0d; x0a].

(* src: src/crates/capture/src/h2.rs:6-11 H2Priority *)
Record H2Priority : Type := mkPriority {
  pr_stream_id : Z;
  pr_dependency_stream_id : Z;
  pr_exclusive : bool;
  pr_weight : byte }.
(* src: src/crates/capture/src/h2.rs:14-19 H2HeaderBlock *)
Record H2HeaderBlock : Type := mkHeaderBlock {
  hk_stream_id : Z;
  hk_headers : list (string * string);
  hk_end_stream : bool;
  hk_priority : option H2Priority }.
(* src: src/crates/capture/src/h2.rs:22-39 H2Event *)
Inductive H2Event : Type :=
| H2Event_Headers (b : H2HeaderBlock)
| H2Event_Data (stream_id : Z) (payload : bytes) (end_stream : bool)
| H2Event_Priority (p : H2Priority)
| H2Event_RstStream (stream_id error_code : Z)
| H2Event_GoAway (last_stream_id error_code : Z) (debug_data : bytes).
(* src: src/crates/capture/src/h2.rs:44-57 H2DecodeError *)
Inductive H2DecodeError : Type :=
| H2_InvalidPreface
| H2_InvalidFrame
| H2_InvalidPadding
| H2_UnexpectedContinuation
| H2_ContinuationStreamMismatch
| H2_HeaderDecode (message : string).
(* src: src/crates/capture/src/h2.rs:60-65 PendingHeaders *)
Record PendingHeaders : Type := mkPendingHeaders {
  ph_stream_id : Z;
  ph_end_stream : bool;
  ph_priority : option H2Priority;
  ph_block : bytes }.

(** Flag tests, big-endian words at an offset. *)
Definition has_flag (flags : byte) (mask : Z) : bool := negb (Z.land (u8 flags) mask =? 0).
Definition be32_at (b : bytes) (i : nat) : Z := be_val (take 4 (drop i b)).
Definition low31 (z : Z) : Z := Z.land z 2147483647.

(* src: src/crates/capture/src/h2.rs:306-318 strip_padding *)
Definition strip_padding (payload : bytes) (padded : bool) : result H2DecodeError bytes :=
  if negb padded then Ok payload
  else match payload with
  | [] => Err H2_InvalidPadding
  | pad :: payload =>
    let pad_len := Z.to_nat (u8 pad) in
    if (length payload <? pad_len)%nat then Err H2_InvalidPadding
    else Ok (take (length payload - pad_len) payload)
  end.

(* src: src/crates/capture/src/h2.rs:197-207 parse_data_frame *)
Definition parse_data_frame (stream_id : Z) (flags : byte) (payload : bytes)
    : result H2DecodeError H2Event :=
  if stream_id =? 0 then Err H2_InvalidFrame
  else
    payload ← strip_padding payload (has_flag flags 8);
    mret (H2Event_Data stream_id payload (has_flag flags 1)).

(* src: src/crates/capture/src/h2.rs:320-331 parse_priority_payload *)
Definition parse_priority_payload (stream_id : Z) (payload : bytes)
    : result H2DecodeError H2Priority :=
  if (stream_id =? 0) || negb (length payload =? 5)%nat then Err H2_InvalidFrame
  else
    let raw_dependency := be32_at payload 0 in
    mret (mkPriority stream_id (low31 raw_dependency)
            (negb (Z.land raw_dependency 2147483648 =? 0)) (nth 4 payload x00)).

Section h2.
Context `{HpackApi}.

(** The HPACK table and [pending_headers]. *)
Record H2Core : Type := mkH2Core {
  hc_hpack : hpack_state;
  hc_pending : option PendingHeaders }.

(* src: src/crates/capture/src/h2.rs:67-72 DirectionState *)
Record DirectionState : Type := mkDirection {
  ds_buffer : bytes;
  ds_core : H2Core;
  ds_preface_complete : bool }.
(* src: src/crates/capture/src/h2.rs:75-82 DirectionState::default *)
Definition DirectionState_default : DirectionState :=
  mkDirection [] (mkH2Core hpack_new None) false.
(* src: src/crates/capture/src/h2.rs:86-89 H2Decoder *)
Record H2Decoder : Type := mkH2Decoder {
  h2_client : DirectionState;
  h2_server : DirectionState }.
(* src: src/crates/capture/src/h2.rs:93-95 H2Decoder::new *)
Definition H2Decoder_new : H2Decoder := mkH2Decoder DirectionState_default DirectionState_default.

(* src: src/crates/capture/src/h2.rs:333-351 decode_headers *)
Definition decode_headers (h : hpack_state) (block : bytes)
    : hpack_state * result H2DecodeError (list (string * string)) :=
  let '(h', r) := hpack_decode h block in
  (h', map_err H2_HeaderDecode
         (map (fun '(n, v) => (from_utf8_lossy n, from_utf8_lossy v)) <$> r)).

(** The padding and priority fields of a HEADERS frame: the payload without its
    padding, the cursor after the fields, the priority. *)
(* src: src/crates/capture/src/h2.rs:209-277 parse_headers_frame *)
Definition headers_prefix (stream_id : Z) (flags : byte) (payload : bytes)
    : result H2DecodeError (bytes * nat * option H2Priority) :=
  '(payload, cursor) ←
    (if has_flag flags 8 then
       match payload with
       | [] => Err H2_InvalidPadding
       | pad :: _ =>
         let pad_len := Z.to_nat (u8 pad) in
         if (length payload <? 1 + pad_len)%nat then Err H2_InvalidPadding
         else Ok (take (length payload - pad_len) payload, 1%nat)
       end
     else Ok (payload, 0%nat));
  if has_flag flags 32 then
    if (length payload <? cursor + 5)%nat then Err H2_InvalidFrame
    else
      let raw_dependency := be32_at payload cursor in
      Ok (payload, (cursor + 5)%nat,
          Some (mkPriority stream_id (low31 raw_dependency)
                  (negb (Z.land raw_dependency 2147483648 =? 0)) (nth (cursor + 4) payload x00)))
  else Ok (payload, cursor, None).

(** A finished header block, or the wait for its continuation. *)
(* src: src/crates/capture/src/h2.rs:209-277 parse_headers_frame *)
Definition finish_block (c : H2Core) (p : PendingHeaders) (flags : byte)
    : H2Core * result H2DecodeError (list H2Event) :=
  if has_flag flags 4 then
    let '(h, r) := decode_headers (hc_hpack c) (ph_block p) in
    (mkH2Core h (hc_pending c),
     (fun headers => [H2Event_Headers (mkHeaderBlock (ph_stream_id p) headers (ph_end_stream p)
                                         (ph_priority p))]) <$> r)
  else (mkH2Core (hc_hpack c) (Some p), Ok []).

(* src: src/crates/capture/src/h2.rs:209-277 parse_headers_frame *)
Definition parse_headers_frame (c : H2Core) (stream_id : Z) (flags : byte) (payload : bytes)
    : H2Core * result H2DecodeError (list H2Event) :=
  if stream_id =? 0 then (c, Err H2_InvalidFrame)
  else match headers_prefix stream_id flags payload with
  | Err e => (c, Err e)
  | Ok (payload, cursor, priority) =>
    if (length payload <? cursor)%nat then (c, Err H2_InvalidFrame)
    else
      let block_fragment := drop cursor payload in
      finish_block c (mkPendingHeaders stream_id (has_flag flags 1) priority block_fragment) flags
  end.

(** [pending_headers.take()]: a mismatch loses the pending block. *)
(* src: src/crates/capture/src/h2.rs:279-304 parse_continuation_frame *)
Definition parse_continuation_frame (c : H2Core) (stream_id : Z) (flags : byte) (payload : bytes)
    : H2Core * result H2DecodeError (list H2Event) :=
  match hc_pending c with
  | None => (c, Err H2_UnexpectedContinuation)
  | Some pending =>
    let c1 := mkH2Core (hc_hpack c) None in
    if negb (ph_stream_id pending =? stream_id) then (c1, Err H2_ContinuationStreamMismatch)
    else finish_block c1 (mkPendingHeaders (ph_stream_id pending) (ph_end_stream pending)
                            (ph_priority pending) (ph_block pending ++ payload)) flags
  end.

(** The dispatch on the frame type. *)
(* src: src/crates/capture/src/h2.rs:135-195 parse_complete_frames *)
Definition dispatch_frame (c : H2Core) (frame_type : Z) (flags : byte) (stream_id : Z)
    (payload : bytes) : H2Core * result H2DecodeError (list H2Event) :=
  match frame_type with
  | 0 => (c, (fun e => [e]) <$> parse_data_frame stream_id flags payload)
  | 1 => parse_headers_frame c stream_id flags payload
  | 2 => (c, (fun p => [H2Event_Priority p]) <$> parse_priority_payload stream_id payload)
  | 3 =>
    (c, if negb (length payload =? 4)%nat || (stream_id =? 0) then Err H2_InvalidFrame
        else Ok [H2Event_RstStream stream_id (be32_at payload 0)])
  | 7 =>
    (c, if (length payload <? 8)%nat || negb (stream_id =? 0) then Err H2_InvalidFrame
        else Ok [H2Event_GoAway (low31 (be32_at payload 0)) (be32_at payload 4) (drop 8 payload)])
  | 9 => parse_continuation_frame c stream_id flags payload
  | _ => (c, Ok [])
  end.

(** One iteration of the loop of [parse_complete_frames]. *)
(* src: src/crates/capture/src/h2.rs:135-195 parse_complete_frames *)
Definition h2_frame (c : H2Core) (buf : bytes) : Frame H2Core H2Event H2DecodeError :=
  if (length buf <? 9)%nat then Need
  else
    let len := Z.to_nat (be_val (take 3 buf)) in
    if (length buf <? 9 + len)%nat then Need
    else
      let stream_id := low31 (be32_at buf 5) in
      let payload := take len (drop 9 buf) in
      match dispatch_frame c (u8 (nth 3 buf x00)) (nth 4 buf x00) stream_id payload with
      | (c', Ok events) => Take (9 + len) c' events
      | (c', Err e) => Stop (9 + len) c' e
      end.
#[export] Instance H2Framer : Framer H2Core H2Event H2DecodeError := h2_frame.

(* src: src/crates/capture/src/h2.rs:135-195 parse_complete_frames *)
Definition parse_complete_frames (d : DirectionState)
    : DirectionState * result H2DecodeError (list H2Event) :=
  let '(c, buf, r) := drain_all (ds_core d) (ds_buffer d) in
  (mkDirection buf c (ds_preface_complete d), r).

(* src: src/crates/capture/src/h2.rs:119-133 consume_client_preface *)
Definition consume_client_preface (d : DirectionState)
    : DirectionState * result H2DecodeError unit :=
  if ds_preface_complete d then (d, Ok tt)
  else
    let compare_len := Nat.min (length (ds_buffer d)) (length CLIENT_PREFACE) in
    if negb (bool_decide (take compare_len (ds_buffer d) = take compare_len CLIENT_PREFACE))
    then (d, Err H2_InvalidPreface)
    else if (length (ds_buffer d) <? length CLIENT_PREFACE)%nat then (d, Ok tt)
    else (mkDirection (drop (length CLIENT_PREFACE) (ds_buffer d)) (ds_core d) true, Ok tt).

(** [push] on one direction. *)
(* src: src/crates/capture/src/h2.rs:105-116 H2Decoder::push *)
Definition push_direction (d : DirectionState) (b : bytes) (client_side : bool)
    : DirectionState * result H2DecodeError (list H2Event) :=
  let d1 := mkDirection (ds_buffer d ++ b) (ds_core d) (ds_preface_complete d) in
  if client_side then
    match consume_client_preface d1 with
    | (d2, Err e) => (d2, Err e)
    | (d2, Ok _) => parse_complete_frames d2
    end
  else parse_complete_frames d1.

(* src: src/crates/capture/src/h2.rs:105-116 H2Decoder::push *)
Definition push (d : H2Decoder) (b : bytes) (client_side : bool)
    : H2Decoder * result H2DecodeError (list H2Event) :=
  if client_side then
    let '(c, r) := push_direction (h2_client d) b true in (mkH2Decoder c (h2_server d), r)
  else
    let '(s, r) := push_direction (h2_server d) b false in (mkH2Decoder (h2_client d) s, r).
End h2.

(** ** The framer's laws *)
Section h2_lemmas.
Context `{HpackApi}.

#[export] Instance h2_framer_laws : FramerLaws H2Core H2Event H2DecodeError.
Proof.
  assert (Hcase : forall c buf, frame c buf = Need
    \/ exists n, (0 < n <= length buf)%nat
       /\ ((exists c' os, frame c buf = Take n c' os) \/ (exists c' e, frame c buf = Stop n c' e))).
  { intros c buf. unfold frame, H2Framer, h2_frame.
    destruct (Nat.ltb_spec (length buf) 9); [by left|]. cbv zeta.
    destruct (Nat.ltb_spec (length buf) (9 + Z.to_nat (be_val (take 3 buf)))); [by left|].
    right. eexists. split; [|destruct (dispatch_frame _ _ _ _ _) as [c' [os|e]]; eauto].
    lia. }
  split.
  - intros c buf x. unfold frame, H2Framer, h2_frame. rewrite length_app.
    destruct (Nat.ltb_spec (length buf) 9); [done|]. cbv zeta.
    rewrite (take_app_le buf x 3) by lia.
    destruct (Nat.ltb_spec (length buf) (9 + Z.to_nat (be_val (take 3 buf)))); [done|]. intros _.
    rewrite (proj2 (Nat.ltb_ge _ _)), (proj2 (Nat.ltb_ge _ _)) by lia.
    unfold be32_at. rewrite !drop_app_le by lia.
    rewrite !take_app_le by (rewrite length_drop; lia). by rewrite !app_nth1 by lia.
  - intros c buf n c' os E. destruct (Hcase c buf) as [E'|(k & Hk & [(?&?&E')|(?&?&E')])];
      rewrite E' in E; by simplify_eq.
  - intros c buf n c' e E. destruct (Hcase c buf) as [E'|(k & Hk & [(?&?&E')|(?&?&E')])];
      rewrite E' in E; simplify_eq; lia.
Qed.

(** ** The preface as a frame of its own

    The client's direction as one [Framer]: first the preface, then frames. *)
Definition preface_frame (p : bool * H2Core) (buf : bytes)
    : Frame (bool * H2Core) H2Event H2DecodeError :=
  if p.1 then
    match h2_frame p.2 buf with
    | Need => Need
    | Take n c os => Take n (true, c) os
    | Stop n c e => Stop n (true, c) e
    end
  else
    let n := Nat.min (length buf) 24 in
    if negb (bool_decide (take n buf = take n CLIENT_PREFACE)) then Stop 0 p H2_InvalidPreface
    else if (length buf <? 24)%nat then Need
    else Take 24 (true, p.2) [].
#[export] Instance PrefaceFramer : Framer (bool * H2Core) H2Event H2DecodeError := preface_frame.

Lemma preface_min_app (buf x : bytes) :
  take (Nat.min (length buf) 24) buf <> take (Nat.min (length buf) 24) CLIENT_PREFACE ->
  take (Nat.min (length (buf ++ x)) 24) (buf ++ x)
  <> take (Nat.min (length (buf ++ x)) 24) CLIENT_PREFACE.
Proof.
  intros Hne E. apply Hne. apply (f_equal (take (Nat.min (length buf) 24))) in E.
  rewrite !take_take, length_app in E. rewrite !Nat.min_l in E by lia.
  rewrite take_app_le in E by lia. done.
Qed.

#[export] Instance preface_framer_laws : FramerLaws (bool * H2Core) H2Event H2DecodeError.
Proof.
  split.
  - intros [[|] c] buf x; unfold frame, PrefaceFramer, preface_frame; cbn [fst snd].
    + intros Hn. change h2_frame with (@frame _ _ _ H2Framer) in *. rewrite frame_mono; [done|].
      intros E. by rewrite E in Hn.
    + cbv zeta. destruct (bool_decide_reflect
        (take (Nat.min (length buf) 24) buf = take (Nat.min (length buf) 24) CLIENT_PREFACE))
        as [E|E]; cbn [negb].
      * destruct (Nat.ltb_spec (length buf) 24); [done|]. intros _.
        rewrite length_app, (proj2 (Nat.ltb_ge _ _)), !Nat.min_r in * by lia.
        rewrite take_app_le by lia. by rewrite bool_decide_eq_true_2.
      * intros _. by rewrite bool_decide_eq_false_2 by by apply preface_min_app.
  - intros [[|] c] buf n c' os; unfold frame, PrefaceFramer, preface_frame; cbn [fst snd].
    + destruct (h2_frame c buf) as [|m d l|m d e] eqn:E; try done. intros [= <- _ _].
      exact (frame_take (H := H2Framer) c buf m d l E).
    + cbv zeta. destruct (negb _); [done|]. destruct (Nat.ltb_spec (length buf) 24); [done|].
      intros [= <- _ _]. lia.
  - intros [[|] c] buf n c' e; unfold frame, PrefaceFramer, preface_frame; cbn [fst snd].
    + destruct (h2_frame c buf) as [|m d l|m d e'] eqn:E; try done. intros [= <- _ _].
      exact (frame_stop (H := H2Framer) c buf m d e' E).
    + cbv zeta. destruct (negb _); [intros [= <- _ _]; lia|]. by destruct (length buf <? 24)%nat.
Qed.

(** Past the preface the two framers run alike. *)
Lemma drain_past_preface c buf :
  drain_all (H := PrefaceFramer) (true, c) buf =
    let '(c', b, r) := drain_all (H := H2Framer) c buf in ((true, c'), b, r).
Proof.
  unfold drain_all. generalize (S (length buf)) as f. intros f. revert c buf.
  induction f as [|f IH]; intros c buf; [done|]. cbn [drain].
  unfold frame at 1, PrefaceFramer, preface_frame. cbn [fst snd].
  change (frame (Framer := H2Framer) c buf) with (h2_frame c buf).
  unfold frame, H2Framer. destruct (h2_frame c buf) as [|n c' os|n c' e]; [done| |done].
  rewrite IH. by destruct (drain f c' (drop n buf)) as [[? ?] ?].
Qed.

(** A proper prefix of the preface is never taken for a frame: its first three
    bytes announce a frame of five megabytes. *)
Lemma preface_not_frame c buf :
  (length buf < 24)%nat -> buf = take (length buf) CLIENT_PREFACE ->
  drain_all (H := H2Framer) c buf = (c, buf, Ok []).
Proof.
  intros Hl Hb. rewrite drain_all_unfold. unfold frame, H2Framer, h2_frame.
  destruct (Nat.ltb_spec (length buf) 9); [done|]. cbv zeta.
  assert (take 3 buf = as_bytes "PRI") as ->.
  { rewrite Hb, take_take, Nat.min_l by lia. reflexivity. }
  rewrite (proj2 (Nat.ltb_lt _ _)); [done|].
  change (be_val (as_bytes "PRI")) with 5263945. lia.
Qed.

Lemma push_client_drain d b :
  push_direction d b true =
    let '((p, c), buf, r) :=
      drain_all (H := PrefaceFramer) (ds_preface_complete d, ds_core d) (ds_buffer d ++ b) in
    (mkDirection buf c p, r).
Proof.
  unfold push_direction, consume_client_preface. cbn [ds_preface_complete ds_buffer ds_core].
  set (buf := ds_buffer d ++ b). change (length CLIENT_PREFACE) with 24%nat.
  destruct (ds_preface_complete d).
  { rewrite drain_past_preface. unfold parse_complete_frames. cbn [ds_core ds_buffer].
    by destruct (drain_all (ds_core d) buf) as [[? ?] ?]. }
  rewrite (drain_all_unfold (false, ds_core d)). unfold frame, PrefaceFramer, preface_frame.
  cbn [fst snd]. cbv zeta.
  destruct (bool_decide_reflect
    (take (Nat.min (length buf) 24) buf = take (Nat.min (length buf) 24) CLIENT_PREFACE)) as [E|E];
    cbn [negb]; [|by rewrite drop_0].
  destruct (Nat.ltb_spec (length buf) 24).
  - unfold parse_complete_frames. cbn [ds_core ds_buffer ds_preface_complete].
    rewrite Nat.min_l, firstn_all in E by lia. by rewrite preface_not_frame.
  - rewrite (drain_past_preface (ds_core d)). unfold parse_complete_frames.
    cbn [ds_core ds_buffer ds_preface_complete].
    by destruct (drain_all (ds_core d) (drop 24 buf)) as [[? ?] [?|?]].
Qed.

(** One direction fed in chunks. *)
Fixpoint push_chunks (d : DirectionState) (client_side : bool) (chunks : list bytes)
    : result H2DecodeError (DirectionState * list H2Event) :=
  match chunks with
  | [] => Ok (d, [])
  | x :: chunks' =>
    let '(d1, r) := push_direction d x client_side in
    events ← r;
    '(d2, more) ← push_chunks d1 client_side chunks';
    mret (d2, events ++ more)
  end.

Lemma push_chunks_client p c buf chunks :
  push_chunks (mkDirection buf c p) true chunks =
    (fun '((p', c'), buf', os) => (mkDirection buf' c' p', os)) <$>
      feed (H := PrefaceFramer) (p, c) buf chunks.
Proof.
  revert p c buf. induction chunks as [|x chunks IH]; intros p c buf; [done|].
  cbn [push_chunks feed]. rewrite push_client_drain. cbn [ds_preface_complete ds_core ds_buffer].
  destruct (drain_all (p, c) (buf ++ x)) as [[[p1 c1] b1] [o1|e]]; [|done].
  cbn [mbind result_bind]. rewrite IH.
  by destruct (feed (p1, c1) b1 chunks) as [[[[p2 c2] b2] o2]|e].
Qed.
Lemma push_chunks_server p c buf chunks :
  push_chunks (mkDirection buf c p) false chunks =
    (fun '(c', buf', os) => (mkDirection buf' c' p, os)) <$>
      feed (H := H2Framer) c buf chunks.
Proof.
  revert c buf. induction chunks as [|x chunks IH]; intros c buf; [done|].
  cbn [push_chunks feed]. unfold push_direction, parse_complete_frames.
  cbn [ds_preface_complete ds_core ds_buffer].
  destruct (drain_all c (buf ++ x)) as [[c1 b1] [o1|e]]; [|done].
  cbn [mbind result_bind]. rewrite IH. by destruct (feed c1 b1 chunks) as [[[c2 b2] o2]|e].
Qed.

(** The result of a push, without the state an error leaves behind. *)
Definition outcome_of {A B E} (x : A * result E B) : result E (A * B) :=
  (fun b => (x.1, b)) <$> x.2.
End h2_lemmas.

(** ** A sender (RFC 9113), the reference for the decoder *)
Inductive Sent : Type :=
| SentData (stream_id : Z) (payload : bytes) (padding : option bytes) (end_stream : bool)
| SentHeaders (stream_id : Z) (end_stream : bool) (priority : option (Z * bool * byte))
    (padding : option bytes) (first : bytes) (rest : list bytes)
| SentPriority (stream_id dependency : Z) (exclusive : bool) (weight : byte)
| SentRst (stream_id error_code : Z)
| SentGoAway (last_stream_id error_code : Z) (debug : bytes).

Definition flag_byte (end_stream end_headers padded priority : bool) : byte :=
  to_u8 ((if end_stream then 1 else 0) + (if end_headers then 4 else 0)
         + (if padded then 8 else 0) + (if priority then 32 else 0)).
Definition raw_frame (ty : Z) (flags : byte) (stream_id : Z) (payload : bytes) : bytes :=
  be_bytes 3 (Z.of_nat (length payload)) ++ [to_u8 ty; flags] ++ be_bytes 4 stream_id ++ payload.
Definition pad_payload (padding : option bytes) (payload : bytes) : bytes :=
  match padding with
  | Some p => to_u8 (Z.of_nat (length p)) :: payload ++ p
  | None => payload
  end.
Definition dependency_word (dependency : Z) (exclusive : bool) : Z :=
  dependency + (if exclusive then 2147483648 else 0).
Definition priority_payload (p : Z * bool * byte) : bytes :=
  be_bytes 4 (dependency_word p.1.1 p.1.2) ++ [p.2].
Fixpoint continuations (stream_id : Z) (l : list bytes) : list bytes :=
  match l with
  | [] => []
  | [b] => [raw_frame 9 (flag_byte false true false false) stream_id b]
  | b :: l' => raw_frame 9 (flag_byte false false false false) stream_id b :: continuations stream_id l'
  end.
Definition headers_payload (priority : option (Z * bool * byte)) (padding : option bytes)
    (first : bytes) : bytes :=
  pad_payload padding (match priority with Some p => priority_payload p | None => [] end ++ first).
Definition encode_sent (s : Sent) : bytes :=
  match s with
  | SentData sid payload padding end_stream =>
    raw_frame 0 (flag_byte end_stream false (is_some padding) false) sid (pad_payload padding payload)
  | SentHeaders sid end_stream priority padding first rest =>
    raw_frame 1 (flag_byte end_stream (bool_decide (rest = [])) (is_some padding) (is_some priority))
      sid (headers_payload priority padding first)
    ++ concat (continuations sid rest)
  | SentPriority sid dep ex w => raw_frame 2 x00 sid (priority_payload (dep, ex, w))
  | SentRst sid code => raw_frame 3 x00 sid (be_bytes 4 code)
  | SentGoAway lst code debug => raw_frame 7 x00 0 (be_bytes 4 lst ++ be_bytes 4 code ++ debug)
  end.

Definition id_ok (sid : Z) : Prop := 0 < sid < 2 ^ 31.
Definition pad_ok (padding : option bytes) : Prop :=
  match padding with Some p => (length p < 256)%nat | None => True end.
Definition size_ok (b : bytes) : Prop := Z.of_nat (length b) < 2 ^ 24.
Definition sent_ok (s : Sent) : Prop :=
  match s with
  | SentData sid payload padding _ => id_ok sid /\ pad_ok padding /\ size_ok (pad_payload padding payload)
  | SentHeaders sid _ priority padding first rest =>
    id_ok sid /\ pad_ok padding /\ size_ok (headers_payload priority padding first)
    /\ Forall size_ok rest
    /\ match priority with Some p => 0 <= p.1.1 < 2 ^ 31 | None => True end
  | SentPriority sid dep _ _ => id_ok sid /\ 0 <= dep < 2 ^ 31
  | SentRst sid code => id_ok sid /\ 0 <= code < 2 ^ 32
  | SentGoAway lst code debug =>
    0 <= lst < 2 ^ 31 /\ 0 <= code < 2 ^ 32 /\ size_ok (be_bytes 4 lst ++ be_bytes 4 code ++ debug)
  end.

Section h2_roundtrip.
Context `{HpackApi}.

(** What a receiver should see of the frames, HPACK state threaded. *)
Definition to_priority (sid : Z) (p : Z * bool * byte) : H2Priority :=
  mkPriority sid p.1.1 p.1.2 p.2.
Definition sent_event (h : hpack_state) (s : Sent) : option (hpack_state * H2Event) :=
  match s with
  | SentData sid payload _ e => Some (h, H2Event_Data sid payload e)
  | SentHeaders sid e priority _ first rest =>
    match hpack_decode h (first ++ concat rest) with
    | (h', Ok headers) =>
      Some (h', H2Event_Headers
        (mkHeaderBlock sid (map (fun '(n, v) => (from_utf8_lossy n, from_utf8_lossy v)) headers) e
           (to_priority sid <$> priority)))
    | (_, Err _) => None
    end
  | SentPriority sid dep ex w => Some (h, H2Event_Priority (mkPriority sid dep ex w))
  | SentRst sid code => Some (h, H2Event_RstStream sid code)
  | SentGoAway lst code debug => Some (h, H2Event_GoAway lst code debug)
  end.
Fixpoint sent_events (h : hpack_state) (l : list Sent) : option (hpack_state * list H2Event) :=
  match l with
  | [] => Some (h, [])
  | s :: l' =>
    '(h1, e) ← sent_event h s;
    '(h2, es) ← sent_events h1 l';
    Some (h2, e :: es)
  end.

Lemma flags_spec e h p pr :
  has_flag (flag_byte e h p pr) 1 = e /\ has_flag (flag_byte e h p pr) 4 = h
  /\ has_flag (flag_byte e h p pr) 8 = p /\ has_flag (flag_byte e h p pr) 32 = pr.
Proof. destruct e, h, p, pr; vm_compute; repeat split. Qed.
Lemma low31_small z : 0 <= z < 2 ^ 31 -> low31 z = z.
Proof.
  intros. unfold low31. change 2147483647 with (Z.ones 31).
  rewrite Z.land_ones by lia. by apply Z.mod_small.
Qed.
Lemma dependency_word_spec dep ex : 0 <= dep < 2 ^ 31 ->
  low31 (dependency_word dep ex) = dep
  /\ negb (Z.land (dependency_word dep ex) 2147483648 =? 0) = ex
  /\ 0 <= dependency_word dep ex < 2 ^ 32.
Proof.
  intros Hd. unfold dependency_word. split; [|split].
  - unfold low31. change 2147483647 with (Z.ones 31). rewrite Z.land_ones by lia.
    destruct ex; [|rewrite Z.add_0_r; by apply Z.mod_small].
    change 2147483648 with (1 * 2 ^ 31). rewrite Z_mod_plus_full. by apply Z.mod_small.
  - change 2147483648 with (2 ^ 31). destruct (Z.eqb_spec (Z.land (dep + (if ex then 2 ^ 31 else 0)) (2 ^ 31)) 0) as [E|E].
    + destruct ex; [exfalso|done]. apply (f_equal (fun z => Z.testbit z 31)) in E.
      rewrite Z.land_spec, Z.pow2_bits_true, Z.bits_0, andb_true_r in E by lia.
      replace (dep + 2 ^ 31) with (dep + 1 * 2 ^ 31) in E by lia.
      rewrite Z.testbit_odd, Z.shiftr_div_pow2, Z.div_add, Z.div_small in E by lia. done.
    + destruct ex; [done|]. exfalso. apply E. rewrite Z.add_0_r. apply Z.bits_inj'. intros n Hn.
      rewrite Z.land_spec, Z.bits_0. destruct (decide (n = 31)) as [->|].
      * rewrite Z.testbit_odd, Z.shiftr_div_pow2, Z.div_small by lia. done.
      * by rewrite Z.pow2_bits_false, andb_false_r by lia.
  - destruct ex; lia.
Qed.

(** One raw frame at the front of the buffer. *)
Lemma frame_raw c ty flags sid payload rest :
  0 <= ty < 256 -> 0 <= sid < 2 ^ 31 -> size_ok payload ->
  frame c (raw_frame ty flags sid payload ++ rest) =
    match dispatch_frame c ty flags sid payload with
    | (c', Ok events) => Take (length (raw_frame ty flags sid payload)) c' events
    | (c', Err e) => Stop (length (raw_frame ty flags sid payload)) c' e
    end.
Proof.
  intros Ht Hs Hp. unfold size_ok in Hp. unfold frame, H2Framer, h2_frame, raw_frame.
  set (l3 := be_bytes 3 (Z.of_nat (length payload))). set (s4 := be_bytes 4 sid).
  assert (length l3 = 3%nat) by apply length_be_bytes.
  assert (length s4 = 4%nat) by apply length_be_bytes.
  rewrite <- !app_assoc.
  assert (Hlen : length (l3 ++ [to_u8 ty; flags] ++ s4 ++ payload ++ rest)
                 = (9 + length payload + length rest)%nat) by (rewrite !length_app; cbn; lia).
  assert (Hlen' : length (l3 ++ [to_u8 ty; flags] ++ s4 ++ payload)
                 = (9 + length payload)%nat) by (rewrite !length_app; cbn; lia).
  rewrite Hlen, Hlen'. rewrite (proj2 (Nat.ltb_ge _ _)) by lia. cbv zeta.
  assert (be_val l3 = Z.of_nat (length payload)) as Hl3 by (apply be_val_be_bytes; cbn; lia).
  assert (be_val s4 = sid) as Hs4 by (apply be_val_be_bytes; cbn; lia).
  set (buf := l3 ++ [to_u8 ty; flags] ++ s4 ++ payload ++ rest) in *.
  assert (take 3 buf = l3) as -> by (unfold buf; by rewrite take_app_length').
  assert (Hd : forall k, drop (3 + k) buf = drop k (to_u8 ty :: flags :: s4 ++ payload ++ rest)).
  { intros k. unfold buf. rewrite <- drop_drop. by rewrite drop_app_length' by lia. }
  assert (nth 3 buf x00 = to_u8 ty) as ->
    by (unfold buf; rewrite app_nth2 by lia; by replace (3 - length l3)%nat with 0%nat by lia).
  assert (nth 4 buf x00 = flags) as ->
    by (unfold buf; rewrite app_nth2 by lia; by replace (4 - length l3)%nat with 1%nat by lia).
  pose proof (Hd 2%nat) as H5. pose proof (Hd 6%nat) as H9. cbn [Nat.add drop] in H5, H9.
  rewrite drop_0 in H5. unfold be32_at. rewrite H5, H9, take_app_length' by lia.
  rewrite Hl3, Hs4, Nat2Z.id, low31_small by done. rewrite (proj2 (Nat.ltb_ge _ _)) by lia.
  assert (u8 (to_u8 ty) = ty) as -> by (rewrite u8_to_u8; apply Z.mod_small; lia).
  by rewrite drop_app_length', take_app_length by lia.
Qed.

Lemma u8_pad (p : bytes) : (length p < 256)%nat ->
  Z.to_nat (u8 (to_u8 (Z.of_nat (length p)))) = length p.
Proof. intros. rewrite u8_to_u8, Z.mod_small by lia. lia. Qed.

Lemma strip_pad padding payload : pad_ok padding ->
  strip_padding (pad_payload padding payload) (is_some padding) = Ok payload.
Proof.
  destruct padding as [p|]; [|done]. cbn [pad_ok]. intros Hp.
  unfold strip_padding. cbn [pad_payload is_some negb]. cbv zeta.
  rewrite u8_pad, length_app by done. rewrite (proj2 (Nat.ltb_ge _ _)) by lia.
  by rewrite take_app_length' by lia.
Qed.

(** The prefix fields of HEADERS. *)
Lemma priority_fields (pre rest : bytes) pr sid : 0 <= pr.1.1 < 2 ^ 31 ->
  let payload := pre ++ priority_payload pr ++ rest in
  mkPriority sid (low31 (be32_at payload (length pre)))
    (negb (Z.land (be32_at payload (length pre)) 2147483648 =? 0))
    (nth (length pre + 4) payload x00) = to_priority sid pr
  /\ drop (length pre + 5) payload = rest.
Proof.
  destruct pr as [[dep ex] w]. cbn [fst snd]. intros Hd. cbv zeta.
  destruct (dependency_word_spec dep ex Hd) as (H1 & H2 & H3).
  unfold priority_payload, be32_at. cbn [fst snd].
  pose proof (length_be_bytes 4 (dependency_word dep ex)) as Hl.
  rewrite drop_app_length, <- !app_assoc, take_app_length' by done.
  rewrite be_val_be_bytes by (cbn; lia). rewrite H1, H2.
  rewrite app_nth2_plus, app_nth2, Hl by lia. split; [done|].
  rewrite <- drop_drop, drop_app_length. change 5%nat with (4 + 1)%nat.
  rewrite <- drop_drop. by rewrite drop_app_length' by done.
Qed.

Lemma headers_prefix_spec sid e h padding priority first :
  pad_ok padding -> match priority with Some p => 0 <= p.1.1 < 2 ^ 31 | None => True end ->
  exists payload cursor,
    headers_prefix sid (flag_byte e h (is_some padding) (is_some priority))
      (headers_payload priority padding first)
    = Ok (payload, cursor, to_priority sid <$> priority)
  /\ drop cursor payload = first /\ (cursor <= length payload)%nat.
Proof.
  intros Hp Hpr. unfold headers_prefix.
  destruct (flags_spec e h (is_some padding) (is_some priority)) as (_ & _ & -> & ->).
  (* the padding stripped, [pre] is the length byte when there is one *)
  assert (exists pre, 
    (if is_some padding then
       match headers_payload priority padding first with
       | [] => Err H2_InvalidPadding
       | pad :: _ =>
         if (length (headers_payload priority padding first) <? 1 + Z.to_nat (u8 pad))%nat
         then Err H2_InvalidPadding
         else Ok (take (length (headers_payload priority padding first) - Z.to_nat (u8 pad))
                    (headers_payload priority padding first), 1%nat)
       end
     else Ok (headers_payload priority padding first, 0%nat))
    = Ok (pre ++ match priority with Some p => priority_payload p | None => [] end ++ first,
          length pre)) as [pre ->].
  { unfold headers_payload. destruct padding as [p|]; [|by exists []]. cbn in Hp.
    exists [to_u8 (Z.of_nat (length p))]. cbn [is_some pad_payload].
    set (q := _ ++ first). rewrite u8_pad by done. cbn [length]. rewrite length_app.
    rewrite (proj2 (Nat.ltb_ge _ _)) by lia.
    change (to_u8 (Z.of_nat (length p)) :: q ++ p) with ((to_u8 (Z.of_nat (length p)) :: q) ++ p).
    rewrite take_app_length' by (cbn; lia). done. }
  cbn [mbind result_bind]. destruct priority as [pr|]; cbn [is_some].
  - destruct (priority_fields pre first pr sid Hpr) as [E1 E2].
    assert (length (priority_payload pr) = 5%nat) as Hl
      by (unfold priority_payload; by rewrite length_app, length_be_bytes).
    rewrite !length_app, Hl, (proj2 (Nat.ltb_ge _ _)) by lia.
    eexists _, _. split; [by rewrite E1|]. split; [done|]. rewrite !length_app. lia.
  - eexists _, _. split; [done|]. cbn [app]. rewrite drop_app_length, length_app. split; [done | lia].
Qed.

(** Draining the continuations of a pending block. *)
Lemma drain_raw c c' ty flags sid payload rest os :
  0 <= ty < 256 -> 0 <= sid < 2 ^ 31 -> size_ok payload ->
  dispatch_frame c ty flags sid payload = (c', Ok os) ->
  drain_all c (raw_frame ty flags sid payload ++ rest) =
    let '(c2, b, r) := drain_all c' rest in (c2, b, app os <$> r).
Proof.
  intros Ht Hs Hp Hd. rewrite drain_all_unfold, frame_raw, Hd by done.
  by rewrite drop_app_length.
Qed.

Lemma drain_continuations l h sid e pr block rest h' headers :
  l <> [] -> id_ok sid -> Forall size_ok l ->
  hpack_decode h (block ++ concat l) = (h', Ok headers) ->
  drain_all (mkH2Core h (Some (mkPendingHeaders sid e pr block)))
    (concat (continuations sid l) ++ rest) =
    let '(c2, b, r) := drain_all (mkH2Core h' None) rest in
    (c2, b, app [H2Event_Headers (mkHeaderBlock sid
       (map (fun '(n, v) => (from_utf8_lossy n, from_utf8_lossy v)) headers) e pr)] <$> r).
Proof.
  unfold id_ok. revert block. induction l as [|x l IH]; [done|]. intros block _ Hs Hl Hd.
  apply Forall_cons in Hl as [Hx Hl]. destruct l as [|y l].
  - cbn in Hd. rewrite app_nil_r in Hd. cbn [continuations concat]. rewrite app_nil_r.
    eapply drain_raw; [lia | lia | done |]. cbn. unfold parse_continuation_frame. cbn.
    rewrite Z.eqb_refl. cbn. unfold finish_block, decode_headers.
    destruct (flags_spec false true false false) as (_ & -> & _). cbn. by rewrite Hd.
  - change (continuations sid (x :: y :: l))
      with (raw_frame 9 (flag_byte false false false false) sid x :: continuations sid (y :: l)).
    cbn [concat]. rewrite <- app_assoc.
    rewrite (drain_raw _ (mkH2Core h (Some (mkPendingHeaders sid e pr (block ++ x)))) 9 _ sid x _ []);
      [|lia|lia|done|].
    + rewrite IH by (try done; by rewrite <- app_assoc).
      by destruct (drain_all (mkH2Core h' None) rest) as [[? ?] [?|?]].
    + cbn. unfold parse_continuation_frame. cbn. rewrite Z.eqb_refl. cbn. unfold finish_block.
      by destruct (flags_spec false false false false) as (_ & -> & _).
Qed.

Lemma drain_headers h h' ev rest sid e priority padding first l :
  sent_ok (SentHeaders sid e priority padding first l) ->
  sent_event h (SentHeaders sid e priority padding first l) = Some (h', ev) ->
  drain_all (mkH2Core h None) (encode_sent (SentHeaders sid e priority padding first l) ++ rest) =
    let '(c2, b, r) := drain_all (mkH2Core h' None) rest in (c2, b, app [ev] <$> r).
Proof.
  cbn [sent_ok encode_sent sent_event]; unfold id_ok, size_ok. intros (Hs & Hp & Hz & Hr & Hpr) Hev.
  destruct (hpack_decode h (first ++ concat l)) as [h1 [headers|]] eqn:Eh; [|done].
  injection Hev as <- <-. rewrite <- app_assoc.
  set (flags := flag_byte _ _ _ _).
  destruct (headers_prefix_spec sid e (bool_decide (l = [])) padding priority first Hp Hpr)
    as (payload & cursor & Hpre & Hdrop & Hcur).
  assert (Hd : parse_headers_frame (mkH2Core h None) sid flags (headers_payload priority padding first)
    = finish_block (mkH2Core h None) (mkPendingHeaders sid e (to_priority sid <$> priority) first) flags).
  { unfold parse_headers_frame. rewrite (proj2 (Z.eqb_neq _ _)) by lia. fold flags in Hpre.
    rewrite Hpre, (proj2 (Nat.ltb_ge _ _)), Hdrop by lia. unfold flags at 1.
    by destruct (flags_spec e (bool_decide (l = [])) (is_some padding) (is_some priority)) as (-> & _). }
  unfold finish_block, decode_headers in Hd. unfold flags in Hd at 2.
  destruct (flags_spec e (bool_decide (l = [])) (is_some padding) (is_some priority))
    as (_ & Hf & _). rewrite Hf in Hd. destruct l as [|x l].
  + rewrite bool_decide_eq_true_2 in Hd by done. cbn in Hd, Eh. rewrite app_nil_r in Eh.
    rewrite Eh in Hd. cbn [continuations concat]. rewrite app_nil_l.
    eapply drain_raw; [lia | lia | done |]. exact Hd.
  + rewrite bool_decide_eq_false_2 in Hd by done.
    rewrite (drain_raw _ (mkH2Core h (Some (mkPendingHeaders sid e (to_priority sid <$> priority) first)))
               1 flags sid _ _ []); [|lia|lia|done|exact Hd].
    rewrite (drain_continuations _ h sid e (to_priority sid <$> priority) first rest h1 headers) by done.
    by destruct (drain_all (mkH2Core h1 None) rest) as [[? ?] [?|?]].
Qed.
Lemma drain_sent s h h' ev rest :
  sent_ok s -> sent_event h s = Some (h', ev) ->
  drain_all (mkH2Core h None) (encode_sent s ++ rest) =
    let '(c2, b, r) := drain_all (mkH2Core h' None) rest in (c2, b, app [ev] <$> r).
Proof.
  destruct s as [sid payload padding e|sid e priority padding first l|sid dep ex w|sid code|lst code debug];
    cbn [sent_ok encode_sent sent_event]; unfold id_ok, size_ok.
  - intros (Hs & Hp & Hz) [= <- <-]. eapply drain_raw; [lia | lia | done |]. cbn.
    unfold parse_data_frame. rewrite (proj2 (Z.eqb_neq _ _)) by lia.
    destruct (flags_spec e false (is_some padding) false) as (-> & _ & -> & _).
    by rewrite strip_pad.
  - intros Hok Hev. by apply drain_headers.
  - intros (Hs & Hd) [= <- <-]. eapply drain_raw; [lia | lia | |].
    + unfold size_ok, priority_payload. rewrite length_app, length_be_bytes. cbn. lia.
    + cbn [dispatch_frame]. unfold parse_priority_payload.
      destruct (priority_fields [] [] (dep, ex, w) sid Hd) as [E _].
      rewrite app_nil_r in E. cbn [app] in E. change (length []) with 0%nat in E.
      assert (length (priority_payload (dep, ex, w)) = 5%nat) as ->
        by (unfold priority_payload; by rewrite length_app, length_be_bytes).
      rewrite (proj2 (Z.eqb_neq _ _)) by lia. cbn [orb negb Nat.eqb]. cbv zeta.
      change (0 + 4)%nat with 4%nat in E. by rewrite E.
  - intros (Hs & Hc) [= <- <-]. eapply drain_raw; [lia | lia | |].
    + unfold size_ok. rewrite length_be_bytes. lia.
    + cbn [dispatch_frame]. rewrite length_be_bytes, (proj2 (Z.eqb_neq _ _)) by lia. cbn [negb orb Nat.eqb].
      unfold be32_at. rewrite drop_0, firstn_all2 by by rewrite length_be_bytes.
      by rewrite be_val_be_bytes.
  - intros (Hs & Hc & Hz) [= <- <-]. eapply drain_raw; [lia | lia | done |].
    cbn [dispatch_frame]. unfold be32_at.
    pose proof (length_be_bytes 4 lst). pose proof (length_be_bytes 4 code).
    rewrite !length_app, (proj2 (Nat.ltb_ge _ _)) by lia. cbn [orb negb Z.eqb].
    rewrite drop_0, take_app_length', be_val_be_bytes, low31_small by (done || cbn; lia).
    rewrite drop_app_length', take_app_length', be_val_be_bytes by (done || cbn; lia).
    change 8%nat with (4 + 4)%nat. rewrite <- drop_drop, !drop_app_length' by done. done.
Qed.

Lemma drain_sent_all l h h' es rest :
  Forall sent_ok l -> sent_events h l = Some (h', es) ->
  drain_all (mkH2Core h None) (concat (map encode_sent l) ++ rest) =
    let '(c2, b, r) := drain_all (mkH2Core h' None) rest in (c2, b, app es <$> r).
Proof.
  intros Hall. revert h es. induction Hall as [|s l Hs _ IH]; intros h es He.
  - cbn in He. injection He as <- <-. cbn.
    by destruct (drain_all (mkH2Core h None) rest) as [[? ?] [?|?]].
  - cbn [sent_events] in He. destruct (sent_event h s) as [[h1 e]|] eqn:E1; [|done].
    cbn [mbind option_bind] in He. destruct (sent_events h1 l) as [[h2 es2]|] eqn:E2; [|done].
    injection He as <- <-. cbn [map concat]. rewrite <- app_assoc.
    rewrite (drain_sent _ _ _ _ _ Hs E1), (IH _ _ E2).
    by destruct (drain_all (mkH2Core h2 None) rest) as [[? ?] [?|?]].
Qed.

(** ** Properties *)

(** Either direction can be fed in any chunks: pushing them one by one gives
    the events, the final state or the error of pushing their concatenation,
    also when a chunk ends inside the connection preface. *)
Theorem h2_chunking chunks client_side :
  push_chunks DirectionState_default client_side chunks
  = outcome_of (push_direction DirectionState_default (concat chunks) client_side).
Proof.
  unfold DirectionState_default. destruct client_side.
  - rewrite push_chunks_client, push_client_drain. cbn [ds_preface_complete ds_core ds_buffer app].
    rewrite (feed_concat (H := PrefaceFramer)) by done. cbn [app].
    by destruct (drain_all _ (concat chunks)) as [[[p c] b] [os|e]].
  - rewrite push_chunks_server. unfold push_direction, parse_complete_frames. cbn [ds_core ds_buffer app].
    rewrite (feed_concat (H := H2Framer)) by done. cbn [app ds_preface_complete].
    by destruct (drain_all _ (concat chunks)) as [[c b] [os|e]].
Qed.

(** [C27] Frames come back as sent: DATA with or without padding, HEADERS with
    padding, priority and a header block cut anywhere into CONTINUATIONs,
    PRIORITY, RST_STREAM and GOAWAY, in any chunks, after the preface on the
    client's side, are decoded to exactly the events sent, the header blocks
    decoded as wholes and in order by HPACK. *)
Theorem h2_roundtrip (sent : list Sent) (client_side : bool) chunks (h : hpack_state) es :
  Forall sent_ok sent -> sent_events hpack_new sent = Some (h, es) ->
  concat chunks = (if client_side then CLIENT_PREFACE else []) ++ concat (map encode_sent sent) ->
  push_chunks DirectionState_default client_side chunks
  = Ok (mkDirection [] (mkH2Core h None) client_side, es).
Proof.
  intros Hall He Hc.
  pose proof (drain_sent_all sent hpack_new h es [] Hall He) as Hd. rewrite app_nil_r in Hd.
  change (drain_all (mkH2Core h None) []) with (mkH2Core h None, @nil byte, @Ok H2DecodeError _ (@nil H2Event)) in Hd.
  cbn in Hd. rewrite app_nil_r in Hd.
  unfold DirectionState_default. destruct client_side.
  - rewrite push_chunks_client, (feed_concat (H := PrefaceFramer)) by done. cbn [app]. rewrite Hc.
    rewrite (drain_all_unfold (H := PrefaceFramer)).
    assert (frame (Framer := PrefaceFramer) (false, mkH2Core hpack_new None)
              (CLIENT_PREFACE ++ concat (map encode_sent sent))
            = Take 24 (true, mkH2Core hpack_new None) []) as ->.
    { unfold frame, PrefaceFramer, preface_frame. cbn [fst snd]. cbv zeta.
      rewrite length_app. change (length CLIENT_PREFACE) with 24%nat.
      rewrite Nat.min_r, take_app_length' by (done || lia).
      rewrite bool_decide_eq_true_2 by done. cbn [negb].
      by rewrite (proj2 (Nat.ltb_ge _ _)) by lia. }
    rewrite drop_app_length' by done. rewrite drain_past_preface, Hd. done.
  - rewrite push_chunks_server, (feed_concat (H := H2Framer)) by done. cbn [app] in *. rewrite Hc.
    by rewrite Hd.
Qed.
End h2_roundtrip.

Module H2Fixture.
(** An HPACK without compression: a block is one header, name byte and value. *)
#[local] Instance hpack : HpackApi := {|
  hpack_state := nat;
  hpack_new := 0%nat;
  hpack_decode n b := (S n, match b with
                            | x :: v => Ok [([x], v)]
                            | [] => Err "InvalidRepresentation"
                            end) |}.
Definition sent : list Sent :=
  [SentHeaders 3 false (Some (1, true, x10)) (Some [x00; x00]) [x61] [[x62]; []; [x63]];
   SentData 3 [x64; x65] (Some [x00]) true; SentRst 5 8; SentGoAway 3 0 [x62]].
Definition wire : bytes := CLIENT_PREFACE ++ concat (map encode_sent sent).

Lemma h2_roundtrip_witness : exists d,
  push_chunks DirectionState_default true [take 10 wire; take 30 (drop 10 wire); drop 40 wire]
  = Ok (d, [H2Event_Headers (mkHeaderBlock 3 [("a", "bc")] false (Some (mkPriority 3 1 true x10)));
            H2Event_Data 3 [x64; x65] true; H2Event_RstStream 5 8; H2Event_GoAway 3 0 [x62]]).
Proof.
  eexists.
  refine (h2_roundtrip sent true _ 1%nat _ _ _ _).
  - unfold sent, sent_ok, id_ok, size_ok. repeat constructor; cbn; lia.
  - by vm_compute.
  - by vm_compute.
Defined.
End H2Fixture.
