(* ===== verification/Http1.v ===== *)
(** * HTTP/1 messages

    [src/crates/capture/src/http1.rs].  The [httparse] and [http] crates and
    the decompressors are parameters; the framing of the body, by chunks or by
    [Content-Length], is the code's own and is modelled in full. *)
From Stdlib Require Import ZArith Lia Strings.Byte Strings.String.
From S2P Require Import Prelude RustStr.
Local Open Scope string_scope.
Local Open Scope list_scope.
Local Open Scope Z_scope.

(** [httparse]: what a successful [parse] fills in. *)
Record HpRequest : Type := mkHpRequest {
  hq_method : option string;
  hq_path : option string;
  hq_version : option Z;
  hq_headers : list (string * bytes) }.
Record HpResponse : Type := mkHpResponse {
  hr_code : option Z;
  hr_version : option Z;
  hr_headers : list (string * bytes) }.
Inductive HpStatus : Type :=
| Complete (header_len : nat)
| Partial.
Class HttparseApi := {
  request_parse : bytes -> option (HpStatus * HpRequest);
  response_parse : bytes -> option (HpStatus * HpResponse) }.

(** The [http] crate. *)
Class HttpApi := {
  Method : Type;
  method_parse : string -> option Method;
  Uri : Type;
  uri_parse : string -> option Uri;
  StatusCode : Type;
  status_from_u16 : Z -> option StatusCode;
  as_u16 : StatusCode -> Z;
  is_success : StatusCode -> bool;
  HeaderName : Type;
  header_name_from_bytes : bytes -> option HeaderName;
  HeaderValue : Type;
  header_value_from_bytes : bytes -> option HeaderValue;
  to_str : HeaderValue -> option string;
  HeaderMap : Type;
  header_map_new : HeaderMap;
  header_map_append : HeaderMap -> HeaderName -> HeaderValue -> HeaderMap;
  (** lookup by lower-case name *)
  header_map_get : HeaderMap -> string -> option HeaderValue;
  header_map_iter : HeaderMap -> list (string * HeaderValue) }.

(** [read_to_end] of the three decompressors; an error is its message. *)
Class DecompressApi := {
  gzip_decode : bytes -> result string bytes;
  brotli_decode : bytes -> result string bytes;
  zstd_decode_all : bytes -> result string bytes }.

Inductive Version : Type := HTTP_11 | HTTP_10.

(* src: src/crates/capture/src/http1.rs:9-13 HttpBody *)
Record HttpBody : Type := mkHttpBody {
  hb_raw : bytes;
  hb_decoded : bytes;
  hb_complete : bool }.

(* src: src/crates/capture/src/http1.rs:26-47 HttpParseError *)
Inductive HttpParseError : Type :=
| Http_IncompleteHead
| Http_InvalidVersion
| Http_InvalidMethod (s : string)
| Http_InvalidUri (s : string)
| Http_InvalidStatus (code : Z)
| Http_InvalidHeaderName (s : string)
| Http_InvalidHeaderValue (s : string)
| Http_InvalidContentLength (s : string)
| Http_InvalidChunkedBody
| Http_BodyDecode (s : string).

Definition CRLF : bytes := [x0d; x0a].

(** [windows(2).position(|w| w == b"\r\n")] from [start]. *)
(* src: src/crates/capture/src/http1.rs:217-222 find_crlf *)
Definition find_crlf (b : bytes) (start : nat) : option nat :=
  (fun offset => (start + offset)%nat) <$> find_sub CRLF (drop start b).

(** [str.split(c).next()]. *)
Fixpoint split_first (c : byte) (l : bytes) : bytes :=
  match l with
  | [] => []
  | b :: l' => if Byte.eqb b c then [] else b :: split_first c l'
  end.
(** [str.split(c)]. *)
Fixpoint split_on (c : byte) (acc l : bytes) : list bytes :=
  match l with
  | [] => [rev acc]
  | b :: l' => if Byte.eqb b c then rev acc :: split_on c [] l' else split_on c (b :: acc) l'
  end.

(** The size line of a chunk. *)
(* src: src/crates/capture/src/http1.rs:173-215 decode_chunked *)
Definition chunk_size (line : bytes) : result HttpParseError Z :=
  line ← ok_or Http_InvalidChunkedBody (from_utf8 line);
  ok_or Http_InvalidChunkedBody
    (from_str_radix 16 u64_max
       (as_bytes (trim (of_bytes (split_first x3b (as_bytes line)))))).

(** The trailers: lines up to an empty one.  Every line moves the cursor. *)
(* src: src/crates/capture/src/http1.rs:173-215 decode_chunked *)
Fixpoint skip_trailers (fuel : nat) (b : bytes) (cursor : nat) : bool :=
  match fuel with
  | O => false
  | S fuel' =>
    match find_crlf b cursor with
    | None => false
    | Some trailer_end =>
      if (trailer_end =? cursor)%nat then true
      else skip_trailers fuel' b (trailer_end + 2)
    end
  end.

(** The chunks.  Every iteration moves the cursor, so the length of the body is
    enough fuel. *)
(* src: src/crates/capture/src/http1.rs:173-215 decode_chunked *)
Fixpoint chunk_loop (fuel : nat) (b : bytes) (cursor : nat) (decoded : bytes)
    : result HttpParseError (bytes * bool) :=
  match fuel with
  | O => Ok (decoded, false)
  | S fuel' =>
    match find_crlf b cursor with
    | None => Ok (decoded, false)
    | Some line_end =>
      size ← chunk_size (take (line_end - cursor) (drop cursor b));
      let cursor := (line_end + 2)%nat in
      if size =? 0 then Ok (decoded, skip_trailers (S (length b)) b cursor)
      else if u64_max <? Z.of_nat cursor + size then Err Http_InvalidChunkedBody
      else if Z.of_nat (length b) <? Z.of_nat cursor + size then Ok (decoded, false)
      else
        let stop := (cursor + Z.to_nat size)%nat in
        let decoded := decoded ++ take (Z.to_nat size) (drop cursor b) in
        if (length b <? stop + 2)%nat then Ok (decoded, false)
        else if bool_decide (take 2 (drop stop b) = CRLF)
        then chunk_loop fuel' b (stop + 2) decoded
        else Err Http_InvalidChunkedBody
    end
  end.
(* src: src/crates/capture/src/http1.rs:173-215 decode_chunked *)
Definition decode_chunked (b : bytes) : result HttpParseError (bytes * bool) :=
  chunk_loop (S (length b)) b 0 [].

Section http1.
Context `{HttparseApi} `{HttpApi} `{DecompressApi}.

(* src: src/crates/capture/src/http1.rs:16-23 HttpMessage *)
Record HttpMessage : Type := mkHttpMessage {
  hm_version : Version;
  hm_method : option Method;
  hm_uri : option Uri;
  hm_status : option StatusCode;
  hm_headers : HeaderMap;
  hm_body : HttpBody }.

(* src: src/crates/capture/src/http1.rs:113-119 parse_version *)
Definition parse_version (version : option Z) : result HttpParseError Version :=
  match version with
  | Some 1 => Ok HTTP_11
  | Some 0 => Ok HTTP_10
  | _ => Err Http_InvalidVersion
  end.

(* src: src/crates/capture/src/http1.rs:121-131 to_header_map *)
Fixpoint to_header_map (map : HeaderMap) (headers : list (string * bytes))
    : result HttpParseError HeaderMap :=
  match headers with
  | [] => Ok map
  | (name, value) :: headers' =>
    n ← ok_or (Http_InvalidHeaderName name) (header_name_from_bytes (as_bytes name));
    v ← ok_or (Http_InvalidHeaderValue name) (header_value_from_bytes value);
    to_header_map (header_map_append map n v) headers'
  end.

(* src: src/crates/capture/src/http1.rs:162-171 is_chunked *)
Definition is_chunked (headers : HeaderMap) : bool :=
  is_some_and (fun value =>
    existsb (fun part => eq_ignore_ascii_case (trim (of_bytes part)) "chunked")
      (split_on x2c [] (as_bytes value)))
    (header_map_get headers "transfer-encoding" ≫= to_str).

(* src: src/crates/capture/src/http1.rs:224-257 decode_content_encoding *)
Definition decode_content_encoding (headers : HeaderMap) (raw : bytes)
    : result HttpParseError bytes :=
  let encoding :=
    to_ascii_lowercase (unwrap_or "" (trim <$> (header_map_get headers "content-encoding" ≫= to_str))) in
  if str_is_empty encoding then Ok raw
  else if bool_decide (encoding = "gzip") then map_err Http_BodyDecode (gzip_decode raw)
  else if bool_decide (encoding = "br") then map_err Http_BodyDecode (brotli_decode raw)
  else if bool_decide (encoding = "zstd") then map_err Http_BodyDecode (zstd_decode_all raw)
  else Ok raw.

(** The [Content-Length] header as a number. *)
(* src: src/crates/capture/src/http1.rs:133-160 decode_body *)
Definition content_length_value (value : HeaderValue) : result HttpParseError Z :=
  s ← ok_or (Http_InvalidContentLength "<non-utf8>") (to_str value);
  ok_or (Http_InvalidContentLength (unwrap_or "" (to_str value)))
    (from_str_radix 10 u64_max (as_bytes s)).

(* src: src/crates/capture/src/http1.rs:133-160 decode_body *)
Definition decode_body (headers : HeaderMap) (body_bytes : bytes)
    : result HttpParseError HttpBody :=
  '(raw, complete) ←
    (if is_chunked headers then decode_chunked body_bytes
     else match header_map_get headers "content-length" with
     | Some content_length =>
       expected ← content_length_value content_length;
       let n := Z.min (Z.of_nat (length body_bytes)) expected in
       Ok (take (Z.to_nat n) body_bytes, expected <=? Z.of_nat (length body_bytes))
     | None => Ok (body_bytes, true)
     end);
  decoded ← decode_content_encoding headers raw;
  mret (mkHttpBody raw decoded complete).

(* src: src/crates/capture/src/http1.rs:49-84 parse_http_request *)
Definition parse_http_request (b : bytes) : result HttpParseError HttpMessage :=
  '(status, request) ← ok_or Http_IncompleteHead (request_parse b);
  header_len ← match status with
               | Complete header_len => Ok header_len
               | Partial => Err Http_IncompleteHead
               end;
  version ← parse_version (hq_version request);
  m ← ok_or Http_IncompleteHead (hq_method request);
  method ← ok_or (Http_InvalidMethod (unwrap_or "" (hq_method request))) (method_parse m);
  p ← ok_or Http_IncompleteHead (hq_path request);
  uri ← ok_or (Http_InvalidUri (unwrap_or "" (hq_path request))) (uri_parse p);
  headers ← to_header_map header_map_new (hq_headers request);
  body ← decode_body headers (drop header_len b);
  mret (mkHttpMessage version (Some method) (Some uri) None headers body).

(* src: src/crates/capture/src/http1.rs:86-111 parse_http_response *)
Definition parse_http_response (b : bytes) : result HttpParseError HttpMessage :=
  '(status, response) ← ok_or Http_IncompleteHead (response_parse b);
  header_len ← match status with
               | Complete header_len => Ok header_len
               | Partial => Err Http_IncompleteHead
               end;
  version ← parse_version (hr_version response);
  code ← ok_or Http_IncompleteHead (hr_code response);
  status ← ok_or (Http_InvalidStatus (unwrap_or 0 (hr_code response))) (status_from_u16 code);
  headers ← to_header_map header_map_new (hr_headers response);
  body ← decode_body headers (drop header_len b);
  mret (mkHttpMessage version None None (Some status) headers body).

(** Collecting into a map keeps the last value of a repeated name. *)
(* src: src/crates/capture/src/http1.rs:259-269 headers_to_map *)
Definition headers_to_map (headers : HeaderMap) : gmap string string :=
  fold_left (fun m '(name, value) =>
    match to_str value with
    | Some v => <[name := v]> m
    | None => m
    end) (header_map_iter headers) ∅.
End http1.

(** ** A chunked sender (RFC 9112), the reference for the decoder

    A chunk is its size line, any line the decoder reads as the payload's
    length (case, spaces and extensions included), and its payload. *)
Definition line_ok (l : bytes) : Prop := x0a ∉ l.
Definition encode_chunk (c : bytes * bytes) : bytes := c.1 ++ CRLF ++ c.2 ++ CRLF.
Definition encode_trailers (ts : list bytes) : bytes := concat (map (fun l => l ++ CRLF) ts) ++ CRLF.
Definition encode_chunked (cs : list (bytes * bytes)) (last_line : bytes) (ts : list bytes) : bytes :=
  concat (map encode_chunk cs) ++ last_line ++ CRLF ++ encode_trailers ts.
Definition chunk_ok (c : bytes * bytes) : Prop :=
  line_ok c.1 /\ c.2 <> [] /\ chunk_size c.1 = Ok (Z.of_nat (length c.2)).

Lemma find_sub_line l r : line_ok l -> find_sub CRLF (l ++ CRLF ++ r) = Some (length l).
Proof.
  unfold line_ok. induction l as [|b l IH]; intros Hn; [done|].
  cbn [app length find_sub].
  assert (starts_with CRLF (b :: l ++ CRLF ++ r) = false) as ->.
  { apply not_true_is_false. intros [q E]%starts_with_spec. cbn in E.
    destruct l as [|c l]; cbn in E; simplify_eq. set_solver. }
  rewrite IH; [done | set_solver].
Qed.

(** What [find_sub] sees of a truncated input. *)
Lemma find_sub_bound p l n : find_sub p l = Some n -> (n + length p <= length l)%nat.
Proof.
  revert n. induction l as [|b l IH]; intros n; cbn.
  - destruct (starts_with p []) eqn:E; [|done]. apply starts_with_spec in E as [r E].
    intros [= <-]. apply (f_equal length) in E. rewrite length_app in E. cbn in *. lia.
  - destruct (starts_with p (b :: l)) eqn:E.
    + apply starts_with_spec in E as [r E]. intros [= <-].
      apply (f_equal length) in E. rewrite length_app in E. cbn in *. lia.
    + intros (m & Hm & ->)%fmap_Some. specialize (IH _ Hm). lia.
Qed.
Lemma starts_with_take p l k :
  starts_with p (take k l) = starts_with p l && (length p <=? Nat.min k (length l))%nat.
Proof.
  apply eq_iff_eq_true. rewrite andb_true_iff, Nat.leb_le, !starts_with_spec. split.
  - intros [r E]. pose proof (f_equal length E) as El. rewrite length_app, length_take in El.
    split; [|lia]. exists (r ++ drop k l). by rewrite app_assoc, <- E, take_drop.
  - intros [[r ->] Hl]. exists (take (k - length p) r). rewrite take_app, firstn_all2 by lia. done.
Qed.
Lemma find_sub_take p l k n :
  p <> [] -> find_sub p l = Some n ->
  find_sub p (take k l) = if (n + length p <=? k)%nat then Some n else None.
Proof.
  intros Hp. revert k n. induction l as [|b l IH]; intros k n; cbn [find_sub].
  - destruct p; [done|]. cbn. done.
  - destruct k as [|k].
    { intros _. cbn. destruct p; [done|]. cbn.
      by rewrite (proj2 (Nat.leb_gt _ _)) by (cbn; lia). }
    rewrite firstn_cons. cbn [find_sub].
    change (b :: take k l) with (take (S k) (b :: l)). rewrite starts_with_take.
    destruct (starts_with p (b :: l)) eqn:E.
    + intros [= <-]. cbn [andb]. apply starts_with_spec in E as [r E].
      apply (f_equal length) in E. rewrite length_app in E. cbn [length] in *.
      destruct (Nat.leb_spec (length p) (Nat.min (S k) (S (length l)))).
      * by rewrite (proj2 (Nat.leb_le _ _)) by lia.
      * rewrite (proj2 (Nat.leb_gt _ _)) by lia.
        assert (find_sub p (take k l) = None) as ->; [|done].
        destruct (find_sub p (take k l)) as [m|] eqn:Em; [|done].
        apply find_sub_bound in Em. rewrite length_take in Em. lia.
    + intros (m & Hm & ->)%fmap_Some. cbn [andb]. rewrite (IH k m Hm).
      destruct (Nat.leb_spec (m + length p) k), (Nat.leb_spec (S m + length p) (S k)); try lia; done.
Qed.

(** [find_crlf] at a cursor where a truncated line begins. *)
Lemma find_crlf_take b cursor l r k :
  drop cursor b = take k (l ++ CRLF ++ r) -> line_ok l ->
  find_crlf b cursor = if (length l + 2 <=? k)%nat then Some (cursor + length l)%nat else None.
Proof.
  intros E Hl. unfold find_crlf. rewrite E, (find_sub_take _ _ _ (length l)); [|done|by apply find_sub_line].
  by destruct (_ <=? k)%nat.
Qed.
Lemma drop_take_line b cursor l r k :
  drop cursor b = take k (l ++ CRLF ++ r) -> (length l + 2 <= k)%nat ->
  drop (cursor + length l + 2) b = take (k - (length l + 2)) r
  /\ take (length l) (drop cursor b) = l.
Proof.
  intros E Hk. split.
  - rewrite <- Nat.add_assoc, <- drop_drop, E, skipn_firstn_comm. f_equal.
    rewrite app_assoc, drop_app_length'; [done|]. rewrite length_app. cbn. lia.
  - rewrite E, take_take, Nat.min_l by lia. by rewrite take_app_length.
Qed.

(** Trailers of a truncated message: complete exactly when all of it is there. *)
Lemma skip_trailers_take ts k b cursor fuel :
  Forall (fun l => line_ok l /\ l <> []) ts ->
  drop cursor b = take k (encode_trailers ts) -> (length (drop cursor b) < fuel)%nat ->
  skip_trailers fuel b cursor = (length (encode_trailers ts) <=? k)%nat.
Proof.
  intros Hts. revert k cursor fuel. induction Hts as [|l ts [Hl Hne] _ IH];
    intros k cursor [|fuel] E Hf; try lia; cbn [skip_trailers].
  - change (encode_trailers []) with ([] ++ CRLF ++ []) in E.
    rewrite (find_crlf_take _ _ _ _ _ E) by (unfold line_ok; set_solver).
    change (length (encode_trailers [])) with 2%nat. cbn [length Nat.add].
    destruct (2 <=? k)%nat; [|done]. by rewrite Nat.add_0_r, Nat.eqb_refl.
  - assert (encode_trailers (l :: ts) = l ++ CRLF ++ encode_trailers ts) as Ee
      by (unfold encode_trailers; cbn [map concat]; by rewrite <- !app_assoc).
    rewrite Ee in *. rewrite (find_crlf_take _ _ _ _ _ E Hl). rewrite !length_app.
    change (length CRLF) with 2%nat.
    destruct (Nat.leb_spec (length l + 2) k) as [Hk|Hk].
    + assert (0 < length l)%nat by (destruct l; [done | cbn; lia]).
      rewrite (proj2 (Nat.eqb_neq _ _)) by lia.
      destruct (drop_take_line _ _ _ _ _ E Hk) as [E' _].
      rewrite (IH _ _ _ E').
      * apply eq_iff_eq_true. rewrite !Nat.leb_le. lia.
      * rewrite E in Hf. rewrite E'. rewrite length_take, !length_app in Hf.
        rewrite length_take. change (length CRLF) with 2%nat in Hf. lia.
    + symmetry. apply Nat.leb_gt. lia.
Qed.

(** The last chunk and the trailers, cut after [k] bytes. *)
Lemma chunk_loop_last z ts k b cursor decoded fuel :
  line_ok z -> chunk_size z = Ok 0 -> Forall (fun l => line_ok l /\ l <> []) ts ->
  drop cursor b = take k (encode_chunked [] z ts) ->
  chunk_loop (S fuel) b cursor decoded = Ok (decoded, (length (encode_chunked [] z ts) <=? k)%nat).
Proof.
  intros Hz Hz0 Hts E. unfold encode_chunked in *. cbn [chunk_loop map concat app] in *.
  rewrite (find_crlf_take _ _ _ _ _ E Hz), !length_app. change (length CRLF) with 2%nat.
  destruct (Nat.leb_spec (length z + 2) k) as [Hk|Hk].
  - destruct (drop_take_line _ _ _ _ _ E Hk) as [E' Ez].
    replace (cursor + length z - cursor)%nat with (length z) by lia.
    rewrite Ez, Hz0. cbn [mbind result_bind]. cbv zeta. cbn [Z.eqb].
    rewrite (skip_trailers_take ts _ _ _ _ Hts E').
    + do 2 f_equal. apply eq_iff_eq_true. rewrite !Nat.leb_le. lia.
    + rewrite length_drop. lia.
  - do 2 f_equal. symmetry. apply Nat.leb_gt. lia.
Qed.

(** The whole body, cut after [k] bytes. *)
Lemma chunk_loop_take cs z ts k b cursor decoded fuel :
  Forall chunk_ok cs -> line_ok z -> chunk_size z = Ok 0 ->
  Forall (fun l => line_ok l /\ l <> []) ts ->
  drop cursor b = take k (encode_chunked cs z ts) ->
  (length (drop cursor b) < fuel)%nat ->
  Z.of_nat (cursor + length (encode_chunked cs z ts)) <= u64_max ->
  exists p q, concat (map snd cs) = p ++ q
  /\ chunk_loop fuel b cursor decoded
     = Ok (decoded ++ p, (length (encode_chunked cs z ts) <=? k)%nat)
  /\ ((length (encode_chunked cs z ts) <= k)%nat -> q = []).
Proof.
  intros Hcs Hz Hz0 Hts. revert k cursor decoded fuel.
  induction Hcs as [|[l p] cs (Hl & Hne & Hsz) _ IH]; intros k cursor decoded [|fuel] E Hf Hu;
    try lia; cbn [fst snd] in *.
  - exists [], []. split; [done|]. rewrite app_nil_r. split; [by apply chunk_loop_last | done].
  - cbn [chunk_loop]. set (r := encode_chunked cs z ts) in *.
    assert (encode_chunked ((l, p) :: cs) z ts = l ++ CRLF ++ p ++ CRLF ++ r) as Ee
      by (unfold r, encode_chunked, encode_chunk; cbn [map concat fst snd]; by rewrite <- !app_assoc).
    rewrite Ee in *. assert (0 < length p)%nat as Hp by (destruct p; [done | cbn; lia]).
    assert (Hlen : length (l ++ CRLF ++ p ++ CRLF ++ r) = (length l + 2 + (length p + 2 + length r))%nat)
      by (rewrite !length_app; cbn; lia).
    rewrite Hlen in *. rewrite (find_crlf_take _ _ _ _ _ E Hl).
    destruct (Nat.leb_spec (length l + 2) k) as [Hk|Hk].
    2:{ exists [], (concat (map snd ((l, p) :: cs))). split; [done|]. rewrite app_nil_r.
        split; [do 2 f_equal; symmetry; apply Nat.leb_gt; lia | lia]. }
    destruct (drop_take_line _ _ _ _ _ E Hk) as [E' El].
    replace (cursor + length l - cursor)%nat with (length l) by lia.
    rewrite El, Hsz. cbn [mbind result_bind]. cbv zeta.
    rewrite (proj2 (Z.eqb_neq _ _)) by lia. rewrite (proj2 (Z.ltb_ge _ _)) by lia.
    assert (Hb : (length b = cursor + Nat.min k (length l + 2 + (length p + 2 + length r)))%nat).
    { apply (f_equal length) in E. rewrite length_drop, length_take, Hlen in E. lia. }
    set (k' := (k - (length l + 2))%nat) in *.
    destruct (Z.ltb_spec (Z.of_nat (length b))
                (Z.of_nat (cursor + length l + 2) + Z.of_nat (length p))) as [Hs|Hs].
    { exists [], (concat (map snd ((l, p) :: cs))). split; [done|]. rewrite app_nil_r.
      split; [do 2 f_equal; symmetry; apply Nat.leb_gt; lia | lia]. }
    rewrite E', Nat2Z.id. rewrite take_take, Nat.min_l, take_app_length by lia.
    cbn [map concat snd].
    destruct (Nat.ltb_spec (length b) (cursor + length l + 2 + length p + 2)) as [Hc|Hc].
    { exists p, (concat (map snd cs)). split; [done|].
      split; [do 2 f_equal; symmetry; apply Nat.leb_gt; lia | lia]. }
    assert (E2 : drop (cursor + length l + 2 + length p) b = take (k' - length p) (CRLF ++ r)).
    { rewrite <- drop_drop, E', skipn_firstn_comm. by rewrite drop_app_length. }
    rewrite E2, take_take, Nat.min_l by lia.
    change (take 2 (CRLF ++ r)) with CRLF. rewrite bool_decide_eq_true_2 by done.
    assert (E3 : drop (cursor + length l + 2 + length p + 2) b = take (k' - length p - 2) r).
    { rewrite <- drop_drop, E2, skipn_firstn_comm. done. }
    destruct (IH _ _ (decoded ++ p) fuel E3) as (p' & q & Hpq & Hrun & Hfull).
    + rewrite E in Hf. rewrite E3. rewrite length_take, Hlen in Hf. rewrite length_take. lia.
    + lia.
    + exists (p ++ p'), q. rewrite Hpq, app_assoc. split; [done|]. rewrite Hrun, app_assoc.
      split; [|intros; apply Hfull; lia]. do 2 f_equal. apply eq_iff_eq_true. rewrite !Nat.leb_le. lia.
Qed.

(** ** Properties *)

(** A chunked body, cut off after any number of bytes, is never an error: the
    decoder returns a prefix of the payload, and reports it complete exactly
    when the last byte of the message is there, with the whole payload then.
    Size lines may be of any form the decoder reads, trailers included. *)
Theorem chunked_prefix cs z ts k :
  Forall chunk_ok cs -> line_ok z -> chunk_size z = Ok 0 ->
  Forall (fun l => line_ok l /\ l <> []) ts ->
  Z.of_nat (length (encode_chunked cs z ts)) <= u64_max ->
  exists p complete, decode_chunked (take k (encode_chunked cs z ts)) = Ok (p, complete)
  /\ p `prefix_of` concat (map snd cs)
  /\ (complete = true <-> (length (encode_chunked cs z ts) <= k)%nat)
  /\ (complete = true -> p = concat (map snd cs)).
Proof.
  intros Hcs Hz Hz0 Hts Hu. unfold decode_chunked. set (b := take k _).
  destruct (chunk_loop_take cs z ts k b 0 [] (S (length b)) Hcs Hz Hz0 Hts)
    as (p & q & Hpq & Hrun & Hfull); [by rewrite drop_0 | rewrite drop_0; lia | done |].
  exists p, (length (encode_chunked cs z ts) <=? k)%nat. split; [exact Hrun|].
  split; [by exists q|]. rewrite Nat.leb_le. split; [done|].
  intros Hk. rewrite Hpq, (Hfull Hk). by rewrite app_nil_r.
Qed.

Module Http1Fixture.
Definition chunks : list (bytes * bytes) :=
  [([x35], [x68; x65; x6c; x6c; x6f]); (as_bytes " 02;ext=1", [x0d; x0a])].

Lemma chunked_prefix_witness :
  decode_chunked (encode_chunked chunks [x30] [as_bytes "A: b"])
  = Ok ([x68; x65; x6c; x6c; x6f; x0d; x0a], true).
Proof.
  destruct (chunked_prefix chunks [x30] [as_bytes "A: b"]
              (length (encode_chunked chunks [x30] [as_bytes "A: b"])))
    as (p & c & E & _ & Hc & Hp).
  - repeat constructor; cbn; try done; unfold line_ok; by_decide.
  - unfold line_ok. by_decide.
  - by vm_compute.
  - repeat constructor; [unfold line_ok; by_decide | done].
  - by vm_compute.
  - rewrite firstn_all in E. rewrite E. destruct Hc as [_ Hc]. specialize (Hc (le_n _)).
    rewrite (Hp Hc), Hc. reflexivity.
Defined.
End Http1Fixture.

(** A concrete [http] crate for the witnesses. *)
Module HttpFixture.
#[export] Instance http_fixture : HttpApi := {|
  Method := string; method_parse s := Some s;
  Uri := string; uri_parse s := Some s;
  StatusCode := Z; status_from_u16 z := Some z; as_u16 z := z;
  is_success z := (200 <=? z) && (z <? 300);
  HeaderName := string; header_name_from_bytes := from_utf8;
  HeaderValue := bytes; header_value_from_bytes b := Some b;
  to_str := from_utf8;
  HeaderMap := list (string * bytes); header_map_new := [];
  header_map_append m n v := m ++ [(n, v)];
  header_map_get m n := snd <$> List.find (fun p => bool_decide (p.1 = n)) m;
  header_map_iter m := m |}.
End HttpFixture.
