(* ===== verification/Json.v ===== *)
(** * JSON values

    The [serde_json] crate as a parameter: its [Value], the accessors the code
    calls on it, and parsing and printing. *)
From Stdlib Require Import ZArith Strings.String.
From S2P Require Import Prelude RustStr.

Class JsonApi := {
  Value : Type;
  (** [serde_json::from_slice], [from_str]; an error is its message. *)
  from_slice : bytes -> result string Value;
  from_str : string -> result string Value;
  (** [Value::get] with a string key: [None] unless an object with the key *)
  json_get : Value -> string -> option Value;
  as_str : Value -> option string;
  as_bool : Value -> option bool;
  as_u64 : Value -> option Z;
  as_array : Value -> option (list Value);
  is_object : Value -> bool;
  (** [Display] *)
  value_to_string : Value -> string }.

(** The variants of the crate's [enum Value], an object's entries in the order its
    [Map] iterates; [to_vec] of a vector of values. *)
Inductive JsonView : Type :=
| Json_Null
| Json_Bool (b : bool)
| Json_Number (text : string)
| Json_String (s : string)
| Json_Array (items : list JsonView)
| Json_Object (entries : list (string * JsonView)).
Class JsonViewApi `{JsonApi} := {
  view : Value -> JsonView;
  values_to_vec : list Value -> bytes }.

Section json.
Context `{JsonApi}.
(** [json.get(a).and_then(Value::as_str)]. *)
Definition get_str (v : Value) (k : string) : option string := json_get v k ≫= as_str.
(** [unwrap_or_default] on an optional string. *)
Definition str_or_default (o : option string) : string := unwrap_or ""%string o.
End json.
