(* ===== verification/Responses.v ===== *)
(** * Turn metadata and response events

    [src/crates/capture/src/metadata.rs] and [src/crates/capture/src/responses.rs]:
    what an HTTP exchange says about a task.  [Uuid::now_v7()] is an argument. *)
From Stdlib Require Import ZArith Lia Strings.Byte Strings.String.
From S2P Require Import Prelude RustStr Types Json Http1 Sse.
Local Open Scope string_scope.
Local Open Scope list_scope.
Local Open Scope Z_scope.

(* src: src/crates/capture/src/metadata.rs:6-13 MetadataError *)
Inductive MetadataError : Type :=
| Metadata_Missing
| Metadata_InvalidJson (message : string)
| Metadata_MissingField (field : string).

(* src: src/crates/capture/src/metadata.rs:16-23 DecodedTurnMetadata *)
Record DecodedTurnMetadata : Type := mkTurnMetadata {
  tm_session_id : string;
  tm_thread_id : string;
  tm_turn_id : string;
  tm_request_kind : string;
  tm_parent_turn_id : option string;
  tm_root_turn_id : option string }.

(* src: src/crates/capture/src/metadata.rs:25-30 DecodedTurnMetadata::task_ref *)
Definition metadata_task_ref (m : DecodedTurnMetadata) : string :=
  tm_session_id m +:+ ":" +:+ tm_thread_id m +:+ ":" +:+ tm_turn_id m.

(* src: src/crates/capture/src/responses.rs:28-35 DecodedError *)
Record DecodedError : Type := mkDecodedError {
  de_wire_type : option string;
  de_code : option string;
  de_message : option string;
  de_param : option string;
  de_reason : option string;
  de_http_status : option Z }.

(* src: src/crates/capture/src/responses.rs:38-75 DecodedEvent *)
Inductive DecodedEvent : Type :=
| DecodedEvent_TaskObserved (model : option string)
| DecodedEvent_AttemptStarted (attempt_id : Uuid) (model : option string)
| DecodedEvent_ToolCall (attempt_id : Uuid) (tool_name : string)
| DecodedEvent_AttemptCompleted (attempt_id : Uuid) (response_id : option string)
    (end_turn : bool) (usage : UsageSummary)
| DecodedEvent_AttemptFailed (attempt_id : Uuid) (response_id : option string) (error : DecodedError)
| DecodedEvent_AttemptIncomplete (attempt_id : Uuid) (response_id : option string)
    (error : DecodedError)
| DecodedEvent_AttemptCancelled (attempt_id : Uuid) (response_id : option string)
    (error : DecodedError)
| DecodedEvent_HttpError (attempt_id : option Uuid) (error : DecodedError).

(* src: src/crates/capture/src/responses.rs:78-89 CaptureError *)
Inductive CaptureError : Type :=
| Capture_Http (e : HttpParseError)
| Capture_Metadata (e : MetadataError)
| Capture_InvalidRequestJson (message : string)
| Capture_InvalidResponseJson (message : string)
| Capture_Sse (e : SseError).

(* src: src/crates/capture/src/responses.rs:284-299 is_tool_call_type *)
Definition is_tool_call_type (item_type : string) : bool :=
  bool_decide (item_type ∈
    ["function_call"; "tool_search_call"; "custom_tool_call"; "local_shell_call";
     "computer_call"; "shell_call"; "code_interpreter_call"; "file_search_call";
     "web_search_call"; "image_generation_call"; "mcp_call"]).

Section responses.
Context `{HttparseApi} `{HttpApi} `{DecompressApi} `{JsonApi}.

(* src: src/crates/capture/src/responses.rs:14-26 DecodedAttempt *)
Record DecodedAttempt : Type := mkDecodedAttempt {
  da_attempt_id : Uuid;
  da_task_ref : string;
  da_identity : TaskIdentity;
  da_codex : CodexTaskMetadata;
  da_model : option string;
  da_request_complete : bool;
  da_response_complete : bool;
  da_request_json : Value;
  da_response_json_events : list Value;
  da_decoded_events : list DecodedEvent;
  da_request_at_ms : Z }.

(* src: src/crates/capture/src/metadata.rs:64-69 require_string *)
Definition require_string (json : Value) (field : string) : result MetadataError string :=
  ok_or (Metadata_MissingField field) (get_str json field).

(* src: src/crates/capture/src/metadata.rs:71-73 optional_string *)
Definition optional_string (json : Value) (field : string) : option string := get_str json field.

(** The payload: the header when it is text, else the body's client metadata, a
    JSON string or an object printed back. *)
(* src: src/crates/capture/src/metadata.rs:36-51 extract_turn_metadata *)
Definition metadata_payload (headers : HeaderMap) (request_json : Value) : option string :=
  let header_payload := header_map_get headers "x-codex-turn-metadata" ≫= to_str in
  let body_payload :=
    v ← json_get request_json "client_metadata" ≫= (fun v => json_get v "x-codex-turn-metadata");
    match as_str v with
    | Some text => Some text
    | None => if is_object v then Some (value_to_string v) else None
    end in
  opt_or header_payload body_payload.

(* src: src/crates/capture/src/metadata.rs:32-62 extract_turn_metadata *)
Definition extract_turn_metadata (headers : HeaderMap) (request_json : Value)
    : result MetadataError DecodedTurnMetadata :=
  payload ← ok_or Metadata_Missing (metadata_payload headers request_json);
  json ← map_err Metadata_InvalidJson (from_str payload);
  session_id ← require_string json "session_id";
  thread_id ← require_string json "thread_id";
  turn_id ← require_string json "turn_id";
  request_kind ← require_string json "request_kind";
  mret (mkTurnMetadata session_id thread_id turn_id request_kind
          (optional_string json "parent_turn_id") (optional_string json "root_turn_id")).

(* src: src/crates/capture/src/responses.rs:332-339 task_identity *)
Definition task_identity (m : DecodedTurnMetadata) : TaskIdentity :=
  mkTaskIdentity "codex" (tm_session_id m) (tm_thread_id m) (tm_turn_id m).
(* src: src/crates/capture/src/responses.rs:341-347 codex_metadata *)
Definition codex_metadata (m : DecodedTurnMetadata) : CodexTaskMetadata :=
  mkCodexTaskMetadata (tm_request_kind m) (tm_parent_turn_id m) (tm_root_turn_id m).

(* src: src/crates/capture/src/responses.rs:216-221 response_id *)
Definition response_id (json : Value) : option string :=
  json_get json "response" ≫= (fun r => get_str r "id").

(* src: src/crates/capture/src/responses.rs:223-246 parse_usage *)
Definition parse_usage (response : Value) : option UsageSummary :=
  usage ← json_get response "usage";
  let u64 k := unwrap_or 0 (json_get usage k ≫= as_u64) in
  let u64_or k k' := unwrap_or 0 (opt_or (json_get usage k) (json_get usage k') ≫= as_u64) in
  Some (mkUsageSummary (u64_or "input_tokens" "prompt_tokens")
          (u64_or "output_tokens" "completion_tokens")
          (unwrap_or 0 ((json_get usage "output_tokens_details"
                         ≫= (fun v => json_get v "reasoning_tokens")) ≫= as_u64))
          (u64 "total_tokens")).

(* src: src/crates/capture/src/responses.rs:248-282 parse_error *)
Definition parse_error (json : Value) : DecodedError :=
  let response := json_get json "response" in
  let error := opt_or (response ≫= (fun r => json_get r "error")) (json_get json "error") in
  mkDecodedError
    (opt_or (error ≫= (fun v => get_str v "type")) (get_str json "type"))
    (error ≫= (fun v => get_str v "code"))
    (opt_or (error ≫= (fun v => json_get v "message")) (json_get json "message") ≫= as_str)
    (error ≫= (fun v => get_str v "param"))
    ((response ≫= (fun v => json_get v "incomplete_details")) ≫= (fun v => get_str v "reason"))
    None.

(* src: src/crates/capture/src/responses.rs:301-330 parse_http_error *)
Definition parse_http_error (body : bytes) (status : Z) : DecodedError :=
  let message := Some (from_utf8_lossy body) in
  match from_slice body with
  | Err _ => mkDecodedError None None message None None (Some status)
  | Ok json =>
    let object := unwrap_or json (json_get json "error") in
    mkDecodedError (get_str object "type") (get_str object "code")
      (opt_or (get_str object "message") message) (get_str object "param") None (Some status)
  end.

(** What one event adds to [decoded_events]. *)
(* src: src/crates/capture/src/responses.rs:146-214 map_responses_event *)
Definition map_responses_event (json : Value) (attempt_id : Uuid) : list DecodedEvent :=
  let kind := str_or_default (get_str json "type") in
  if bool_decide (kind ∈ ["response.output_item.added"; "response.output_item.done"]) then
    match json_get json "item" with
    | None => []
    | Some item =>
      let item_type := str_or_default (get_str item "type") in
      if is_tool_call_type item_type
      then [DecodedEvent_ToolCall attempt_id (unwrap_or item_type (get_str item "name"))]
      else []
    end
  else if bool_decide (kind = "error") then
    [DecodedEvent_AttemptFailed attempt_id None (parse_error json)]
  else if bool_decide (kind = "response.completed") then
    let response := json_get json "response" in
    let response_id := response ≫= (fun v => get_str v "id") in
    let end_turn := unwrap_or true ((response ≫= (fun v => json_get v "end_turn")) ≫= as_bool) in
    let usage := response ≫= parse_usage in
    [DecodedEvent_AttemptCompleted attempt_id response_id end_turn
       (unwrap_or UsageSummary_default usage)]
  else if bool_decide (kind = "response.failed") then
    [DecodedEvent_AttemptFailed attempt_id (response_id json) (parse_error json)]
  else if bool_decide (kind = "response.incomplete") then
    [DecodedEvent_AttemptIncomplete attempt_id (response_id json) (parse_error json)]
  else if bool_decide (kind = "response.cancelled") then
    [DecodedEvent_AttemptCancelled attempt_id (response_id json) (parse_error json)]
  else [].

(** The loop over the events of a successful response. *)
(* src: src/crates/capture/src/responses.rs:121-128 decode_http_exchange *)
Fixpoint map_events (attempt_id : Uuid) (events : list SseEvent)
    : result CaptureError (list DecodedEvent * list Value) :=
  match events with
  | [] => Ok ([], [])
  | event :: events' =>
    json ← map_err Capture_InvalidResponseJson (from_str (se_data event));
    '(decoded, jsons) ← map_events attempt_id events';
    mret (map_responses_event json attempt_id ++ decoded, json :: jsons)
  end.

(* src: src/crates/capture/src/responses.rs:91-144 decode_http_exchange *)
Definition decode_http_exchange (attempt_id : Uuid) (request_bytes response_bytes : bytes)
    (request_at_ms : Z) : result CaptureError DecodedAttempt :=
  request ← map_err Capture_Http (parse_http_request request_bytes);
  response ← map_err Capture_Http (parse_http_response response_bytes);
  request_json ← map_err Capture_InvalidRequestJson (from_slice (hb_decoded (hm_body request)));
  turn_metadata ← map_err Capture_Metadata (extract_turn_metadata (hm_headers request) request_json);
  let model := get_str request_json "model" in
  let head := [DecodedEvent_TaskObserved model; DecodedEvent_AttemptStarted attempt_id model] in
  '(decoded, jsons) ←
    (if is_some_and (fun status => negb (is_success status)) (hm_status response) then
       let error := parse_http_error (hb_decoded (hm_body response))
                      (unwrap_or 0 (as_u16 <$> hm_status response)) in
       Ok ([DecodedEvent_HttpError (Some attempt_id) error], [])
     else
       events ← map_err Capture_Sse (parse_sse_events (hb_decoded (hm_body response)));
       map_events attempt_id events);
  mret (mkDecodedAttempt attempt_id (metadata_task_ref turn_metadata) (task_identity turn_metadata)
          (codex_metadata turn_metadata) model (hb_complete (hm_body request))
          (hb_complete (hm_body response)) request_json jsons (head ++ decoded) request_at_ms).
End responses.

(** ** Properties *)
Section responses_theorems.
Context `{HttparseApi} `{HttpApi} `{DecompressApi} `{JsonApi}.

Definition event_attempt (e : DecodedEvent) : option Uuid :=
  match e with
  | DecodedEvent_TaskObserved _ => None
  | DecodedEvent_AttemptStarted a _ | DecodedEvent_ToolCall a _
  | DecodedEvent_AttemptCompleted a _ _ _ | DecodedEvent_AttemptFailed a _ _
  | DecodedEvent_AttemptIncomplete a _ _ | DecodedEvent_AttemptCancelled a _ _ => Some a
  | DecodedEvent_HttpError a _ => a
  end.

Lemma map_events_Ok a events decoded jsons :
  map_events a events = Ok (decoded, jsons) ->
  decoded = concat (map (fun j => map_responses_event j a) jsons)
  /\ Forall2 (fun e j => from_str (se_data e) = Ok j) events jsons.
Proof.
  revert decoded jsons. induction events as [|e events IH]; intros decoded jsons; cbn.
  - intros [= <- <-]. split; [done | constructor].
  - intros E. apply bind_Ok in E as (j & Hj%map_err_Ok & E).
    apply bind_Ok in E as ([d js] & Hd & E). injection E as <- <-.
    destruct (IH _ _ Hd) as [-> ?]. split; [done | by constructor].
Qed.

Lemma map_responses_event_attempt j a e :
  e ∈ map_responses_event j a -> event_attempt e = Some a.
Proof.
  unfold map_responses_event. repeat case_match; rewrite ?elem_of_nil, ?list_elem_of_singleton;
    try done; by intros ->.
Qed.
Lemma map_responses_event_completed j a rid et u :
  DecodedEvent_AttemptCompleted a rid et u ∈ map_responses_event j a ->
  get_str j "type" = Some "response.completed"
  /\ rid = response_id j
  /\ u = unwrap_or UsageSummary_default (json_get j "response" ≫= parse_usage).
Proof.
  unfold map_responses_event. destruct (get_str j "type") as [k|] eqn:Ek; cbn [str_or_default unwrap_or].
  - repeat case_match; rewrite ?elem_of_nil, ?list_elem_of_singleton; try done.
    intros [= -> -> ->]. case_bool_decide; [by subst | done].
  - cbn. by rewrite elem_of_nil.
Qed.

(** What a decoded exchange may claim: its task is that of the turn metadata;
    its events begin with the observation and the start of this attempt; a
    response whose status is not a success contributes one HTTP error and
    nothing else; any other contributes exactly what its events map to, in
    order, so that a completed attempt is claimed only for a
    [response.completed] event of the response, with that event's id and
    usage; and every event is about this attempt. *)
Theorem exchange_evidence attempt_id req resp at_ms a :
  decode_http_exchange attempt_id req resp at_ms = Ok a ->
  da_task_ref a = task_ref (da_identity a)
  /\ exists rest response,
       parse_http_response resp = Ok response
       /\ da_decoded_events a = DecodedEvent_TaskObserved (da_model a)
            :: DecodedEvent_AttemptStarted attempt_id (da_model a) :: rest
       /\ (if is_some_and (fun s => negb (is_success s)) (hm_status response)
           then exists err, rest = [DecodedEvent_HttpError (Some attempt_id) err]
           else rest = concat (map (fun j => map_responses_event j attempt_id)
                                 (da_response_json_events a)))
       /\ (forall rid et u, DecodedEvent_AttemptCompleted attempt_id rid et u ∈ rest ->
             exists j, j ∈ da_response_json_events a
             /\ get_str j "type" = Some "response.completed" /\ rid = response_id j
             /\ u = unwrap_or UsageSummary_default (json_get j "response" ≫= parse_usage))
       /\ (forall e, e ∈ rest -> event_attempt e = Some attempt_id).
Proof.
  unfold decode_http_exchange. intros E.
  apply bind_Ok in E as (request & _ & E). apply bind_Ok in E as (response & Hr%map_err_Ok & E).
  apply bind_Ok in E as (rj & _ & E). apply bind_Ok in E as (tm & _ & E).
  apply bind_Ok in E as ([decoded jsons] & Hd & E). injection E as <-. cbn.
  split; [done|]. exists decoded, response. split; [done|]. split; [done|].
  destruct (is_some_and _ (hm_status response)).
  - injection Hd as <- <-. split; [eauto|]. split.
    + intros rid et u Hin. by apply list_elem_of_singleton in Hin.
    + intros e ->%list_elem_of_singleton. done.
  - apply bind_Ok in Hd as (events & _ & Hd). apply map_events_Ok in Hd as [-> _].
    split; [done|]. split.
    + intros rid et u Hin. apply elem_concat_map in Hin as (j & Hj & Hin). exists j. split; [done|].
      by apply map_responses_event_completed in Hin.
    + intros e Hin. apply elem_concat_map in Hin as (j & Hj & Hin). by apply map_responses_event_attempt in Hin.
Qed.
End responses_theorems.

(** ** A concrete exchange *)
Module ResponsesFixture.
Inductive json : Type :=
| JBool (b : bool)
| JNum (z : Z)
| JStr (s : string)
| JObj (fields : list (string * json)).
Definition field (fields : list (string * json)) (k : string) : option json :=
  snd <$> List.find (fun p => bool_decide (p.1 = k)) fields.
Definition metadata : json :=
  JObj [("session_id", JStr "s"); ("thread_id", JStr "t"); ("turn_id", JStr "u"); ("request_kind", JStr "turn")].
Definition completed : json :=
  JObj [("type", JStr "response.completed");
        ("response", JObj [("id", JStr "r1"); ("usage", JObj [("input_tokens", JNum 3)])])].
(** The documents the parser knows. *)
Definition documents : list (string * json) :=
  [("META", metadata); ("REQ", JObj [("model", JStr "m")]); ("DONE", completed)].
Definition parse (s : string) : result string json := ok_or "expected value" (field documents s).
Import HttpFixture.
#[local] Instance json_fixture : JsonApi := {|
  Value := json;
  from_slice b := parse (of_bytes b);
  from_str := parse;
  json_get v k := match v with JObj f => field f k | _ => None end;
  as_str v := match v with JStr s => Some s | _ => None end;
  as_bool v := match v with JBool b => Some b | _ => None end;
  as_u64 v := match v with JNum z => Some z | _ => None end;
  as_array _ := None;
  is_object v := match v with JObj _ => true | _ => false end;
  value_to_string _ := "" |}.
(** Heads of no bytes, headers fixed: the whole input is the body. *)
#[local] Instance httparse_fixture : HttparseApi := {|
  request_parse _ := Some (Complete 0, mkHpRequest (Some "POST") (Some "/") (Some 1)
                       [("x-codex-turn-metadata", as_bytes "META")]);
  response_parse _ := Some (Complete 0, mkHpResponse (Some 200) (Some 1) []) |}.
#[local] Instance decompress_fixture : DecompressApi := {|
  gzip_decode b := Ok b; brotli_decode b := Ok b; zstd_decode_all b := Ok b |}.

Lemma exchange_evidence_witness : exists a,
  decode_http_exchange 9%N (as_bytes "REQ") (ws_event_stream ["DONE"]) 5 = Ok a
  /\ da_task_ref a = task_ref (da_identity a)
  /\ exists rest, da_decoded_events a
     = DecodedEvent_TaskObserved (da_model a) :: DecodedEvent_AttemptStarted 9%N (da_model a) :: rest.
Proof.
  assert (Hok : is_ok (decode_http_exchange 9%N (as_bytes "REQ") (ws_event_stream ["DONE"]) 5) = true)
    by (vm_compute; reflexivity).
  destruct (decode_http_exchange 9%N (as_bytes "REQ") (ws_event_stream ["DONE"]) 5) as [a|] eqn:E;
    [|discriminate Hok].
  destruct (exchange_evidence _ _ _ _ _ E) as (Href & rest & response & _ & Hev & _).
  exists a. split; [reflexivity|]. split; [exact Href|]. exists rest. exact Hev.
Defined.
End ResponsesFixture.
