(* ===== verification/Table.v ===== *)
(** * SQL tables

    A table is the list of its rows in rowid order.  The statements the
    program issues are the functions below: [INSERT] under a unique key, with
    and without [ON CONFLICT ... DO UPDATE], [UPDATE], [DELETE], [SELECT]
    with [ORDER BY] and [LIMIT].  A key is a function of the row; a conflict
    without [ON CONFLICT] is an error.  Ties of an [ORDER BY] keep the rowid
    order. *)
From Stdlib Require Import ZArith Lia Sorting.Sorted Strings.Byte Strings.String.
From stdpp Require Import sorting.
From S2P Require Import Prelude RustStr.

Section table.
Context {R K : Type} `{EqDecision K}.
Variable key : R -> K.

(** [SELECT ... WHERE p], [... WHERE key = k] (at most one row). *)
Definition select (p : R -> bool) (t : list R) : list R := List.filter p t.
Definition find_key (k : K) (t : list R) : option R :=
  List.find (fun r => bool_decide (key r = k)) t.

(** [INSERT]: [None] when the key is taken. *)
Definition insert_new (r : R) (t : list R) : option (list R) :=
  match find_key (key r) t with
  | Some _ => None
  | None => Some (t ++ [r])
  end.
(** [INSERT ... ON CONFLICT(key) DO UPDATE SET ...]: [merge old] is the row
    that replaces [old]. *)
Fixpoint upsert (r : R) (merge : R -> R) (t : list R) : list R :=
  match t with
  | [] => [r]
  | old :: t' =>
    if bool_decide (key old = key r) then merge old :: t' else old :: upsert r merge t'
  end.
Definition update_where (p : R -> bool) (f : R -> R) (t : list R) : list R :=
  map (fun r => if p r then f r else r) t.
Definition delete_where (p : R -> bool) (t : list R) : list R :=
  List.filter (fun r => negb (p r)) t.

(** The primary key constraint. *)
Definition keyed (t : list R) : Prop := NoDup (map key t).

Lemma find_key_Some k t r : find_key k t = Some r -> r ∈ t /\ key r = k.
Proof.
  intros H. apply find_some in H as [Hin Hk]. apply bool_decide_eq_true in Hk.
  by rewrite list_elem_of_In.
Qed.
Lemma find_key_None k t : find_key k t = None <-> k ∉ map key t.
Proof.
  unfold find_key. induction t as [|r t IH]; cbn; [set_solver|].
  case_bool_decide as Hk; [|rewrite IH]; set_solver.
Qed.
Lemma find_key_elem t r : keyed t -> r ∈ t -> find_key (key r) t = Some r.
Proof.
  unfold keyed, find_key. induction t as [|r' t IH]; cbn; [set_solver|].
  rewrite NoDup_cons. intros [Hn Ht] [->|Hin]%elem_of_cons; [by rewrite bool_decide_eq_true_2|].
  rewrite bool_decide_eq_false_2; [by apply IH|]. intros E. apply Hn.
  rewrite E. apply list_elem_of_fmap. eauto.
Qed.

Lemma insert_new_keyed r t t' : keyed t -> insert_new r t = Some t' -> keyed t'.
Proof.
  unfold keyed, insert_new. intros Ht. destruct (find_key (key r) t) eqn:E; [done|].
  intros [= <-]. apply find_key_None in E. rewrite map_app. cbn.
  apply NoDup_app. split; [done|]. split; [set_solver | apply NoDup_singleton].
Qed.

Lemma upsert_keys r merge t :
  (forall old, key old = key r -> key (merge old) = key r) ->
  map key (upsert r merge t) = if bool_decide (key r ∈ map key t) then map key t
                               else map key t ++ [key r].
Proof.
  intros Hm. induction t as [|old t IH]; [done|]. cbn [upsert map].
  destruct (decide (key old = key r)) as [Hk|Hk].
  - rewrite (bool_decide_eq_true_2 _ Hk). cbn [map]. rewrite (Hm _ Hk), <- Hk.
    by rewrite bool_decide_eq_true_2 by set_solver.
  - rewrite (bool_decide_eq_false_2 _ Hk). cbn [map]. rewrite IH.
    destruct (decide (key r ∈ map key t)).
    + by rewrite !bool_decide_eq_true_2 by set_solver.
    + by rewrite !bool_decide_eq_false_2 by set_solver.
Qed.
Lemma upsert_keyed r merge t :
  (forall old, key old = key r -> key (merge old) = key r) -> keyed t -> keyed (upsert r merge t).
Proof.
  unfold keyed. intros Hm Ht. rewrite upsert_keys by done.
  case_bool_decide as Hk; [done|]. apply NoDup_app.
  split; [done|]. split; [set_solver | apply NoDup_singleton].
Qed.
Lemma upsert_elem r merge t x :
  x ∈ upsert r merge t -> x ∈ t \/ x = r \/ exists old, old ∈ t /\ key old = key r /\ x = merge old.
Proof.
  induction t as [|old t IH]; cbn; [set_solver|].
  case_bool_decide as Hk; rewrite !elem_of_cons.
  - intros [->|?]; [right; right; exists old; set_solver | set_solver].
  - intros [->|[?|[?|(o & ? & ? & ?)]]%IH]; [set_solver..|]. right; right. exists o. set_solver.
Qed.
Lemma update_find p f t k : (forall r, key (f r) = key r) ->
  find_key k (update_where p f t) = (fun r => if p r then f r else r) <$> find_key k t.
Proof.
  intros Hf. unfold find_key, update_where. induction t as [|r t IH]; cbn; [done|].
  assert (key (if p r then f r else r) = key r) as -> by by destruct (p r).
  by case_bool_decide.
Qed.
(** The row under the inserted key, and every other row. *)
Lemma upsert_find r merge t :
  (forall old, key old = key r -> key (merge old) = key r) ->
  find_key (key r) (upsert r merge t)
  = Some (match find_key (key r) t with Some old => merge old | None => r end).
Proof.
  intros Hm. unfold find_key. induction t as [|old t IH]; cbn.
  - by rewrite bool_decide_eq_true_2.
  - case_bool_decide as Hk; cbn.
    + by rewrite (Hm _ Hk), bool_decide_eq_true_2.
    + by rewrite bool_decide_eq_false_2.
Qed.
Lemma upsert_find_ne r merge t k :
  (forall old, key old = key r -> key (merge old) = key r) -> k <> key r ->
  find_key k (upsert r merge t) = find_key k t.
Proof.
  intros Hm Hne. unfold find_key. induction t as [|old t IH]; cbn.
  - by rewrite bool_decide_eq_false_2.
  - case_bool_decide as Hk; cbn.
    + rewrite (Hm _ Hk), Hk, !bool_decide_eq_false_2 by congruence. done.
    + by rewrite IH.
Qed.

Lemma delete_where_keyed p t : keyed t -> keyed (delete_where p t).
Proof.
  unfold keyed, delete_where. induction t as [|r t IH]; cbn; [done|].
  rewrite NoDup_cons. intros [Hn Ht]. destruct (negb (p r)); cbn; [|by apply IH].
  apply NoDup_cons. split; [|by apply IH]. contradict Hn.
  apply list_elem_of_fmap in Hn as (x & -> & Hx). apply list_elem_of_fmap. exists x.
  split; [done|]. rewrite list_elem_of_In in *. by apply filter_In in Hx as [? _].
Qed.
Lemma select_keyed p t : keyed t -> keyed (select p t).
Proof.
  intros Hk. replace (select p t) with (delete_where (fun r => negb (p r)) t).
  - by apply delete_where_keyed.
  - unfold delete_where, select. apply filter_ext. intros r. apply negb_involutive.
Qed.
Lemma delete_where_absorb p q t :
  (forall r, q r = true -> p r = true) -> delete_where p (delete_where q t) = delete_where p t.
Proof.
  intros Hqp. unfold delete_where. induction t as [|r t IH]; cbn; [done|].
  destruct (q r) eqn:Eq; cbn; rewrite ?IH; [by rewrite (Hqp _ Eq) | done].
Qed.
Lemma delete_where_elem p t x : x ∈ delete_where p t <-> x ∈ t /\ p x = false.
Proof. unfold delete_where. rewrite !list_elem_of_In, filter_In, negb_true_iff. done. Qed.
Lemma select_elem p t x : x ∈ select p t <-> x ∈ t /\ p x = true.
Proof. unfold select. by rewrite !list_elem_of_In, filter_In. Qed.
Lemma delete_where_length p t :
  (length (delete_where p t) + length (select p t) = length t)%nat.
Proof. unfold delete_where, select. induction t as [|r t IH]; cbn; [done|]. destruct (p r); cbn; lia. Qed.
Lemma update_where_keyed p f t : (forall r, key (f r) = key r) -> keyed t -> keyed (update_where p f t).
Proof.
  unfold keyed, update_where. intros Hf Ht. rewrite map_map.
  replace (map (fun x => key (if p x then f x else x)) t) with (map key t); [done|].
  apply map_ext. intros r. destruct (p r); by rewrite ?Hf.
Qed.

(** [INSERT ... ON CONFLICT DO UPDATE] of every column, row after row: the last
    row under a key wins. *)
Definition put (r : R) (t : list R) : list R := upsert r (fun _ => r) t.
Definition puts (rs t : list R) : list R := fold_left (fun t r => put r t) rs t.
Lemma puts_app rs rs' t : puts (rs ++ rs') t = puts rs' (puts rs t).
Proof. apply fold_left_app. Qed.
Lemma puts_find rs t k :
  find_key k (puts rs t) = opt_or (find_key k (rev rs)) (find_key k t).
Proof.
  induction rs as [|r rs IH] using rev_ind; [done|].
  rewrite puts_app, rev_app_distr. cbn [puts fold_left rev app]. unfold put.
  destruct (decide (k = key r)) as [->|Hne].
  - rewrite upsert_find by done. cbn. rewrite bool_decide_eq_true_2 by done. cbn.
    by destruct (find_key _ _).
  - rewrite upsert_find_ne by done. rewrite IH. cbn. by rewrite bool_decide_eq_false_2.
Qed.
Lemma insert_new_puts rs t :
  keyed (t ++ rs) -> puts rs t = t ++ rs.
Proof.
  revert t. induction rs as [|r rs IH]; intros t Hk; [by rewrite app_nil_r|].
  cbn [puts fold_left]. fold (puts rs (put r t)).
  replace (put r t) with (t ++ [r]).
  - rewrite IH; rewrite <- app_assoc; done.
  - assert (Hn : key r ∉ map key t).
    { unfold keyed in Hk. rewrite map_app in Hk. apply NoDup_app in Hk as (_ & Hd & _).
      intros Hin. apply (Hd _ Hin). cbn. set_solver. }
    clear Hk IH. unfold put. induction t as [|x t IHt]; cbn; [done|].
    rewrite bool_decide_eq_false_2 by set_solver. rewrite <- IHt by set_solver. done.
Qed.
End table.

#[export] Instance select_proper {R} (p : R -> bool) : Proper (Permutation ==> Permutation) (select p).
Proof.
  intros t t' Ht. unfold select. induction Ht as [|r t t' _ IH|r r' t|t1 t2 t3 _ IH1 _ IH2]; cbn.
  - done.
  - destruct (p r); by rewrite IH.
  - destruct (p r), (p r'); try done. apply Permutation_swap.
  - by rewrite IH1.
Qed.
#[export] Instance delete_where_proper {R} (p : R -> bool) : Proper (Permutation ==> Permutation) (delete_where p).
Proof. apply select_proper. Qed.
Lemma delete_where_perm {R} (p : R -> bool) t : t ≡ₚ select p t ++ delete_where p t.
Proof.
  unfold select, delete_where. induction t as [|r t IH]; cbn; [done|].
  destruct (p r); cbn; [by rewrite <- IH|]. by rewrite <- Permutation_middle, <- IH.
Qed.
Lemma select_cons {R} (p : R -> bool) r t :
  select p (r :: t) = if p r then r :: select p t else select p t.
Proof. done. Qed.
Lemma select_app {R} (p : R -> bool) l k : select p (l ++ k) = select p l ++ select p k.
Proof. apply List.filter_app. Qed.
Lemma delete_where_select {R} (p q : R -> bool) t :
  (forall r, negb (p r) = q r) -> delete_where p t = select q t.
Proof. intros E. unfold delete_where, select. by apply filter_ext. Qed.
Lemma select_true {R} (t : list R) : select (fun _ => true) t = t.
Proof. unfold select. induction t; cbn; by f_equal. Qed.
Lemma select_select {R} (p q : R -> bool) t :
  (forall r, p r = true -> q r = true) -> select q (select p t) = select p t.
Proof.
  intros Hi. unfold select. induction t as [|r t IH]; cbn; [done|].
  destruct (p r) eqn:E; cbn; [|done]. by rewrite (Hi _ E), IH.
Qed.
Lemma select_delete_comm {R} (p q : R -> bool) t :
  select p (delete_where q t) = delete_where q (select p t).
Proof.
  unfold select, delete_where. induction t as [|r t IH]; cbn; [done|].
  destruct (q r) eqn:Eq, (p r) eqn:Ep; cbn; rewrite ?Eq, ?Ep; cbn; by rewrite IH.
Qed.
Lemma select_key_singleton {R K} `{EqDecision K} (key : R -> K) (p : R -> bool) t r :
  keyed key t -> r ∈ t -> (forall x, p x = true <-> key x = key r) -> select p t = [r].
Proof.
  unfold keyed, select. intros Hk Hr Hp. induction t as [|x t IH]; [set_solver|].
  cbn in *. apply NoDup_cons in Hk as [Hn Hk]. apply elem_of_cons in Hr as [<-|Hr].
  - rewrite (proj2 (Hp r)) by done. f_equal.
    assert (Hall : forall y, y ∈ t -> p y = false).
    { intros y Hy. apply not_true_iff_false. rewrite Hp. intros Hkey. apply Hn.
      rewrite <- Hkey. by apply list_elem_of_fmap_2. }
    clear -Hall. induction t as [|y t IH]; cbn; [done|].
    rewrite Hall by set_solver. apply IH. set_solver.
  - replace (p x) with false; [by apply IH|]. symmetry. apply not_true_iff_false. rewrite Hp.
    intros Hkey. apply Hn. rewrite Hkey. by apply list_elem_of_fmap_2.
Qed.

(** [ORDER BY]: a stable insertion sort. *)
Section order.
Context {R : Type} (le : R -> R -> bool).
Fixpoint insert_sorted (r : R) (t : list R) : list R :=
  match t with
  | [] => [r]
  | x :: t' => if le r x then r :: t else x :: insert_sorted r t'
  end.
Definition order_by (t : list R) : list R := fold_right insert_sorted [] t.

Lemma insert_sorted_perm r t : insert_sorted r t ≡ₚ r :: t.
Proof.
  induction t as [|x t IH]; cbn; [done|]. destruct (le r x); [done|].
  rewrite IH. apply Permutation_swap.
Qed.
Lemma order_by_perm t : order_by t ≡ₚ t.
Proof. induction t as [|x t IH]; cbn; [done|]. by rewrite insert_sorted_perm, IH. Qed.

Context (le_total : forall a b, le a b = false -> le b a = true)
  (le_trans : forall a b c, le a b = true -> le b c = true -> le a c = true).
Lemma insert_sorted_sorted r t :
  StronglySorted (fun a b => le a b = true) t ->
  StronglySorted (fun a b => le a b = true) (insert_sorted r t).
Proof.
  induction 1 as [|x t Ht IH Hx]; cbn; [repeat constructor|].
  destruct (le r x) eqn:E.
  - constructor; [by constructor|]. constructor; [done|].
    eapply Forall_impl; [done|]. cbn. eauto.
  - constructor; [done|]. rewrite insert_sorted_perm. constructor; [by apply le_total | done].
Qed.
Lemma order_by_sorted t : StronglySorted (fun a b => le a b = true) (order_by t).
Proof. induction t; cbn; [constructor | by apply insert_sorted_sorted]. Qed.
End order.

(** The [BINARY] collation of [TEXT]: bytes, lexicographically. *)
Fixpoint bytes_le (a b : bytes) : bool :=
  match a, b with
  | [], _ => true
  | _ :: _, [] => false
  | x :: a', y :: b' =>
    if (u8 x <? u8 y)%Z then true else if (u8 y <? u8 x)%Z then false else bytes_le a' b'
  end.
Definition text_le (a b : string) : bool := bytes_le (as_bytes a) (as_bytes b).

Lemma bytes_le_total a b : bytes_le a b = false -> bytes_le b a = true.
Proof.
  revert b. induction a as [|x a IH]; intros [|y b]; cbn; try done.
  destruct (Z.ltb_spec (u8 x) (u8 y)), (Z.ltb_spec (u8 y) (u8 x)); try done; try lia. apply IH.
Qed.
Lemma bytes_le_trans a b c : bytes_le a b = true -> bytes_le b c = true -> bytes_le a c = true.
Proof.
  revert b c. induction a as [|x a IH]; intros [|y b] [|z c]; cbn; try done.
  destruct (Z.ltb_spec (u8 x) (u8 y)), (Z.ltb_spec (u8 y) (u8 x)),
    (Z.ltb_spec (u8 y) (u8 z)), (Z.ltb_spec (u8 z) (u8 y)),
    (Z.ltb_spec (u8 x) (u8 z)), (Z.ltb_spec (u8 z) (u8 x)); try done; try lia. apply IH.
Qed.
Lemma bytes_le_antisym a b : bytes_le a b = true -> bytes_le b a = true -> a = b.
Proof.
  revert b. induction a as [|x a IH]; intros [|y b]; cbn; try done.
  destruct (Z.ltb_spec (u8 x) (u8 y)), (Z.ltb_spec (u8 y) (u8 x)); try done; try lia.
  intros. f_equal; [apply u8_inj; lia | by apply IH].
Qed.

Lemma find_ext {A} (f g : A -> bool) l : (forall x, f x = g x) -> List.find f l = List.find g l.
Proof. intros E. induction l as [|x l IH]; cbn; [done|]. by rewrite E, IH. Qed.
(** What became of a row. *)
Lemma upsert_image {R K} `{EqDecision K} (key : R -> K) r merge t x :
  x ∈ t -> x ∈ upsert key r merge t
           \/ (find_key key (key r) t = Some x /\ merge x ∈ upsert key r merge t).
Proof.
  unfold find_key. induction t as [|old t IH]; cbn; [set_solver|].
  case_bool_decide as Ho; intros [->|Hx]%elem_of_cons.
  - right. set_solver.
  - left. set_solver.
  - left. set_solver.
  - destruct (IH Hx) as [?|[? ?]]; [left | right]; set_solver.
Qed.
(** The values of a column after an [upsert] that keeps it. *)
Lemma upsert_exists {R K A} `{EqDecision K} (key : R -> K) (f : R -> A) r merge t a :
  (forall old, f (merge old) = f old) -> (forall old, key old = key r -> f old = f r) ->
  (exists x, x ∈ upsert key r merge t /\ f x = a) <-> f r = a \/ exists x, x ∈ t /\ f x = a.
Proof.
  intros Hm Hk. induction t as [|old t IH]; cbn.
  - split.
    + intros (x & ->%list_elem_of_singleton & ?). by left.
    + intros [?|(x & Hx & _)]; [|by apply elem_of_nil in Hx]. exists r. set_solver.
  - case_bool_decide as Ho.
    + split.
      * intros (x & [->|Hx]%elem_of_cons & <-).
        -- right. exists old. rewrite Hm. set_solver.
        -- right. exists x. set_solver.
      * intros [<-|(x & [->|Hx]%elem_of_cons & <-)].
        -- exists (merge old). rewrite Hm. split; [set_solver | by apply Hk].
        -- exists (merge old). rewrite Hm. set_solver.
        -- exists x. set_solver.
    + split.
      * intros (x & [->|Hx]%elem_of_cons & Hfx); [right; exists old; set_solver|].
        destruct (proj1 IH) as [?|(y & ? & ?)]; [by exists x | by left | right; exists y; set_solver].
      * intros [Hr|(x & [->|Hx]%elem_of_cons & Hfx)].
        -- destruct (proj2 IH) as (y & ? & ?); [by left | exists y; set_solver].
        -- exists old. set_solver.
        -- destruct (proj2 IH) as (y & ? & ?); [right; by exists x | exists y; set_solver].
Qed.
Lemma puts_elem {R K} `{EqDecision K} (key : R -> K) rs t x :
  x ∈ puts key rs t -> x ∈ rs \/ x ∈ t.
Proof.
  revert t. induction rs as [|r rs IH]; intros t; cbn; [by right|].
  intros [?|Hx]%IH; [left; set_solver|].
  apply upsert_elem in Hx as [?|[->|(old & _ & _ & ->)]]; [by right | left; set_solver | left; set_solver].
Qed.
