(* ===== verification/Sql.v ===== *)
(** * Databases and transactions

    A database maps every table to its rows, in rowid order; what the tables
    are, their columns and primary keys, is a [Schema].  [Tx] is the code inside
    [pool.begin() ... commit()]: a failing statement or an early [Err] drops
    the transaction, so [run_tx] then keeps the old database.  [Statements] is
    code that issues statements one after another without a transaction.  The
    server (Db) and the client's store (Store) are two schemas. *)
From Stdlib Require Import ZArith Lia Eqdep_dec Strings.Byte Strings.String.
From S2P Require Import Prelude RustStr Table.
Local Open Scope Z_scope.

(** The tables [Tab], their rows and primary keys, and the error a statement
    that violates a key becomes. *)
Class Schema {Tab : Type} (E : Type) (Row Key : Tab -> Type)
    (row_key : forall t, Row t -> Key t) : Type := {
  #[global] tab_eq_dec :: EqDecision Tab;
  #[global] tab_key_eq_dec t :: EqDecision (Key t);
  sql_conflict : E }.

(** ** Databases *)
Definition Database {Tab : Type} (Row : Tab -> Type) : Type := forall t : Tab, list (Row t).
(** [CREATE TABLE IF NOT EXISTS] on an empty file. *)
Definition no_rows {Tab : Type} {Row : Tab -> Type} : Database Row := fun _ => [].

(** Every table satisfies its [PRIMARY KEY]. *)
Definition db_wf {Tab Er} {Row Key : Tab -> Type} {row_key} `{!Schema Er Row Key row_key}
    (db : Database Row) : Prop := forall t, keyed (row_key t) (db t).

Section tables.
Context {Tab Er : Type} {Row Key : Tab -> Type} {row_key : forall t, Row t -> Key t}
  `{!Schema Er Row Key row_key}.
#[local] Abbreviation Db := (Database Row).

Definition set_table (t : Tab) (rows : list (Row t)) (db : Db) : Db := fun t' =>
  match decide (t = t') with
  | left E => eq_rect t (fun u => list (Row u)) rows t' E
  | right _ => db t'
  end.

Lemma set_table_same t rows db : set_table t rows db t = rows.
Proof.
  unfold set_table. destruct (decide (t = t)) as [E|]; [|done].
  symmetry. apply (Eqdep_dec.eq_rect_eq_dec tab_eq_dec (fun u => list (Row u))).
Qed.
Lemma set_table_ne t t' rows db : t <> t' -> set_table t rows db t' = db t'.
Proof. intros. unfold set_table. by destruct (decide (t = t')). Qed.


Lemma db_wf_set t rows db : db_wf db -> keyed (row_key t) rows -> db_wf (set_table t rows db).
Proof.
  intros Hdb Hr t'. destruct (decide (t = t')) as [<-|Hne].
  - by rewrite set_table_same.
  - by rewrite set_table_ne.
Qed.
Lemma no_rows_wf : db_wf no_rows.
Proof. intros t. apply NoDup_nil_2. Qed.

End tables.

(** Reads a table through the writes to the others. *)
Ltac tab_simpl := repeat first [rewrite set_table_same | rewrite set_table_ne by discriminate].
Ltac tab_simpl_in H :=
  repeat first [rewrite set_table_same in H | rewrite set_table_ne in H by discriminate].

(** ** Transactions *)
Definition Transaction {Tab : Type} (Row : Tab -> Type) (Er A : Type) : Type :=
  Database Row -> result Er (A * Database Row).
#[export] Instance tx_ret {Tab Er} {Row : Tab -> Type} : MRet (Transaction Row Er) :=
  fun A a db => Ok (a, db).
#[export] Instance tx_bind {Tab Er} {Row : Tab -> Type} : MBind (Transaction Row Er) :=
  fun A B f m db =>
  match m db with
  | Ok (a, db') => f a db'
  | Err e => Err e
  end.

(** ** Statements outside a transaction

    Other requests may run between them: the [i]th statement finds the database
    [views i], and the databases the statements leave are logged. *)
Definition Statements {Tab : Type} (Row : Tab -> Type) (Er A : Type) : Type :=
  (nat -> Database Row) -> list (Database Row) -> result Er (A * list (Database Row)).
#[export] Instance statements_ret {Tab Er} {Row : Tab -> Type} : MRet (Statements Row Er) :=
  fun A a _ log => Ok (a, log).
#[export] Instance statements_bind {Tab Er} {Row : Tab -> Type} : MBind (Statements Row Er) :=
  fun A B f m views log =>
  match m views log with
  | Ok (a, log') => f a views log'
  | Err e => Err e
  end.

Section sql.
Context {Tab Er : Type} {Row Key : Tab -> Type} {row_key : forall t, Row t -> Key t}
  `{!Schema Er Row Key row_key}.
#[local] Abbreviation Db := (Database Row).
#[local] Abbreviation Tx := (Transaction Row Er).
Definition tx_lift {A} (m : result Er A) : Tx A := fun db => a ← m; Ok (a, db).
Definition throw {A} (e : Er) : Tx A := fun _ => Err e.
(** [if !b { return Err(e) }]. *)
Definition require (b : bool) (e : Er) : Tx unit := tx_lift (guard_or b e).
(** [let Some(x) = o else { return Err(e) }]. *)
Definition some_or {A} (e : Er) (o : option A) : Tx A := tx_lift (ok_or e o).
(** [for x in l { f(x)?; }]. *)
Fixpoint tx_iter {X} (f : X -> Tx unit) (l : list X) : Tx unit :=
  match l with
  | [] => mret tt
  | x :: l' => _ ← f x; tx_iter f l'
  end.

(** The statements.  A key conflict is an SQL error, which every caller turns
    into [internal_error]. *)
Definition fetch_all (t : Tab) (p : Row t -> bool) : Tx (list (Row t)) := fun db =>
  Ok (select p (db t), db).
Definition fetch_optional (t : Tab) (p : Row t -> bool) : Tx (option (Row t)) := fun db =>
  Ok (List.find p (db t), db).
Definition insert (t : Tab) (r : Row t) : Tx unit := fun db =>
  match insert_new (row_key t) r (db t) with
  | Some rows => Ok (tt, set_table t rows db)
  | None => Err sql_conflict
  end.
Definition insert_or_update (t : Tab) (r : Row t) (merge : Row t -> Row t) : Tx unit := fun db =>
  Ok (tt, set_table t (upsert (row_key t) r merge (db t)) db).
Definition update (t : Tab) (p : Row t -> bool) (f : Row t -> Row t) : Tx unit := fun db =>
  Ok (tt, set_table t (update_where p f (db t)) db).
Definition delete_from (t : Tab) (p : Row t -> bool) : Tx unit := fun db =>
  Ok (tt, set_table t (delete_where p (db t)) db).
(** [INSERT OR REPLACE]: the row of the same key is deleted and the new one
    inserted under a new rowid. *)
Definition insert_or_replace (t : Tab) (r : Row t) : Tx unit := fun db =>
  Ok (tt, set_table t (delete_where (fun x => bool_decide (row_key t x = row_key t r)) (db t) ++ [r]) db).

(** A transaction, or a single statement, among the statements. *)
Definition statement {A} (m : Tx A) : Statements Row Er A := fun views log =>
  match m (views (length log)) with
  | Ok (a, db) => Ok (a, log ++ [db])
  | Err e => Err e
  end.
Definition st_lift {A} (m : result Er A) : Statements Row Er A := fun _ log => a ← m; Ok (a, log).
(** The statements when nobody else writes. *)
Definition undisturbed {A} (m : Statements Row Er A) : Tx A := fun db =>
  match m (fun _ => db) [] with
  | Ok (a, log) => Ok (a, unwrap_or db (last log))
  | Err e => Err e
  end.

(** A request: the response and the database it leaves. *)
Definition run_tx {A} (m : Tx A) (db : Db) : result Er A * Db :=
  match m db with
  | Ok (a, db') => (Ok a, db')
  | Err e => (Err e, db)
  end.

(** ** Lemmas *)
Lemma tx_bind_Ok {A B} (m : Tx A) (f : A -> Tx B) db b db' :
  (m ≫= f) db = Ok (b, db') <-> exists a db1, m db = Ok (a, db1) /\ f a db1 = Ok (b, db').
Proof.
  unfold mbind, tx_bind. destruct (m db) as [[a db1]|e]; split.
  - intros ?. by exists a, db1.
  - intros (? & ? & Hm & ?). by injection Hm as -> ->.
  - done.
  - by intros (? & ? & ? & ?).
Qed.
Lemma tx_bind_Err {A B} (m : Tx A) (f : A -> Tx B) db e :
  (m ≫= f) db = Err e <-> m db = Err e \/ exists a db1, m db = Ok (a, db1) /\ f a db1 = Err e.
Proof.
  unfold mbind, tx_bind. destruct (m db) as [[a db1]|e']; split.
  - intros ?. right. by exists a, db1.
  - intros [?|(? & ? & Hm & ?)]; [done|]. by injection Hm as -> ->.
  - intros [= ->]. by left.
  - intros [?|(? & ? & ? & ?)]; [congruence | done].
Qed.
Lemma st_bind_Ok {A B} (m : Statements Row Er A) (f : A -> Statements Row Er B) views log b log' :
  (m ≫= f) views log = Ok (b, log') <->
  exists a log1, m views log = Ok (a, log1) /\ f a views log1 = Ok (b, log').
Proof.
  unfold mbind, statements_bind. destruct (m views log) as [[a log1]|e]; split.
  - intros ?. by exists a, log1.
  - intros (? & ? & Hm & ?). by injection Hm as -> ->.
  - done.
  - by intros (? & ? & ? & ?).
Qed.
Lemma st_ret_Ok {A} (a b : A) (views : nat -> Db) log log' :
  (mret a : Statements Row Er A) views log = Ok (b, log') <-> b = a /\ log' = log.
Proof. split; [by intros [= -> ->] | by intros [-> ->]]. Qed.
Lemma st_lift_Ok {A} (m : result Er A) (views : nat -> Db) log a log' :
  st_lift m views log = Ok (a, log') <-> m = Ok a /\ log' = log.
Proof. unfold st_lift. destruct m; cbn; split; [intros [= -> ->] | intros [[= ->] ->] | |intros []]; done. Qed.
Lemma statement_Ok {A} (m : Tx A) views log a log' :
  statement m views log = Ok (a, log') <->
  exists db, m (views (length log)) = Ok (a, db) /\ log' = log ++ [db].
Proof.
  unfold statement. destruct (m _) as [[b db]|e]; split.
  - intros E. injection E as -> <-. by exists db.
  - intros (db2 & E & ->). by injection E as -> ->.
  - done.
  - by intros (? & ? & _).
Qed.
Lemma undisturbed_Ok {A} (m : Statements Row Er A) db a db' :
  undisturbed m db = Ok (a, db') <->
  exists log, m (fun _ => db) [] = Ok (a, log) /\ db' = unwrap_or db (last log).
Proof.
  unfold undisturbed. destruct (m _ _) as [[b log]|e]; split.
  - intros E. injection E as -> <-. by exists log.
  - intros (l2 & E & ->). by injection E as -> ->.
  - done.
  - by intros (? & ? & _).
Qed.
(** The statements so far have written nothing. *)
Definition untouched (views : nat -> Db) (log : list Db) : Prop :=
  forall i db, log !! i = Some db -> db = views i.
Lemma untouched_nil views : untouched views [].
Proof. by intros i db. Qed.
Lemma untouched_snoc views log db : untouched views log -> db = views (length log) ->
  untouched views (log ++ [db]).
Proof.
  intros Hl -> i x Hi. apply lookup_app_Some in Hi as [Hi|[Hlen Hi]]; [by apply Hl|].
  apply list_lookup_singleton_Some in Hi as [Hi <-]. f_equal. lia.
Qed.

Lemma tx_lift_Ok {A} (m : result Er A) db a db' :
  tx_lift m db = Ok (a, db') <-> m = Ok a /\ db' = db.
Proof. unfold tx_lift. destruct m; cbn; split; [intros [= -> ->] | intros [[= ->] ->] | |intros []]; done. Qed.
Lemma require_Ok b e db u db' : require b e db = Ok (u, db') <-> b = true /\ db' = db.
Proof. unfold require. rewrite tx_lift_Ok. by rewrite guard_or_Ok. Qed.
Lemma some_or_Ok {A} e (o : option A) db a db' :
  some_or e o db = Ok (a, db') <-> o = Some a /\ db' = db.
Proof. unfold some_or. rewrite tx_lift_Ok. by rewrite ok_or_Ok. Qed.
Lemma tx_ret_Ok {A} (a b : A) db db' : (mret a : Tx A) db = Ok (b, db') <-> b = a /\ db' = db.
Proof. unfold mret, tx_ret. split; [intros [= -> ->] | intros [-> ->]]; done. Qed.

(** A transaction stays inside a preorder on databases: an invariant kept, or
    a set of tables left alone. *)
Section tx_rel.
Context (R : Db -> Db -> Prop) `{!PreOrder R}.
Definition tx_rel {A} (m : Tx A) : Prop := forall db a db', m db = Ok (a, db') -> R db db'.

Lemma tx_rel_ret {A} (a : A) : tx_rel (mret a).
Proof. intros db b db' [_ ->]%tx_ret_Ok. done. Qed.
Lemma tx_rel_lift {A} (m : result Er A) : tx_rel (tx_lift m).
Proof. intros db b db' [_ ->]%tx_lift_Ok. done. Qed.
Lemma tx_rel_throw {A} e : tx_rel (throw e : Tx A).
Proof. by intros db b db' ?. Qed.
Lemma tx_rel_bind {A B} (m : Tx A) (f : A -> Tx B) :
  tx_rel m -> (forall a, tx_rel (f a)) -> tx_rel (m ≫= f).
Proof. intros Hm Hf db b db' (a & db1 & H1 & H2)%tx_bind_Ok. etrans; [by eapply Hm | by eapply Hf]. Qed.
Lemma tx_rel_iter {X} (f : X -> Tx unit) l : (forall x, x ∈ l -> tx_rel (f x)) -> tx_rel (tx_iter f l).
Proof.
  induction l as [|x l IH]; cbn [tx_iter]; intros Hf; [apply tx_rel_ret|].
  apply tx_rel_bind; [apply Hf; set_solver | intros _; apply IH; set_solver].
Qed.
Lemma tx_rel_fetch_all t p : tx_rel (fetch_all t p).
Proof. by intros db a db' [= _ <-]. Qed.
Lemma tx_rel_fetch_optional t p : tx_rel (fetch_optional t p).
Proof. by intros db a db' [= _ <-]. Qed.
Lemma run_tx_rel {A} (m : Tx A) db : tx_rel m -> R db (run_tx m db).2.
Proof. intros Hm. unfold run_tx. destruct (m db) as [[a db']|e] eqn:E; cbn; [by eapply Hm | done]. Qed.
End tx_rel.


(** Invariants. *)
Definition keeps (I : Db -> Prop) (db db' : Db) : Prop := I db -> I db'.
#[export] Instance keeps_preorder I : PreOrder (keeps I).
Proof. split; [by intros db ? | intros ??? H1 H2 ?; by apply H2, H1]. Qed.

(** Tables outside [ts] are left alone. *)
Definition frame (ts : list Tab) (db db' : Db) : Prop := forall t, t ∉ ts -> db' t = db t.
#[export] Instance frame_preorder ts : PreOrder (frame ts).
Proof. split; [by intros db t ? | intros ??? H1 H2 t ?; by rewrite H2, H1]. Qed.

Lemma frame_mono ts ts' db db' : ts ⊆ ts' -> frame ts db db' -> frame ts' db db'.
Proof. intros Hs Hf t Ht. apply Hf. set_solver. Qed.

Lemma insert_wf t r : tx_rel (keeps db_wf) (insert t r).
Proof.
  intros db [] db'. unfold insert. destruct (insert_new _ _ _) as [rows|] eqn:E; [|done].
  intros [= <-] Hdb. apply db_wf_set; [done|]. by eapply insert_new_keyed.
Qed.
Lemma insert_or_update_wf t r merge :
  (forall old, row_key t old = row_key t r -> row_key t (merge old) = row_key t r) ->
  tx_rel (keeps db_wf) (insert_or_update t r merge).
Proof. intros Hm db [] db' [= <-] Hdb. apply db_wf_set; [done|]. by apply upsert_keyed. Qed.
Lemma update_wf t p f :
  (forall r, row_key t (f r) = row_key t r) -> tx_rel (keeps db_wf) (update t p f).
Proof. intros Hf db [] db' [= <-] Hdb. apply db_wf_set; [done|]. by apply update_where_keyed. Qed.
Lemma delete_wf t p : tx_rel (keeps db_wf) (delete_from t p).
Proof. intros db [] db' [= <-] Hdb. apply db_wf_set; [done|]. by apply delete_where_keyed. Qed.

Lemma insert_or_replace_Ok t r db u db' :
  insert_or_replace t r db = Ok (u, db')
  <-> db' = set_table t (delete_where (fun x => bool_decide (row_key t x = row_key t r)) (db t) ++ [r]) db.
Proof. unfold insert_or_replace. destruct u. split; [by intros [= <-] | by intros ->]. Qed.
Lemma insert_or_replace_wf t r : tx_rel (keeps db_wf) (insert_or_replace t r).
Proof.
  intros db [] db' ->%insert_or_replace_Ok Hdb. apply db_wf_set; [done|]. unfold keyed.
  rewrite map_app. cbn. apply NoDup_app. split; [by apply delete_where_keyed|].
  split; [|apply NoDup_singleton]. intros k Hk ->%list_elem_of_singleton.
  apply list_elem_of_fmap in Hk as (x & Hx & [_ Hd]%delete_where_elem).
  by apply bool_decide_eq_false in Hd.
Qed.

Lemma set_table_frame t rows ts db : t ∈ ts -> frame ts db (set_table t rows db).
Proof. intros Ht t' Hn. apply set_table_ne. set_solver. Qed.
Lemma insert_frame ts t r : t ∈ ts -> tx_rel (frame ts) (insert t r).
Proof.
  intros Ht db [] db'. unfold insert. destruct (insert_new _ _ _) as [rows|] eqn:E; [|done].
  intros [= <-]. by apply set_table_frame.
Qed.
Lemma insert_or_update_frame ts t r merge : t ∈ ts -> tx_rel (frame ts) (insert_or_update t r merge).
Proof. intros Ht db [] db' [= <-]. by apply set_table_frame. Qed.
Lemma update_frame ts t p f : t ∈ ts -> tx_rel (frame ts) (update t p f).
Proof. intros Ht db [] db' [= <-]. by apply set_table_frame. Qed.
Lemma insert_or_replace_frame ts t r : t ∈ ts -> tx_rel (frame ts) (insert_or_replace t r).
Proof. intros Ht db [] db' ->%insert_or_replace_Ok. by apply set_table_frame. Qed.
Lemma delete_frame ts t p : t ∈ ts -> tx_rel (frame ts) (delete_from t p).
Proof. intros Ht db [] db' [= <-]. by apply set_table_frame. Qed.
#[export] Instance eq_rel_preorder : PreOrder (@eq Db).
Proof. split; [by intros ? | by intros ??? -> ->]. Qed.

Lemma fetch_all_Ok t p db rows db' :
  fetch_all t p db = Ok (rows, db') <-> rows = select p (db t) /\ db' = db.
Proof. unfold fetch_all. split; [by intros [= <- <-] | by intros [-> ->]]. Qed.
Lemma fetch_optional_Ok t p db row db' :
  fetch_optional t p db = Ok (row, db') <-> row = List.find p (db t) /\ db' = db.
Proof. unfold fetch_optional. split; [by intros [= <- <-] | by intros [-> ->]]. Qed.
Lemma insert_or_update_Ok t r merge db u db' :
  insert_or_update t r merge db = Ok (u, db')
  <-> db' = set_table t (upsert (row_key t) r merge (db t)) db.
Proof. unfold insert_or_update. destruct u. split; [by intros [= <-] | by intros ->]. Qed.
Lemma insert_Ok t r db u db' :
  insert t r db = Ok (u, db')
  <-> find_key (row_key t) (row_key t r) (db t) = None /\ db' = set_table t (db t ++ [r]) db.
Proof.
  unfold insert, insert_new. destruct u.
  destruct (find_key _ _ _); split; [done | by intros [? _] | by intros [= <-] | by intros [_ ->]].
Qed.
Lemma update_Ok t p f db u db' :
  update t p f db = Ok (u, db') <-> db' = set_table t (update_where p f (db t)) db.
Proof. unfold update. destruct u. split; [by intros [= <-] | by intros ->]. Qed.
Lemma delete_from_Ok t p db u db' :
  delete_from t p db = Ok (u, db') <-> db' = set_table t (delete_where p (db t)) db.
Proof. unfold delete_from. destruct u. split; [by intros [= <-] | by intros ->]. Qed.

(** A property of one table, kept by what leaves the table alone. *)
Lemma keeps_frame {A} ts t (Q : list (Row t) -> Prop) (m : Tx A) :
  t ∉ ts -> tx_rel (frame ts) m -> tx_rel (keeps (fun db => Q (db t))) m.
Proof. intros Ht Hm db a db' E. unfold keeps. by rewrite (Hm _ _ _ E t Ht). Qed.
Lemma keeps_insert t (P : Row t -> Prop) r : P r -> tx_rel (keeps (fun db => Forall P (db t))) (insert t r).
Proof.
  intros Hr db u db' [_ ->]%insert_Ok H. tab_simpl. apply Forall_app. split; [done|].
  by apply Forall_singleton.
Qed.
Lemma keeps_insert_or_update t (P : Row t -> Prop) r merge :
  P r -> (forall old, P old -> row_key t old = row_key t r -> P (merge old)) ->
  tx_rel (keeps (fun db => Forall P (db t))) (insert_or_update t r merge).
Proof.
  intros Hr Hm db u db' ->%insert_or_update_Ok H. tab_simpl. rewrite Forall_forall in *.
  intros x [Hx|[->|(old & Hold & Hk & ->)]]%upsert_elem; auto.
Qed.
Lemma keeps_update t (P : Row t -> Prop) p f :
  (forall r, P r -> P (f r)) -> tx_rel (keeps (fun db => Forall P (db t))) (update t p f).
Proof.
  intros Hf db u db' ->%update_Ok H. tab_simpl. rewrite Forall_forall in *.
  intros x (r & -> & Hr)%list_elem_of_fmap. destruct (p r); auto.
Qed.
Lemma keeps_delete t (P : Row t -> Prop) p :
  tx_rel (keeps (fun db => Forall P (db t))) (delete_from t p).
Proof.
  intros db u db' ->%delete_from_Ok H. tab_simpl. rewrite Forall_forall in *.
  intros x [Hx _]%delete_where_elem. auto.
Qed.

(** Transactions that always commit. *)
Definition tx_total {A} (m : Tx A) : Prop := forall db, exists a db', m db = Ok (a, db').
Lemma total_ret {A} (a : A) : tx_total (mret a).
Proof. intros db. by exists a, db. Qed.
Lemma total_bind {A B} (m : Tx A) (f : A -> Tx B) :
  tx_total m -> (forall a, tx_total (f a)) -> tx_total (m ≫= f).
Proof.
  intros Hm Hf db. destruct (Hm db) as (a & db1 & E1). destruct (Hf a db1) as (b & db2 & E2).
  exists b, db2. apply tx_bind_Ok. by exists a, db1.
Qed.
Lemma total_iter {X} (f : X -> Tx unit) l : (forall x, tx_total (f x)) -> tx_total (tx_iter f l).
Proof. intros Hf. induction l; cbn; [apply total_ret | by apply total_bind]. Qed.
Lemma total_fetch_all t p : tx_total (fetch_all t p).
Proof. intros db. by exists (select p (db t)), db. Qed.
Lemma total_fetch_optional t p : tx_total (fetch_optional t p).
Proof. intros db. by exists (List.find p (db t)), db. Qed.
Lemma total_delete t p : tx_total (delete_from t p).
Proof. intros db. by eexists tt, _. Qed.
Lemma total_update t p f : tx_total (update t p f).
Proof. intros db. by eexists tt, _. Qed.
Lemma total_insert_or_replace t r : tx_total (insert_or_replace t r).
Proof. intros db. by eexists tt, _. Qed.
Lemma total_insert_or_update t r merge : tx_total (insert_or_update t r merge).
Proof. intros db. by eexists tt, _. Qed.

(** [tx_rel_bind], remembering that the first part succeeded. *)
Lemma tx_rel_bind_with R `{!PreOrder R} {A B} (m : Tx A) (f : A -> Tx B) :
  tx_rel R m -> (forall a, (exists db db1, m db = Ok (a, db1)) -> tx_rel R (f a)) -> tx_rel R (m ≫= f).
Proof.
  intros Hm Hf db b db' (a & db1 & E1 & E2)%tx_bind_Ok. etrans; [by eapply Hm|].
  eapply (Hf a); [by exists db, db1 | done].
Qed.

(** A property of the rows of every table. *)
Section rows.
Context (P : forall t, Row t -> Prop).
Definition all_rows (db : Db) : Prop := forall t, Forall (P t) (db t).
Lemma all_rows_set t rows db : all_rows db -> Forall (P t) rows -> all_rows (set_table t rows db).
Proof.
  intros Hdb Hr u. destruct (decide (t = u)) as [<-|Hne]; [by rewrite set_table_same|].
  by rewrite set_table_ne.
Qed.
Lemma rows_insert t r : P t r -> tx_rel (keeps all_rows) (insert t r).
Proof.
  intros Hr db u db' [_ ->]%insert_Ok Hdb. apply all_rows_set; [done|]. apply Forall_app.
  split; [apply Hdb | by apply Forall_singleton].
Qed.
Lemma rows_insert_or_update t r merge :
  P t r -> (forall old, P t old -> row_key t old = row_key t r -> P t (merge old)) ->
  tx_rel (keeps all_rows) (insert_or_update t r merge).
Proof.
  intros Hr Hm db u db' ->%insert_or_update_Ok Hdb. apply all_rows_set; [done|].
  specialize (Hdb t). rewrite Forall_forall in *.
  intros x [Hx|[->|(old & Hold & Hk & ->)]]%upsert_elem; auto.
Qed.
Lemma rows_update t p f : (forall r, P t r -> P t (f r)) -> tx_rel (keeps all_rows) (update t p f).
Proof.
  intros Hf db u db' ->%update_Ok Hdb. apply all_rows_set; [done|].
  specialize (Hdb t). rewrite Forall_forall in *.
  intros x (r & -> & Hr)%list_elem_of_fmap. destruct (p r); auto.
Qed.
Lemma rows_insert_or_replace t r : P t r -> tx_rel (keeps all_rows) (insert_or_replace t r).
Proof.
  intros Hr db u db' ->%insert_or_replace_Ok Hdb. apply all_rows_set; [done|]. apply Forall_app.
  split; [|by apply Forall_singleton]. specialize (Hdb t). rewrite Forall_forall in *.
  intros x [Hx _]%delete_where_elem. auto.
Qed.
Lemma rows_delete t p : tx_rel (keeps all_rows) (delete_from t p).
Proof.
  intros db u db' ->%delete_from_Ok Hdb. apply all_rows_set; [done|].
  specialize (Hdb t). rewrite Forall_forall in *.
  intros x [Hx _]%delete_where_elem. auto.
Qed.
End rows.
Lemma keeps_bind_with I {A B} (m : Tx A) (f : A -> Tx B) :
  tx_rel (keeps I) m ->
  (forall a, (exists db db1, I db /\ m db = Ok (a, db1)) -> tx_rel (keeps I) (f a)) ->
  tx_rel (keeps I) (m ≫= f).
Proof.
  intros Hm Hf db b db' (a & db1 & E1 & E2)%tx_bind_Ok Hdb.
  eapply (Hf a); [by exists db, db1 | done | by eapply Hm].
Qed.
End sql.

(** ** Automation *)
(** [tx_walk] follows the structure of a transaction down to its writing
    statements, which the hints of [tx] settle. *)
Create HintDb tx discriminated.
Ltac tx_read :=
  match goal with
  | |- tx_rel ?R (fetch_all ?t ?p) => exact (tx_rel_fetch_all R t p)
  | |- tx_rel ?R (fetch_optional ?t ?p) => exact (tx_rel_fetch_optional R t p)
  | |- tx_rel _ (mret _) => apply tx_rel_ret; typeclasses eauto
  | |- tx_rel _ (throw _) => apply tx_rel_throw
  | |- tx_rel _ _ => apply tx_rel_lift; typeclasses eauto
  end.
#[export] Hint Extern 1 (tx_rel _ _) => tx_read : tx.
Ltac tx_walk :=
  repeat first
    [ solve [auto with tx]
    | apply tx_rel_bind; [typeclasses eauto | | intros ?]
    | apply tx_rel_iter; [typeclasses eauto | intros ? ?]
    | match goal with
      | |- tx_rel _ (match ?x with _ => _ end) => destruct x
      end ].
#[export] Hint Resolve insert_wf delete_wf insert_or_replace_wf : tx.
#[export] Hint Extern 1 (tx_rel _ (insert_or_update _ _ _)) =>
  apply insert_or_update_wf; intros ??; first [reflexivity | assumption] : tx.
#[export] Hint Extern 1 (tx_rel _ (update _ _ _)) => apply update_wf; reflexivity : tx.
#[export] Hint Extern 2 (tx_rel (frame _) (insert _ _)) => apply insert_frame; set_solver : tx.
#[export] Hint Extern 2 (tx_rel (frame _) (insert_or_update _ _ _)) =>
  apply insert_or_update_frame; set_solver : tx.
#[export] Hint Extern 2 (tx_rel (frame _) (insert_or_replace _ _)) =>
  apply insert_or_replace_frame; set_solver : tx.
#[export] Hint Extern 2 (tx_rel (frame _) (update _ _ _)) => apply update_frame; set_solver : tx.
#[export] Hint Extern 2 (tx_rel (frame _) (delete_from _ _)) => apply delete_frame; set_solver : tx.
(** [tx_inv H] runs a successful transaction backwards. *)
Ltac tx_inv H :=
  lazymatch type of H with
  | (_ ≫= _) _ = Ok _ =>
    let a := fresh "a" in let db := fresh "db" in let H1 := fresh H in
    apply tx_bind_Ok in H as (a & db & H1 & H); tx_inv H1; tx_inv H
  | mret _ _ = Ok _ => apply tx_ret_Ok in H as [? ?]; subst
  | require _ _ _ = Ok _ => apply require_Ok in H as [H ?]; subst
  | some_or _ _ _ = Ok _ => apply some_or_Ok in H as [H ?]; subst
  | tx_lift _ _ = Ok _ => apply tx_lift_Ok in H as [H ?]; subst
  | throw _ _ = Ok _ => discriminate H
  | @fetch_all ?T ?E ?R ?t ?p _ = Ok _ => apply (@fetch_all_Ok T E R t p) in H as [? ?]; subst
  | @fetch_optional ?T ?E ?R ?t ?p _ = Ok _ => apply (@fetch_optional_Ok T E R t p) in H as [? ?]; subst
  | insert_or_update _ _ _ _ = Ok _ => apply insert_or_update_Ok in H; subst
  | update _ _ _ _ = Ok _ => apply update_Ok in H; subst
  | delete_from _ _ _ = Ok _ => apply delete_from_Ok in H; subst
  | insert_or_replace _ _ _ = Ok _ => apply insert_or_replace_Ok in H; subst
  | insert _ _ _ = Ok _ => apply insert_Ok in H as [H ?]; subst
  | _ => idtac
  end.
#[export] Hint Resolve total_ret total_delete total_update total_insert_or_update total_insert_or_replace : tx.
#[export] Hint Extern 1 (tx_total (fetch_all ?t ?p)) => exact (total_fetch_all t p) : tx.
#[export] Hint Extern 1 (tx_total (fetch_optional ?t ?p)) => exact (total_fetch_optional t p) : tx.
Ltac total_walk :=
  repeat first
    [ solve [auto with tx]
    | apply total_bind; [|intros ?]
    | apply total_iter; intros ?
    | match goal with |- tx_total (match ?x with _ => _ end) => destruct x end ].
#[export] Hint Resolve rows_delete : tx.
(** [st_inv H] runs successful statements backwards, one equation for each. *)
Ltac st_inv H :=
  lazymatch type of H with
  | (_ ≫= _) _ _ = Ok _ =>
    let a := fresh "a" in let l := fresh "log" in let H1 := fresh H in
    apply st_bind_Ok in H as (a & l & H1 & H); st_inv H1; st_inv H
  | mret _ _ _ = Ok _ => apply st_ret_Ok in H as [? ?]; subst
  | st_lift _ _ _ = Ok _ => apply st_lift_Ok in H as [H ?]; subst
  | statement _ _ _ = Ok _ =>
    let db := fresh "db" in apply statement_Ok in H as (db & H & ?); subst
  | _ => idtac
  end.
