(* ===== verification/Db.v ===== *)
(** * The server's database

    The tables [migrate] creates ([src/crates/server/src/lib.rs]), one record
    of columns per table, and the transactions on them.

    A column that stores the JSON text of a value, or the text of a [Uuid],
    holds the value itself: what the server reads back from such a column is
    what it wrote there.  A database maps every table to its rows, in rowid
    order.  [Tx] is the code inside [pool.begin() ... commit()]: a failing
    statement or an early [Err] drops the transaction, so [run_tx] then keeps
    the old database. *)
From Stdlib Require Import ZArith Lia Eqdep_dec Strings.Byte Strings.String.
From S2P Require Import Prelude RustStr Types Table Sql.
Local Open Scope Z_scope.

(** The [StatusCode] constants the handlers return. *)
Inductive Status : Type :=
| OK | BAD_REQUEST | UNAUTHORIZED | FORBIDDEN | NOT_FOUND | CONFLICT
| PAYLOAD_TOO_LARGE | INTERNAL_SERVER_ERROR.
#[export] Instance Status_eq_dec : EqDecision Status.
Proof. solve_decision. Defined.

(** ** Rows *)
(* src: src/crates/server/src/lib.rs:2227-2227 migrate: clients *)
Record ClientRow : Type := mkClientRow {
  cl_client_id : string;
  cl_created_at_ms : Z }.
(* src: src/crates/server/src/lib.rs:2228-2228 migrate: api_tokens *)
Record TokenRow : Type := mkTokenRow {
  tk_token_hash : string;
  tk_client_id : string;
  tk_role : string;
  tk_created_at_ms : Z;
  tk_revoked_at_ms : option Z }.
(* src: src/crates/server/src/lib.rs:2229-2229 migrate: client_instances *)
Record InstanceRow : Type := mkInstanceRow {
  in_instance_id : Uuid;
  in_client_id : string;
  in_hostname : string;
  in_platform : string;
  in_codex_version : string;
  in_started_at_ms : Z;
  in_last_seen_at_ms : Z }.
(* src: src/crates/server/src/lib.rs:2230-2230 migrate: sessions *)
Record SessionRow : Type := mkSessionRow {
  se_client_id : string;
  se_provider : string;
  se_session_id : string;
  se_thread_id : string;
  se_first_seen_at_ms : Z;
  se_last_seen_at_ms : Z }.
(* src: src/crates/server/src/lib.rs:2231-2231 migrate: tasks *)
Record TaskRow : Type := mkTaskRow {
  tr_task_ref : string;
  tr_client_id : string;
  tr_provider : string;
  tr_session_id : string;
  tr_thread_id : string;
  tr_turn_id : string;
  tr_phase : TaskPhase;
  tr_terminal : option TerminalOutcome;
  tr_updated_at_ms : Z;
  tr_snapshot : TaskSnapshot }.
(* src: src/crates/server/src/lib.rs:2232-2232 migrate: codex_tasks *)
Record CodexTaskRow : Type := mkCodexTaskRow {
  ct_task_ref : string;
  ct_request_kind : string;
  ct_parent_turn_id : option string;
  ct_root_turn_id : option string }.
(** [attempts], [task_events], [errors] and [capture_gaps] have the same
    columns under other names; [attempts.ended_at_ms] is never written. *)
(* src: src/crates/server/src/lib.rs:2233-2237 migrate: attempts, task_events, errors, capture_gaps, http_exchanges *)
Record PayloadRow (T : Type) : Type := mkPayloadRow {
  pl_task_ref : string;
  pl_id : Uuid;
  pl_at_ms : Z;
  pl_payload : T }.
Arguments mkPayloadRow {T}.
Arguments pl_task_ref {T}.
Arguments pl_id {T}.
Arguments pl_at_ms {T}.
Arguments pl_payload {T}.
(* src: src/crates/server/src/lib.rs:2238-2238 migrate: heartbeats *)
Record HeartbeatRow : Type := mkHeartbeatRow {
  ht_heartbeat_id : Uuid;
  ht_client_id : string;
  ht_instance_id : Uuid;
  ht_observed_at_ms : Z;
  ht_queue_depth : Z;
  ht_active_task_count : Z;
  ht_capture_health : IntegrityState;
  ht_note : option string }.
(* src: src/crates/server/src/lib.rs:2239-2239 migrate: ingest_receipts *)
Record ReceiptRow : Type := mkReceiptRow {
  rc_client_id : string;
  rc_batch_id : Uuid;
  rc_payload_sha256 : string;
  rc_received_at_ms : Z }.
(* src: src/crates/server/src/lib.rs:2240-2240 migrate: commands *)
Record CommandRow : Type := mkCommandRow {
  cd_command_id : Uuid;
  cd_request_id : Uuid;
  cd_client_id : string;
  cd_status : string;
  cd_created_at_ms : Z;
  cd_delivered_at_ms : option Z;
  cd_completed_at_ms : option Z;
  cd_payload : ClientCommand }.
(* src: src/crates/server/src/lib.rs:2241-2241 migrate: content_requests *)
Record RequestRow : Type := mkRequestRow {
  rq_request_id : Uuid;
  rq_client_id : string;
  rq_task_ref : string;
  rq_session_id : string;
  rq_thread_id : string;
  rq_parts : list ContentPart;
  rq_created_at_ms : Z;
  rq_expires_at_ms : option Z;
  rq_completed_at_ms : option Z;
  rq_status : string;
  rq_outcome : option string }.
(* src: src/crates/server/src/lib.rs:2242-2242 migrate: content_manifests *)
Record ManifestRow : Type := mkManifestRow {
  mr_request_id : Uuid;
  mr_object_sha256 : string;
  mr_client_id : string;
  mr_manifest : ContentObjectManifest;
  mr_created_at_ms : Z }.
(* src: src/crates/server/src/lib.rs:2243-2243 migrate: content_chunks *)
Record ChunkRow : Type := mkChunkRow {
  ck_request_id : Uuid;
  ck_object_sha256 : string;
  ck_chunk_index : Z;
  ck_chunk_count : Z;
  ck_payload_sha256 : string;
  ck_payload_zstd : bytes;
  ck_is_last : bool;
  ck_received_at_ms : Z }.
(* src: src/crates/server/src/lib.rs:2244-2244 migrate: content_objects *)
Record ObjectRow : Type := mkObjectRow {
  ob_object_sha256 : string;
  ob_content_zstd : bytes;
  ob_uncompressed_bytes : Z;
  ob_compressed_bytes : Z;
  ob_created_at_ms : Z;
  ob_last_accessed_at_ms : Z }.
(* src: src/crates/server/src/lib.rs:2245-2245 migrate: content_links *)
Record LinkRow : Type := mkLinkRow {
  lk_request_id : Uuid;
  lk_object_sha256 : string;
  lk_client_id : string;
  lk_session_id : string;
  lk_thread_id : string;
  lk_manifest : ContentObjectManifest;
  lk_created_at_ms : Z;
  lk_last_accessed_at_ms : Z }.
(* src: src/crates/server/src/lib.rs:2246-2246 migrate: content_conversations *)
Record ConversationRow : Type := mkConversationRow {
  cv_client_id : string;
  cv_session_id : string;
  cv_thread_id : string;
  cv_last_requested_at_ms : Z }.

(** ** Tables and keys *)
Inductive Tab : Type :=
| Clients | ApiTokens | ClientInstances | Sessions | Tasks | CodexTasks
| Attempts | TaskEvents | Errors | CaptureGaps | HttpExchanges
| Heartbeats | IngestReceipts | Commands | ContentRequests | ContentManifests
| ContentChunks | ContentObjects | ContentLinks | ContentConversations.
#[export] Instance Tab_eq_dec : EqDecision Tab.
Proof. solve_decision. Defined.

(* src: src/crates/server/src/lib.rs:2225-2259 migrate *)
Definition Row (t : Tab) : Type :=
  match t with
  | Clients => ClientRow
  | ApiTokens => TokenRow
  | ClientInstances => InstanceRow
  | Sessions => SessionRow
  | Tasks => TaskRow
  | CodexTasks => CodexTaskRow
  | Attempts => PayloadRow AttemptRecord
  | TaskEvents => PayloadRow TaskEvent
  | Errors => PayloadRow ErrorRecord
  | CaptureGaps => PayloadRow CaptureGapRecord
  | HttpExchanges => PayloadRow string
  | Heartbeats => HeartbeatRow
  | IngestReceipts => ReceiptRow
  | Commands => CommandRow
  | ContentRequests => RequestRow
  | ContentManifests => ManifestRow
  | ContentChunks => ChunkRow
  | ContentObjects => ObjectRow
  | ContentLinks => LinkRow
  | ContentConversations => ConversationRow
  end.

Definition Key (t : Tab) : Type :=
  match t with
  | Clients | ApiTokens | Tasks | CodexTasks | ContentObjects => string
  | ClientInstances | Attempts | TaskEvents | Errors | CaptureGaps | HttpExchanges
  | Heartbeats | Commands | ContentRequests => Uuid
  | Sessions => string * string * string * string
  | IngestReceipts => string * Uuid
  | ContentManifests | ContentLinks => Uuid * string
  | ContentChunks => Uuid * string * Z
  | ContentConversations => string * string * string
  end.
#[export] Instance Key_eq_dec t : EqDecision (Key t).
Proof. destruct t; cbn; apply _. Defined.

(** The [PRIMARY KEY] columns. *)
(* src: src/crates/server/src/lib.rs:2225-2259 migrate *)
Definition row_key (t : Tab) : Row t -> Key t :=
  match t with
  | Clients => cl_client_id
  | ApiTokens => tk_token_hash
  | ClientInstances => in_instance_id
  | Sessions => fun r => (se_client_id r, se_provider r, se_session_id r, se_thread_id r)
  | Tasks => tr_task_ref
  | CodexTasks => ct_task_ref
  | Attempts => pl_id
  | TaskEvents => pl_id
  | Errors => pl_id
  | CaptureGaps => pl_id
  | HttpExchanges => pl_id
  | Heartbeats => ht_heartbeat_id
  | IngestReceipts => fun r => (rc_client_id r, rc_batch_id r)
  | Commands => cd_command_id
  | ContentRequests => rq_request_id
  | ContentManifests => fun r => (mr_request_id r, mr_object_sha256 r)
  | ContentChunks => fun r => (ck_request_id r, ck_object_sha256 r, ck_chunk_index r)
  | ContentObjects => ob_object_sha256
  | ContentLinks => fun r => (lk_request_id r, lk_object_sha256 r)
  | ContentConversations => fun r => (cv_client_id r, cv_session_id r, cv_thread_id r)
  end.

(** ** The schema *)
#[export] Instance server_schema : Schema Status Row Key row_key := {|
  tab_eq_dec := Tab_eq_dec; tab_key_eq_dec := Key_eq_dec; sql_conflict := INTERNAL_SERVER_ERROR |}.
Abbreviation Db := (Database Row).
Abbreviation Tx := (Transaction Row Status).
(** Statements outside a transaction: other requests may run between them. *)
Abbreviation Reads := (Statements Row Status).
(* src: src/crates/server/src/lib.rs:2225-2259 migrate *)
Definition db_empty : Db := no_rows.
Lemma db_wf_empty : db_wf db_empty.
Proof. apply no_rows_wf. Qed.

(** The laws of the reads, at this schema. *)
Abbreviation fetch_all_Ok := (@Sql.fetch_all_Ok Tab Status Row).
Abbreviation fetch_optional_Ok := (@Sql.fetch_optional_Ok Tab Status Row).
