(* ===== verification/Server.v ===== *)
(** * The server: tokens, ingest, queries, retention

    [src/crates/server/src/lib.rs] without the content endpoints (those are in
    ServerContent).  Every handler is the body of the Rust function, from the
    authorization to the response.  A writing handler is in the [Tx] of Db: its
    transaction, with the token lookup before it taken in the same step.  A
    query is in [Reads]: the token lookup, the visibility check and each fetch
    are statements of their own, and other requests may run between them.  The
    clock readings and fresh identifiers of a handler are its arguments. *)
From Stdlib Require Import ZArith Lia Sorting.Sorted Strings.Byte Strings.String.
From S2P Require Import Prelude RustStr Digest Types Fixtures Validation Codec Http1 Table Sql Db.
Local Open Scope string_scope.
Local Open Scope list_scope.
Local Open Scope Z_scope.

(* src: src/crates/server/src/lib.rs:45-45 CONTENT_CONVERSATION_LIMIT *)
Definition CONTENT_CONVERSATION_LIMIT : Z := 30.
(* src: src/crates/server/src/lib.rs:46-46 HEARTBEAT_RETENTION_MS *)
Definition HEARTBEAT_RETENTION_MS : Z := 30 * 24 * 60 * 60 * 1000.
(* src: src/crates/server/src/lib.rs:47-47 EPHEMERA_RETENTION_MS *)
Definition EPHEMERA_RETENTION_MS : Z := 180 * 24 * 60 * 60 * 1000.
(* src: src/crates/server/src/lib.rs:48-48 RECEIPT_RETENTION_MS *)
Definition RECEIPT_RETENTION_MS : Z := 400 * 24 * 60 * 60 * 1000.

(** ** Roles and principals *)
(* src: src/crates/server/src/lib.rs:161-165 TokenRoleArg *)
Inductive TokenRoleArg : Type :=
| TokenRoleArg_Client | TokenRoleArg_Reader | TokenRoleArg_Admin.
(* src: src/crates/server/src/lib.rs:259-263 TokenRole *)
Inductive TokenRole : Type :=
| TokenRole_Client | TokenRole_Reader | TokenRole_Admin.
(* src: src/crates/server/src/lib.rs:266-272 TokenRole::from *)
Definition TokenRole_from (value : TokenRoleArg) : TokenRole :=
  match value with
  | TokenRoleArg_Client => TokenRole_Client
  | TokenRoleArg_Reader => TokenRole_Reader
  | TokenRoleArg_Admin => TokenRole_Admin
  end.
(* src: src/crates/server/src/lib.rs:276-282 TokenRole::as_str *)
Definition role_as_str (r : TokenRole) : string :=
  match r with
  | TokenRole_Client => "client"
  | TokenRole_Reader => "reader"
  | TokenRole_Admin => "admin"
  end.
(* src: src/crates/server/src/lib.rs:284-291 TokenRole::from_db *)
Definition from_db (value : string) : option TokenRole :=
  if String.eqb value "client" then Some TokenRole_Client
  else if String.eqb value "reader" then Some TokenRole_Reader
  else if String.eqb value "admin" then Some TokenRole_Admin
  else None.
(* src: src/crates/server/src/lib.rs:293-295 TokenRole::can_ingest *)
Definition can_ingest (r : TokenRole) : bool :=
  match r with TokenRole_Client => true | _ => false end.
(* src: src/crates/server/src/lib.rs:297-299 TokenRole::can_query *)
Definition can_query (r : TokenRole) : bool :=
  match r with TokenRole_Reader | TokenRole_Admin => true | _ => false end.
(* src: src/crates/server/src/lib.rs:301-303 TokenRole::is_admin *)
Definition is_admin (r : TokenRole) : bool :=
  match r with TokenRole_Admin => true | _ => false end.
(* src: src/crates/server/src/lib.rs:307-310 Principal *)
Record Principal : Type := mkPrincipal {
  pr_client_id : string;
  pr_role : TokenRole }.

(* src: src/crates/server/src/lib.rs:319-322 ConflictBody *)
Record ConflictBody : Type := mkConflictBody {
  cb_error : string;
  cb_detail : string }.
(* src: src/crates/server/src/lib.rs:330-333 SessionQuery *)
Record SessionQuery : Type := mkSessionQuery {
  sq_provider : option string;
  sq_thread_id : option string }.
(** The two [IntoResponse] shapes of [ingest]: [(CONFLICT, ConflictBody)] and
    [(OK, IngestAck)]. *)
(* src: src/crates/server/src/lib.rs:671-699 ingest: responses *)
Inductive IngestResponse : Type :=
| IngestConflict (b : ConflictBody)
| IngestAccepted (a : IngestAck).

Section server.
Context `{UuidApi} `{DigestApi} `{CborApi} `{ZstdApi} `{HttpApi}.

(* src: src/crates/server/src/lib.rs:2312-2314 hash_token *)
Definition hash_token (token : string) : string := sha256_hex (as_bytes token).

(* src: src/crates/server/src/lib.rs:1459-1473 ensure_client_exists *)
Definition ensure_client_exists (client_id : string) (now : Z) : Tx unit :=
  insert_or_update Clients (mkClientRow client_id now) (fun old => old).

(* src: src/crates/server/src/lib.rs:1475-1496 upsert_token *)
Definition upsert_token (client_id token : string) (role : TokenRole) (now : Z) : Tx unit :=
  insert_or_update ApiTokens
    (mkTokenRow (hash_token token) client_id (role_as_str role) now None)
    (fun old => mkTokenRow (tk_token_hash old) client_id (role_as_str role)
                  (tk_created_at_ms old) None).

(** The database effect of the two token commands; [issue_token] reads the
    clock twice. *)
(* src: src/crates/server/src/lib.rs:435-455 issue_token *)
Definition issue_token (client_id token : string) (role : option TokenRoleArg) (admin : bool)
    (now1 now2 : Z) : Tx unit :=
  let role := if admin then TokenRole_Admin
              else TokenRole_from (unwrap_or TokenRoleArg_Client role) in
  _ ← ensure_client_exists client_id now1;
  upsert_token client_id token role now2.
(* src: src/crates/server/src/lib.rs:457-468 revoke_token *)
Definition revoke_token (token : string) (now : Z) : Tx unit :=
  update ApiTokens (fun r => String.eqb (tk_token_hash r) (hash_token token))
    (fun r => mkTokenRow (tk_token_hash r) (tk_client_id r) (tk_role r) (tk_created_at_ms r)
                (Some now)).

(* src: src/crates/server/src/lib.rs:1498-1521 authorize *)
Definition authorize (headers : HeaderMap) : Tx Principal :=
  token ← some_or UNAUTHORIZED
    ((header_map_get headers "authorization" ≫= to_str) ≫= strip_prefix "Bearer ");
  row ← fetch_optional ApiTokens
    (fun r => String.eqb (tk_token_hash r) (hash_token token) && is_none (tk_revoked_at_ms r));
  row ← some_or UNAUTHORIZED row;
  role ← some_or FORBIDDEN (from_db (tk_role row));
  mret (mkPrincipal (tk_client_id row) role).

(* src: src/crates/server/src/lib.rs:1523-1529 ensure_client_role *)
Definition ensure_client_role (p : Principal) : Tx unit :=
  require (can_ingest (pr_role p)) FORBIDDEN.
(* src: src/crates/server/src/lib.rs:1531-1537 ensure_query_role *)
Definition ensure_query_role (p : Principal) : result Status unit :=
  guard_or (can_query (pr_role p)) FORBIDDEN.
(* src: src/crates/server/src/lib.rs:1539-1545 ensure_admin_role *)
Definition ensure_admin_role (p : Principal) : Tx unit :=
  require (is_admin (pr_role p)) FORBIDDEN.
(* src: src/crates/server/src/lib.rs:1547-1564 ensure_task_visible *)
Definition ensure_task_visible (p : Principal) (task_ref : string) : Tx unit :=
  row ← fetch_optional Tasks (fun r => String.eqb (tr_task_ref r) task_ref);
  row ← some_or NOT_FOUND row;
  require (is_admin (pr_role p) || String.eqb (tr_client_id row) (pr_client_id p)) FORBIDDEN.

(** ** Ingest *)
(* src: src/crates/server/src/lib.rs:1566-1591 persist_client *)
Definition persist_client (batch : IngestBatch) : Tx unit :=
  let c := ib_client batch in
  _ ← ensure_client_exists (ci_client_id c) (ib_generated_at_ms batch);
  insert_or_update ClientInstances
    (mkInstanceRow (ci_instance_id c) (ci_client_id c) (ci_hostname c) (ci_platform c)
       (ci_codex_version c) (ci_started_at_ms c) (ib_generated_at_ms batch))
    (fun old => mkInstanceRow (in_instance_id old) (in_client_id old) (ci_hostname c)
                  (ci_platform c) (ci_codex_version c) (in_started_at_ms old)
                  (ib_generated_at_ms batch)).

(** The statement built for one of the payload tables: [as_row] is the identity
    at a table that has the payload columns. *)
(* src: src/crates/server/src/lib.rs:1712-1742 upsert_payloads *)
Definition upsert_payloads {T} (t : Tab) (as_row : PayloadRow T -> Row t) (task_ref : string)
    (items : list T) (id_fn : T -> Uuid) (ts_fn : T -> Z) : Tx unit :=
  tx_iter (fun item =>
    let r := as_row (mkPayloadRow task_ref (id_fn item) (ts_fn item) item) in
    insert_or_update t r (fun _ => r)) items.

(* src: src/crates/server/src/lib.rs:1593-1710 persist_task_upload *)
Definition persist_task_upload (client_id : string) (upload : TaskUpload) : Tx unit :=
  let snapshot := tu_snapshot upload in
  let identity := ts_identity snapshot in
  let codex := ts_codex snapshot in
  _ ← insert_or_update Sessions
        (mkSessionRow client_id (ti_provider identity) (ti_session_id identity)
           (ti_thread_id identity) (ts_started_at_ms snapshot) (ts_updated_at_ms snapshot))
        (fun old => mkSessionRow (se_client_id old) (se_provider old) (se_session_id old)
                      (se_thread_id old) (se_first_seen_at_ms old) (ts_updated_at_ms snapshot));
  let task := mkTaskRow (ts_task_ref snapshot) client_id (ti_provider identity)
                (ti_session_id identity) (ti_thread_id identity) (ti_turn_id identity)
                (ts_phase snapshot) (ts_terminal snapshot) (ts_updated_at_ms snapshot) snapshot in
  _ ← insert_or_update Tasks task (fun _ => task);
  let codex_task := mkCodexTaskRow (ts_task_ref snapshot) (cm_request_kind codex)
                      (cm_parent_turn_id codex) (cm_root_turn_id codex) in
  _ ← insert_or_update CodexTasks codex_task (fun _ => codex_task);
  _ ← upsert_payloads Attempts id (ts_task_ref snapshot) (tu_attempts upload)
        ar_attempt_id ar_started_at_ms;
  _ ← upsert_payloads TaskEvents id (ts_task_ref snapshot) (tu_events upload)
        te_event_id te_occurred_at_ms;
  _ ← upsert_payloads Errors id (ts_task_ref snapshot) (tu_errors upload)
        er_error_id er_occurred_at_ms;
  upsert_payloads CaptureGaps id (ts_task_ref snapshot) (tu_gaps upload)
    gr_gap_id gr_occurred_at_ms.

(* src: src/crates/server/src/lib.rs:1744-1765 persist_heartbeat *)
Definition persist_heartbeat (h : Heartbeat) : Tx unit :=
  insert Heartbeats
    (mkHeartbeatRow (hb_heartbeat_id h) (hb_client_id h) (hb_instance_id h) (hb_observed_at_ms h)
       (hb_queue_depth h) (hb_active_task_count h) (hb_capture_health h) (hb_note h)).

(* src: src/crates/server/src/lib.rs:651-657 ingest: decoding *)
Definition decode_body (body : bytes) : result Status DecodedBatch :=
  match decode_batch_with_payload body with
  | Ok decoded => Ok decoded
  | Err CodecError_PayloadTooLarge => Err PAYLOAD_TOO_LARGE
  | Err _ => Err BAD_REQUEST
  end.

(* src: src/crates/server/src/lib.rs:643-736 ingest *)
Definition ingest (now : Z) (headers : HeaderMap) (body : bytes) : Tx IngestResponse :=
  principal ← authorize headers;
  _ ← ensure_client_role principal;
  decoded ← tx_lift (decode_body body);
  let batch := db_batch decoded in
  let client_id := ci_client_id (ib_client batch) in
  _ ← require (String.eqb client_id (pr_client_id principal)) FORBIDDEN;
  existing ← fetch_optional IngestReceipts
    (fun r => String.eqb (rc_client_id r) (pr_client_id principal)
              && bool_decide (rc_batch_id r = ib_batch_id batch));
  match existing with
  | Some row =>
    if String.eqb (rc_payload_sha256 row) (db_payload_sha256 decoded)
    then mret (IngestAccepted (mkIngestAck (ib_batch_id batch) (rc_payload_sha256 row) 0 0 true))
    else mret (IngestConflict (mkConflictBody "ingest_conflict"
                ("batch_id " +:+ uuid_to_string (ib_batch_id batch)
                   +:+ " reused with different payload")))
  | None =>
    _ ← persist_client batch;
    _ ← tx_iter (persist_task_upload client_id) (ib_tasks batch);
    _ ← tx_iter persist_heartbeat (ib_heartbeats batch);
    _ ← insert IngestReceipts
          (mkReceiptRow (pr_client_id principal) (ib_batch_id batch) (db_payload_sha256 decoded) now);
    mret (IngestAccepted
      (mkIngestAck (ib_batch_id batch) (db_payload_sha256 decoded)
         (wrap32 (Z.of_nat (length (ib_tasks batch))))
         (wrap32 (Z.of_nat (length (ib_heartbeats batch)))) false))
  end.

(** ** Queries *)
(* src: src/crates/server/src/lib.rs:2186-2194 fetch_snapshot *)
Definition fetch_snapshot (task_ref : string) : Tx TaskSnapshot :=
  row ← fetch_optional Tasks (fun r => String.eqb (tr_task_ref r) task_ref);
  row ← some_or INTERNAL_SERVER_ERROR row;
  mret (tr_snapshot row).
(* src: src/crates/server/src/lib.rs:2196-2207 fetch_payloads *)
Definition fetch_payloads {T} (t : Tab) (of_row : Row t -> PayloadRow T) (task_ref : string)
    : Tx (list T) :=
  rows ← fetch_all t (fun r => String.eqb (pl_task_ref (of_row r)) task_ref);
  mret (map (fun r => pl_payload (of_row r)) rows).

(** [?n IS NULL OR column=?n]; a [NULL] column equals nothing. *)
Definition sql_opt_eq {A} `{EqDecision A} (q : option A) (column : A) : bool :=
  match q with None => true | Some v => bool_decide (column = v) end.
Definition sql_opt_eq_null {A} `{EqDecision A} (q : option A) (column : option A) : bool :=
  match q with None => true | Some v => bool_decide (column = Some v) end.

(** [ORDER BY updated_at_ms DESC, task_ref DESC]. *)
(* src: src/crates/server/src/lib.rs:1158-1158 list_tasks_inner: ORDER BY *)
Definition newest_first (a b : TaskRow) : bool :=
  (tr_updated_at_ms b <? tr_updated_at_ms a)
  || ((tr_updated_at_ms b =? tr_updated_at_ms a) && text_le (tr_task_ref b) (tr_task_ref a)).

(* src: src/crates/server/src/lib.rs:1153-1157 list_tasks_inner: WHERE *)
Definition list_matches (q : TaskListQuery) (r : TaskRow) : bool :=
  sql_opt_eq (lq_client_id q) (tr_client_id r)
  && sql_opt_eq (lq_provider q) (tr_provider r)
  && sql_opt_eq (lq_session_id q) (tr_session_id r)
  && sql_opt_eq (lq_phase q) (tr_phase r)
  && sql_opt_eq_null (lq_terminal q) (tr_terminal r).
(* src: src/crates/server/src/lib.rs:1178-1178 list_tasks_inner: LIMIT *)
Definition list_limit (q : TaskListQuery) : Z := Z.min (unwrap_or 100 (lq_limit q)) 500.

(* src: src/crates/server/src/lib.rs:1134-1200 list_tasks_inner *)
Definition list_tasks_inner (principal : Principal) (query : TaskListQuery)
    : Tx TaskListResponse :=
  _ ← tx_lift (ensure_query_role principal);
  query ← (if is_admin (pr_role principal) then mret query
           else if is_some_and (fun c => negb (String.eqb c (pr_client_id principal)))
                     (lq_client_id query)
           then throw FORBIDDEN
           else mret (mkTaskListQuery (Some (pr_client_id principal)) (lq_provider query)
                        (lq_session_id query) (lq_phase query) (lq_terminal query)
                        (lq_cursor query) (lq_limit query)) : Tx TaskListQuery);
  rows ← fetch_all Tasks (list_matches query);
  let rows := take (Z.to_nat (list_limit query)) (order_by newest_first rows) in
  let tasks := map tr_snapshot rows in
  let next_cursor :=
    if Z.of_nat (length tasks) =? list_limit query
    then (fun row => show_Z (tr_updated_at_ms row) +:+ ":" +:+ tr_task_ref row) <$> last rows
    else None in
  mret (mkTaskListResponse tasks next_cursor).

(* src: src/crates/server/src/lib.rs:1202-1231 task_detail_inner *)
Definition task_detail_inner (principal : Principal) (task_ref : string) : Reads TaskDetail :=
  _ ← st_lift (ensure_query_role principal);
  _ ← statement (ensure_task_visible principal task_ref);
  snapshot ← statement (fetch_snapshot task_ref);
  attempts ← statement (fetch_payloads Attempts id task_ref);
  events ← statement (fetch_payloads TaskEvents id task_ref);
  errors ← statement (fetch_payloads Errors id task_ref);
  gaps ← statement (fetch_payloads CaptureGaps id task_ref);
  mret (mkTaskDetail snapshot attempts events errors gaps).
(* src: src/crates/server/src/lib.rs:1233-1243 task_attempts_inner *)
Definition task_attempts_inner (principal : Principal) (task_ref : string)
    : Reads (list AttemptRecord) :=
  _ ← st_lift (ensure_query_role principal);
  _ ← statement (ensure_task_visible principal task_ref);
  statement (fetch_payloads Attempts id task_ref).
(* src: src/crates/server/src/lib.rs:1245-1256 task_events_inner *)
Definition task_events_inner (principal : Principal) (task_ref : string) : Reads EventListResponse :=
  _ ← st_lift (ensure_query_role principal);
  _ ← statement (ensure_task_visible principal task_ref);
  events ← statement (fetch_payloads TaskEvents id task_ref);
  mret (mkEventListResponse events).
(* src: src/crates/server/src/lib.rs:1258-1269 task_errors_inner *)
Definition task_errors_inner (principal : Principal) (task_ref : string) : Reads ErrorListResponse :=
  _ ← st_lift (ensure_query_role principal);
  _ ← statement (ensure_task_visible principal task_ref);
  errors ← statement (fetch_payloads Errors id task_ref);
  mret (mkErrorListResponse errors).

(* src: src/crates/server/src/lib.rs:1271-1302 capture_health_inner *)
Definition capture_health_inner (principal : Principal) (client_id : string)
    : Tx CaptureHealthResponse :=
  _ ← tx_lift (ensure_query_role principal);
  _ ← require (is_admin (pr_role principal) || String.eqb (pr_client_id principal) client_id)
        FORBIDDEN;
  rows ← fetch_all Heartbeats (fun r => String.eqb (ht_client_id r) client_id);
  row ← some_or NOT_FOUND
          (head (order_by (fun a b => ht_observed_at_ms b <=? ht_observed_at_ms a) rows));
  mret (mkCaptureHealthResponse client_id (ht_instance_id row) (ht_observed_at_ms row)
          (ht_capture_health row)).

(** The first element of the [BTreeSet] of [x :: l]. *)
Definition btree_first (x : string) (l : list string) : string :=
  fold_left (fun m y => if text_le m y then m else y) l x.

(* src: src/crates/server/src/lib.rs:1304-1373 session_detail_inner *)
Definition session_detail_inner (principal : Principal) (client_id session_id : string)
    (query : SessionQuery) : Tx SessionDetail :=
  _ ← tx_lift (ensure_query_role principal);
  _ ← require (is_admin (pr_role principal) || String.eqb (pr_client_id principal) client_id)
        FORBIDDEN;
  rows ← fetch_all Tasks (fun r =>
    String.eqb (tr_client_id r) client_id && String.eqb (tr_session_id r) session_id
    && sql_opt_eq (sq_provider query) (tr_provider r)
    && sql_opt_eq (sq_thread_id query) (tr_thread_id r));
  match order_by newest_first rows with
  | [] => throw NOT_FOUND
  | row :: rows' =>
    let rows := row :: rows' in
    _ ← require (negb (is_none (sq_provider query)
                       && (1 <? length (remove_dups (map tr_provider rows)))%nat)) BAD_REQUEST;
    _ ← require (negb (is_none (sq_thread_id query)
                       && (1 <? length (remove_dups (map tr_thread_id rows)))%nat)) BAD_REQUEST;
    let provider := unwrap_or (btree_first (tr_provider row) (map tr_provider rows'))
                      (sq_provider query) in
    let thread_id := unwrap_or (btree_first (tr_thread_id row) (map tr_thread_id rows'))
                       (sq_thread_id query) in
    let tasks := map tr_snapshot rows in
    mret (mkSessionDetail client_id provider session_id thread_id
            (head (omap ts_conversation_title tasks)) tasks)
  end.

(** The HTTP handlers: the authorization is a statement, the functions above
    the next ones. *)
(* src: src/crates/server/src/lib.rs:1062-1070 list_tasks *)
Definition list_tasks (headers : HeaderMap) (query : TaskListQuery) : Reads TaskListResponse :=
  principal ← statement (authorize headers); statement (list_tasks_inner principal query).
(* src: src/crates/server/src/lib.rs:1072-1080 task_detail *)
Definition task_detail (headers : HeaderMap) (task_ref : string) : Reads TaskDetail :=
  principal ← statement (authorize headers); task_detail_inner principal task_ref.
(* src: src/crates/server/src/lib.rs:1082-1090 task_attempts *)
Definition task_attempts (headers : HeaderMap) (task_ref : string) : Reads (list AttemptRecord) :=
  principal ← statement (authorize headers); task_attempts_inner principal task_ref.
(* src: src/crates/server/src/lib.rs:1092-1100 task_events *)
Definition task_events (headers : HeaderMap) (task_ref : string) : Reads EventListResponse :=
  principal ← statement (authorize headers); task_events_inner principal task_ref.
(* src: src/crates/server/src/lib.rs:1102-1110 task_errors *)
Definition task_errors (headers : HeaderMap) (task_ref : string) : Reads ErrorListResponse :=
  principal ← statement (authorize headers); task_errors_inner principal task_ref.
(* src: src/crates/server/src/lib.rs:1112-1120 capture_health *)
Definition capture_health (headers : HeaderMap) (client_id : string) : Reads CaptureHealthResponse :=
  principal ← statement (authorize headers); statement (capture_health_inner principal client_id).
(* src: src/crates/server/src/lib.rs:1122-1132 session_detail *)
Definition session_detail (headers : HeaderMap) (client_id session_id : string)
    (query : SessionQuery) : Reads SessionDetail :=
  principal ← statement (authorize headers); statement (session_detail_inner principal client_id session_id query).

(** ** Retention *)
(* src: src/crates/server/src/lib.rs:2261-2287 cleanup_retention *)
Definition cleanup_retention (now : Z) : Tx unit :=
  _ ← delete_from Heartbeats (fun r => ht_observed_at_ms r <? now - HEARTBEAT_RETENTION_MS);
  _ ← delete_from IngestReceipts (fun r => rc_received_at_ms r <? now - RECEIPT_RETENTION_MS);
  _ ← delete_from TaskEvents (fun r => pl_at_ms r <? now - EPHEMERA_RETENTION_MS);
  _ ← delete_from Errors (fun r => pl_at_ms r <? now - EPHEMERA_RETENTION_MS);
  _ ← delete_from CaptureGaps (fun r => pl_at_ms r <? now - EPHEMERA_RETENTION_MS);
  delete_from HttpExchanges (fun r => pl_at_ms r <? now - EPHEMERA_RETENTION_MS).

(** ** Structure: keys, and the tables each handler touches *)
Lemma authorize_rel R `{!PreOrder R} headers : tx_rel R (authorize headers).
Proof. unfold authorize. tx_walk. Qed.
#[local] Hint Extern 1 (tx_rel _ (authorize _)) => apply authorize_rel; typeclasses eauto : tx.
Lemma upsert_payloads_wf {T} t (as_row : PayloadRow T -> Row t) tref items id_fn ts_fn :
  tx_rel (keeps db_wf) (upsert_payloads t as_row tref items id_fn ts_fn).
Proof. unfold upsert_payloads. tx_walk. Qed.
#[local] Hint Resolve upsert_payloads_wf : tx.
Lemma persist_task_upload_wf c u : tx_rel (keeps db_wf) (persist_task_upload c u).
Proof. unfold persist_task_upload. tx_walk. Qed.
#[local] Hint Resolve persist_task_upload_wf : tx.
Lemma ingest_wf now headers body : tx_rel (keeps db_wf) (ingest now headers body).
Proof. unfold ingest, persist_client, ensure_client_exists, persist_heartbeat. tx_walk. Qed.

(** The tables [ingest] writes. *)
Definition ingest_tables : list Tab :=
  [Clients; ClientInstances; Sessions; Tasks; CodexTasks; Attempts; TaskEvents; Errors;
   CaptureGaps; Heartbeats; IngestReceipts].
Lemma upsert_payloads_frame {T} ts t (as_row : PayloadRow T -> Row t) tref items id_fn ts_fn :
  t ∈ ts -> tx_rel (frame ts) (upsert_payloads t as_row tref items id_fn ts_fn).
Proof. intros ?. unfold upsert_payloads. tx_walk. Qed.
#[local] Hint Extern 2 (tx_rel (frame _) (upsert_payloads _ _ _ _ _ _)) =>
  apply upsert_payloads_frame; set_solver : tx.
Lemma ingest_frame now headers body : tx_rel (frame ingest_tables) (ingest now headers body).
Proof.
  unfold ingest, persist_client, ensure_client_exists, persist_heartbeat, persist_task_upload.
  tx_walk.
Qed.

(** ** Authorization *)

(** What [authorize] reads, as a function of the token table. *)
Definition bearer (headers : HeaderMap) : option string :=
  (header_map_get headers "authorization" ≫= to_str) ≫= strip_prefix "Bearer ".
Definition live_token (token : string) (tokens : list TokenRow) : option TokenRow :=
  List.find (fun r => String.eqb (tk_token_hash r) (hash_token token)
                      && is_none (tk_revoked_at_ms r)) tokens.
Definition auth_of (headers : HeaderMap) (tokens : list TokenRow) : result Status Principal :=
  token ← ok_or UNAUTHORIZED (bearer headers);
  row ← ok_or UNAUTHORIZED (live_token token tokens);
  role ← ok_or FORBIDDEN (from_db (tk_role row));
  mret (mkPrincipal (tk_client_id row) role).

Lemma authorize_eq headers db :
  authorize headers db = (fun p => (p, db)) <$> auth_of headers (db ApiTokens).
Proof.
  unfold authorize, auth_of. fold (bearer headers).
  destruct (bearer headers) as [token|]; [|reflexivity].
  unfold mbind, tx_bind, some_or, tx_lift, fetch_optional. cbn [ok_or mbind result_bind].
  change (List.find _ (db ApiTokens)) with (live_token token (db ApiTokens)).
  destruct (live_token token (db ApiTokens)) as [row|]; [|reflexivity]. cbn.
  by destruct (from_db (tk_role row)).
Qed.
Lemma authorize_Ok headers db p db' :
  authorize headers db = Ok (p, db') <-> auth_of headers (db ApiTokens) = Ok p /\ db' = db.
Proof.
  rewrite authorize_eq. destruct (auth_of headers (db ApiTokens)); cbn.
  - split; [by intros [= -> ->] | by intros [[= ->] ->]].
  - split; [done | by intros [? _]].
Qed.

(** An accepted token is a stored, unrevoked one, and the principal is its row. *)
Lemma auth_of_Ok headers tokens p :
  auth_of headers tokens = Ok p ->
  exists token row, bearer headers = Some token /\ row ∈ tokens
    /\ tk_token_hash row = hash_token token /\ tk_revoked_at_ms row = None
    /\ tk_client_id row = pr_client_id p /\ from_db (tk_role row) = Some (pr_role p).
Proof.
  unfold auth_of. intros H0'. apply bind_Ok in H0' as (token & Ht%ok_or_Ok & H0').
  apply bind_Ok in H0' as (row & Hr%ok_or_Ok & H0').
  apply bind_Ok in H0' as (role & Hrole%ok_or_Ok & [= <-]).
  apply find_some in Hr as [Hin Hp]. apply andb_true_iff in Hp as [Hh%String.eqb_eq Hn].
  exists token, row. rewrite list_elem_of_In.
  destruct (tk_revoked_at_ms row); [discriminate Hn | done].
Qed.
Lemma from_as_str r : from_db (role_as_str r) = Some r.
Proof. by destruct r. Qed.

(** ** Ingest is exactly once *)

Definition batch_client (d : DecodedBatch) : string := ci_client_id (ib_client (db_batch d)).
Definition batch_id (d : DecodedBatch) : Uuid := ib_batch_id (db_batch d).

Lemma receipt_lookup c i (t : list ReceiptRow) :
  List.find (fun r => String.eqb (rc_client_id r) c && bool_decide (rc_batch_id r = i)) t
  = find_key (row_key IngestReceipts) (c, i) t.
Proof.
  apply find_ext. intros r. cbn. destruct (String.eqb_spec (rc_client_id r) c) as [->|Hne]; cbn.
  - apply bool_decide_ext. split; [by intros -> | by intros [= ->]].
  - symmetry. apply bool_decide_eq_false. congruence.
Qed.

(** A successful ingest: who asked, what was sent, and which of the three
    branches was taken. *)
Lemma ingest_inv now headers body db resp db' :
  ingest now headers body db = Ok (resp, db') ->
  exists p d, auth_of headers (db ApiTokens) = Ok p /\ can_ingest (pr_role p) = true
    /\ decode_body body = Ok d /\ batch_client d = pr_client_id p
    /\ match find_key (row_key IngestReceipts) (batch_client d, batch_id d) (db IngestReceipts) with
       | Some row => db' = db /\ resp =
           if String.eqb (rc_payload_sha256 row) (db_payload_sha256 d)
           then IngestAccepted (mkIngestAck (batch_id d) (rc_payload_sha256 row) 0 0 true)
           else IngestConflict (mkConflictBody "ingest_conflict"
                 ("batch_id " +:+ uuid_to_string (batch_id d) +:+ " reused with different payload"))
       | None => exists db1 db2 db3,
           persist_client (db_batch d) db = Ok (tt, db1)
           /\ tx_iter (persist_task_upload (batch_client d)) (ib_tasks (db_batch d)) db1 = Ok (tt, db2)
           /\ tx_iter persist_heartbeat (ib_heartbeats (db_batch d)) db2 = Ok (tt, db3)
           /\ insert IngestReceipts
                (mkReceiptRow (batch_client d) (batch_id d) (db_payload_sha256 d) now) db3
              = Ok (tt, db')
           /\ resp = IngestAccepted (mkIngestAck (batch_id d) (db_payload_sha256 d)
                (wrap32 (Z.of_nat (length (ib_tasks (db_batch d)))))
                (wrap32 (Z.of_nat (length (ib_heartbeats (db_batch d))))) false)
       end.
Proof.
  unfold ingest. intros E.
  apply tx_bind_Ok in E as (p & ? & [Hp ->]%authorize_Ok & E).
  apply tx_bind_Ok in E as ([] & ? & [Hrole ->]%require_Ok & E).
  apply tx_bind_Ok in E as (d & ? & [Hd ->]%tx_lift_Ok & E).
  apply tx_bind_Ok in E as ([] & ? & [Hc%String.eqb_eq ->]%require_Ok & E).
  apply tx_bind_Ok in E as (row & ? & [-> ->]%(fetch_optional_Ok IngestReceipts) & E).
  exists p, d. do 4 (split; [done|]). cbn [Row] in E. rewrite receipt_lookup in E.
  unfold batch_client, batch_id. rewrite Hc.
  destruct (find_key _ _ _) as [row|].
  - destruct (String.eqb _ _); apply tx_ret_Ok in E as [-> ->]; done.
  - apply tx_bind_Ok in E as ([] & db1 & E1 & E).
    apply tx_bind_Ok in E as ([] & db2 & E2 & E).
    apply tx_bind_Ok in E as ([] & db3 & E3 & E).
    apply tx_bind_Ok in E as ([] & db4 & E4 & E).
    apply tx_ret_Ok in E as [-> ->]. rewrite Hc in E2. by exists db1, db2, db3.
Qed.

(** An accepted batch leaves its receipt. *)
Lemma ingest_receipt now headers body db ack db' d :
  ingest now headers body db = Ok (IngestAccepted ack, db') -> decode_body body = Ok d ->
  exists r, r ∈ db' IngestReceipts /\ row_key IngestReceipts r = (batch_client d, batch_id d)
    /\ rc_payload_sha256 r = db_payload_sha256 d.
Proof.
  intros (p & d' & _ & _ & Hd' & _ & E)%ingest_inv Hd.
  assert (d' = d) as -> by congruence.
  destruct (find_key _ _ _) as [row|] eqn:F.
  - apply find_key_Some in F as [Hin Hk]. destruct E as [-> E]. exists row.
    destruct (String.eqb_spec (rc_payload_sha256 row) (db_payload_sha256 d)); [done | discriminate E].
  - destruct E as (? & ? & ? & _ & _ & _ & [_ ->]%insert_Ok & _).
    exists (mkReceiptRow (batch_client d) (batch_id d) (db_payload_sha256 d) now).
    tab_simpl. split; [|done]. apply elem_of_app. right. by apply list_elem_of_singleton.
Qed.

(** The second of two uploads under one batch identifier. *)
Definition replay_response (first second : DecodedBatch) : IngestResponse :=
  if String.eqb (db_payload_sha256 first) (db_payload_sha256 second)
  then IngestAccepted (mkIngestAck (batch_id second) (db_payload_sha256 first) 0 0 true)
  else IngestConflict (mkConflictBody "ingest_conflict"
        ("batch_id " +:+ uuid_to_string (batch_id second) +:+ " reused with different payload")).

(** As long as the receipt of a batch is kept, a further upload of the same client
    under the same identifier is answered without a change. *)
Lemma ingest_replay d row now headers body db d' p :
  keyed (row_key IngestReceipts) (db IngestReceipts) -> row ∈ db IngestReceipts ->
  row_key IngestReceipts row = (batch_client d, batch_id d) -> rc_payload_sha256 row = db_payload_sha256 d ->
  auth_of headers (db ApiTokens) = Ok p -> can_ingest (pr_role p) = true ->
  decode_body body = Ok d' -> batch_client d' = pr_client_id p ->
  batch_client d' = batch_client d -> batch_id d' = batch_id d ->
  ingest now headers body db = Ok (replay_response d d', db).
Proof.
  intros Hkeyed Hr Hk Hsha Hp Hrole Hd' Hc' Hcc Hid.
  apply (find_key_elem _ _ _ Hkeyed) in Hr. rewrite Hk in Hr.
  unfold ingest. apply tx_bind_Ok. exists p, db. split; [by apply authorize_Ok|].
  apply tx_bind_Ok. exists tt, db. split; [by apply require_Ok|].
  apply tx_bind_Ok. exists d', db. split; [by apply tx_lift_Ok|].
  apply tx_bind_Ok. exists tt, db. split; [apply require_Ok; split; [by apply String.eqb_eq | done]|].
  apply tx_bind_Ok. exists (Some row), db. split.
  - apply (fetch_optional_Ok IngestReceipts). split; [|done]. cbn [Row]. rewrite receipt_lookup.
    rewrite <- Hc', Hcc. fold (batch_id d'). by rewrite Hid.
  - unfold replay_response. rewrite Hsha. by destruct (String.eqb _ _).
Qed.

(** ** What an accepted batch stores *)
Definition task_row (client_id : string) (u : TaskUpload) : TaskRow :=
  let s := tu_snapshot u in
  mkTaskRow (ts_task_ref s) client_id (ti_provider (ts_identity s)) (ti_session_id (ts_identity s))
    (ti_thread_id (ts_identity s)) (ti_turn_id (ts_identity s)) (ts_phase s) (ts_terminal s)
    (ts_updated_at_ms s) s.
Definition payload_rows {T} (u : TaskUpload) (items : list T) (id_fn : T -> Uuid) (ts_fn : T -> Z)
    : list (PayloadRow T) :=
  map (fun x => mkPayloadRow (ts_task_ref (tu_snapshot u)) (id_fn x) (ts_fn x) x) items.
(** The rows of an upload, table by table. *)
Definition upload_rows (client_id : string) (u : TaskUpload) (t : Tab) : list (Row t) :=
  match t with
  | Tasks => [task_row client_id u]
  | CodexTasks =>
    let c := ts_codex (tu_snapshot u) in
    [mkCodexTaskRow (ts_task_ref (tu_snapshot u)) (cm_request_kind c) (cm_parent_turn_id c)
       (cm_root_turn_id c)]
  | Attempts => payload_rows u (tu_attempts u) ar_attempt_id ar_started_at_ms
  | TaskEvents => payload_rows u (tu_events u) te_event_id te_occurred_at_ms
  | Errors => payload_rows u (tu_errors u) er_error_id er_occurred_at_ms
  | CaptureGaps => payload_rows u (tu_gaps u) gr_gap_id gr_occurred_at_ms
  | _ => []
  end.
Definition upload_tables : list Tab := [Tasks; CodexTasks; Attempts; TaskEvents; Errors; CaptureGaps].

Lemma upsert_payloads_rows {T} t (as_row : PayloadRow T -> Row t) tref items id_fn ts_fn db db' :
  upsert_payloads t as_row tref items id_fn ts_fn db = Ok (tt, db') ->
  db' t = puts (row_key t)
            (map (fun x => as_row (mkPayloadRow tref (id_fn x) (ts_fn x) x)) items) (db t).
Proof.
  unfold upsert_payloads. revert db. induction items as [|x items IH]; intros db.
  - by intros [_ ->]%tx_ret_Ok.
  - cbn [tx_iter]. intros ([] & db1 & ->%insert_or_update_Ok & E)%tx_bind_Ok.
    apply IH in E as ->. by tab_simpl.
Qed.

Lemma persist_task_upload_rows c u db db' :
  persist_task_upload c u db = Ok (tt, db') ->
  forall t, t ∈ upload_tables -> db' t = puts (row_key t) (upload_rows c u t) (db t).
Proof.
  unfold persist_task_upload. intros E.
  apply tx_bind_Ok in E as ([] & db1 & ->%insert_or_update_Ok & E).
  apply tx_bind_Ok in E as ([] & db2 & ->%insert_or_update_Ok & E).
  apply tx_bind_Ok in E as ([] & db3 & ->%insert_or_update_Ok & E).
  apply tx_bind_Ok in E as ([] & db4 & E1 & E).
  apply tx_bind_Ok in E as ([] & db5 & E2 & E).
  apply tx_bind_Ok in E as ([] & db6 & E3 & E).
  pose proof (upsert_payloads_rows _ _ _ _ _ _ _ _ E1) as R1.
  pose proof (upsert_payloads_rows _ _ _ _ _ _ _ _ E2) as R2.
  pose proof (upsert_payloads_rows _ _ _ _ _ _ _ _ E3) as R3.
  pose proof (upsert_payloads_rows _ _ _ _ _ _ _ _ E) as R4.
  apply (upsert_payloads_frame [Attempts]) in E1; [|set_solver].
  apply (upsert_payloads_frame [TaskEvents]) in E2; [|set_solver].
  apply (upsert_payloads_frame [Errors]) in E3; [|set_solver].
  apply (upsert_payloads_frame [CaptureGaps]) in E; [|set_solver].
  intros t. unfold upload_tables. rewrite !elem_of_cons, elem_of_nil.
  intros [->|[->|[->|[->|[->|[->|[]]]]]]];
    rewrite ?R4, ?(E _) by set_solver; rewrite ?R3, ?(E3 _) by set_solver;
    rewrite ?R2, ?(E2 _) by set_solver; rewrite ?R1, ?(E1 _) by set_solver;
    tab_simpl; reflexivity.
Qed.

(** The rows of a batch, table by table. *)
Definition heartbeat_row (h : Heartbeat) : HeartbeatRow :=
  mkHeartbeatRow (hb_heartbeat_id h) (hb_client_id h) (hb_instance_id h) (hb_observed_at_ms h)
    (hb_queue_depth h) (hb_active_task_count h) (hb_capture_health h) (hb_note h).
Definition batch_rows (b : IngestBatch) (t : Tab) : list (Row t) :=
  match t with
  | Heartbeats => map heartbeat_row (ib_heartbeats b)
  | t => concat (map (fun u => upload_rows (ci_client_id (ib_client b)) u t) (ib_tasks b))
  end.
Definition batch_tables : list Tab := Heartbeats :: upload_tables.

Lemma persist_tasks_rows c us db db' :
  tx_iter (persist_task_upload c) us db = Ok (tt, db') ->
  forall t, t ∈ upload_tables ->
  db' t = puts (row_key t) (concat (map (fun u => upload_rows c u t) us)) (db t).
Proof.
  revert db. induction us as [|u us IH]; intros db; cbn [tx_iter].
  - by intros [_ ->]%tx_ret_Ok.
  - intros ([] & db1 & E1 & E)%tx_bind_Ok t Ht. cbn [map concat]. rewrite puts_app.
    by rewrite <- (persist_task_upload_rows _ _ _ _ E1 t Ht), (IH _ E t Ht).
Qed.
Lemma persist_heartbeats_rows hs db db' :
  tx_iter persist_heartbeat hs db = Ok (tt, db') -> db' Heartbeats = db Heartbeats ++ map heartbeat_row hs.
Proof.
  revert db. induction hs as [|h hs IH]; intros db; cbn [tx_iter map].
  - intros [_ ->]%tx_ret_Ok. by rewrite app_nil_r.
  - intros ([] & db1 & [_ ->]%insert_Ok & E)%tx_bind_Ok. rewrite (IH _ E). tab_simpl.
    by rewrite <- app_assoc.
Qed.

Definition client_tables : list Tab := [Clients; ClientInstances].
Lemma persist_client_frame b : tx_rel (frame client_tables) (persist_client b).
Proof. unfold persist_client, ensure_client_exists. tx_walk. Qed.
Lemma persist_tasks_frame c us :
  tx_rel (frame (Sessions :: upload_tables)) (tx_iter (persist_task_upload c) us).
Proof. unfold persist_task_upload. tx_walk. Qed.
Lemma persist_heartbeats_frame hs : tx_rel (frame [Heartbeats]) (tx_iter persist_heartbeat hs).
Proof. unfold persist_heartbeat. tx_walk. Qed.

(** The writes of a new batch, as equations on the tables. *)
Lemma persist_batch_rows b db db1 db2 db3 :
  persist_client b db = Ok (tt, db1) ->
  tx_iter (persist_task_upload (ci_client_id (ib_client b))) (ib_tasks b) db1 = Ok (tt, db2) ->
  tx_iter persist_heartbeat (ib_heartbeats b) db2 = Ok (tt, db3) ->
  keyed (row_key Heartbeats) (db3 Heartbeats) ->
  (forall t, t ∈ batch_tables -> db3 t = puts (row_key t) (batch_rows b t) (db t))
  /\ db3 IngestReceipts = db IngestReceipts.
Proof.
  intros E1 E2 E3 Hk. pose proof (persist_heartbeats_rows _ _ _ E3) as R3.
  pose proof (persist_tasks_rows _ _ _ _ E2) as R2.
  apply persist_client_frame in E1. apply persist_tasks_frame in E2.
  apply persist_heartbeats_frame in E3.
  assert (Hh : db2 Heartbeats = db Heartbeats) by (rewrite E2, E1 by set_solver; done).
  split; [|by rewrite E3, E2, E1 by set_solver].
  intros t [->|Ht]%elem_of_cons.
  - rewrite R3, Hh in *. symmetry. by apply insert_new_puts.
  - assert (Hn : t ∉ [Heartbeats] /\ t ∉ client_tables) by (unfold upload_tables, client_tables in *; set_solver).
    rewrite (E3 t), (R2 t Ht), (E1 t) by apply Hn. unfold upload_tables in Ht.
    rewrite !elem_of_cons, elem_of_nil in Ht. by destruct Ht as [->|[->|[->|[->|[->|[->|[]]]]]]].
Qed.

(** A new batch as writes to the tables. *)
Lemma ingest_puts now headers body db ack db' d :
  db_wf db -> ingest now headers body db = Ok (IngestAccepted ack, db') ->
  ak_duplicate ack = false -> decode_body body = Ok d ->
  (forall t, t ∈ batch_tables -> db' t = puts (row_key t) (batch_rows (db_batch d) t) (db t))
  /\ db' IngestReceipts
     = db IngestReceipts ++ [mkReceiptRow (batch_client d) (batch_id d) (db_payload_sha256 d) now].
Proof.
  intros Hwf E Hdup Hd. pose proof (ingest_wf _ _ _ _ _ _ E Hwf) as Hwf'.
  apply ingest_inv in E as (p & d' & _ & _ & Hd' & _ & E).
  assert (d' = d) as -> by congruence.
  destruct (find_key _ _ _) as [row|].
  { destruct E as [_ E]. destruct (String.eqb _ _); [injection E as ->|]; done. }
  destruct E as (db1 & db2 & db3 & E1 & E2 & E3 & [_ ->]%insert_Ok & _).
  destruct (persist_batch_rows _ _ _ _ _ E1 E2 E3) as [Hrows Hrec].
  { specialize (Hwf' Heartbeats). by tab_simpl_in Hwf'. }
  split; [|tab_simpl; by rewrite Hrec]. intros t Ht. rewrite <- Hrows by done.
  apply set_table_ne. intros <-. unfold batch_tables, upload_tables in Ht. set_solver.
Qed.

(** [C25] What a new batch leaves behind, under every key of the task, event,
    attempt, error, gap and heartbeat tables: the last row of the batch with
    that key if it has one, and otherwise the row that was there.  The tokens
    and the content tables are not touched, and one receipt is added. *)
Theorem ingest_stores now headers body db ack db' d :
  db_wf db -> ingest now headers body db = Ok (IngestAccepted ack, db') ->
  ak_duplicate ack = false -> decode_body body = Ok d ->
  (forall t k, t ∈ batch_tables ->
     find_key (row_key t) k (db' t)
     = opt_or (find_key (row_key t) k (rev (batch_rows (db_batch d) t))) (find_key (row_key t) k (db t)))
  /\ db' IngestReceipts
     = db IngestReceipts ++ [mkReceiptRow (batch_client d) (batch_id d) (db_payload_sha256 d) now]
  /\ frame ingest_tables db db'.
Proof.
  intros Hwf E Hdup Hd. pose proof (ingest_frame _ _ _ _ _ _ E) as Hframe.
  destruct (ingest_puts _ _ _ _ _ _ _ Hwf E Hdup Hd) as [Hrows Hrec].
  split; [|done]. intros t k Ht. by rewrite Hrows, puts_find.
Qed.

(** ** Queries *)
Lemma text_le_total a b : text_le a b = false -> text_le b a = true.
Proof. apply bytes_le_total. Qed.
Lemma text_le_trans a b c : text_le a b = true -> text_le b c = true -> text_le a c = true.
Proof. apply bytes_le_trans. Qed.
Lemma newest_first_total a b : newest_first a b = false -> newest_first b a = true.
Proof.
  unfold newest_first. rewrite orb_false_iff, orb_true_iff, andb_false_iff, andb_true_iff.
  rewrite Z.ltb_ge, Z.ltb_lt, Z.eqb_eq, Z.eqb_neq. intros [Hle [?|?%text_le_total]].
  - left. lia.
  - destruct (decide (tr_updated_at_ms a = tr_updated_at_ms b)); [by right | left; lia].
Qed.
Lemma newest_first_trans a b c :
  newest_first a b = true -> newest_first b c = true -> newest_first a c = true.
Proof.
  unfold newest_first. rewrite !orb_true_iff, !andb_true_iff, !Z.ltb_lt, !Z.eqb_eq.
  intros [?|[? ?]] [?|[? ?]]; [left; lia.. |]. right. split; [lia|]. by eapply text_le_trans.
Qed.

(** Queries change nothing. *)
#[local] Hint Extern 1 (tx_rel _ (authorize _)) => apply authorize_rel; typeclasses eauto : tx.
Lemma ensure_task_visible_Ok p tref db u db' :
  ensure_task_visible p tref db = Ok (u, db') <->
  db' = db /\ exists r, List.find (fun r => String.eqb (tr_task_ref r) tref) (db Tasks) = Some r
    /\ (is_admin (pr_role p) = true \/ tr_client_id r = pr_client_id p).
Proof.
  unfold ensure_task_visible. rewrite tx_bind_Ok. split.
  - intros (o & db1 & [-> ->]%(fetch_optional_Ok Tasks) & E).
    apply tx_bind_Ok in E as (r & db2 & [Hr ->]%some_or_Ok & [Hv ->]%require_Ok).
    split; [done|]. exists r. split; [done|].
    by apply orb_true_iff in Hv as [?|?%String.eqb_eq]; [left | right].
  - intros [-> (r & Hr & Hv)]. exists (Some r), db. split; [by apply (fetch_optional_Ok Tasks)|].
    apply tx_bind_Ok. exists r, db. split; [by apply some_or_Ok|]. apply require_Ok. split; [|done].
    apply orb_true_iff. by destruct Hv as [?|?%String.eqb_eq]; [left | right].
Qed.

(** The answer of a query endpoint. *)
Inductive Answer : Type :=
| AnswerList (r : TaskListResponse)
| AnswerDetail (d : TaskDetail)
| AnswerAttempts (l : list AttemptRecord)
| AnswerEvents (r : EventListResponse)
| AnswerErrors (r : ErrorListResponse)
| AnswerHealth (r : CaptureHealthResponse)
| AnswerSession (s : SessionDetail).
Inductive Query : Type :=
| QueryList (q : TaskListQuery)
| QueryDetail (tref : string)
| QueryAttempts (tref : string)
| QueryEvents (tref : string)
| QueryErrors (tref : string)
| QueryHealth (client_id : string)
| QuerySession (client_id session_id : string) (q : SessionQuery).
(** The query routes of [build_router]. *)
(* src: src/crates/server/src/lib.rs:393-425 build_router *)
Definition run_query (headers : HeaderMap) (q : Query) : Reads Answer :=
  match q with
  | QueryList q => r ← list_tasks headers q; mret (AnswerList r)
  | QueryDetail tref => r ← task_detail headers tref; mret (AnswerDetail r)
  | QueryAttempts tref => r ← task_attempts headers tref; mret (AnswerAttempts r)
  | QueryEvents tref => r ← task_events headers tref; mret (AnswerEvents r)
  | QueryErrors tref => r ← task_errors headers tref; mret (AnswerErrors r)
  | QueryHealth c => r ← capture_health headers c; mret (AnswerHealth r)
  | QuerySession c s q => r ← session_detail headers c s q; mret (AnswerSession r)
  end.

(** What a principal may be shown. *)
Definition may_see (p : Principal) (client_id : string) : Prop :=
  is_admin (pr_role p) = true \/ client_id = pr_client_id p.
(** The payloads stored under a task reference, whoever stored them. *)
Definition stored {T} (t : Tab) (of_row : Row t -> PayloadRow T) (tref : string) (db : Db)
    : list T :=
  map (fun r => pl_payload (of_row r))
    (select (fun r => String.eqb (pl_task_ref (of_row r)) tref) (db t)).
(** The task was there, for this principal to see, when it was looked at. *)
Definition was_visible (db : Db) (p : Principal) (tref : string) : Prop :=
  exists row, row ∈ db Tasks /\ tr_task_ref row = tref /\ may_see p (tr_client_id row).
(** Every task shown has a row of a client the principal may see, that meets [f]. *)
Definition shown (db : Db) (p : Principal) (f : TaskRow -> Prop) (tasks : list TaskSnapshot) : Prop :=
  forall s, s ∈ tasks ->
  exists row, row ∈ db Tasks /\ tr_snapshot row = s /\ may_see p (tr_client_id row) /\ f row.

(** What an answer shows, field by field.  [views 0] is the database the token
    was looked up in, [views 1] the one the visibility was checked in or the
    only read was made in, and so on. *)
Definition answer_of (views : nat -> Db) (p : Principal) (q : Query) (a : Answer) : Prop :=
  match q, a with
  | QueryList q, AnswerList r =>
      shown (views 1%nat) p (fun row => list_matches q row = true) (lr_tasks r)
  | QueryDetail tref, AnswerDetail d =>
      was_visible (views 1%nat) p tref
      /\ (exists row, row ∈ views 2%nat Tasks /\ tr_task_ref row = tref /\ td_snapshot d = tr_snapshot row)
      /\ td_attempts d = stored Attempts id tref (views 3%nat)
      /\ td_events d = stored TaskEvents id tref (views 4%nat)
      /\ td_errors d = stored Errors id tref (views 5%nat)
      /\ td_gaps d = stored CaptureGaps id tref (views 6%nat)
  | QueryAttempts tref, AnswerAttempts l =>
      was_visible (views 1%nat) p tref /\ l = stored Attempts id tref (views 2%nat)
  | QueryEvents tref, AnswerEvents r =>
      was_visible (views 1%nat) p tref /\ el_events r = stored TaskEvents id tref (views 2%nat)
  | QueryErrors tref, AnswerErrors r =>
      was_visible (views 1%nat) p tref /\ erl_errors r = stored Errors id tref (views 2%nat)
  | QueryHealth c, AnswerHealth r =>
      may_see p c /\ exists row, row ∈ views 1%nat Heartbeats /\ ht_client_id row = c
        /\ r = mkCaptureHealthResponse c (ht_instance_id row) (ht_observed_at_ms row)
                 (ht_capture_health row)
        /\ forall row', row' ∈ views 1%nat Heartbeats -> ht_client_id row' = c ->
             ht_observed_at_ms row' <= ht_observed_at_ms row
  | QuerySession c session_id q, AnswerSession s =>
      may_see p c /\ sd_client_id s = c /\ sd_session_id s = session_id
      /\ shown (views 1%nat) p (fun row => tr_client_id row = c /\ tr_session_id row = session_id)
           (sd_tasks s)
  | _, _ => False
  end.

Lemma fetch_payloads_Ok {T} t (of_row : Row t -> PayloadRow T) tref db l db' :
  fetch_payloads t of_row tref db = Ok (l, db') <-> l = stored t of_row tref db /\ db' = db.
Proof.
  unfold fetch_payloads. rewrite tx_bind_Ok. split.
  - by intros (rows & ? & [-> ->]%(fetch_all_Ok t) & [-> ->]%tx_ret_Ok).
  - intros [-> ->]. eexists _, db. split; [by apply (fetch_all_Ok t) | by apply tx_ret_Ok].
Qed.
Lemma fetch_snapshot_Ok tref db s db' :
  fetch_snapshot tref db = Ok (s, db') <->
  db' = db /\ exists r, List.find (fun r => String.eqb (tr_task_ref r) tref) (db Tasks) = Some r
    /\ s = tr_snapshot r.
Proof.
  unfold fetch_snapshot. rewrite tx_bind_Ok. split.
  - intros (o & ? & [-> ->]%(fetch_optional_Ok Tasks) & E). tx_inv E. split; [done|]. by exists a.
  - intros (-> & r & Hr & ->). exists (Some r), db. split; [by apply (fetch_optional_Ok Tasks)|]. done.
Qed.
Lemma find_task_elem tref (db : Db) (r : TaskRow) :
  List.find (fun r => String.eqb (tr_task_ref r) tref) (db Tasks) = Some r ->
  r ∈ db Tasks /\ tr_task_ref r = tref.
Proof. intros [Hin Hr%String.eqb_eq]%find_some. by rewrite list_elem_of_In. Qed.
Lemma visible_was_visible p tref (db : Db) u db' :
  ensure_task_visible p tref db = Ok (u, db') -> db' = db /\ was_visible db p tref.
Proof.
  intros [-> (r & [Hin Hr]%find_task_elem & Hv)]%ensure_task_visible_Ok. split; [done|]. by exists r.
Qed.

(** One statement each. *)
Lemma list_tasks_shown p q db r db' :
  list_tasks_inner p q db = Ok (r, db') ->
  db' = db /\ can_query (pr_role p) = true
  /\ shown db p (fun row => list_matches q row = true) (lr_tasks r).
Proof.
  unfold list_tasks_inner. intros ([] & ? & [Hq ->]%require_Ok & E)%tx_bind_Ok.
  apply tx_bind_Ok in E as (q' & db1 & E1 & E).
  assert (db1 = db /\ forall row, list_matches q' row = true ->
    list_matches q row = true /\ may_see p (tr_client_id row)) as [-> Hq'].
  { destruct (is_admin (pr_role p)) eqn:Ha.
    - apply tx_ret_Ok in E1 as [-> ->]. split; [done|]. intros row ?. split; [done|]. by left.
    - destruct (is_some_and _ _) eqn:Hc; [done|]. apply tx_ret_Ok in E1 as [-> ->]. split; [done|].
      intros row Hm. unfold list_matches in *. cbn in Hm. simpl_bools.
      destruct Hm as [[[[Hm ?] ?] ?] ?].
      split; [split_and!; try done | by right]. destruct (lq_client_id q) as [c|]; cbn in *; [|done].
      apply bool_decide_eq_true. apply negb_false_iff, String.eqb_eq in Hc. congruence. }
  apply tx_bind_Ok in E as (rows & ? & [-> ->]%(fetch_all_Ok Tasks) & [-> ->]%tx_ret_Ok).
  do 2 (split; [done|]). intros s (row & -> & Hrow)%list_elem_of_fmap. exists row.
  apply elem_of_take in Hrow as (i & Hi%list_elem_of_lookup_2 & _).
  rewrite order_by_perm in Hi. apply select_elem in Hi as [Hin Hm]. by apply Hq' in Hm as [? ?].
Qed.
Lemma own_client p c :
  is_admin (pr_role p) || String.eqb (pr_client_id p) c = true <-> may_see p c.
Proof. unfold may_see. rewrite orb_true_iff, String.eqb_eq. naive_solver. Qed.
Lemma session_shown p c s q db r db' :
  session_detail_inner p c s q db = Ok (r, db') ->
  db' = db /\ can_query (pr_role p) = true /\ may_see p c /\ sd_client_id r = c /\ sd_session_id r = s
  /\ shown db p (fun row => tr_client_id row = c /\ tr_session_id row = s) (sd_tasks r).
Proof.
  unfold session_detail_inner. intros ([] & ? & [Hq ->]%require_Ok & E)%tx_bind_Ok.
  apply tx_bind_Ok in E as ([] & ? & [Hc%own_client ->]%require_Ok & E).
  apply tx_bind_Ok in E as (rows & ? & [-> ->]%(fetch_all_Ok Tasks) & E).
  destruct (order_by _ _) as [|row rows] eqn:Eo; [done|].
  apply tx_bind_Ok in E as ([] & ? & [_ ->]%require_Ok & E).
  apply tx_bind_Ok in E as ([] & ? & [_ ->]%require_Ok & [-> ->]%tx_ret_Ok).
  split_and!; try done. intros t (x & -> & Hx)%list_elem_of_fmap. exists x.
  rewrite <- Eo, order_by_perm in Hx. apply select_elem in Hx as [Hin Hm].
  simpl_bools. destruct Hm as [[[Hm Hs] _] _]. apply String.eqb_eq in Hm, Hs. by subst.
Qed.
(** The heartbeats of a client, newest first. *)
Definition latest_heartbeat (a b : HeartbeatRow) : bool := ht_observed_at_ms b <=? ht_observed_at_ms a.
Lemma latest_is_max rows row : head (order_by latest_heartbeat rows) = Some row ->
  row ∈ rows /\ forall row', row' ∈ rows -> ht_observed_at_ms row' <= ht_observed_at_ms row.
Proof.
  intros Hh. pose proof (order_by_perm latest_heartbeat rows) as Hp.
  assert (Hs : StronglySorted (fun a b => latest_heartbeat a b = true) (order_by latest_heartbeat rows)).
  { apply order_by_sorted; unfold latest_heartbeat; intros *; rewrite ?Z.leb_le, ?Z.leb_gt; lia. }
  destruct (order_by _ _) as [|x l]; [done|]. injection Hh as ->.
  split; [rewrite <- Hp; set_solver|]. intros row'. rewrite <- Hp.
  apply StronglySorted_inv in Hs as [_ Hs]. intros [->|Hin]%elem_of_cons; [done|].
  rewrite Forall_forall in Hs. apply Hs in Hin. by apply Z.leb_le in Hin.
Qed.
Lemma health_shown p c db r db' :
  capture_health_inner p c db = Ok (r, db') ->
  db' = db /\ can_query (pr_role p) = true
  /\ forall views, views 1%nat = db -> answer_of views p (QueryHealth c) (AnswerHealth r).
Proof.
  unfold capture_health_inner. intros ([] & ? & [Hq ->]%require_Ok & E)%tx_bind_Ok.
  apply tx_bind_Ok in E as ([] & ? & [Hc%own_client ->]%require_Ok & E).
  apply tx_bind_Ok in E as (rows & ? & [-> ->]%(fetch_all_Ok Heartbeats) & E).
  apply tx_bind_Ok in E as (row & ? & [Hr ->]%some_or_Ok & [-> ->]%tx_ret_Ok).
  do 2 (split; [done|]). intros views Hv. cbn. rewrite Hv. split; [done|]. exists row.
  apply latest_is_max in Hr as [[Hin Hrc%String.eqb_eq]%select_elem Hmax].
  split_and!; try done. intros row' Hin' Hc'. apply Hmax, select_elem. by rewrite String.eqb_eq.
Qed.

(** What each statement of a query says of the database it found. *)
Ltac read_facts :=
  repeat match goal with
  | E : authorize _ _ = Ok _ |- _ => apply authorize_Ok in E as [E ->]
  | E : ensure_query_role _ = Ok _ |- _ => apply guard_or_Ok in E
  | E : ensure_task_visible _ _ _ = Ok _ |- _ => apply visible_was_visible in E as [-> E]
  | E : fetch_snapshot _ _ = Ok _ |- _ =>
      apply fetch_snapshot_Ok in E as (-> & ? & ?%find_task_elem & ->)
  | E : fetch_payloads _ _ _ _ = Ok _ |- _ => apply fetch_payloads_Ok in E as [-> ->]
  | E : list_tasks_inner _ _ _ = Ok _ |- _ => apply list_tasks_shown in E as (-> & ? & ?)
  | E : capture_health_inner _ _ _ = Ok _ |- _ => apply health_shown in E as (-> & ? & ?)
  | E : session_detail_inner _ _ _ _ _ = Ok _ |- _ => apply session_shown in E as (-> & ? & ?)
  end.


(** The query after the principal's restriction. *)
Definition effective_query (p : Principal) (q : TaskListQuery) : TaskListQuery :=
  if is_admin (pr_role p) then q
  else mkTaskListQuery (Some (pr_client_id p)) (lq_provider q) (lq_session_id q) (lq_phase q)
         (lq_terminal q) (lq_cursor q) (lq_limit q).

(** The rows a list shows, and who may ask for them. *)
Definition listed (p : Principal) (q : TaskListQuery) (db : Db) : list TaskRow :=
  order_by newest_first (select (list_matches (effective_query p q)) (db Tasks)).
Definition own_list (p : Principal) (q : TaskListQuery) : Prop :=
  is_admin (pr_role p) = true
  \/ is_some_and (fun c => negb (String.eqb c (pr_client_id p))) (lq_client_id q) = false.
Lemma list_limit_effective p q : list_limit (effective_query p q) = list_limit q.
Proof. unfold effective_query. by destruct (is_admin _). Qed.
Lemma list_tasks_Ok p q db r db' :
  list_tasks_inner p q db = Ok (r, db') ->
  db' = db /\ can_query (pr_role p) = true /\ own_list p q
  /\ let page := take (Z.to_nat (list_limit q)) (listed p q db) in
     r = mkTaskListResponse (map tr_snapshot page)
           (if Z.of_nat (length page) =? list_limit q
            then (fun row => show_Z (tr_updated_at_ms row) +:+ ":" +:+ tr_task_ref row) <$> last page
            else None).
Proof.
  intros E. unfold list_tasks_inner in E.
  apply tx_bind_Ok in E as ([] & ? & [Hq ->]%require_Ok & E).
  apply tx_bind_Ok in E as (q' & db1 & E1 & E).
  assert (Hq' : q' = effective_query p q /\ db1 = db /\ own_list p q).
  { unfold effective_query, own_list. destruct (is_admin _).
    - apply tx_ret_Ok in E1 as [-> ->]. eauto.
    - destruct (is_some_and _ _); [done|]. apply tx_ret_Ok in E1 as [-> ->]. eauto. }
  clear E1. destruct Hq' as (-> & -> & Hown).
  apply tx_bind_Ok in E as (rows & ? & [-> ->]%(fetch_all_Ok Tasks) & [-> ->]%tx_ret_Ok).
  rewrite !list_limit_effective. fold (listed p q db). cbv zeta. rewrite length_map. done.
Qed.

(** [C35] A page of tasks: of the matching tasks, newest first, the first [limit]
    (at most 500), and a cursor exactly when the page is full and not empty.
    The page does not depend on the cursor of the query. *)
Theorem list_tasks_page p q db r db' :
  list_tasks_inner p q db = Ok (r, db') ->
  exists page rest,
    page ++ rest ≡ₚ select (list_matches (effective_query p q)) (db Tasks)
    /\ StronglySorted (fun a b => newest_first a b = true) (page ++ rest)
    /\ lr_tasks r = map tr_snapshot page
    /\ length page = Nat.min (Z.to_nat (list_limit q)) (length (page ++ rest))
    /\ (length page <= 500)%nat
    /\ lr_next_cursor r
       = (if Z.of_nat (length page) =? list_limit q
          then (fun row => show_Z (tr_updated_at_ms row) +:+ ":" +:+ tr_task_ref row) <$> last page
          else None)
    /\ forall c, list_tasks_inner p
         (mkTaskListQuery (lq_client_id q) (lq_provider q) (lq_session_id q) (lq_phase q)
            (lq_terminal q) c (lq_limit q)) db = Ok (r, db).
Proof.
  intros (_ & Hq & Hown & ->)%list_tasks_Ok.
  exists (take (Z.to_nat (list_limit q)) (listed p q db)), (drop (Z.to_nat (list_limit q)) (listed p q db)).
  rewrite take_drop. split; [apply order_by_perm|].
  split; [apply order_by_sorted; [apply newest_first_total | apply newest_first_trans]|].
  split; [done|]. split; [by rewrite length_take|].
  split; [rewrite length_take; unfold list_limit; lia|]. split; [done|].
  intros c. unfold list_tasks_inner. apply tx_bind_Ok. exists tt, db.
  split; [by apply require_Ok|]. apply tx_bind_Ok.
  eexists (effective_query p (mkTaskListQuery (lq_client_id q) (lq_provider q) (lq_session_id q)
    (lq_phase q) (lq_terminal q) c (lq_limit q))), db.
  split. { unfold effective_query. cbn [lq_client_id]. destruct Hown as [->| ->]; [done|].
           by destruct (is_admin _). }
  apply tx_bind_Ok. exists (select (list_matches (effective_query p q)) (db Tasks)), db. split.
  - apply (fetch_all_Ok Tasks). split; [|done].
    unfold effective_query. by destruct (is_admin _).
  - apply tx_ret_Ok. split; [|done]. rewrite list_limit_effective. unfold listed. rewrite length_map.
    unfold effective_query. by destruct (is_admin _).
Qed.

(** ** Retention *)
Definition retained (now : Z) (t : Tab) : Row t -> bool :=
  match t with
  | Heartbeats => fun r => now - HEARTBEAT_RETENTION_MS <=? ht_observed_at_ms r
  | IngestReceipts => fun r => now - RECEIPT_RETENTION_MS <=? rc_received_at_ms r
  | TaskEvents => fun r => now - EPHEMERA_RETENTION_MS <=? pl_at_ms r
  | Errors => fun r => now - EPHEMERA_RETENTION_MS <=? pl_at_ms r
  | CaptureGaps => fun r => now - EPHEMERA_RETENTION_MS <=? pl_at_ms r
  | HttpExchanges => fun r => now - EPHEMERA_RETENTION_MS <=? pl_at_ms r
  | _ => fun _ => true
  end.


Lemma cleanup_tables now db :
  exists db', cleanup_retention now db = Ok (tt, db')
    /\ forall t, db' t = select (retained now t) (db t).
Proof.
  eexists. split; [reflexivity|]. intros t.
  destruct t; tab_simpl;
    first [ by rewrite select_true
          | apply delete_where_select; intros r; symmetry; apply Z.leb_antisym ].
Qed.
Lemma retained_mono now now' t r :
  now' <= now -> retained now t r = true -> retained now' t r = true.
Proof. intros. destruct t; cbn in *; rewrite ?Z.leb_le in *; lia || done. Qed.

(** Retention never fails, keeps exactly the rows young enough for their
    table (heartbeats 30 days, receipts 400, events, errors and gaps 180) in
    their order, touches no other table, and has nothing left to do for the
    same or any earlier moment.  The age is the only criterion: rows of tasks
    that are still running are not spared. *)
Theorem cleanup_exact now db :
  exists db', cleanup_retention now db = Ok (tt, db')
    /\ (forall t, db' t = select (retained now t) (db t))
    /\ forall now', now' <= now ->
         exists db'', cleanup_retention now' db' = Ok (tt, db'') /\ forall t, db'' t = db' t.
Proof.
  destruct (cleanup_tables now db) as (db' & E & Ht). exists db'. split; [done|]. split; [done|].
  intros now' Hle. destruct (cleanup_tables now' db') as (db'' & E' & Ht').
  exists db''. split; [done|]. intros t. rewrite Ht', Ht.
  apply select_select. intros r. by apply retained_mono.
Qed.

(** ** Tokens *)
Lemma live_token_key token (t : list TokenRow) :
  keyed (row_key ApiTokens) t ->
  live_token token t = r ← find_key (row_key ApiTokens) (hash_token token) t;
                       if is_none (tk_revoked_at_ms r) then Some r else None.
Proof.
  unfold keyed, live_token, find_key. induction t as [|r t IH]; cbn; [done|].
  rewrite NoDup_cons. intros [Hn Ht].
  destruct (String.eqb_spec (tk_token_hash r) (hash_token token)) as [Heq|Hne]; cbn.
  - rewrite bool_decide_eq_true_2 by done. cbn. destruct (is_none _); [done|].
    clear IH. rewrite <- Heq. induction t as [|r' t IHt]; cbn; [done|].
    rewrite (proj2 (String.eqb_neq _ _)) by set_solver.
    cbn in Ht. apply NoDup_cons in Ht as [_ Ht]. apply IHt; [set_solver | done].
  - rewrite bool_decide_eq_false_2 by done. by apply IH.
Qed.
Lemma find_key_update {R K} `{EqDecision K} (key : R -> K) p f k t :
  (forall r, key (f r) = key r) ->
  find_key key k (update_where p f t) = (fun r => if p r then f r else r) <$> find_key key k t.
Proof.
  intros Hf. unfold find_key, update_where. induction t as [|r t IH]; cbn; [done|].
  replace (key (if p r then f r else r)) with (key r) by (destruct (p r); by rewrite ?Hf).
  by case_bool_decide.
Qed.

Lemma find_key_update_ne {R K} `{EqDecision K} (key : R -> K) p f k t :
  (forall r, key (f r) = key r) -> (forall r, key r = k -> p r = false) ->
  find_key key k (update_where p f t) = find_key key k t.
Proof.
  intros Hf Hp. rewrite find_key_update by done. destruct (find_key key k t) as [r|] eqn:F; [|done].
  apply find_key_Some in F as [_ F]. cbn. by rewrite (Hp _ F).
Qed.

Definition token_auth (tokens : list TokenRow) (token : string) : result Status Principal :=
  row ← ok_or UNAUTHORIZED (live_token token tokens);
  role ← ok_or FORBIDDEN (from_db (tk_role row));
  mret (mkPrincipal (tk_client_id row) role).
Lemma auth_of_token headers tokens token :
  bearer headers = Some token -> auth_of headers tokens = token_auth tokens token.
Proof. unfold auth_of. by intros ->. Qed.

(** Tokens: issuing one never fails and makes exactly the requests that carry
    it act for its client in its role (administrator if the flag is set,
    client by default), also after an earlier revocation; revoking it makes
    them unauthorized; tokens with another hash keep what they had. *)
Theorem token_lifecycle client_id token role admin n1 n2 now db :
  db_wf db ->
  exists db1 db2,
    issue_token client_id token role admin n1 n2 db = Ok (tt, db1)
    /\ revoke_token token now db1 = Ok (tt, db2)
    /\ token_auth (db1 ApiTokens) token
       = Ok (mkPrincipal client_id
               (if admin then TokenRole_Admin
                else match role with Some r => TokenRole_from r | None => TokenRole_Client end))
    /\ token_auth (db2 ApiTokens) token = Err UNAUTHORIZED
    /\ forall other, hash_token other <> hash_token token ->
         token_auth (db1 ApiTokens) other = token_auth (db ApiTokens) other
         /\ token_auth (db2 ApiTokens) other = token_auth (db ApiTokens) other.
Proof.
  intros Hwf. eexists _, _. split; [reflexivity|]. split; [reflexivity|]. tab_simpl.
  set (row := mkTokenRow _ client_id _ n2 None). 
  set (merge := fun old : TokenRow => mkTokenRow (tk_token_hash old) client_id
    (role_as_str (if admin then TokenRole_Admin
       else TokenRole_from (unwrap_or TokenRoleArg_Client role))) (tk_created_at_ms old) None).
  assert (Hm : forall old, row_key ApiTokens old = row_key ApiTokens row ->
                           row_key ApiTokens (merge old) = row_key ApiTokens row) by done.
  pose proof (upsert_keyed _ row merge _ Hm (Hwf ApiTokens)) as Hk1.
  set (t1 := upsert _ row merge _) in *.
  change (upsert _ row _ (db ApiTokens)) with t1.
  assert (Hk2 : keyed (row_key ApiTokens)
      (update_where (fun r : Row ApiTokens => String.eqb (tk_token_hash r) (hash_token token))
        (fun r => mkTokenRow (tk_token_hash r) (tk_client_id r) (tk_role r) (tk_created_at_ms r)
                    (Some now)) t1)) by by apply update_where_keyed.
  set (granted := if admin then TokenRole_Admin
                  else match role with Some r => TokenRole_from r | None => TokenRole_Client end).
  assert (Hrow : forall o : option TokenRow,
    let x := match o with Some old => merge old | None => row end in
    tk_revoked_at_ms x = None /\ tk_client_id x = client_id /\ from_db (tk_role x) = Some granted).
  { intros [old|]; cbn; rewrite from_as_str; unfold granted; by destruct role. }
  assert (Hself : exists x : TokenRow, find_key (row_key ApiTokens) (hash_token token) t1 = Some x
    /\ tk_token_hash x = hash_token token /\ tk_revoked_at_ms x = None
    /\ tk_client_id x = client_id /\ from_db (tk_role x) = Some granted).
  { pose proof (upsert_find (row_key ApiTokens) row merge (db ApiTokens) Hm) as Hf.
    eexists. split; [exact Hf|]. split; [by apply find_key_Some in Hf as [_ ?] | apply Hrow]. }
  destruct Hself as (x & Hself & Hx1 & Hx2 & Hx3 & Hx4).
  unfold token_auth. split; [|split].
  - rewrite live_token_key, Hself by done. cbn. rewrite Hx2. cbn. by rewrite Hx4, Hx3.
  - rewrite live_token_key by done. rewrite find_key_update, Hself by done. cbn.
    by rewrite Hx1, String.eqb_refl.
  - intros other Hne. split.
    + rewrite !live_token_key by (done || apply Hwf). unfold t1.
      by rewrite upsert_find_ne by done.
    + rewrite !live_token_key by (done || apply Hwf). rewrite find_key_update_ne.
      * unfold t1. by rewrite upsert_find_ne by done.
      * done.
      * intros r Hr. apply String.eqb_neq. cbn in Hr. congruence.
Qed.

(** ** The command line

    The read commands run the query functions as an administrator. *)
Definition cli_admin (client_id : string) : Principal := mkPrincipal client_id TokenRole_Admin.
(* src: src/crates/server/src/lib.rs:470-494 list_tasks_cli *)
Definition list_tasks_cli (client_id provider session_id : option string) (limit : option Z)
    : Tx TaskListResponse :=
  list_tasks_inner (cli_admin (unwrap_or "cli" client_id))
    (mkTaskListQuery client_id provider session_id None None None (opt_or limit (Some 100))).
(* src: src/crates/server/src/lib.rs:496-517 session_cli *)
Definition session_cli (client_id session_id : string) (provider thread_id : option string)
    : Tx SessionDetail :=
  session_detail_inner (cli_admin client_id) client_id session_id (mkSessionQuery provider thread_id).
(* src: src/crates/server/src/lib.rs:519-535 task_cli *)
Definition task_cli (task_ref : string) : Reads TaskDetail :=
  task_detail_inner (cli_admin "cli") task_ref.
(* src: src/crates/server/src/lib.rs:537-553 attempts_cli *)
Definition attempts_cli (task_ref : string) : Reads (list AttemptRecord) :=
  task_attempts_inner (cli_admin "cli") task_ref.
(* src: src/crates/server/src/lib.rs:555-571 events_cli *)
Definition events_cli (task_ref : string) : Reads EventListResponse :=
  task_events_inner (cli_admin "cli") task_ref.
(* src: src/crates/server/src/lib.rs:573-589 errors_cli *)
Definition errors_cli (task_ref : string) : Reads ErrorListResponse :=
  task_errors_inner (cli_admin "cli") task_ref.
(* src: src/crates/server/src/lib.rs:591-607 capture_health_cli *)
Definition capture_health_cli (client_id : string) : Tx CaptureHealthResponse :=
  capture_health_inner (cli_admin "cli") client_id.
(* src: src/crates/server/src/lib.rs:634-641 cleanup_cli *)
Definition cleanup_cli (now_ms : option Z) (now : Z) : Tx unit :=
  cleanup_retention (unwrap_or now now_ms).
End server.

(** ** Witnesses *)
Module ServerFixture.
Import CodecFixture HttpFixture.
Definition bearer_of (token : string) : HeaderMap :=
  [("authorization", as_bytes ("Bearer " +:+ token))].
Definition body : bytes := [x02; x2a; x2b].
(** A server with one client token and one reader token of the same client. *)
Definition exec {A} (m : Tx A) (db : Db) : Db := (run_tx m db).2.
Definition db0 : Db :=
  exec (issue_token "client" "reader" (Some TokenRoleArg_Reader) false 1 2)
    (exec (issue_token "client" "secret" None false 1 2) db_empty).
Definition db1 : Db := exec (ingest 2000 (bearer_of "secret") body) db0.
Definition batch : DecodedBatch := mkDecodedBatch sample_batch (sha256_hex [x2a; x2b]) [x2a; x2b].
Definition ack : IngestAck := mkIngestAck (uuid7 1) (sha256_hex [x2a; x2b]) 1 1 false.
Definition client : Principal := mkPrincipal "client" TokenRole_Client.

Lemma issue_token_wf c t r a n1 n2 : tx_rel (keeps db_wf) (issue_token c t r a n1 n2).
Proof. unfold issue_token, ensure_client_exists, upsert_token. tx_walk. Qed.
Lemma db0_wf : db_wf db0.
Proof.
  apply (run_tx_rel (keeps db_wf)); [apply issue_token_wf|].
  apply (run_tx_rel (keeps db_wf)); [apply issue_token_wf | apply db_wf_empty].
Qed.
Lemma ingest_run : ingest 2000 (bearer_of "secret") body db0 = Ok (IngestAccepted ack, db1).
Proof. vm_compute. reflexivity. Qed.
Lemma body_decodes : decode_body body = Ok batch.
Proof. vm_compute. reflexivity. Qed.
Lemma authorized : auth_of (bearer_of "secret") (db1 ApiTokens) = Ok client.
Proof. vm_compute. reflexivity. Qed.
Lemma db1_receipts_keyed : keyed (row_key IngestReceipts) (db1 IngestReceipts).
Proof. by_decide. Qed.

Lemma ingest_stores_witness :
  find_key (row_key Tasks) "session:thread:turn" (db1 Tasks)
  = Some (task_row "client" (mkTaskUpload sample_snapshot [] [] [] [])).
Proof.
  destruct (ingest_stores _ _ _ _ _ _ _ db0_wf ingest_run (eq_refl false) body_decodes) as [Hs _].
  rewrite (Hs Tasks "session:thread:turn") by (apply elem_of_cons; right; apply elem_of_cons; by left).
  vm_compute. reflexivity.
Defined.

(** A reader's query, while retention runs after its third statement. *)
Definition views (i : nat) : Db :=
  if (i <? 3)%nat then db1 else exec (cleanup_retention (HEARTBEAT_RETENTION_MS + 1500)) db1.
Definition detail : result Status (Answer * list Db) :=
  run_query (bearer_of "reader") (QueryDetail "session:thread:turn") views [].

Lemma token_lifecycle_witness : exists db1 db2 : Db,
  token_auth (db1 ApiTokens) "t" = Ok (mkPrincipal "c" TokenRole_Admin)
  /\ token_auth (db2 ApiTokens) "t" = Err UNAUTHORIZED.
Proof.
  destruct (token_lifecycle "c" "t" None true 1 2 3 db_empty db_wf_empty)
    as (d1 & d2 & _ & _ & E1 & E2 & _).
  exists d1, d2. split; [exact E1 | exact E2].
Defined.

Definition all_tasks : TaskListQuery := mkTaskListQuery None None None None None None (Some 1).
Lemma list_tasks_page_witness :
  exists r, list_tasks_inner (mkPrincipal "client" TokenRole_Reader) all_tasks db1 = Ok (r, db1)
  /\ lr_next_cursor r = Some "100:session:thread:turn"
  /\ list_tasks_inner (mkPrincipal "client" TokenRole_Reader)
       (mkTaskListQuery None None None None None (lr_next_cursor r) (Some 1)) db1 = Ok (r, db1).
Proof.
  assert (E : list_tasks_inner (mkPrincipal "client" TokenRole_Reader) all_tasks db1
    = Ok (mkTaskListResponse [sample_snapshot] (Some "100:session:thread:turn"), db1))
    by (vm_compute; reflexivity).
  destruct (list_tasks_page _ _ _ _ _ E) as (page & rest & _ & _ & _ & _ & _ & _ & Hc).
  eexists. split; [exact E|]. split; [reflexivity | apply Hc].
Defined.

Lemma cleanup_exact_witness : exists db', cleanup_retention (HEARTBEAT_RETENTION_MS + 1500) db1 = Ok (tt, db')
  /\ db' Heartbeats = [] /\ db' IngestReceipts = db1 IngestReceipts.
Proof.
  destruct (cleanup_exact (HEARTBEAT_RETENTION_MS + 1500) db1) as (db' & E & Ht & _).
  exists db'. split; [exact E|]. rewrite !Ht. vm_compute. done.
Defined.
End ServerFixture.
