(* ===== verification/ServerContent.v ===== *)
(** * The server: content requests, commands, chunk uploads, eviction

    The content endpoints of [src/crates/server/src/lib.rs]: an administrator
    asks for the content of a task ([create_content_request]), the client
    polls for the command ([next_command]), announces objects
    ([upload_manifests]), uploads their chunks ([upload_chunk]) and may report
    an outcome ([upload_result]); the server keeps at most thirty
    conversations per client and collects what no link refers to. *)
From Stdlib Require Import ZArith Lia Sorting.Sorted Strings.Byte Strings.String.
From stdpp Require Import sorting.
From S2P Require Import Prelude RustStr Digest Types Fixtures Validation Codec Http1 Table Sql Db Server.
Local Open Scope string_scope.
Local Open Scope list_scope.
Local Open Scope Z_scope.

(* src: src/crates/server/src/lib.rs:336-338 StoredContentRequest *)
Record StoredContentRequest : Type := mkStoredContentRequest { sc_request : ContentRequest }.
(* src: src/crates/server/src/lib.rs:341-344 StoredConversation *)
Record StoredConversation : Type := mkStoredConversation {
  sv_session_id : string;
  sv_thread_id : string }.
(* src: src/crates/server/src/lib.rs:325-327 SimpleOk *)
Record SimpleOk : Type := mkSimpleOk { so_ok : bool }.
(* src: src/crates/server/src/lib.rs:313-316 CreateContentRequestBody *)
Record CreateContentRequestBody : Type := mkCreateContentRequestBody {
  bd_parts : list ContentPart;
  bd_expires_at_ms : option Z }.

Section content.
Context `{UuidApi} `{DigestApi} `{CborApi} `{ZstdApi} `{HttpApi}.

(** [zstd::stream::decode_all]: a decoder read to its end. *)
Definition decode_all (b : bytes) : result io_error bytes :=
  s ← decoder_new b;
  match st_error s with
  | Some e => Err e
  | None => Ok (st_bytes s)
  end.

(** ** Reads and single-row writes *)
(* src: src/crates/server/src/lib.rs:1767-1799 load_command_request *)
Definition load_command_request (command_id : Uuid) (client_id : string)
    : Tx (option StoredContentRequest) :=
  c ← fetch_optional Commands
    (fun r => bool_decide (cd_command_id r = command_id) && String.eqb (cd_client_id r) client_id);
  match c with
  | None => mret None
  | Some c =>
    row ← fetch_optional ContentRequests (fun r => bool_decide (rq_request_id r = cd_request_id c));
    mret ((fun row => mkStoredContentRequest
             (mkContentRequest (rq_request_id row) client_id (rq_task_ref row) (rq_session_id row)
                (rq_thread_id row) (rq_created_at_ms row) (rq_expires_at_ms row) (rq_parts row)))
          <$> row)
  end.
(* src: src/crates/server/src/lib.rs:1801-1815 load_manifest *)
Definition load_manifest (request_id : Uuid) (object_sha256 : string)
    : Tx (option ContentObjectManifest) :=
  row ← fetch_optional ContentManifests
    (fun r => bool_decide (mr_request_id r = request_id) && String.eqb (mr_object_sha256 r) object_sha256);
  mret (mr_manifest <$> row).
(* src: src/crates/server/src/lib.rs:1817-1855 persist_manifest_row *)
Definition persist_manifest_row (m : ContentObjectManifest) (client_id : string) (now : Z) : Tx unit :=
  row ← fetch_optional ContentManifests
    (fun r => bool_decide (mr_request_id r = mf_request_id m)
              && String.eqb (mr_object_sha256 r) (mf_object_sha256 m));
  match row with
  | Some row => require (bool_decide (mr_manifest row = m)) CONFLICT
  | None => insert ContentManifests (mkManifestRow (mf_request_id m) (mf_object_sha256 m) client_id m now)
  end.

(** The rows of one object, and those under one index. *)
Definition of_object (request_id : Uuid) (object_sha256 : string) (r : ChunkRow) : bool :=
  bool_decide (ck_request_id r = request_id) && String.eqb (ck_object_sha256 r) object_sha256.
Definition by_index (a b : ChunkRow) : bool := ck_chunk_index a <=? ck_chunk_index b.

(* src: src/crates/server/src/lib.rs:1857-1916 upsert_chunk_row *)
Definition upsert_chunk_row (c : ContentUploadChunk) (now : Z) : Tx bool :=
  row ← fetch_optional ContentChunks
    (fun r => of_object (cc_request_id c) (cc_object_sha256 c) r
              && (ck_chunk_index r =? cc_chunk_index c));
  match row with
  | Some row =>
    _ ← require ((ck_chunk_count row =? cc_chunk_count c)
                 && String.eqb (ck_payload_sha256 row) (cc_payload_sha256 c)
                 && Bool.eqb (ck_is_last row) (cc_is_last c)) CONFLICT;
    mret true
  | None =>
    mismatch ← fetch_optional ContentChunks
      (fun r => of_object (cc_request_id c) (cc_object_sha256 c) r
                && negb (ck_chunk_count r =? cc_chunk_count c));
    _ ← require (is_none mismatch) CONFLICT;
    _ ← insert ContentChunks
          (mkChunkRow (cc_request_id c) (cc_object_sha256 c) (cc_chunk_index c) (cc_chunk_count c)
             (cc_payload_sha256 c) (cc_payload_zstd c) (cc_is_last c) now);
    mret false
  end.

(** [for (expected, row) in rows.into_iter().enumerate()]. *)
Fixpoint indexes_from (expected : Z) (rows : list ChunkRow) : bool :=
  match rows with
  | [] => true
  | row :: rows' => (ck_chunk_index row =? expected) && indexes_from (expected + 1) rows'
  end.
(* src: src/crates/server/src/lib.rs:1918-1942 is_object_complete *)
Definition is_object_complete (request_id : Uuid) (object_sha256 : string) (chunk_count : Z) : Tx bool :=
  rows ← fetch_all ContentChunks (of_object request_id object_sha256);
  let rows := order_by by_index rows in
  mret ((Z.of_nat (length rows) =? chunk_count) && indexes_from 0 rows).
(* src: src/crates/server/src/lib.rs:1944-1969 assemble_object *)
Definition assemble_object (request_id : Uuid) (object_sha256 : string) (chunk_count : Z) : Tx bytes :=
  rows ← fetch_all ContentChunks (of_object request_id object_sha256);
  let rows := order_by by_index rows in
  _ ← require (Z.of_nat (length rows) =? chunk_count) BAD_REQUEST;
  mret (concat (map ck_payload_zstd rows)).

(* src: src/crates/server/src/lib.rs:1971-2018 upsert_content_object *)
Definition upsert_content_object (request : ContentRequest) (manifest : ContentObjectManifest)
    (assembled_zstd uncompressed : bytes) (now : Z) : Tx ContentObjectManifest :=
  let ulen := Z.of_nat (length uncompressed) in
  let clen := Z.of_nat (length assembled_zstd) in
  _ ← insert_or_update ContentObjects
        (mkObjectRow (mf_object_sha256 manifest) assembled_zstd ulen clen now now)
        (fun old => mkObjectRow (ob_object_sha256 old) assembled_zstd ulen clen
                      (ob_created_at_ms old) now);
  _ ← insert_or_update ContentLinks
        (mkLinkRow (cr_request_id request) (mf_object_sha256 manifest) (cr_client_id request)
           (cr_session_id request) (cr_thread_id request) manifest now now)
        (fun old => mkLinkRow (lk_request_id old) (lk_object_sha256 old) (lk_client_id old)
                      (lk_session_id old) (lk_thread_id old) manifest (lk_created_at_ms old) now);
  mret manifest.
(* src: src/crates/server/src/lib.rs:2020-2029 linked_object_count *)
Definition linked_object_count (request_id : Uuid) : Tx Z :=
  rows ← fetch_all ContentLinks (fun r => bool_decide (lk_request_id r = request_id));
  mret (Z.of_nat (length rows)).

(** Changes of one or two columns. *)
Definition request_set (status : string) (outcome : option string) (completed : option Z)
    (r : RequestRow) : RequestRow :=
  mkRequestRow (rq_request_id r) (rq_client_id r) (rq_task_ref r) (rq_session_id r) (rq_thread_id r)
    (rq_parts r) (rq_created_at_ms r) (rq_expires_at_ms r) completed status outcome.
Definition command_set (status : string) (delivered completed : option Z) (r : CommandRow)
    : CommandRow :=
  mkCommandRow (cd_command_id r) (cd_request_id r) (cd_client_id r) status (cd_created_at_ms r)
    delivered completed (cd_payload r).
(* src: src/crates/server/src/lib.rs:2031-2053 complete_request_and_command *)
Definition complete_request_and_command (request_id : Uuid) (status outcome : string) (now : Z)
    : Tx unit :=
  _ ← update ContentRequests (fun r => bool_decide (rq_request_id r = request_id))
        (request_set status (Some outcome) (Some now));
  update Commands (fun r => bool_decide (cd_request_id r = request_id))
    (fun r => command_set "completed" (cd_delivered_at_ms r) (Some now) r).

(** ** Conversations *)
(* src: src/crates/server/src/lib.rs:2055-2075 touch_conversation *)
Definition touch_conversation (client_id session_id thread_id : string) (now : Z) : Tx unit :=
  let row := mkConversationRow client_id session_id thread_id now in
  insert_or_update ContentConversations row
    (fun old => mkConversationRow (cv_client_id old) (cv_session_id old) (cv_thread_id old) now).

(** [ORDER BY last_requested_at_ms ASC, session_id ASC, thread_id ASC]. *)
Definition oldest_first (a b : ConversationRow) : bool :=
  (cv_last_requested_at_ms a <? cv_last_requested_at_ms b)
  || ((cv_last_requested_at_ms a =? cv_last_requested_at_ms b)
      && ((negb (String.eqb (cv_session_id a) (cv_session_id b))
           && text_le (cv_session_id a) (cv_session_id b))
          || (String.eqb (cv_session_id a) (cv_session_id b)
              && text_le (cv_thread_id a) (cv_thread_id b)))).
Definition conversation_of (client_id : string) (r : ConversationRow) : bool :=
  String.eqb (cv_client_id r) client_id.
(* src: src/crates/server/src/lib.rs:2097-2117 select_oldest_conversation *)
Definition select_oldest_conversation (client_id : string) : Tx (option StoredConversation) :=
  rows ← fetch_all ContentConversations (conversation_of client_id);
  mret ((fun r => mkStoredConversation (cv_session_id r) (cv_thread_id r))
        <$> head (order_by oldest_first rows)).

(** The links of the victim's requests go first, then every object of those
    links that no other link holds. *)
(* src: src/crates/server/src/lib.rs:2139-2160 evict_conversation: requests *)
Fixpoint evict_requests (request_ids : list Uuid) : Tx (list string) :=
  match request_ids with
  | [] => mret []
  | request_id :: request_ids' =>
    rows ← fetch_all ContentLinks (fun r => bool_decide (lk_request_id r = request_id));
    _ ← delete_from ContentManifests (fun r => bool_decide (mr_request_id r = request_id));
    _ ← delete_from ContentChunks (fun r => bool_decide (ck_request_id r = request_id));
    _ ← delete_from ContentLinks (fun r => bool_decide (lk_request_id r = request_id));
    shas ← evict_requests request_ids';
    mret (map lk_object_sha256 rows ++ shas)
  end.
(* src: src/crates/server/src/lib.rs:2162-2173 evict_conversation: objects *)
Definition evict_object (object_sha256 : string) : Tx unit :=
  linked ← fetch_optional ContentLinks (fun r => String.eqb (lk_object_sha256 r) object_sha256);
  match linked with
  | Some _ => mret tt
  | None => delete_from ContentObjects (fun r => String.eqb (ob_object_sha256 r) object_sha256)
  end.
(* src: src/crates/server/src/lib.rs:2119-2184 evict_conversation *)
Definition evict_conversation (client_id session_id thread_id : string) : Tx unit :=
  request_rows ← fetch_all ContentRequests (fun r =>
    String.eqb (rq_client_id r) client_id && String.eqb (rq_session_id r) session_id
    && String.eqb (rq_thread_id r) thread_id);
  shas ← evict_requests (map rq_request_id request_rows);
  _ ← tx_iter evict_object (order_by text_le (remove_dups shas));
  delete_from ContentConversations (fun r =>
    String.eqb (cv_client_id r) client_id && String.eqb (cv_session_id r) session_id
    && String.eqb (cv_thread_id r) thread_id).

(** The [loop]: every turn deletes a conversation, so as many turns as there
    are conversations, and one more, are enough ([evict_keeps_newest]). *)
(* src: src/crates/server/src/lib.rs:2081-2094 evict_old_conversations: loop *)
Fixpoint evict_loop (fuel : nat) (client_id : string) : Tx unit :=
  match fuel with
  | O => throw INTERNAL_SERVER_ERROR
  | S fuel' =>
    rows ← fetch_all ContentConversations (conversation_of client_id);
    if Z.of_nat (length rows) <=? CONTENT_CONVERSATION_LIMIT then mret tt
    else
      victim ← select_oldest_conversation client_id;
      match victim with
      | None => mret tt
      | Some victim =>
        _ ← evict_conversation client_id (sv_session_id victim) (sv_thread_id victim);
        evict_loop fuel' client_id
      end
  end.
(* src: src/crates/server/src/lib.rs:2077-2095 evict_old_conversations *)
Definition evict_old_conversations (client_id : string) : Tx unit := fun db =>
  evict_loop (S (length (db ContentConversations))) client_id db.

(** ** Creating a request *)
(* src: src/crates/server/src/lib.rs:2301-2310 parse_content_part *)
Definition parse_content_part (value : string) : option ContentPart :=
  if String.eqb value "request" then Some ContentPart_Request
  else if String.eqb value "response" then Some ContentPart_Response
  else if String.eqb value "tool_input" then Some ContentPart_ToolInput
  else if String.eqb value "tool_output" then Some ContentPart_ToolOutput
  else if String.eqb value "model_text" then Some ContentPart_ModelText
  else None.

(* src: src/crates/server/src/lib.rs:1375-1457 create_content_request_inner *)
Definition create_content_request_inner (now : Z) (request_id command_id : Uuid)
    (principal : Principal) (task_ref : string) (parts : list ContentPart)
    (expires_at_ms : option Z) : Tx unit :=
  _ ← ensure_admin_role principal;
  row ← fetch_optional Tasks (fun r => String.eqb (tr_task_ref r) task_ref);
  row ← some_or NOT_FOUND row;
  let request := mkContentRequest request_id (tr_client_id row) task_ref (tr_session_id row)
                   (tr_thread_id row) now expires_at_ms parts in
  _ ← require (is_ok (validate request)) BAD_REQUEST;
  let command := ClientCommand_RequestContent (mkContentRequestCommand command_id request) in
  _ ← touch_conversation (cr_client_id request) (cr_session_id request) (cr_thread_id request) now;
  _ ← evict_old_conversations (cr_client_id request);
  _ ← insert ContentRequests
        (mkRequestRow request_id (cr_client_id request) (cr_task_ref request) (cr_session_id request)
           (cr_thread_id request) (cr_parts request) now (cr_expires_at_ms request) None "pending" None);
  insert Commands
    (mkCommandRow command_id request_id (cr_client_id request) "pending" now None None command).

(* src: src/crates/server/src/lib.rs:1044-1060 create_content_request *)
Definition create_content_request (now : Z) (request_id command_id : Uuid) (headers : HeaderMap)
    (task_ref : string) (body : CreateContentRequestBody) : Tx SimpleOk :=
  principal ← authorize headers;
  _ ← create_content_request_inner now request_id command_id principal task_ref
        (bd_parts body) (bd_expires_at_ms body);
  mret (mkSimpleOk true).
(** [None]: a part the command line does not know. *)
(* src: src/crates/server/src/lib.rs:609-632 request_content_cli *)
Definition request_content_cli (now : Z) (request_id command_id : Uuid) (task_ref : string)
    (parts : list string) (expires_at_ms : option Z) : option (Tx SimpleOk) :=
  parts ← mapM parse_content_part parts;
  Some (_ ← create_content_request_inner now request_id command_id (cli_admin "cli") task_ref
              parts expires_at_ms;
        mret (mkSimpleOk true)).

(** ** Polling for commands *)
(* src: src/crates/server/src/lib.rs:754-795 next_command: one poll *)
Definition poll_commands (now : nat -> Z) (client_id : string) : Tx (option CommandPollResponse) :=
  rows ← fetch_all Commands
    (fun r => String.eqb (cd_client_id r) client_id && String.eqb (cd_status r) "pending");
  let rows := take 16 (order_by (fun a b => cd_created_at_ms a <=? cd_created_at_ms b) rows) in
  match rows with
  | [] => mret None
  | _ =>
    _ ← tx_iter (fun p : nat * CommandRow =>
          update Commands (fun r => bool_decide (cd_command_id r = cd_command_id p.2))
            (fun r => command_set "dispatched" (Some (now p.1)) (cd_completed_at_ms r) r))
          (imap pair rows);
    mret (Some (mkCommandPollResponse (now (length rows)) (map cd_payload rows)))
  end.

(** What one turn of the loop finds: the database (others may have changed it
    during the sleep), the wall-clock readings of the turn, and the monotonic
    instant compared with the deadline. *)
Record PollTurn : Type := mkPollTurn {
  pt_db : Db;
  pt_now : nat -> Z;
  pt_instant : Z }.
(** [None]: the turns given end before the loop does. *)
(* src: src/crates/server/src/lib.rs:752-798 next_command: loop *)
Fixpoint poll_loop (client_id : string) (deadline : Z) (turns : list PollTurn)
    : option (result Status CommandPollResponse * Db) :=
  match turns with
  | [] => None
  | t :: turns' =>
    match poll_commands (pt_now t) client_id (pt_db t) with
    | Err e => Some (Err e, pt_db t)
    | Ok (Some response, db') => Some (Ok response, db')
    | Ok (None, _) =>
      if deadline <=? pt_instant t then Some (Ok (mkCommandPollResponse (pt_now t 0%nat) []), pt_db t)
      else poll_loop client_id deadline turns'
    end
  end.
(* src: src/crates/server/src/lib.rs:746-750 next_command: wait *)
Definition wait_seconds (params : gmap string string) : Z :=
  Z.min (unwrap_or 0 ((params !! "wait") ≫= fun v => from_str_radix 10 u64_max (as_bytes v))) 30.
(* src: src/crates/server/src/lib.rs:738-799 next_command *)
Definition next_command (headers : HeaderMap) (params : gmap string string) (start : Z) (db : Db)
    (turns : list PollTurn) : option (result Status CommandPollResponse * Db) :=
  match (p ← authorize headers; _ ← ensure_client_role p; mret p) db with
  | Err e => Some (Err e, db)
  | Ok (principal, _) =>
    poll_loop (pr_client_id principal) (start + wait_seconds params * 1000) turns
  end.

(** ** Uploads *)
Definition client_request (headers : HeaderMap) (command_id : Uuid) (pre : result Status unit)
    : Tx (Principal * ContentRequest) :=
  principal ← authorize headers;
  _ ← ensure_client_role principal;
  _ ← tx_lift pre;
  stored ← load_command_request command_id (pr_client_id principal);
  stored ← some_or NOT_FOUND stored;
  mret (principal, sc_request stored).
Definition expired (r : ContentRequest) (now : Z) : bool :=
  is_some_and (fun expires => expires <=? now) (cr_expires_at_ms r).
Definition not_expired_or {A} (r : ContentRequest) (now : Z) (a : A) (k : Tx A) : Tx A :=
  if expired r now then
    _ ← complete_request_and_command (cr_request_id r) "content_expired" "content_expired" now;
    mret a
  else k.

(* src: src/crates/server/src/lib.rs:868-938 upload_chunk: object complete *)
Definition store_object (now : Z) (request : ContentRequest) (manifest : ContentObjectManifest)
    (chunk : ContentUploadChunk) (duplicate : bool) : Tx ContentUploadResult :=
  assembled ← assemble_object (cc_request_id chunk) (cc_object_sha256 chunk) (cc_chunk_count chunk);
  uncompressed ← tx_lift (map_err (fun _ => BAD_REQUEST) (decode_all assembled));
  _ ← require (String.eqb (sha256_hex uncompressed) (to_ascii_lowercase (cc_object_sha256 chunk)))
        BAD_REQUEST;
  _ ← require ((Z.of_nat (length assembled) =? mf_compressed_bytes manifest)
               && (Z.of_nat (length uncompressed) =? mf_uncompressed_bytes manifest)) BAD_REQUEST;
  _ ← upsert_content_object request manifest assembled uncompressed now;
  _ ← touch_conversation (cr_client_id request) (cr_session_id request) (cr_thread_id request) now;
  count ← linked_object_count (cr_request_id request);
  _ ← (if Z.of_nat (length (cr_parts request)) <=? count
       then complete_request_and_command (cr_request_id request) "stored" "stored" now
       else update ContentRequests (fun r => bool_decide (rq_request_id r = cr_request_id request))
              (fun r => request_set "partial_upload" (rq_outcome r) (rq_completed_at_ms r) r));
  mret (mkContentUploadResult (cc_request_id chunk) ContentUploadStatus_Stored
          (if duplicate then Some "duplicate_chunk_stored" else None)).

(* src: src/crates/server/src/lib.rs:801-953 upload_chunk *)
Definition upload_chunk (now : Z) (headers : HeaderMap) (command_id : Uuid)
    (chunk : ContentUploadChunk) : Tx ContentUploadResult :=
  '(principal, request) ← client_request headers command_id
                            (map_err (fun _ => BAD_REQUEST) (validate chunk));
  _ ← require (bool_decide (cr_request_id request = cc_request_id chunk)) FORBIDDEN;
  not_expired_or request now
    (mkContentUploadResult (cr_request_id request) ContentUploadStatus_ContentExpired
       (Some "content_expired"))
    (manifest ← load_manifest (cr_request_id request) (cc_object_sha256 chunk);
     manifest ← some_or CONFLICT manifest;
     _ ← require (mf_chunk_count manifest =? cc_chunk_count chunk) CONFLICT;
     duplicate ← upsert_chunk_row chunk now;
     complete ← is_object_complete (cc_request_id chunk) (cc_object_sha256 chunk)
                  (cc_chunk_count chunk);
     if complete : bool then store_object now request manifest chunk duplicate
     else mret (mkContentUploadResult (cc_request_id chunk) ContentUploadStatus_Stored
                  (Some (if duplicate then "duplicate_chunk" else "partial_upload")))).

(* src: src/crates/server/src/lib.rs:974-978 upload_result: status *)
Definition result_status (s : ContentUploadStatus) : string :=
  match s with
  | ContentUploadStatus_Stored => "stored"
  | ContentUploadStatus_ContentExpired => "content_expired"
  | ContentUploadStatus_Rejected => "rejected"
  end.
(* src: src/crates/server/src/lib.rs:955-984 upload_result *)
Definition upload_result (now : Z) (headers : HeaderMap) (command_id : Uuid)
    (r : ContentUploadResult) : Tx SimpleOk :=
  '(principal, request) ← client_request headers command_id (Ok tt);
  _ ← require (bool_decide (cr_request_id request = ur_request_id r)) FORBIDDEN;
  _ ← complete_request_and_command (ur_request_id r) (result_status (ur_status r))
        (result_status (ur_status r)) now;
  mret (mkSimpleOk true).

(* src: src/crates/server/src/lib.rs:1025-1038 upload_manifests: loop *)
Definition accept_manifest (now : Z) (request : ContentRequest) (m : ContentObjectManifest) : Tx unit :=
  _ ← require (is_ok (validate m)) BAD_REQUEST;
  _ ← require (bool_decide (mf_request_id m = cr_request_id request)
               && String.eqb (mf_task_ref m) (cr_task_ref request)
               && String.eqb (mf_session_id m) (cr_session_id request)
               && String.eqb (mf_thread_id m) (cr_thread_id request)
               && bool_decide (mf_part m ∈ cr_parts request)) FORBIDDEN;
  persist_manifest_row m (cr_client_id request) now.
(* src: src/crates/server/src/lib.rs:986-1042 upload_manifests *)
Definition upload_manifests (now : Z) (headers : HeaderMap) (command_id : Uuid)
    (manifests : list ContentObjectManifest) : Tx SimpleOk :=
  '(principal, request) ← client_request headers command_id (Ok tt);
  _ ← require (negb (bool_decide (manifests = []))) BAD_REQUEST;
  not_expired_or request now (mkSimpleOk true)
    (_ ← tx_iter (accept_manifest now request) manifests;
     mret (mkSimpleOk true)).

(** ** Structure *)
#[local] Hint Extern 1 (tx_rel _ (authorize _)) => apply authorize_rel; typeclasses eauto : tx.


Lemma load_command_request_rel R `{!PreOrder R} i c : tx_rel R (load_command_request i c).
Proof. unfold load_command_request. tx_walk. Qed.
#[local] Hint Extern 1 (tx_rel _ (load_command_request _ _)) =>
  apply load_command_request_rel; typeclasses eauto : tx.
Lemma client_request_rel R `{!PreOrder R} h i pre : tx_rel R (client_request h i pre).
Proof. unfold client_request, ensure_client_role. tx_walk. Qed.
#[local] Hint Extern 1 (tx_rel _ (client_request _ _ _)) =>
  apply client_request_rel; typeclasses eauto : tx.

Lemma evict_requests_total ids : tx_total (evict_requests ids).
Proof. induction ids as [|i ids IH]; cbn [evict_requests]; total_walk. Qed.
Lemma evict_conversation_total c s t : tx_total (evict_conversation c s t).
Proof.
  unfold evict_conversation, evict_object.
  apply total_bind; [total_walk|]. intros rows.
  apply total_bind; [apply evict_requests_total|]. intros shas. total_walk.
Qed.
Definition evict_tables : list Tab :=
  [ContentManifests; ContentChunks; ContentLinks; ContentObjects].
Lemma evict_requests_frame ids : tx_rel (frame evict_tables) (evict_requests ids).
Proof. induction ids as [|i ids IH]; cbn [evict_requests]; tx_walk. Qed.
Lemma evict_requests_wf ids : tx_rel (keeps db_wf) (evict_requests ids).
Proof. induction ids as [|i ids IH]; cbn [evict_requests]; tx_walk. Qed.
Lemma evict_objects_frame shas : tx_rel (frame evict_tables) (tx_iter evict_object shas).
Proof. unfold evict_object. tx_walk. Qed.
#[local] Hint Resolve evict_requests_frame evict_requests_wf : tx.
Lemma evict_conversation_wf c s t : tx_rel (keeps db_wf) (evict_conversation c s t).
Proof. unfold evict_conversation, evict_object. tx_walk. Qed.

(** A conversation row is removed, and only it. *)
Definition is_conversation (c s t : string) (r : ConversationRow) : bool :=
  String.eqb (cv_client_id r) c && String.eqb (cv_session_id r) s && String.eqb (cv_thread_id r) t.
Lemma evict_conversation_rows c s t db db' :
  evict_conversation c s t db = Ok (tt, db') ->
  db' ContentConversations = delete_where (is_conversation c s t) (db ContentConversations)
  /\ frame (ContentConversations :: evict_tables) db db'.
Proof.
  unfold evict_conversation. intros (rows & db0 & [-> ->]%(fetch_all_Ok ContentRequests) & E)%tx_bind_Ok.
  apply tx_bind_Ok in E as (shas & db1 & E1 & E).
  apply tx_bind_Ok in E as ([] & db2 & E2 & ->%delete_from_Ok).
  apply evict_requests_frame in E1. apply evict_objects_frame in E2.
  split.
  - tab_simpl. rewrite E2, E1 by (unfold evict_tables; set_solver). done.
  - intros u Hu. rewrite set_table_ne by set_solver. rewrite E2, E1 by set_solver. done.
Qed.

(** ** Eviction keeps the newest thirty conversations *)
Lemma text_le_antisym a b : text_le a b = true -> text_le b a = true -> a = b.
Proof.
  unfold text_le, as_bytes. intros Hab Hba. pose proof (bytes_le_antisym _ _ Hab Hba) as Heq.
  by rewrite <- (string_of_list_byte_of_string a), Heq, string_of_list_byte_of_string.
Qed.
Lemma oldest_first_spec a b :
  oldest_first a b = true <->
  cv_last_requested_at_ms a < cv_last_requested_at_ms b
  \/ cv_last_requested_at_ms a = cv_last_requested_at_ms b
     /\ (cv_session_id a <> cv_session_id b /\ text_le (cv_session_id a) (cv_session_id b) = true
         \/ cv_session_id a = cv_session_id b /\ text_le (cv_thread_id a) (cv_thread_id b) = true).
Proof.
  unfold oldest_first. rewrite !orb_true_iff, !andb_true_iff, orb_true_iff, !andb_true_iff.
  rewrite Z.ltb_lt, Z.eqb_eq, negb_true_iff, String.eqb_eq, String.eqb_neq. done.
Qed.
Lemma oldest_first_total a b : oldest_first a b = false -> oldest_first b a = true.
Proof.
  intros Hf. rewrite oldest_first_spec. apply not_true_iff_false in Hf. rewrite oldest_first_spec in Hf.
  destruct (Z.lt_trichotomy (cv_last_requested_at_ms a) (cv_last_requested_at_ms b)) as [?|[?|?]];
    [tauto | | tauto].
  right. split; [done|].
  destruct (decide (cv_session_id a = cv_session_id b)) as [Hs|Hs].
  - right. split; [done|]. apply text_le_total. apply not_true_iff_false. tauto.
  - left. split; [done|]. apply text_le_total. apply not_true_iff_false. tauto.
Qed.
Lemma oldest_first_trans a b c :
  oldest_first a b = true -> oldest_first b c = true -> oldest_first a c = true.
Proof.
  rewrite !oldest_first_spec. intros [?|[? Hab]] [?|[? Hbc]]; [left; lia.. |].
  right. split; [lia|].
  destruct Hab as [[Hab1 Hab2]|[Hab1 Hab2]], Hbc as [[Hbc1 Hbc2]|[Hbc1 Hbc2]].
  - left. split; [|by eapply text_le_trans]. intros Heq. apply Hab1.
    apply text_le_antisym; [done|]. by rewrite Heq.
  - left. rewrite <- Hbc1. done.
  - left. rewrite Hab1. done.
  - right. split; [congruence | by eapply text_le_trans].
Qed.

Notation mine c db := (select (conversation_of c) (db ContentConversations)) (only parsing).
Notation others c db := (delete_where (conversation_of c) (db ContentConversations)) (only parsing).

(** One turn: the head of the sorted rows goes. *)
Lemma evict_turn c db db' v :
  db_wf db -> head (order_by oldest_first (mine c db)) = Some v ->
  evict_conversation c (cv_session_id v) (cv_thread_id v) db = Ok (tt, db') ->
  mine c db ≡ₚ v :: mine c db' /\ others c db' = others c db
  /\ forall k, k ∈ mine c db' -> oldest_first v k = true.
Proof.
  intros Hwf Hv [Hrows _]%evict_conversation_rows.
  destruct (order_by oldest_first (mine c db)) as [|v' sorted] eqn:Es; [done|].
  injection Hv as ->.
  assert (Hmem : v ∈ mine c db) by (rewrite <- (order_by_perm oldest_first), Es; set_solver).
  apply select_elem in Hmem as [Hin Hc]. unfold conversation_of in Hc. apply String.eqb_eq in Hc.
  assert (Hone : forall x, is_conversation c (cv_session_id v) (cv_thread_id v) x = true
                           <-> row_key ContentConversations x = row_key ContentConversations v).
  { intros x. unfold is_conversation. rewrite !andb_true_iff, !String.eqb_eq. cbn. rewrite Hc.
    split; [by intros [[-> ->] ->] | by intros [= -> -> ->]]. }
  assert (Hsel : mine c db ≡ₚ v :: mine c db').
  { rewrite Hrows, select_delete_comm.
    rewrite (delete_where_perm (is_conversation c (cv_session_id v) (cv_thread_id v)) (mine c db)) at 1.
    rewrite (select_key_singleton (row_key ContentConversations) _ _ v); [done | | |exact Hone].
    - apply select_keyed, (Hwf ContentConversations).
    - apply select_elem. split; [done|]. unfold conversation_of. by apply String.eqb_eq. }
  split; [done|]. split.
  { rewrite Hrows. apply delete_where_absorb. intros r. unfold is_conversation, conversation_of.
    rewrite !andb_true_iff. tauto. }
  intros k Hk. pose proof (order_by_sorted oldest_first oldest_first_total oldest_first_trans (mine c db)) as Hs.
  rewrite Es in Hs. apply StronglySorted_inv in Hs as [_ Hs]. rewrite Forall_forall in Hs. apply Hs.
  assert (Hp : v :: sorted ≡ₚ v :: mine c db') by (rewrite <- Es, order_by_perm; done).
  apply Permutation_cons_inv in Hp. by rewrite Hp.
Qed.

Lemma evict_loop_keeps n c db :
  db_wf db -> (length (mine c db) < n)%nat ->
  exists db' victims, evict_loop n c db = Ok (tt, db')
    /\ others c db' = others c db
    /\ mine c db ≡ₚ victims ++ mine c db'
    /\ length (mine c db') = Nat.min 30 (length (mine c db))
    /\ forall v k, v ∈ victims -> k ∈ mine c db' -> oldest_first v k = true.
Proof.
  revert db. induction n as [|n IH]; intros db Hwf Hn; [lia|]. cbn [evict_loop].
  destruct (Z.leb_spec (Z.of_nat (length (mine c db))) CONTENT_CONVERSATION_LIMIT) as [Hle|Hgt].
  - exists db, []. split.
    { apply tx_bind_Ok. exists (mine c db), db. split; [by apply (fetch_all_Ok ContentConversations)|].
      cbn [Row]. by rewrite (proj2 (Z.leb_le _ _)). }
    unfold CONTENT_CONVERSATION_LIMIT in Hle. split; [done|]. split; [done|]. split; [lia|].
    intros v k Hv. set_solver.
  - destruct (order_by oldest_first (mine c db)) as [|v sorted] eqn:Es.
    { pose proof (order_by_perm oldest_first (mine c db)) as Hp. rewrite Es in Hp.
      apply Permutation_nil in Hp. rewrite Hp in Hgt. cbn in Hgt. unfold CONTENT_CONVERSATION_LIMIT in Hgt. lia. }
    destruct (evict_conversation_total c (cv_session_id v) (cv_thread_id v) db) as ([] & db1 & E1).
    destruct (evict_turn c db db1 v) as (Hp & Ho & Hmin); [done | by rewrite Es | done |].
    pose proof (evict_conversation_wf _ _ _ _ _ _ E1 Hwf) as Hwf1.
    pose proof (Permutation_length Hp) as Hlen. rewrite length_cons in Hlen.
    cbn [Row] in *.
    destruct (IH db1 Hwf1) as (db' & victims & E & Ho' & Hp' & Hl & Hmin'); [by rewrite Hlen, <- Nat.succ_lt_mono in Hn|].
    exists db', (v :: victims). split; [|split; [|split; [|split]]].
    + apply tx_bind_Ok. exists (mine c db), db. split; [by apply (fetch_all_Ok ContentConversations)|].
      cbn [Row]. rewrite (proj2 (Z.leb_gt _ _)) by lia. apply tx_bind_Ok.
      exists (Some (mkStoredConversation (cv_session_id v) (cv_thread_id v))), db. split.
      { unfold select_oldest_conversation. apply tx_bind_Ok. exists (mine c db), db.
        split; [by apply (fetch_all_Ok ContentConversations)|]. cbn [Row]. by rewrite Es. }
      apply tx_bind_Ok. by exists tt, db1.
    + by rewrite Ho'.
    + rewrite Hp, Hp'. done.
    + unfold CONTENT_CONVERSATION_LIMIT in Hgt. rewrite Hl. lia.
    + intros x k Hx Hk. apply elem_of_cons in Hx as [->|Hx]; [|by apply Hmin'].
      apply Hmin. rewrite Hp'. apply elem_of_app. by right.
Qed.

Lemma select_length {R} (p : R -> bool) t : (length (select p t) <= length t)%nat.
Proof. pose proof (delete_where_length p t). lia. Qed.

(** [C29] Eviction always ends, leaves a client at most thirty conversations, and
    those are its most recently requested ones: every evicted conversation
    comes before every kept one in the order of last request, session and
    thread.  Conversations of other clients stay. *)
Theorem evict_keeps_newest c db :
  db_wf db ->
  exists db' victims, evict_old_conversations c db = Ok (tt, db')
    /\ others c db' = others c db
    /\ mine c db ≡ₚ victims ++ mine c db'
    /\ length (mine c db') = Nat.min 30 (length (mine c db))
    /\ forall v k, v ∈ victims -> k ∈ mine c db' -> oldest_first v k = true.
Proof.
  intros Hwf. apply evict_loop_keeps; [done|].
  apply Nat.lt_succ_r, select_length.
Qed.

(** ** Objects and links refer to each other *)
Definition linked_sha (db : Db) (sha : string) : Prop :=
  exists l, l ∈ db ContentLinks /\ lk_object_sha256 l = sha.
Definition stored_sha (db : Db) (sha : string) : Prop :=
  exists o, o ∈ db ContentObjects /\ ob_object_sha256 o = sha.
Definition objects_linked (db : Db) : Prop := forall sha, linked_sha db sha <-> stored_sha db sha.

Lemma evict_requests_links ids db shas db' :
  evict_requests ids db = Ok (shas, db') ->
  db' ContentObjects = db ContentObjects
  /\ (forall l, l ∈ db' ContentLinks <-> l ∈ db ContentLinks /\ lk_request_id l ∉ ids)
  /\ (forall l, l ∈ db ContentLinks -> lk_request_id l ∈ ids -> lk_object_sha256 l ∈ shas).
Proof.
  revert db db' shas. induction ids as [|i ids IH]; intros db db' shas; cbn [evict_requests].
  - intros [-> ->]%tx_ret_Ok. set_solver.
  - intros (rows & ? & [-> ->]%(fetch_all_Ok ContentLinks) & E)%tx_bind_Ok.
    apply tx_bind_Ok in E as ([] & ? & ->%delete_from_Ok & E).
    apply tx_bind_Ok in E as ([] & ? & ->%delete_from_Ok & E).
    apply tx_bind_Ok in E as ([] & db1 & ->%delete_from_Ok & E).
    apply tx_bind_Ok in E as (shas' & db2 & (Ho & Hl & Hs)%IH & [-> ->]%tx_ret_Ok).
    tab_simpl_in Ho. split; [done|]. split.
    + intros l. rewrite Hl. tab_simpl. rewrite delete_where_elem. cbn.
      rewrite bool_decide_eq_false. set_solver.
    + intros l Hin Hid. apply elem_of_app.
      destruct (decide (lk_request_id l = i)) as [Heq|Hne].
      * left. apply list_elem_of_fmap. exists l. split; [done|]. apply select_elem.
        split; [done|]. by apply bool_decide_eq_true.
      * right. apply Hs; [|set_solver]. tab_simpl. apply delete_where_elem.
        split; [done|]. by apply bool_decide_eq_false.
Qed.

Lemma evict_objects_rows shas db db' :
  tx_iter evict_object shas db = Ok (tt, db') ->
  db' ContentLinks = db ContentLinks
  /\ forall o, o ∈ db' ContentObjects <->
       o ∈ db ContentObjects /\ (ob_object_sha256 o ∈ shas -> linked_sha db (ob_object_sha256 o)).
Proof.
  revert db db'. induction shas as [|sha shas IH]; intros db db'; cbn [tx_iter].
  - intros [_ ->]%tx_ret_Ok. set_solver.
  - intros ([] & db1 & E1 & (Hl & Ho)%IH)%tx_bind_Ok. unfold evict_object in E1.
    apply tx_bind_Ok in E1 as (found & ? & [-> ->]%(fetch_optional_Ok ContentLinks) & E1).
    destruct (List.find _ _) as [l|] eqn:F.
    + apply tx_ret_Ok in E1 as [_ ->]. split; [done|]. intros o. rewrite Ho.
      apply find_some in F as [Hin Hsha%String.eqb_eq]. rewrite <- list_elem_of_In in Hin.
      split; intros [? Hi]; (split; [done|]).
      * intros [->|?]%elem_of_cons; [by exists l | auto].
      * intros ?. apply Hi. set_solver.
    + apply delete_from_Ok in E1 as ->. unfold linked_sha in *. tab_simpl_in Hl.
      rewrite Hl. split; [done|]. intros o. rewrite Ho. tab_simpl. rewrite delete_where_elem.
      assert (Hnone : forall l, l ∈ db ContentLinks -> lk_object_sha256 l <> sha).
      { intros l Hin. rewrite list_elem_of_In in Hin. apply (find_none _ _ F) in Hin.
        by apply String.eqb_neq in Hin. }
      rewrite String.eqb_neq. split.
      * intros [[Hin Hne] Hi]. split; [done|]. intros [?|?]%elem_of_cons; [done | auto].
      * intros [Hin Hi]. split; [split; [done|]|].
        -- intros Heq. destruct Hi as (l & Hl' & Hs); [set_solver|]. apply (Hnone l); congruence.
        -- intros ?. apply Hi. set_solver.
Qed.

Lemma evict_conversation_linked c s t : tx_rel (keeps objects_linked) (evict_conversation c s t).
Proof.
  intros db [] db' E Hinv. unfold evict_conversation in E.
  apply tx_bind_Ok in E as (rows & ? & [-> ->]%(fetch_all_Ok ContentRequests) & E).
  apply tx_bind_Ok in E as (shas & db1 & (Ho1 & Hl1 & Hs1)%evict_requests_links & E).
  apply tx_bind_Ok in E as ([] & db2 & (Hl2 & Ho2)%evict_objects_rows & ->%delete_from_Ok).
  assert (Hmem : forall x, x ∈ order_by text_le (remove_dups shas) <-> x ∈ shas).
  { intros x. rewrite order_by_perm. apply elem_of_remove_dups. }
  intros sha. unfold linked_sha, stored_sha. tab_simpl. rewrite Hl2. split.
  - intros (l & Hin & <-). pose proof Hin as [Hin' _]%Hl1.
    destruct (proj1 (Hinv (lk_object_sha256 l))) as (o & Hobj & Hsha); [by exists l|].
    exists o. split; [|done]. apply Ho2. rewrite Ho1. split; [done|]. intros _. exists l.
    split; [done | congruence].
  - intros (o & Hin & <-). apply Ho2 in Hin as [Hobj Hi]. rewrite Ho1 in Hobj.
    destruct (proj2 (Hinv (ob_object_sha256 o))) as (l & Hin & Hsha); [by exists o|].
    destruct (decide (lk_request_id l ∈ map rq_request_id (select (fun r =>
      String.eqb (rq_client_id r) c && String.eqb (rq_session_id r) s
      && String.eqb (rq_thread_id r) t) (db ContentRequests)))) as [Hid|Hid].
    + apply Hi, Hmem. rewrite <- Hsha. by apply Hs1.
    + exists l. split; [|done]. by apply Hl1.
Qed.
Lemma upsert_content_object_linked request m a u now :
  tx_rel (keeps objects_linked) (upsert_content_object request m a u now).
Proof.
  intros db x db' E Hinv. unfold upsert_content_object in E.
  apply tx_bind_Ok in E as ([] & db1 & ->%insert_or_update_Ok & E).
  apply tx_bind_Ok in E as ([] & db2 & ->%insert_or_update_Ok & [_ ->]%tx_ret_Ok).
  intros sha. unfold linked_sha, stored_sha. tab_simpl.
  rewrite (upsert_exists (row_key ContentLinks) lk_object_sha256) by (done || by intros ? [= _ ?]).
  rewrite (upsert_exists (row_key ContentObjects) ob_object_sha256) by done. cbn.
  specialize (Hinv sha). unfold linked_sha, stored_sha in Hinv. tauto.
Qed.

(** ** Chunks arrive in any order *)
Lemma find_all_false {A} (f : A -> bool) l : (forall x, x ∈ l -> f x = false) -> List.find f l = None.
Proof.
  intros Hf. induction l as [|x l IH]; cbn; [done|]. rewrite Hf by set_solver. apply IH. set_solver.
Qed.
Definition row_chunk (r : ChunkRow) : ContentUploadChunk :=
  mkContentUploadChunk (ck_request_id r) (ck_chunk_index r) (ck_chunk_count r) (ck_object_sha256 r)
    (ck_payload_sha256 r) (ck_payload_zstd r) (ck_is_last r).
Definition object_chunks (rid : Uuid) (sha : string) (db : Db) : list ContentUploadChunk :=
  map row_chunk (select (of_object rid sha) (db ContentChunks)).

Section object.
Context (rid : Uuid) (sha : string) (cs : list ContentUploadChunk).
(** The chunks of one object: numbered from zero, with their count. *)
Definition numbered : Prop :=
  map cc_chunk_index cs = seqZ 0 (Z.of_nat (length cs))
  /\ Forall (fun c => cc_request_id c = rid /\ cc_object_sha256 c = sha
               /\ cc_chunk_count c = Z.of_nat (length cs)) cs.
Context (Hcs : numbered).

Lemma of_object_true r :
  of_object rid sha r = true <-> ck_request_id r = rid /\ ck_object_sha256 r = sha.
Proof. unfold of_object. by rewrite andb_true_iff, bool_decide_eq_true, String.eqb_eq. Qed.
Lemma numbered_inj c c' : c ∈ cs -> c' ∈ cs -> cc_chunk_index c = cc_chunk_index c' -> c = c'.
Proof.
  intros (i & Hi)%list_elem_of_lookup_1 (j & Hj)%list_elem_of_lookup_1 Heq.
  destruct Hcs as [Hidx _].
  assert (Hat : forall k x, cs !! k = Some x -> cc_chunk_index x = Z.of_nat k).
  { intros k x Hk. assert (Hm : map cc_chunk_index cs !! k = Some (cc_chunk_index x))
      by (rewrite list_lookup_fmap, Hk; done).
    rewrite Hidx in Hm. apply lookup_seqZ in Hm. lia. }
  pose proof (Hat i c Hi). pose proof (Hat j c' Hj). assert (i = j) by lia. congruence.
Qed.

(** The rows of the object are the chunks of [l]. *)
Definition holds (db : Db) (l : list ContentUploadChunk) : Prop :=
  db_wf db /\ object_chunks rid sha db ≡ₚ l /\ NoDup l /\ l ⊆ cs.

Lemma holds_row db l r :
  holds db l -> r ∈ db ContentChunks -> of_object rid sha r = true -> row_chunk r ∈ l.
Proof.
  intros (_ & Hp & _) Hr Ho. rewrite <- Hp. unfold object_chunks. apply list_elem_of_fmap_2.
  by apply select_elem.
Qed.
Lemma holds_elem db l c :
  holds db l -> c ∈ l -> exists r, r ∈ db ContentChunks /\ of_object rid sha r = true /\ row_chunk r = c.
Proof.
  intros (_ & Hp & _) Hc. rewrite <- Hp in Hc. apply list_elem_of_fmap in Hc as (r & -> & Hr).
  apply select_elem in Hr as [??]. by exists r.
Qed.

(** One delivery: nothing new, or one more chunk. *)
(** A chunk already received changes nothing. *)
Lemma upsert_chunk_known db l c now row :
  holds db l -> c ∈ cs ->
  List.find (fun r => of_object rid sha r && (ck_chunk_index r =? cc_chunk_index c))
              (db ContentChunks) = Some row ->
  upsert_chunk_row c now db = Ok (true, db) /\ c ∈ l.
Proof.
  intros Hh Hc F. pose proof Hcs as [_ Hall]. rewrite Forall_forall in Hall.
  destruct (Hall c Hc) as (Hr1 & Hr2 & Hr3). unfold upsert_chunk_row. rewrite Hr1, Hr2.
  apply find_some in F as F'. destruct F' as [Hin Hm]. rewrite <- list_elem_of_In in Hin.
  apply andb_true_iff in Hm as [Ho Hi%Z.eqb_eq].
  pose proof (holds_row _ _ _ Hh Hin Ho) as Hl.
  assert (Heq : row_chunk row = c).
  { apply numbered_inj; [by apply Hh | done | exact Hi]. }
  rewrite Heq in Hl. split; [|done].
  apply tx_bind_Ok. exists (Some row), db. split; [by apply (fetch_optional_Ok ContentChunks)|].
  apply tx_bind_Ok. exists tt, db. split; [|done]. apply require_Ok. split; [|done].
  rewrite <- Heq. cbn. by rewrite Z.eqb_refl, String.eqb_refl, Bool.eqb_reflx.
Qed.
(** A new one adds its row. *)
Lemma upsert_chunk_new db l c now :
  holds db l -> c ∈ cs ->
  List.find (fun r => of_object rid sha r && (ck_chunk_index r =? cc_chunk_index c))
              (db ContentChunks) = None ->
  exists db', upsert_chunk_row c now db = Ok (false, db') /\ holds db' (c :: l) /\ c ∉ l.
Proof.
  intros Hh Hc F. pose proof Hcs as [_ Hall]. rewrite Forall_forall in Hall.
  destruct (Hall c Hc) as (Hr1 & Hr2 & Hr3). unfold upsert_chunk_row. rewrite Hr1, Hr2.
  pose proof (find_none _ _ F) as Hnone.
  assert (Hnl : c ∉ l).
  { intros Hl. destruct (holds_elem _ _ _ Hh Hl) as (r & Hin & Ho & Heq).
    rewrite list_elem_of_In in Hin. apply Hnone in Hin. rewrite Ho in Hin. cbn in Hin.
    apply Z.eqb_neq in Hin. by rewrite <- Heq in Hin. }
  set (row := mkChunkRow rid sha (cc_chunk_index c) (cc_chunk_count c) (cc_payload_sha256 c)
                (cc_payload_zstd c) (cc_is_last c) now).
  assert (Hrow : row_chunk row = c) by (destruct c; cbn in *; by subst).
  assert (E : insert ContentChunks row db
              = Ok (tt, set_table ContentChunks (db ContentChunks ++ [row]) db)).
  { apply insert_Ok. split; [|done]. apply find_key_None. intros (r & Hk & Hin)%list_elem_of_fmap.
    cbn in Hk. injection Hk as Hk1 Hk2 Hk3. rewrite list_elem_of_In in Hin. apply Hnone in Hin.
    rewrite (proj2 (of_object_true r)) in Hin by done. cbn in Hin. apply Z.eqb_neq in Hin. congruence. }
  exists (set_table ContentChunks (db ContentChunks ++ [row]) db). split; [|split; [|done]].
  + apply tx_bind_Ok. exists None, db. split; [by apply (fetch_optional_Ok ContentChunks)|].
    apply tx_bind_Ok. exists None, db. split.
    { apply (fetch_optional_Ok ContentChunks). split; [|done]. symmetry. apply find_all_false.
      intros r Hin. destruct (of_object rid sha r) eqn:Ho; [|done]. cbn.
      pose proof (holds_row _ _ _ Hh Hin Ho) as Hl. destruct Hh as (_ & _ & _ & Hsub).
      apply Hsub in Hl. destruct (Hall _ Hl) as (_ & _ & Hn). cbn in Hn.
      by rewrite Hn, Hr3, Z.eqb_refl. }
    apply tx_bind_Ok. exists tt, db. split; [by apply require_Ok|].
    apply tx_bind_Ok. by exists tt, (set_table ContentChunks (db ContentChunks ++ [row]) db).
  + destruct Hh as (Hwf & Hp & Hnd & Hsub). split; [by eapply insert_wf|]. split.
    * unfold object_chunks, select in *. tab_simpl. rewrite List.filter_app, map_app. cbn [List.filter].
      rewrite (proj2 (of_object_true row)) by done. cbn [map]. rewrite Hrow, Hp.
      symmetry. apply Permutation_cons_append.
    * split; [by apply NoDup_cons | set_solver].
Qed.
Lemma upsert_chunk_holds db l c now :
  holds db l -> c ∈ cs ->
  exists dup db', upsert_chunk_row c now db = Ok (dup, db')
    /\ holds db' (if decide (c ∈ l) then l else c :: l) /\ dup = bool_decide (c ∈ l).
Proof.
  intros Hh Hc.
  destruct (List.find (fun r => of_object rid sha r && (ck_chunk_index r =? cc_chunk_index c))
              (db ContentChunks))
    as [row|] eqn:F.
  - destruct (upsert_chunk_known _ _ _ now _ Hh Hc F) as [E Hl]. exists true, db.
    by rewrite bool_decide_eq_true_2, decide_True.
  - destruct (upsert_chunk_new _ _ _ now Hh Hc F) as (db' & E & Hh' & Hnl). exists false, db'.
    by rewrite bool_decide_eq_false_2, decide_False.
Qed.

(** A delivery sequence. *)
Definition deliver_chunks (ds : list (Z * ContentUploadChunk)) : Tx unit :=
  tx_iter (fun d => _ ← upsert_chunk_row d.2 d.1; mret tt) ds.
Lemma deliver_holds ds db l :
  holds db l -> (forall c, c ∈ map snd ds -> c ∈ cs) ->
  exists db' l', deliver_chunks ds db = Ok (tt, db') /\ holds db' l'
    /\ forall c, c ∈ l' <-> c ∈ l \/ c ∈ map snd ds.
Proof.
  unfold deliver_chunks. revert db l. induction ds as [|[now c] ds IH]; intros db l Hh Hd.
  - exists db, l. split; [done|]. split; [done|]. set_solver.
  - cbn [map snd] in Hd. destruct (upsert_chunk_holds db l c now Hh) as (dup & db1 & E1 & Hh1 & _);
      [apply Hd; set_solver|].
    destruct (IH db1 _ Hh1) as (db' & l' & E & Hh' & Hl'); [intros; apply Hd; set_solver|].
    exists db', l'. split; [|split; [done|]].
    + cbn [tx_iter]. apply tx_bind_Ok. exists tt, db1. split; [|exact E].
      apply tx_bind_Ok. by exists dup, db1.
    + intros x. rewrite Hl'. cbn [map snd]. destruct (decide (c ∈ l)); set_solver.
Qed.

Lemma sorted_by_index_from n (l : list ContentUploadChunk) :
  map cc_chunk_index l = seqZ n (Z.of_nat (length l)) ->
  StronglySorted (fun c c' => cc_chunk_index c <= cc_chunk_index c') l.
Proof.
  revert n. induction l as [|c l IH]; intros n Hl; constructor.
  - apply (IH (Z.succ n)). cbn [map length] in Hl. rewrite Nat2Z.inj_succ, seqZ_cons in Hl by lia.
    injection Hl as _ Hl. rewrite Hl. f_equal; lia.
  - cbn [map length] in Hl. rewrite Nat2Z.inj_succ, seqZ_cons in Hl by lia. injection Hl as Hc Hl.
    apply Forall_forall. intros x Hx.
    assert (Hin : cc_chunk_index x ∈ map cc_chunk_index l) by by apply list_elem_of_fmap_2.
    rewrite Hl in Hin. apply elem_of_seqZ in Hin. lia.
Qed.
Lemma by_index_total a b : by_index a b = false -> by_index b a = true.
Proof. unfold by_index. rewrite Z.leb_gt, Z.leb_le. lia. Qed.
Lemma by_index_trans a b c : by_index a b = true -> by_index b c = true -> by_index a c = true.
Proof. unfold by_index. rewrite !Z.leb_le. lia. Qed.
Lemma sorted_rows rows :
  StronglySorted (fun c c' => cc_chunk_index c <= cc_chunk_index c')
    (map row_chunk (order_by by_index rows)).
Proof.
  pose proof (order_by_sorted by_index by_index_total by_index_trans rows) as Hs.
  induction Hs as [|r t _ IH Hr]; constructor; [done|]. apply Forall_forall.
  rewrite Forall_forall in Hr. intros x (y & -> & Hy)%list_elem_of_fmap.
  by apply Hr, Z.leb_le in Hy.
Qed.
Lemma indexes_from_seqZ n rows :
  map ck_chunk_index rows = seqZ n (Z.of_nat (length rows)) -> indexes_from n rows = true.
Proof.
  revert n. induction rows as [|r rows IH]; intros n Hr; cbn; [done|].
  cbn [map length] in Hr. rewrite Nat2Z.inj_succ, seqZ_cons in Hr by lia. injection Hr as Hc Hr.
  rewrite Hc, Z.eqb_refl. apply IH. cbn. rewrite Hr. f_equal; lia.
Qed.

(** The rows of a complete object, in index order, are its chunks. *)
Lemma holds_complete db l :
  holds db l -> cs ⊆ l ->
  map row_chunk (order_by by_index (select (of_object rid sha) (db ContentChunks))) = cs.
Proof.
  intros (_ & Hp & Hnd & Hsub) Hcov. pose proof Hcs as [Hidx _].
  apply (StronglySorted_unique_strong (fun c c' => cc_chunk_index c <= cc_chunk_index c')).
  - intros c c' Hc Hc' Hle Hge. apply numbered_inj; [| done | lia].
    apply Hsub. rewrite <- Hp. unfold object_chunks. by rewrite <- (order_by_perm by_index).
  - apply sorted_rows.
  - by eapply sorted_by_index_from.
  - rewrite (order_by_perm by_index). fold (object_chunks rid sha db). rewrite Hp.
    apply NoDup_Permutation; [done | | split; [apply Hsub | apply Hcov]].
    apply (NoDup_fmap_1 cc_chunk_index). cbn. unfold fmap, list_fmap.
    change (NoDup (map cc_chunk_index cs)). rewrite Hidx. apply NoDup_seqZ.
Qed.
Lemma holds_incomplete db l :
  holds db l -> ~ cs ⊆ l -> (length (select (of_object rid sha) (db ContentChunks)) < length cs)%nat.
Proof.
  intros (_ & Hp & Hnd & Hsub) Hcov. apply Permutation_length in Hp.
  unfold object_chunks in Hp. rewrite length_map in Hp. rewrite Hp.
  apply Nat.nle_gt. intros Hle. apply Hcov.
  pose proof (submseteq_length_Permutation l cs (NoDup_submseteq l cs Hnd Hsub) Hle) as Heq.
  intros x. by rewrite Heq.
Qed.

Lemma chunks_delivered ds db :
  db_wf db -> object_chunks rid sha db = [] -> (forall c, c ∈ map snd ds -> c ∈ cs) ->
  exists db', deliver_chunks ds db = Ok (tt, db')
    /\ is_object_complete rid sha (Z.of_nat (length cs)) db'
       = Ok (bool_decide (Forall (fun c => c ∈ map snd ds) cs), db')
    /\ (Forall (fun c => c ∈ map snd ds) cs ->
         assemble_object rid sha (Z.of_nat (length cs)) db'
         = Ok (concat (map cc_payload_zstd cs), db')).
Proof.
  intros Hwf Hnone Hds.
  assert (Hh0 : holds db []).
  { split; [done|]. split; [by rewrite Hnone|]. split; [constructor | set_solver]. }
  destruct (deliver_holds ds db [] Hh0 Hds) as (db' & l & E & Hh & Hl).
  exists db'. split; [done|].
  assert (Hcov : cs ⊆ l <-> Forall (fun c => c ∈ map snd ds) cs).
  { rewrite Forall_forall. split; intros Hc c Hin; specialize (Hc c Hin).
    - apply Hl in Hc as [Hc|?]; [by apply elem_of_nil in Hc | done].
    - apply Hl. by right. }
  set (rows := select (of_object rid sha) (db' ContentChunks)).
  assert (Hcomplete : cs ⊆ l -> map row_chunk (order_by by_index rows) = cs)
    by by apply holds_complete.
  split.
  - apply tx_bind_Ok. exists rows, db'. split; [by apply (fetch_all_Ok ContentChunks)|].
    apply tx_ret_Ok. split; [|done]. symmetry.
    destruct (bool_decide _) eqn:Hb; [apply bool_decide_eq_true in Hb|apply bool_decide_eq_false in Hb];
      rewrite <- Hcov in Hb.
    + specialize (Hcomplete Hb).
      assert (Hlen : length (order_by by_index rows) = length cs)
        by (rewrite <- Hcomplete, length_map; done).
      rewrite Hlen, Z.eqb_refl. cbn. apply indexes_from_seqZ. rewrite Hlen.
      destruct Hcs as [Hidx _]. rewrite <- Hidx, <- Hcomplete at 1. rewrite map_map. done.
    + pose proof (holds_incomplete _ _ Hh Hb) as Hlt. fold rows in Hlt.
      rewrite (proj2 (Z.eqb_neq _ _)); [done|]. rewrite (order_by_perm by_index). lia.
  - intros Hall%Hcov. specialize (Hcomplete Hall).
    apply tx_bind_Ok. exists rows, db'. split; [by apply (fetch_all_Ok ContentChunks)|].
    apply tx_bind_Ok. exists tt, db'. split.
    + apply require_Ok. split; [|done]. apply Z.eqb_eq. f_equal.
      by rewrite <- Hcomplete, length_map.
    + apply tx_ret_Ok. split; [|done]. rewrite <- Hcomplete at 1. by rewrite map_map.
Qed.

(** [C28] The chunks of an object may arrive in any order, at any times and
    repeatedly: every delivery is accepted, the object is complete exactly when
    every chunk arrived at least once, and it is then assembled to the payloads
    in index order. *)
Theorem chunks_any_order ds db :
  db_wf db -> object_chunks rid sha db = [] -> (forall c, c ∈ map snd ds -> c ∈ cs) ->
  exists db', deliver_chunks ds db = Ok (tt, db')
    /\ is_object_complete rid sha (Z.of_nat (length cs)) db'
       = Ok (bool_decide (Forall (fun c => c ∈ map snd ds) cs), db')
    /\ (Forall (fun c => c ∈ map snd ds) cs ->
         assemble_object rid sha (Z.of_nat (length cs)) db'
         = Ok (concat (map cc_payload_zstd cs), db')).
Proof. apply chunks_delivered. Qed.
End object.

(** ** Polling *)
Definition is_pending (c : string) (r : CommandRow) : bool :=
  String.eqb (cd_client_id r) c && String.eqb (cd_status r) "pending".
Notation pending c db := (select (is_pending c) (db Commands)) (only parsing).
Definition by_creation (a b : CommandRow) : bool := cd_created_at_ms a <=? cd_created_at_ms b.

(** What a sequence of dispatches does to every command row. *)
Definition dispatched (ids : list Uuid) (f : CommandRow -> CommandRow) : Prop :=
  forall r, cd_command_id (f r) = cd_command_id r /\ cd_client_id (f r) = cd_client_id r
    /\ (cd_command_id r ∈ ids -> cd_status (f r) = "dispatched")
    /\ (cd_command_id r ∉ ids -> f r = r).
Lemma dispatch_all (now : nat -> Z) (l : list (nat * CommandRow)) db :
  exists db' f, tx_iter (fun p : nat * CommandRow =>
        update Commands (fun r => bool_decide (cd_command_id r = cd_command_id p.2))
          (fun r => command_set "dispatched" (Some (now p.1)) (cd_completed_at_ms r) r)) l db
      = Ok (tt, db')
    /\ db' Commands = map f (db Commands) /\ dispatched (map (fun p => cd_command_id p.2) l) f
    /\ frame [Commands] db db'.
Proof.
  revert db. induction l as [|[i x] l IH]; intros db.
  - exists db, (fun r => r). split; [done|]. split; [by rewrite map_id|].
    split; [intros r; set_solver | done].
  - set (u := fun r => if bool_decide (cd_command_id r = cd_command_id x)
                       then command_set "dispatched" (Some (now i)) (cd_completed_at_ms r) r else r).
    destruct (IH (set_table Commands (map u (db Commands)) db)) as (db' & f & E & Hc & Hf & Hframe).
    exists db', (fun r => f (u r)). split; [|split; [|split]].
    + cbn [tx_iter]. apply tx_bind_Ok. by exists tt, (set_table Commands (map u (db Commands)) db).
    + rewrite Hc. tab_simpl. by rewrite map_map.
    + intros r. cbn [map fst snd]. destruct (Hf (u r)) as (H1' & H2' & H3' & H4').
      unfold u in *. case_bool_decide as Hx; cbn in *.
      * split; [congruence|]. split; [congruence|]. split; [|set_solver]. intros _.
        destruct (decide (cd_command_id r ∈ map (fun p : nat * CommandRow => cd_command_id p.2) l))
          as [Hin|Hin]; [by apply H3' | by rewrite H4'].
      * split; [done|]. split; [done|]. split; [|set_solver]. intros [?|?]%elem_of_cons; [done | auto].
    + intros t Ht. rewrite Hframe by done. apply set_table_ne. set_solver.
Qed.

Lemma select_map_ext {R} (p q : R -> bool) (f : R -> R) t :
  (forall r, r ∈ t -> p (f r) = q r) -> (forall r, r ∈ t -> q r = true -> f r = r) ->
  select p (map f t) = select q t.
Proof.
  intros Hp Hf. induction t as [|r t IH]; cbn; [done|]. fold (select p (map f t)) (select q t).
  rewrite Hp by set_solver. destruct (q r) eqn:E; [rewrite (Hf r) by set_solver|]; by rewrite IH by set_solver.
Qed.
Lemma delete_where_app {R} (p : R -> bool) l1 l2 :
  delete_where p (l1 ++ l2) = delete_where p l1 ++ delete_where p l2.
Proof. apply List.filter_app. Qed.
Lemma delete_where_all {R} (p : R -> bool) l : (forall r, r ∈ l -> p r = true) -> delete_where p l = [].
Proof.
  unfold delete_where. induction l as [|r l IH]; intros Hp; cbn; [done|].
  rewrite Hp by set_solver. apply IH. set_solver.
Qed.
Lemma delete_where_none {R} (p : R -> bool) l : (forall r, r ∈ l -> p r = false) -> delete_where p l = l.
Proof.
  unfold delete_where. induction l as [|r l IH]; intros Hp; cbn; [done|].
  rewrite Hp by set_solver. cbn. f_equal. apply IH. set_solver.
Qed.

(** Dispatching takes the dispatched identifiers off the pending rows. *)
Lemma dispatched_pending ids f t c :
  dispatched ids f ->
  select (is_pending c) (map f t)
  = delete_where (fun r => bool_decide (cd_command_id r ∈ ids)) (select (is_pending c) t).
Proof.
  intros Hf. rewrite (select_map_ext _ (fun r => is_pending c r
                       && negb (bool_decide (cd_command_id r ∈ ids)))).
  - unfold delete_where, select. induction t as [|r t IH]; cbn; [done|].
    destruct (is_pending c r); cbn; [|done]. by destruct (negb _); cbn; rewrite IH.
  - intros r _. destruct (Hf r) as (_ & Hcl & Hdone & Hout). case_bool_decide as Hr; cbn.
    + unfold is_pending. rewrite (Hdone Hr), Hcl. cbn. by rewrite !andb_false_r.
    + by rewrite (Hout Hr), andb_true_r.
  - intros r _ [_ Hn%negb_true_iff%bool_decide_eq_false]%andb_true_iff. by apply Hf.
Qed.

(** A poll is one dispatch of the first sixteen, if there are any. *)
Lemma poll_run (now : nat -> Z) (c : string) (db : Db) :
  let batch := take 16 (order_by by_creation (pending c db)) in
  exists (db1 : Db) f, db1 Commands = map f (db Commands) /\ dispatched (map cd_command_id batch) f
    /\ frame [Commands] db db1
    /\ poll_commands now c db
       = match batch with
         | [] => Ok (None, db)
         | b => Ok (Some (mkCommandPollResponse (now (length b)) (map cd_payload b)), db1)
         end.
Proof.
  intros batch. destruct (dispatch_all now (imap pair batch) db) as (db1 & f & E & Hc & Hf & Hframe).
  exists db1, f. split; [done|]. split; [|split; [done|]].
  - replace (map cd_command_id batch)
      with (map (fun p : nat * CommandRow => cd_command_id p.2) (imap pair batch)); [done|].
    change (map ?g ?l) with (g <$> l). rewrite fmap_imap. apply (imap_const cd_command_id).
  - unfold poll_commands, mbind, tx_bind, fetch_all. fold (is_pending c).
    change (take 16 (order_by _ (select _ (db Commands)))) with batch.
    destruct batch as [|b0 batch']; [done|]. cbv zeta. by rewrite E.
Qed.

Lemma next_batch_pending c (db : Db) r :
  r ∈ take 16 (order_by by_creation (pending c db)) -> r ∈ db Commands /\ is_pending c r = true.
Proof.
  intros (i & Hi & _)%elem_of_take. apply select_elem. rewrite <- (order_by_perm by_creation).
  by eapply list_elem_of_lookup_2.
Qed.
Lemma command_by_id (db : Db) batch r :
  db_wf db -> (forall x, x ∈ batch -> x ∈ db Commands) ->
  r ∈ db Commands -> cd_command_id r ∈ map cd_command_id batch -> r ∈ batch.
Proof.
  intros Hwf Hin Hr (r' & Hid & Hr')%list_elem_of_fmap.
  pose proof (find_key_elem _ _ _ (Hwf Commands) Hr) as K1.
  pose proof (find_key_elem _ _ _ (Hwf Commands) (Hin r' Hr')) as K2. cbn in K1, K2.
  assert (r = r') as -> by congruence. done.
Qed.
(** A poll never fails.  It hands out the client's pending commands, oldest
    first and at most sixteen, and takes exactly those off the pending ones, so
    no command is handed out twice; the commands of other clients and every
    other table stay as they are, and an empty poll changes nothing. *)
Theorem poll_dispatches now c db :
  db_wf db ->
  exists batch rest db',
    order_by by_creation (pending c db) = batch ++ rest
    /\ length batch = Nat.min 16 (length (pending c db))
    /\ poll_commands now c db
       = Ok (match batch with
             | [] => None
             | _ => Some (mkCommandPollResponse (now (length batch)) (map cd_payload batch))
             end, db')
    /\ (batch = [] -> db' = db)
    /\ pending c db' ≡ₚ rest
    /\ (forall c', c' <> c -> pending c' db' = pending c' db)
    /\ frame [Commands] db db'.
Proof.
  intros Hwf. set (sorted := order_by by_creation (pending c db)).
  assert (Hlen : length sorted = length (pending c db)) by apply Permutation_length, order_by_perm.
  destruct (poll_run now c db) as (db1 & f & Hc & Hf & Hframe & Hpoll). fold sorted in Hf, Hpoll.
  exists (take 16 sorted), (drop 16 sorted).
  destruct (take 16 sorted) as [|b0 batch'] eqn:Eb.
  { assert (Hnil : sorted = []) by (destruct sorted; [done | discriminate Eb]).
    exists db. rewrite Hnil in *. split; [done|]. split; [by rewrite <- Hlen|]. split; [done|].
    split; [done|]. split; [|done]. cbn in Hlen. symmetry in Hlen.
    apply nil_length_inv in Hlen. by rewrite Hlen. }
  assert (Hne : take 16 sorted <> []) by by rewrite Eb.
  rewrite <- Eb in *. clear Eb b0 batch'. set (batch := take 16 sorted) in *.
  exists db1. split; [unfold batch; by rewrite take_drop|].
  split; [unfold batch; by rewrite length_take, Hlen|]. split; [exact Hpoll|].
  split; [by intros ?|].
  pose proof (next_batch_pending c db : forall r, r ∈ batch -> r ∈ db Commands /\ is_pending c r = true) as Hin.
  assert (Hsame : forall r, r ∈ db Commands -> cd_command_id r ∈ map cd_command_id batch -> r ∈ batch)
    by (intros r; apply command_by_id; [done | intros x Hx; by apply Hin]).
  assert (Hpend : forall c', select (is_pending c') (db1 Commands)
    = delete_where (fun r => bool_decide (cd_command_id r ∈ map cd_command_id batch))
        (select (is_pending c') (db Commands))).
  { intros c'. rewrite Hc. by apply dispatched_pending. }
  split; [|split; [|done]].
  - rewrite Hpend.
    assert (Hp : select (is_pending c) (db Commands) ≡ₚ batch ++ drop 16 sorted)
      by (unfold batch; rewrite take_drop; symmetry; apply order_by_perm).
    pose proof (select_keyed _ (is_pending c) _ (Hwf Commands)) as Hk. unfold keyed in Hk. cbn in Hk.
    rewrite Hp in Hk. rewrite map_app in Hk. apply NoDup_app in Hk as (_ & Hdisj & _).
    rewrite Hp, delete_where_app, delete_where_all, delete_where_none; [done | |].
    + intros r Hr. apply bool_decide_eq_false. intros Hb. apply (Hdisj _ Hb).
      by apply list_elem_of_fmap_2.
    + intros r Hr. apply bool_decide_eq_true. by apply list_elem_of_fmap_2.
  - intros c' Hne'. rewrite Hpend. apply delete_where_none. intros r [Hr Hp]%select_elem.
    apply bool_decide_eq_false. intros [_ Hp']%(Hsame _ Hr)%Hin. apply Hne'.
    unfold is_pending in Hp, Hp'. apply andb_true_iff in Hp as [Hp%String.eqb_eq _].
    apply andb_true_iff in Hp' as [Hp'%String.eqb_eq _]. congruence.
Qed.

Lemma wait_seconds_range params : 0 <= wait_seconds params <= 30.
Proof.
  unfold wait_seconds. destruct (params !! "wait") as [v|]; cbn; [|lia].
  destruct (from_str_radix 10 u64_max (as_bytes v)) as [n|] eqn:E; cbn; [|lia].
  apply from_str_radix_range in E; unfold u64_max in *; lia.
Qed.

(** Long polling always ends: when every turn of the loop takes the second it
    sleeps, the response is there after [wait] turns and one more, hence after
    at most thirty-one, whatever the other requests do to the database
    meanwhile. *)
Theorem next_command_returns headers params start db turns :
  (forall i t, turns !! i = Some t -> start + 1000 * Z.of_nat i <= pt_instant t) ->
  wait_seconds params < Z.of_nat (length turns) ->
  is_Some (next_command headers params start db turns) /\ wait_seconds params <= 30.
Proof.
  intros Hturns Hlen. split; [|apply wait_seconds_range]. unfold next_command.
  match goal with |- context [match ?m with Ok _ => _ | Err _ => _ end] =>
    destruct m as [[p ?]|e] end; [|done].
  assert (Hgen : forall ts base,
    (forall i t, ts !! i = Some t -> start + 1000 * (base + Z.of_nat i) <= pt_instant t) ->
    wait_seconds params < base + Z.of_nat (length ts) -> 0 <= base ->
    (ts = [] -> base <= wait_seconds params) ->
    is_Some (poll_loop (pr_client_id p) (start + wait_seconds params * 1000) ts)).
  { induction ts as [|t ts IH]; intros base Ht Hl Hb Hnil; [cbn in Hl; specialize (Hnil eq_refl); lia|].
    cbn [poll_loop]. destruct (poll_run (pt_now t) (pr_client_id p) (pt_db t))
      as (db1 & f & _ & _ & _ & ->).
    destruct (take 16 _) as [|b0 b]; [|done].
    destruct (Z.leb_spec (start + wait_seconds params * 1000) (pt_instant t)) as [?|Hlt]; [done|].
    pose proof (Ht 0%nat t eq_refl). apply (IH (base + 1)).
    - intros i t' Hi. specialize (Ht (S i) t' Hi). lia.
    - cbn [length] in Hl. lia.
    - lia.
    - lia. }
  apply (Hgen turns 0); [done | lia | lia |].
  intros _. apply wait_seconds_range.
Qed.
End content.

(** ** Witnesses *)
Module ServerContentFixture.
Import CodecFixture HttpFixture ServerFixture.
(** Thirty-one conversations of one client, one of another. *)
Definition crowded : Db :=
  exec (_ ← touch_conversation "other" "s" "t" 0;
        tx_iter (fun n => touch_conversation "client" (show_Z n) "t" (100 - n)) (seqZ 0 31)) db_empty.
Lemma touch_wf c s t n : tx_rel (keeps db_wf) (touch_conversation c s t n).
Proof. unfold touch_conversation. tx_walk. Qed.
Lemma crowded_wf : db_wf crowded.
Proof.
  apply (run_tx_rel (keeps db_wf)); [|apply db_wf_empty].
  apply tx_rel_bind; [typeclasses eauto | apply touch_wf | intros _].
  apply tx_rel_iter; [typeclasses eauto|]. intros n _. apply touch_wf.
Qed.
Lemma evict_keeps_newest_witness : exists db', evict_old_conversations "client" crowded = Ok (tt, db')
  /\ length (select (conversation_of "client") (db' ContentConversations)) = 30%nat.
Proof.
  destruct (evict_keeps_newest "client" crowded crowded_wf) as (db' & victims & E & _ & _ & Hl & _).
  exists db'. split; [exact E|]. rewrite Hl. vm_compute. reflexivity.
Defined.

Definition chunk (i : Z) : ContentUploadChunk :=
  mkContentUploadChunk (uuid7 9) i 2 "obj" "sum" [to_u8 (i + 65)] (i =? 1).
Lemma chunks_any_order_witness : exists db',
  deliver_chunks [(7, chunk 1); (8, chunk 1); (9, chunk 0)] db_empty = Ok (tt, db')
  /\ is_object_complete (uuid7 9) "obj" 2 db' = Ok (true, db')
  /\ assemble_object (uuid7 9) "obj" 2 db' = Ok ([x41; x42], db').
Proof.
  destruct (chunks_any_order (uuid7 9) "obj" [chunk 0; chunk 1]
              ltac:(split; [reflexivity | repeat constructor])
              [(7, chunk 1); (8, chunk 1); (9, chunk 0)] db_empty db_wf_empty eq_refl)
    as (db' & E & Hc & Ha); [cbn; set_solver|].
  exists db'. split; [exact E|].
  assert (Hall : Forall (fun c => c ∈ map snd [(7, chunk 1); (8, chunk 1); (9, chunk 0)])
                   [chunk 0; chunk 1]) by by_decide.
  rewrite bool_decide_eq_true_2 in Hc by exact Hall.
  split; [exact Hc | exact (Ha Hall)].
Defined.

(** Two pending commands of a client. *)
Definition command_row (n : N) (at_ms : Z) : CommandRow :=
  mkCommandRow (uuid7 n) (uuid7 (n + 100)) "client" "pending" at_ms None None
    (ClientCommand_RequestContent (mkContentRequestCommand (uuid7 n)
      (mkContentRequest (uuid7 (n + 100)) "client" "r" "s" "t" at_ms None [ContentPart_Request]))).
Definition waiting : Db :=
  exec (_ ← insert Commands (command_row 1 20); insert Commands (command_row 2 10)) db_empty.
Lemma waiting_wf : db_wf waiting.
Proof. apply (run_tx_rel (keeps db_wf)); [tx_walk | apply db_wf_empty]. Qed.
Lemma poll_dispatches_witness : exists db',
  poll_commands (fun _ => 50) "client" waiting
  = Ok (Some (mkCommandPollResponse 50 [cd_payload (command_row 2 10); cd_payload (command_row 1 20)]), db')
  /\ select (is_pending "client") (db' Commands) = [].
Proof.
  destruct (poll_dispatches (fun _ => 50) "client" waiting waiting_wf)
    as (batch & rest & db' & Ho & Hl & E & _ & Hp & _).
  assert (Hs : order_by by_creation (select (is_pending "client") (waiting Commands))
               = [command_row 2 10; command_row 1 20]) by (vm_compute; reflexivity).
  assert (Hl2 : length (select (is_pending "client") (waiting Commands)) = 2%nat)
    by (vm_compute; reflexivity).
  rewrite Hl2 in Hl. rewrite Hs in Ho.
  destruct batch as [|b0 [|b1 [|]]]; try discriminate Hl. injection Ho as <- <- <-.
  exists db'. split; [exact E|]. by apply Permutation_nil.
Defined.

Lemma next_command_returns_witness :
  is_Some (next_command (bearer_of "secret") {["wait" := "1"]} 5000 db1
             [mkPollTurn db1 (fun _ => 1) 5000; mkPollTurn db1 (fun _ => 2) 6000]).
Proof.
  apply (next_command_returns (bearer_of "secret") {["wait" := "1"]} 5000 db1
           [mkPollTurn db1 (fun _ => 1) 5000; mkPollTurn db1 (fun _ => 2) 6000]).
  - intros [|[|i]] t Ht; cbn in Ht; [injection Ht as <- | injection Ht as <- | done]; cbn; lia.
  - by vm_compute.
Defined.

(** A client whose first conversation was evicted by thirty later ones still
    holds the command of its first request. *)
Definition session_of (n : Z) : TaskRow :=
  mkTaskRow (show_Z n) "client" "openai" (show_Z n) "t" "u" TaskPhase_Running None 0 sample_snapshot.
Definition asked : Db :=
  exec (_ ← tx_iter (fun n => insert Tasks (session_of n)) (seqZ 0 31);
        tx_iter (fun n => create_content_request_inner (1000 + n) (uuid7 (Z.to_N n))
                            (uuid7 (Z.to_N (n + 100))) (cli_admin "cli") (show_Z n)
                            [ContentPart_Request] None) (seqZ 0 31))
    db0.
Definition object_sha : string := sha256_hex [x2a].
Definition late_manifest : ContentObjectManifest :=
  mkContentObjectManifest (uuid7 0) "0" "0" "t" ContentPart_Request object_sha "text/plain" 1 2 1 1.
Definition late_chunk : ContentUploadChunk :=
  mkContentUploadChunk (uuid7 0) 0 1 object_sha (sha256_hex [x02; x2a]) [x02; x2a] true.
Definition uploaded : Db :=
  exec (_ ← upload_manifests 5000 (bearer_of "secret") (uuid7 100) [late_manifest];
        upload_chunk 5001 (bearer_of "secret") (uuid7 100) late_chunk) asked.

(** The limit of thirty conversations is enforced when content is requested,
    not when it is uploaded: after thirty-one requests the client has thirty
    conversations and nothing stored, and the upload for the evicted one is
    accepted, stored, and leaves thirty-one. *)
Theorem upload_past_limit :
  length (select (conversation_of "client") (asked ContentConversations)) = 30%nat
  /\ asked ContentObjects = []
  /\ length (select (conversation_of "client") (uploaded ContentConversations)) = 31%nat
  /\ map ob_object_sha256 (uploaded ContentObjects) = [object_sha].
Proof. vm_compute. auto. Qed.
End ServerContentFixture.
