(* ===== verification/ServerSteps.v ===== *)
(** * The server as a state machine

    Every request that may change the database is a step ([server_step]); the
    databases a server can be in are those reachable from the empty one by
    steps in any order.  The invariant of all of them ([server_inv]) and what
    it gives across arbitrary interleavings of requests. *)
From Stdlib Require Import ZArith Lia Strings.Byte Strings.String.
From S2P Require Import Prelude RustStr Digest Types Fixtures Validation Codec Http1 Table Sql Db Server ServerContent.
Local Open Scope string_scope.
Local Open Scope list_scope.
Local Open Scope Z_scope.

Section steps.
Context `{UuidApi} `{DigestApi} `{CborApi} `{ZstdApi} `{HttpApi}.

(** The writing endpoints and commands, with the clock readings and fresh
    identifiers of the run; a poll is one turn of the loop of
    [next_command]. *)
Inductive Request : Type :=
| ReqIngest (now : Z) (headers : HeaderMap) (body : bytes)
| ReqIssueToken (client_id token : string) (role : option TokenRoleArg) (admin : bool) (n1 n2 : Z)
| ReqRevokeToken (token : string) (now : Z)
| ReqCleanup (now : Z)
| ReqCreate (now : Z) (request_id command_id : Uuid) (headers : HeaderMap) (task_ref : string)
    (body : CreateContentRequestBody)
| ReqPoll (now : nat -> Z) (client_id : string)
| ReqManifests (now : Z) (headers : HeaderMap) (command_id : Uuid) (ms : list ContentObjectManifest)
| ReqChunk (now : Z) (headers : HeaderMap) (command_id : Uuid) (c : ContentUploadChunk)
| ReqResult (now : Z) (headers : HeaderMap) (command_id : Uuid) (r : ContentUploadResult).

Definition discard {A} (m : Tx A) : Tx unit := _ ← m; mret tt.
(* src: src/crates/server/src/lib.rs:393-425 build_router *)
Definition run_request (r : Request) : Tx unit :=
  match r with
  | ReqIngest now h b => discard (ingest now h b)
  | ReqIssueToken c t role admin n1 n2 => issue_token c t role admin n1 n2
  | ReqRevokeToken t now => revoke_token t now
  | ReqCleanup now => cleanup_retention now
  | ReqCreate now rid cid h tref body => discard (create_content_request now rid cid h tref body)
  | ReqPoll now c => discard (poll_commands now c)
  | ReqManifests now h c ms => discard (upload_manifests now h c ms)
  | ReqChunk now h c chunk => discard (upload_chunk now h c chunk)
  | ReqResult now h c r => discard (upload_result now h c r)
  end.

(** The database after a request, and after several. *)
Definition serve (db : Db) (r : Request) : Db := (run_tx (run_request r) db).2.
Definition serve_all (rs : list Request) (db : Db) : Db := fold_left serve rs db.
Inductive server_step (db : Db) : Db -> Prop :=
| step_request r : server_step db (serve db r).
Definition reachable (db : Db) : Prop := rtc server_step db_empty db.

Lemma tx_rel_discard R `{!PreOrder R} {A} (m : Tx A) : tx_rel R m -> tx_rel R (discard m).
Proof. intros Hm. unfold discard. tx_walk. Qed.

(** The tables a request may write. *)
Definition request_tables (r : Request) : list Tab :=
  match r with
  | ReqIngest _ _ _ => ingest_tables
  | ReqIssueToken _ _ _ _ _ _ => [Clients; ApiTokens]
  | ReqRevokeToken _ _ => [ApiTokens]
  | ReqCleanup _ => [Heartbeats; IngestReceipts; TaskEvents; Errors; CaptureGaps; HttpExchanges]
  | ReqCreate _ _ _ _ _ _ =>
    [ContentConversations; ContentManifests; ContentChunks; ContentLinks; ContentObjects;
     ContentRequests; Commands]
  | ReqPoll _ _ => [Commands]
  | ReqManifests _ _ _ _ => [ContentManifests; ContentRequests; Commands]
  | ReqChunk _ _ _ _ =>
    [ContentChunks; ContentObjects; ContentLinks; ContentConversations; ContentRequests; Commands]
  | ReqResult _ _ _ _ => [ContentRequests; Commands]
  end.

#[local] Hint Extern 1 (tx_rel _ (authorize _)) => apply authorize_rel; typeclasses eauto : tx.
#[local] Hint Extern 1 (tx_rel _ (client_request _ _ _)) =>
  apply client_request_rel; typeclasses eauto : tx.
#[local] Hint Extern 1 (tx_rel _ (discard _)) =>
  apply tx_rel_discard; [typeclasses eauto|] : tx.

Lemma evict_loop_rel R `{!PreOrder R} n c :
  (forall s t, tx_rel R (evict_conversation c s t)) -> tx_rel R (evict_loop n c).
Proof.
  intros He. induction n as [|n IH]; cbn [evict_loop]; [apply tx_rel_throw|].
  unfold select_oldest_conversation. tx_walk.
Qed.
Lemma evict_old_rel R `{!PreOrder R} c :
  (forall s t, tx_rel R (evict_conversation c s t)) -> tx_rel R (evict_old_conversations c).
Proof. intros He db u db'. by apply evict_loop_rel. Qed.

Ltac open_request :=
  unfold issue_token, revoke_token, upsert_token, ensure_client_exists, cleanup_retention,
    create_content_request, create_content_request_inner, ensure_admin_role,
    poll_commands, upload_manifests, upload_chunk, upload_result, not_expired_or, accept_manifest,
    persist_manifest_row, load_manifest, upsert_chunk_row, is_object_complete, store_object,
    assemble_object, upsert_content_object, linked_object_count, touch_conversation,
    complete_request_and_command.

Lemma run_request_wf r : tx_rel (keeps db_wf) (run_request r).
Proof.
  destruct r; cbn [run_request]; try apply tx_rel_discard; try typeclasses eauto;
    [apply ingest_wf | open_request; tx_walk ..].
  apply evict_old_rel; [typeclasses eauto|]. apply evict_conversation_wf.
Qed.

Lemma evict_conversation_frame c s t :
  tx_rel (frame (ContentConversations :: evict_tables)) (evict_conversation c s t).
Proof. by intros db [] db' [_ ?]%evict_conversation_rows. Qed.
Lemma run_request_frame r : tx_rel (frame (request_tables r)) (run_request r).
Proof.
  destruct r; cbn [run_request request_tables]; try apply tx_rel_discard; try typeclasses eauto;
    [apply ingest_frame | open_request; tx_walk ..].
  apply evict_old_rel; [typeclasses eauto|]. intros s t db u db' E.
  eapply frame_mono; [|by eapply evict_conversation_frame]. unfold evict_tables. set_solver.
Qed.

(** ** What every stored row satisfies *)
Definition row_request (r : RequestRow) : ContentRequest :=
  mkContentRequest (rq_request_id r) (rq_client_id r) (rq_task_ref r) (rq_session_id r)
    (rq_thread_id r) (rq_created_at_ms r) (rq_expires_at_ms r) (rq_parts r).
Definition payload_row_of {T} (ref : T -> string) (id_fn : T -> Uuid) (ts_fn : T -> Z) (x : T)
    : PayloadRow T :=
  mkPayloadRow (ref x) (id_fn x) (ts_fn x) x.

(** The indexed columns agree with the stored value, the value is valid, and a
    stored object inflates to bytes with its digest and lengths. *)
Definition row_ok (t : Tab) : Row t -> Prop :=
  match t with
  | Tasks => fun r =>
      r = task_row (tr_client_id r) (mkTaskUpload (tr_snapshot r) [] [] [] [])
      /\ snapshot_wf (tr_snapshot r)
  | Attempts => fun r =>
      r = payload_row_of ar_task_ref ar_attempt_id ar_started_at_ms (pl_payload r)
      /\ valid (pl_payload r)
  | TaskEvents => fun r =>
      r = payload_row_of te_task_ref te_event_id te_occurred_at_ms (pl_payload r)
      /\ event_wf (pl_payload r)
  | Errors => fun r =>
      r = payload_row_of er_task_ref er_error_id er_occurred_at_ms (pl_payload r)
      /\ valid (pl_payload r)
  | Heartbeats => fun r => exists h, r = heartbeat_row h /\ valid h
  | ContentRequests => fun r => valid (row_request r)
  | ContentManifests => fun r =>
      valid (mr_manifest r) /\ mr_request_id r = mf_request_id (mr_manifest r)
      /\ mr_object_sha256 r = mf_object_sha256 (mr_manifest r)
  | ContentChunks => fun r => exists c, valid c
      /\ r = mkChunkRow (cc_request_id c) (cc_object_sha256 c) (cc_chunk_index c) (cc_chunk_count c)
               (cc_payload_sha256 c) (cc_payload_zstd c) (cc_is_last c) (ck_received_at_ms r)
  | ContentObjects => fun r => exists u, decode_all (ob_content_zstd r) = Ok u
      /\ sha256_hex u = to_ascii_lowercase (ob_object_sha256 r)
      /\ ob_uncompressed_bytes r = Z.of_nat (length u)
      /\ ob_compressed_bytes r = Z.of_nat (length (ob_content_zstd r))
  | _ => fun _ => True
  end.
Notation rows_ok := (all_rows row_ok).

Lemma decode_body_wf body d : decode_body body = Ok d -> batch_wf (db_batch d).
Proof.
  unfold decode_body. destruct (decode_batch_with_payload body) as [d'|e] eqn:E.
  - intros [= ->]. by apply decode_inv in E as [? _].
  - by destruct e.
Qed.

(** Statements on tables without a condition. *)
Lemma rows_insert_free t r : (forall x, row_ok t x) -> tx_rel (keeps rows_ok) (insert t r).
Proof. intros Ht. by apply rows_insert. Qed.
Lemma rows_upsert_free t r merge :
  (forall x, row_ok t x) -> tx_rel (keeps rows_ok) (insert_or_update t r merge).
Proof. intros Ht. by apply rows_insert_or_update. Qed.
Lemma rows_update_free t p f : (forall x, row_ok t x) -> tx_rel (keeps rows_ok) (update t p f).
Proof. intros Ht. by apply rows_update. Qed.
Lemma rows_put t r : row_ok t r -> tx_rel (keeps rows_ok) (insert_or_update t r (fun _ => r)).
Proof. intros Hr. by apply rows_insert_or_update. Qed.
#[local] Hint Extern 1 (tx_rel (keeps rows_ok) (insert _ _)) =>
  apply rows_insert_free; intros ?; exact I : tx.
#[local] Hint Extern 1 (tx_rel (keeps rows_ok) (insert_or_update _ _ _)) =>
  apply rows_upsert_free; intros ?; exact I : tx.
#[local] Hint Extern 1 (tx_rel (keeps rows_ok) (update _ _ _)) =>
  apply rows_update_free; intros ?; exact I : tx.

Lemma upsert_payloads_ok {T} t (as_row : PayloadRow T -> Row t) tref items id_fn ts_fn :
  (forall x, x ∈ items -> row_ok t (as_row (mkPayloadRow tref (id_fn x) (ts_fn x) x))) ->
  tx_rel (keeps rows_ok) (upsert_payloads t as_row tref items id_fn ts_fn).
Proof.
  intros Hi. unfold upsert_payloads. apply tx_rel_iter; [typeclasses eauto|].
  intros x Hx. by apply rows_put, Hi.
Qed.
Lemma persist_task_upload_ok c u : upload_wf u -> tx_rel (keeps rows_ok) (persist_task_upload c u).
Proof.
  intros [Hs Ha _ _ He _ _ _ Herr _ _]. rewrite ?Forall_forall in *. unfold persist_task_upload.
  apply tx_rel_bind; [typeclasses eauto | auto with tx | intros _].
  apply tx_rel_bind; [typeclasses eauto | by apply rows_put | intros _].
  apply tx_rel_bind; [typeclasses eauto | auto with tx | intros _].
  apply tx_rel_bind; [typeclasses eauto | | intros _].
  { apply upsert_payloads_ok. intros x [Hv Href]%Ha. cbn. by rewrite <- Href. }
  apply tx_rel_bind; [typeclasses eauto | | intros _].
  { apply upsert_payloads_ok. intros x [Hv Href]%He. cbn. by rewrite <- Href. }
  apply tx_rel_bind; [typeclasses eauto | | intros _].
  { apply upsert_payloads_ok. intros x [Hv Href]%Herr. cbn. by rewrite <- Href. }
  apply upsert_payloads_ok. intros x _. exact I.
Qed.

#[local] Hint Resolve persist_task_upload_ok : tx.
Ltac bind_step := apply tx_rel_bind; [typeclasses eauto | solve [auto with tx] | intros ?].
Ltac bind_with := apply tx_rel_bind_with; [typeclasses eauto | solve [auto with tx] |].

Lemma ingest_rows now h b : tx_rel (keeps rows_ok) (ingest now h b).
Proof.
  unfold ingest. bind_step. bind_step. bind_with.
  intros d (db & db1 & [[_ _ _ _ _ _ _ _ _ Ht _ Hh]%decode_body_wf _]%tx_lift_Ok).
  rewrite Forall_forall in Ht. rewrite Forall_forall in Hh.
  unfold persist_client, ensure_client_exists. tx_walk.
  unfold persist_heartbeat. apply rows_insert. eexists. split; [done|]. by apply Hh.
Qed.

Lemma rows_request_set p f :
  (forall r, row_request (f r) = row_request r) -> tx_rel (keeps rows_ok) (update ContentRequests p f).
Proof. intros Hf. apply rows_update. intros r. cbn. by rewrite Hf. Qed.
#[local] Hint Extern 0 (tx_rel (keeps rows_ok) (update ContentRequests _ _)) =>
  apply rows_request_set; reflexivity : tx.
Lemma complete_rows i s o now : tx_rel (keeps rows_ok) (complete_request_and_command i s o now).
Proof. unfold complete_request_and_command. tx_walk. Qed.
Lemma touch_rows c s t now : tx_rel (keeps rows_ok) (touch_conversation c s t now).
Proof. unfold touch_conversation. tx_walk. Qed.
Lemma evict_conversation_all c s t : tx_rel (keeps rows_ok) (evict_conversation c s t).
Proof.
  assert (Hreq : forall ids, tx_rel (keeps rows_ok) (evict_requests ids))
    by (intros ids; induction ids; cbn [evict_requests]; tx_walk).
  unfold evict_conversation, evict_object. tx_walk.
Qed.
Lemma evict_old_rows c : tx_rel (keeps rows_ok) (evict_old_conversations c).
Proof. apply evict_old_rel; [typeclasses eauto|]. intros. apply evict_conversation_all. Qed.
#[local] Hint Resolve complete_rows touch_rows evict_old_rows : tx.

Lemma create_rows now i j p tref parts e :
  tx_rel (keeps rows_ok) (create_content_request_inner now i j p tref parts e).
Proof.
  unfold create_content_request_inner. bind_step. bind_step. bind_step. bind_with.
  intros _ (db & db1 & [Hv%is_ok_true _]%require_Ok). bind_step. bind_step.
  apply tx_rel_bind; [typeclasses eauto | by apply rows_insert | intros _]. tx_walk.
Qed.

Lemma accept_manifest_rows now r m : tx_rel (keeps rows_ok) (accept_manifest now r m).
Proof.
  unfold accept_manifest. bind_with. intros _ (db & db1 & [Hv%is_ok_true _]%require_Ok).
  bind_step. unfold persist_manifest_row. tx_walk. by apply rows_insert.
Qed.
#[local] Hint Resolve accept_manifest_rows : tx.
Lemma upload_manifests_rows now h c ms : tx_rel (keeps rows_ok) (upload_manifests now h c ms).
Proof. unfold upload_manifests, not_expired_or. tx_walk. Qed.

Lemma upsert_chunk_rows c now : valid c -> tx_rel (keeps rows_ok) (upsert_chunk_row c now).
Proof. intros Hc. unfold upsert_chunk_row. tx_walk. apply rows_insert. by exists c. Qed.
Lemma store_object_rows now r m c dup :
  mf_object_sha256 m = cc_object_sha256 c -> tx_rel (keeps rows_ok) (store_object now r m c dup).
Proof.
  intros Hsha. unfold store_object. apply tx_rel_bind; [typeclasses eauto | | intros z].
  { unfold assemble_object. tx_walk. }
  bind_with. intros u (? & ? & [Hu%map_err_Ok _]%tx_lift_Ok).
  bind_with. intros _ (? & ? & [Hd%String.eqb_eq _]%require_Ok). bind_step.
  apply tx_rel_bind; [typeclasses eauto | | intros ?].
  { unfold upsert_content_object.
    apply tx_rel_bind; [typeclasses eauto | | intros _; tx_walk].
    apply rows_insert_or_update.
    - cbn. exists u. rewrite Hsha. done.
    - intros old _ Hk. cbn in *. exists u. by rewrite Hk, Hsha. }
  unfold linked_object_count. tx_walk.
Qed.
Lemma load_manifest_sha i sha db m db' :
  rows_ok db -> load_manifest i sha db = Ok (Some m, db') -> mf_object_sha256 m = sha.
Proof.
  intros Hdb (row & ? & [-> ->]%(fetch_optional_Ok ContentManifests) & [E _]%tx_ret_Ok)%tx_bind_Ok.
  destruct (List.find _ _) as [row|] eqn:F; [|done]. injection E as ->.
  apply find_some in F as [Hin Hp]. rewrite <- list_elem_of_In in Hin.
  apply andb_true_iff in Hp as [_ Hp%String.eqb_eq].
  specialize (Hdb ContentManifests). rewrite Forall_forall in Hdb.
  destruct (Hdb row Hin) as (_ & _ & Heq). congruence.
Qed.
Lemma client_request_valid h i pre db x db' :
  client_request h i pre db = Ok (x, db') -> pre = Ok tt.
Proof.
  unfold client_request. intros (p & ? & _ & E)%tx_bind_Ok.
  apply tx_bind_Ok in E as (? & ? & _ & E). by apply tx_bind_Ok in E as ([] & ? & [? _]%tx_lift_Ok & _).
Qed.
Lemma upload_chunk_rows now h i c : tx_rel (keeps rows_ok) (upload_chunk now h i c).
Proof.
  unfold upload_chunk. bind_with.
  intros [p r] (db & db1 & Hv%client_request_valid%map_err_Ok).
  bind_step. unfold not_expired_or. destruct (expired r now); [tx_walk|].
  apply keeps_bind_with; [unfold load_manifest; tx_walk|].
  intros m (db2 & db3 & Hdb & Em). destruct m as [m|]; [|by intros ? ? ? (? & ? & [? _]%some_or_Ok & _)%tx_bind_Ok].
  apply (load_manifest_sha _ _ _ _ _ Hdb) in Em.
  apply tx_rel_bind_with; [typeclasses eauto | auto with tx |].
  intros m' (? & ? & [[= ->] _]%some_or_Ok).
  bind_step. apply tx_rel_bind; [typeclasses eauto | by apply upsert_chunk_rows | intros dup].
  apply tx_rel_bind; [typeclasses eauto | unfold is_object_complete; tx_walk | intros complete].
  destruct complete; [by apply store_object_rows | tx_walk].
Qed.

Lemma run_request_rows r : tx_rel (keeps rows_ok) (run_request r).
Proof.
  destruct r; cbn [run_request]; try apply tx_rel_discard; try typeclasses eauto.
  - apply ingest_rows.
  - unfold issue_token, ensure_client_exists, upsert_token. tx_walk.
  - unfold revoke_token. tx_walk.
  - unfold cleanup_retention. tx_walk.
  - unfold create_content_request. bind_step.
    apply tx_rel_bind; [typeclasses eauto | apply create_rows | intros _; tx_walk].
  - unfold poll_commands. tx_walk.
  - apply upload_manifests_rows.
  - apply upload_chunk_rows.
  - unfold upload_result. tx_walk.
Qed.

(** ** Objects and links *)
Lemma linked_frame {A} ts (m : Tx A) :
  ContentLinks ∉ ts -> ContentObjects ∉ ts -> tx_rel (frame ts) m -> tx_rel (keeps objects_linked) m.
Proof.
  intros Hl Ho Hm db a db' E Hdb sha. apply Hm in E. unfold linked_sha, stored_sha.
  rewrite (E ContentLinks Hl), (E ContentObjects Ho). apply Hdb.
Qed.
Definition side_tables : list Tab :=
  [ContentChunks; ContentConversations; ContentRequests; Commands; ContentManifests].
Ltac linked_side :=
  apply (linked_frame side_tables);
  [ unfold side_tables; set_solver | unfold side_tables; set_solver | ].
#[local] Hint Extern 2 (tx_rel (keeps objects_linked) (insert _ _)) =>
  linked_side; apply insert_frame; unfold side_tables; set_solver : tx.
#[local] Hint Extern 2 (tx_rel (keeps objects_linked) (update _ _ _)) =>
  linked_side; apply update_frame; unfold side_tables; set_solver : tx.
#[local] Hint Extern 2 (tx_rel (keeps objects_linked) (insert_or_update _ _ _)) =>
  linked_side; apply insert_or_update_frame; unfold side_tables; set_solver : tx.
#[local] Hint Resolve evict_conversation_linked upsert_content_object_linked : tx.

Lemma store_object_linked now r m c dup : tx_rel (keeps objects_linked) (store_object now r m c dup).
Proof.
  unfold store_object, assemble_object, linked_object_count, complete_request_and_command,
    touch_conversation. tx_walk.
Qed.
#[local] Hint Resolve store_object_linked : tx.
Lemma create_linked now i j p tref parts e :
  tx_rel (keeps objects_linked) (create_content_request_inner now i j p tref parts e).
Proof.
  unfold create_content_request_inner, touch_conversation, ensure_admin_role. tx_walk.
  apply evict_old_rel; [typeclasses eauto|]. intros. apply evict_conversation_linked.
Qed.
#[local] Hint Resolve create_linked : tx.
Lemma run_request_linked r : tx_rel (keeps objects_linked) (run_request r).
Proof.
  pose proof (run_request_frame r) as Hf.
  destruct r; try (eapply linked_frame; [| |exact Hf]; cbn [request_tables];
                   unfold ingest_tables; set_solver); cbn [run_request];
    (apply tx_rel_discard; [typeclasses eauto|]).
  - unfold create_content_request. tx_walk.
  - unfold upload_chunk, not_expired_or, load_manifest, upsert_chunk_row, is_object_complete,
      complete_request_and_command. tx_walk.
Qed.

(** ** Requests, and who owns what *)
Definition requests (db : Db) : list ContentRequest := map row_request (db ContentRequests).
(** Requests are only ever added; their identity never changes. *)
Definition requests_grow (db db' : Db) : Prop := exists more, requests db' = requests db ++ more.
#[export] Instance requests_grow_preorder : PreOrder requests_grow.
Proof.
  split.
  - intros db. exists []. by rewrite app_nil_r.
  - intros db1 db2 db3 [m1 E1] [m2 E2]. exists (m1 ++ m2). by rewrite E2, E1, <- app_assoc.
Qed.
Lemma grow_frame {A} ts (m : Tx A) :
  ContentRequests ∉ ts -> tx_rel (frame ts) m -> tx_rel requests_grow m.
Proof.
  intros Ht Hm db a db' E. exists []. unfold requests. by rewrite (Hm _ _ _ E _ Ht), app_nil_r.
Qed.
Lemma grow_update p f :
  (forall r, row_request (f r) = row_request r) -> tx_rel requests_grow (update ContentRequests p f).
Proof.
  intros Hf db u db' ->%update_Ok. exists []. rewrite app_nil_r. unfold requests. tab_simpl.
  unfold update_where. rewrite map_map. apply map_ext. intros r. destruct (p r); by rewrite ?Hf.
Qed.
Lemma grow_insert r : tx_rel requests_grow (insert ContentRequests r).
Proof.
  intros db u db' [_ ->]%insert_Ok. exists [row_request r]. unfold requests. tab_simpl.
  by rewrite map_app.
Qed.
Definition other_tables : list Tab :=
  [Commands; ContentChunks; ContentConversations; ContentManifests; ContentLinks; ContentObjects].
Ltac grow_side := apply (grow_frame other_tables); [unfold other_tables; set_solver|].
#[local] Hint Resolve grow_insert : tx.
#[local] Hint Extern 1 (tx_rel requests_grow (update ContentRequests _ _)) =>
  apply grow_update; reflexivity : tx.
#[local] Hint Extern 2 (tx_rel requests_grow (insert _ _)) =>
  grow_side; apply insert_frame; unfold other_tables; set_solver : tx.
#[local] Hint Extern 2 (tx_rel requests_grow (update _ _ _)) =>
  grow_side; apply update_frame; unfold other_tables; set_solver : tx.
#[local] Hint Extern 2 (tx_rel requests_grow (insert_or_update _ _ _)) =>
  grow_side; apply insert_or_update_frame; unfold other_tables; set_solver : tx.
#[local] Hint Extern 2 (tx_rel requests_grow (evict_conversation _ _ _)) =>
  apply (grow_frame (ContentConversations :: evict_tables));
  [unfold evict_tables; set_solver | apply evict_conversation_frame] : tx.
Lemma run_request_grow r : tx_rel requests_grow (run_request r).
Proof.
  pose proof (run_request_frame r) as Hf.
  destruct r; try (eapply grow_frame; [|exact Hf]; cbn [request_tables];
                   unfold ingest_tables; set_solver); cbn [run_request];
    (apply tx_rel_discard; [typeclasses eauto|]); open_request; tx_walk.
  apply evict_old_rel; [typeclasses eauto|]. intros. auto with tx.
Qed.

Definition command_ok (qs : list ContentRequest) (c : CommandRow) : Prop :=
  exists q, q ∈ qs /\ cd_client_id c = cr_client_id q /\ cd_request_id c = cr_request_id q
    /\ cd_payload c = ClientCommand_RequestContent (mkContentRequestCommand (cd_command_id c) q).
Definition link_ok (qs : list ContentRequest) (l : LinkRow) : Prop :=
  exists q, q ∈ qs /\ lk_request_id l = cr_request_id q /\ lk_client_id l = cr_client_id q
    /\ lk_session_id l = cr_session_id q /\ lk_thread_id l = cr_thread_id q.
Definition commands_ok (db : Db) : Prop := Forall (command_ok (requests db)) (db Commands).
Definition links_ok (db : Db) : Prop := Forall (link_ok (requests db)) (db ContentLinks).

Lemma owned_grow {R} (P : list ContentRequest -> R -> Prop) qs qs' l :
  (forall r q q', P q r -> (forall x, x ∈ q -> x ∈ q') -> P q' r) ->
  (forall x, x ∈ qs -> x ∈ qs') -> Forall (P qs) l -> Forall (P qs') l.
Proof. intros HP Hq Hl. eapply Forall_impl; [exact Hl|]. intros r Hr. by eapply HP. Qed.
Lemma grow_elem db db' q : requests_grow db db' -> q ∈ requests db -> q ∈ requests db'.
Proof. intros [more ->]. rewrite elem_of_app. by left. Qed.
Lemma command_ok_mono r q q' : command_ok q r -> (forall x, x ∈ q -> x ∈ q') -> command_ok q' r.
Proof. intros (x & Hx & Hr) Hq. exists x. auto. Qed.
Lemma link_ok_mono r q q' : link_ok q r -> (forall x, x ∈ q -> x ∈ q') -> link_ok q' r.
Proof. intros (x & Hx & Hr) Hq. exists x. auto. Qed.

Lemma commands_side {A} ts (m : Tx A) :
  Commands ∉ ts -> tx_rel (frame ts) m -> tx_rel requests_grow m -> tx_rel (keeps commands_ok) m.
Proof.
  intros Ht Hm Hg db a db' E Hdb. unfold commands_ok. rewrite (Hm _ _ _ E _ Ht).
  eapply (owned_grow command_ok); [apply command_ok_mono | | exact Hdb].
  intros x. eapply grow_elem, Hg, E.
Qed.
Lemma links_side {A} ts (m : Tx A) :
  ContentLinks ∉ ts -> tx_rel (frame ts) m -> tx_rel requests_grow m -> tx_rel (keeps links_ok) m.
Proof.
  intros Ht Hm Hg db a db' E Hdb. unfold links_ok. rewrite (Hm _ _ _ E _ Ht).
  eapply (owned_grow link_ok); [apply link_ok_mono | | exact Hdb].
  intros x. eapply grow_elem, Hg, E.
Qed.

(** The request behind a command, as its client sees it, is a stored one. *)
Lemma client_request_Ok h i pre db p q db' :
  db_wf db -> commands_ok db -> client_request h i pre db = Ok ((p, q), db') ->
  db' = db /\ auth_of h (db ApiTokens) = Ok p /\ can_ingest (pr_role p) = true
  /\ q ∈ requests db /\ cr_client_id q = pr_client_id p.
Proof.
  intros Hwf Hc E. unfold client_request in E.
  apply tx_bind_Ok in E as (p' & ? & [Hp ->]%authorize_Ok & E).
  apply tx_bind_Ok in E as ([] & ? & [Hr ->]%require_Ok & E).
  apply tx_bind_Ok in E as ([] & ? & [_ ->]%tx_lift_Ok & E).
  apply tx_bind_Ok in E as (s & ? & E1 & E).
  apply tx_bind_Ok in E as (s' & ? & [-> ->]%some_or_Ok & [[= -> ->] ->]%tx_ret_Ok).
  unfold load_command_request in E1.
  apply tx_bind_Ok in E1 as (c & ? & [-> ->]%(fetch_optional_Ok Commands) & E1).
  destruct (List.find _ _) as [c|] eqn:Fc; [|by apply tx_ret_Ok in E1 as [? _]].
  apply tx_bind_Ok in E1 as (r & ? & [-> ->]%(fetch_optional_Ok ContentRequests) & [E1 ->]%tx_ret_Ok).
  destruct (List.find _ (db ContentRequests)) as [r|] eqn:Fr; [|done]. injection E1 as ->. cbn [sc_request].
  do 3 (split; [done|]).
  apply find_some in Fc as [Hin Hm]. rewrite <- list_elem_of_In in Hin.
  apply andb_true_iff in Hm as [_ Hcl%String.eqb_eq].
  apply find_some in Fr as [Hrin Hid%bool_decide_eq_true]. rewrite <- list_elem_of_In in Hrin.
  unfold commands_ok in Hc. rewrite Forall_forall in Hc.
  destruct (Hc c Hin) as (q & Hq & Hqc & Hqi & _).
  pose proof Hq as (r' & -> & Hr')%list_elem_of_fmap. cbn in Hqc, Hqi.
  assert (Heq : r = r').
  { pose proof (find_key_elem _ _ _ (Hwf ContentRequests) Hrin) as K1.
    pose proof (find_key_elem _ _ _ (Hwf ContentRequests) Hr') as K2. cbn in K1, K2.
    congruence. }
  subst r'. cbn. rewrite <- Hcl, Hqc. split; [exact Hq | done].
Qed.

Lemma commands_update p f :
  (forall r, cd_command_id (f r) = cd_command_id r /\ cd_client_id (f r) = cd_client_id r
             /\ cd_request_id (f r) = cd_request_id r /\ cd_payload (f r) = cd_payload r) ->
  tx_rel (keeps commands_ok) (update Commands p f).
Proof.
  intros Hf db u db' ->%update_Ok Hdb. unfold commands_ok, requests in *. tab_simpl.
  rewrite Forall_forall in *. intros x (r & -> & Hr)%list_elem_of_fmap.
  destruct (p r); [|by apply Hdb]. destruct (Hdb r Hr) as (q & Hq). exists q.
  by destruct (Hf r) as (-> & -> & -> & ->).
Qed.
#[local] Hint Extern 1 (tx_rel (keeps commands_ok) (update Commands _ _)) =>
  apply commands_update; intros; repeat split; reflexivity : tx.
Definition not_commands : list Tab :=
  [ContentRequests; ContentChunks; ContentConversations; ContentManifests; ContentLinks; ContentObjects].
Ltac commands_by_side :=
  apply (commands_side not_commands);
  [unfold not_commands; set_solver | unfold not_commands; auto with tx | auto with tx].
#[local] Hint Extern 3 (tx_rel (keeps commands_ok) (insert _ _)) => commands_by_side : tx.
#[local] Hint Extern 3 (tx_rel (keeps commands_ok) (update _ _ _)) => commands_by_side : tx.
#[local] Hint Extern 3 (tx_rel (keeps commands_ok) (insert_or_update _ _ _)) => commands_by_side : tx.
#[local] Hint Extern 3 (tx_rel (keeps commands_ok) (delete_from _ _)) => commands_by_side : tx.

Lemma evict_old_commands c : tx_rel (keeps commands_ok) (evict_old_conversations c).
Proof.
  apply evict_old_rel; [typeclasses eauto|]. intros s t.
  apply (commands_side (ContentConversations :: evict_tables));
    [unfold evict_tables; set_solver | apply evict_conversation_frame | auto with tx].
Qed.
#[local] Hint Resolve evict_old_commands : tx.
Lemma create_commands now i j p tref parts e :
  tx_rel (keeps commands_ok) (create_content_request_inner now i j p tref parts e).
Proof.
  unfold create_content_request_inner. bind_step. bind_step. bind_step. bind_step.
  apply tx_rel_bind; [typeclasses eauto | unfold touch_conversation; auto with tx | intros _].
  bind_step. intros db [] db' E Hdb.
  apply tx_bind_Ok in E as ([] & db1 & [_ ->]%insert_Ok & [_ ->]%insert_Ok).
  unfold commands_ok, requests in *. tab_simpl. apply Forall_app. split.
  - eapply (owned_grow command_ok); [apply command_ok_mono | | exact Hdb].
    intros x Hx. rewrite map_app. apply elem_of_app. by left.
  - apply Forall_singleton. eexists. split; [|done]. rewrite map_app. apply elem_of_app. right.
    cbn. by apply list_elem_of_singleton.
Qed.
#[local] Hint Resolve create_commands : tx.
Lemma run_request_commands r : tx_rel (keeps commands_ok) (run_request r).
Proof.
  pose proof (run_request_frame r) as Hf. pose proof (run_request_grow r) as Hg.
  destruct r; try (eapply commands_side; [|exact Hf|exact Hg]; cbn [request_tables];
                   unfold ingest_tables; set_solver); cbn [run_request];
    (apply tx_rel_discard; [typeclasses eauto|]); clear Hf Hg;
    unfold create_content_request; [tx_walk | open_request; tx_walk ..].
Qed.

(** Links. *)
Definition not_links : list Tab :=
  [ContentRequests; ContentChunks; ContentConversations; ContentManifests; Commands].
Ltac links_by_side :=
  apply (links_side not_links);
  [unfold not_links; set_solver | unfold not_links; auto with tx | auto with tx].
#[local] Hint Extern 3 (tx_rel (keeps links_ok) (insert _ _)) => links_by_side : tx.
#[local] Hint Extern 3 (tx_rel (keeps links_ok) (update _ _ _)) => links_by_side : tx.
#[local] Hint Extern 3 (tx_rel (keeps links_ok) (insert_or_update _ _ _)) => links_by_side : tx.
Lemma evict_conversation_links c s t : tx_rel (keeps links_ok) (evict_conversation c s t).
Proof.
  intros db [] db' E Hdb. pose proof (evict_conversation_frame _ _ _ _ _ _ E) as Hf.
  unfold links_ok, requests in *. rewrite (Hf ContentRequests) by (unfold evict_tables; set_solver).
  unfold evict_conversation in E.
  apply tx_bind_Ok in E as (rows & ? & [-> ->]%(fetch_all_Ok ContentRequests) & E).
  apply tx_bind_Ok in E as (shas & db1 & (_ & Hl & _)%evict_requests_links & E).
  apply tx_bind_Ok in E as ([] & db2 & (Hl2 & _)%evict_objects_rows & ->%delete_from_Ok).
  tab_simpl. rewrite Hl2. rewrite Forall_forall in *. intros x [Hx _]%Hl. auto.
Qed.
Lemma create_links now i j p tref parts e :
  tx_rel (keeps links_ok) (create_content_request_inner now i j p tref parts e).
Proof.
  unfold create_content_request_inner, touch_conversation, ensure_admin_role. tx_walk.
  apply evict_old_rel; [typeclasses eauto|]. intros. apply evict_conversation_links.
Qed.
Lemma upsert_content_object_links q m a u now db x db' :
  links_ok db -> q ∈ requests db -> upsert_content_object q m a u now db = Ok (x, db') -> links_ok db'.
Proof.
  unfold upsert_content_object. intros Hdb Hq E.
  apply tx_bind_Ok in E as ([] & db1 & ->%insert_or_update_Ok & E).
  apply tx_bind_Ok in E as ([] & db2 & ->%insert_or_update_Ok & [_ ->]%tx_ret_Ok).
  unfold links_ok, requests in *. tab_simpl. rewrite Forall_forall in *.
  intros l [Hl|[->|(old & Hold & _ & ->)]]%upsert_elem; [by apply Hdb | by exists q |].
  destruct (Hdb old Hold) as (q' & ?). by exists q'.
Qed.

(** [tx_by R E tac]: the transaction of [E] stays inside [R], by [tac]. *)
Ltac tx_by R E tac :=
  match type of E with
  | ?m ?db = Ok (_, ?db') =>
    let Hm := fresh "Hm" in assert (Hm : tx_rel R m) by tac; apply Hm in E
  end.

Lemma store_object_links now q m c dup db x db' :
  links_ok db -> q ∈ requests db -> store_object now q m c dup db = Ok (x, db') -> links_ok db'.
Proof.
  unfold store_object. intros Hdb Hq E.
  apply tx_bind_Ok in E as (z & db1 & E1 & E).
  tx_by (@eq Db) E1 ltac:(unfold assemble_object; tx_walk). subst db1.
  apply tx_bind_Ok in E as (u & ? & [_ ->]%tx_lift_Ok & E).
  apply tx_bind_Ok in E as ([] & ? & [_ ->]%require_Ok & E).
  apply tx_bind_Ok in E as ([] & ? & [_ ->]%require_Ok & E).
  apply tx_bind_Ok in E as (m' & db2 & E2 & E).
  apply (upsert_content_object_links _ _ _ _ _ _ _ _ Hdb Hq) in E2.
  tx_by (keeps links_ok) E ltac:(unfold linked_object_count, touch_conversation,
    complete_request_and_command; tx_walk).
  by apply E.
Qed.
Lemma upload_chunk_links now h i c db x db' :
  db_wf db -> commands_ok db -> links_ok db ->
  upload_chunk now h i c db = Ok (x, db') -> links_ok db'.
Proof.
  unfold upload_chunk. intros Hwf Hc Hdb E.
  apply tx_bind_Ok in E as ([p q] & ? & E1 & E).
  apply (client_request_Ok _ _ _ _ _ _ _ Hwf Hc) in E1 as (-> & _ & _ & Hq & _).
  apply tx_bind_Ok in E as ([] & ? & [_ ->]%require_Ok & E).
  unfold not_expired_or in E. destruct (expired q now).
  - tx_by (keeps links_ok) E ltac:(unfold complete_request_and_command; tx_walk). by apply E.
  - apply tx_bind_Ok in E as (m & db1 & E1 & E).
    tx_by (@eq Db) E1 ltac:(unfold load_manifest; tx_walk). subst db1.
    apply tx_bind_Ok in E as (m' & ? & [_ ->]%some_or_Ok & E).
    apply tx_bind_Ok in E as ([] & ? & [_ ->]%require_Ok & E).
    apply tx_bind_Ok in E as (dup & db1 & E1 & E).
    pose proof E1 as E1'.
    tx_by (keeps links_ok) E1 ltac:(unfold upsert_chunk_row; tx_walk).
    tx_by requests_grow E1' ltac:(unfold upsert_chunk_row; tx_walk).
    apply tx_bind_Ok in E as (complete & db2 & E2 & E).
    tx_by (@eq Db) E2 ltac:(unfold is_object_complete; tx_walk). subst db2.
    destruct complete; [|by apply tx_ret_Ok in E as [_ ->]; apply E1].
    eapply store_object_links; [by apply E1 | by eapply grow_elem | exact E].
Qed.

(** ** The invariant *)
Record server_inv (db : Db) : Prop := mk_server_inv {
  si_keys : db_wf db;
  si_rows : rows_ok db;
  si_linked : objects_linked db;
  si_commands : commands_ok db;
  si_links : links_ok db }.

Lemma run_request_links r db u db' :
  server_inv db -> run_request r db = Ok (u, db') -> links_ok db'.
Proof.
  intros [Hk _ _ Hc Hl] E. pose proof (run_request_frame r) as Hf. pose proof (run_request_grow r) as Hg.
  assert (Hside : ContentLinks ∉ request_tables r -> links_ok db').
  { intros Ht. by apply (links_side _ _ Ht Hf Hg _ _ _ E). }
  destruct r; try (apply Hside; cbn [request_tables]; unfold ingest_tables; set_solver);
    cbn [run_request] in E; apply tx_bind_Ok in E as (x & db1 & E & [_ ->]%tx_ret_Ok).
  - unfold create_content_request in E. apply tx_bind_Ok in E as (p & ? & [_ ->]%authorize_Ok & E).
    apply tx_bind_Ok in E as ([] & ? & E & [_ ->]%tx_ret_Ok). by apply create_links in E; apply E.
  - by eapply upload_chunk_links.
Qed.

Lemma server_inv_empty : server_inv db_empty.
Proof.
  split; [apply db_wf_empty | intros t; apply Forall_nil_2 | | apply Forall_nil_2 | apply Forall_nil_2].
  intros sha. unfold linked_sha, stored_sha, db_empty. set_solver.
Qed.
Lemma server_inv_step r db : server_inv db -> server_inv (run_tx (run_request r) db).2.
Proof.
  intros Hinv. unfold run_tx. destruct (run_request r db) as [[u db']|e] eqn:E; [|done]. cbn.
  pose proof (run_request_links _ _ _ _ Hinv E) as Hl. destruct Hinv as [H1' H2' H3' H4' H5'].
  split; [by apply (run_request_wf r _ _ _ E) | by apply (run_request_rows r _ _ _ E)
         | by apply (run_request_linked r _ _ _ E) | by apply (run_request_commands r _ _ _ E) | done].
Qed.

Lemma reachable_server_inv db : reachable db -> server_inv db.
Proof.
  intros Hr. unfold reachable in Hr.
  assert (Hgen : forall a b, rtc server_step a b -> server_inv a -> server_inv b).
  { induction 1 as [a|a b c [r] _ IH]; intros Ha; [done|]. by apply IH, server_inv_step. }
  eapply Hgen; [done | apply server_inv_empty].
Qed.

(** [C7] In every database the server can reach, by any sequence of requests:
    primary keys are unique; the indexed columns of tasks, events, attempts,
    errors, manifests and chunks agree with the validated values stored beside
    them; every stored object inflates to bytes that have its digest and
    lengths; objects and links refer to each other, so nothing dangles and
    nothing is kept that no link holds; every command carries a stored request
    of its client; and every link belongs to the conversation of its request. *)
Theorem reachable_inv db : reachable db -> server_inv db.
Proof. apply reachable_server_inv. Qed.

(** ** Exactly once, whatever happens in between *)
Definition receipts_kept (db db' : Db) : Prop :=
  forall r, r ∈ db IngestReceipts -> r ∈ db' IngestReceipts.
#[export] Instance receipts_kept_preorder : PreOrder receipts_kept.
Proof. split; [by intros db r ? | intros ??? H1' H2' r ?; auto]. Qed.
Lemma receipts_frame {A} ts (m : Tx A) :
  IngestReceipts ∉ ts -> tx_rel (frame ts) m -> tx_rel receipts_kept m.
Proof. intros Ht Hm db a db' E r. by rewrite (Hm _ _ _ E _ Ht). Qed.
Definition no_receipts : list Tab :=
  [Clients; ClientInstances; Sessions; Tasks; CodexTasks; Attempts; TaskEvents; Errors;
   CaptureGaps; Heartbeats].
Lemma receipts_insert r : tx_rel receipts_kept (insert IngestReceipts r).
Proof. intros db u db' [_ ->]%insert_Ok x. tab_simpl. rewrite elem_of_app. by left. Qed.
#[local] Hint Resolve receipts_insert : tx.
Ltac receipts_side := apply (receipts_frame no_receipts); [unfold no_receipts; set_solver|].
#[local] Hint Extern 2 (tx_rel receipts_kept (insert _ _)) =>
  receipts_side; apply insert_frame; unfold no_receipts; set_solver : tx.
#[local] Hint Extern 2 (tx_rel receipts_kept (insert_or_update _ _ _)) =>
  receipts_side; apply insert_or_update_frame; unfold no_receipts; set_solver : tx.
#[local] Hint Extern 2 (tx_rel receipts_kept (upsert_payloads _ _ _ _ _ _)) =>
  receipts_side; apply upsert_payloads_frame; unfold no_receipts; set_solver : tx.
Definition is_cleanup (r : Request) : bool :=
  match r with ReqCleanup _ => true | _ => false end.
Lemma run_request_receipts r :
  is_cleanup r = false -> tx_rel receipts_kept (run_request r).
Proof.
  intros Hc. pose proof (run_request_frame r) as Hf.
  destruct r; try discriminate Hc;
    try (eapply receipts_frame; [|exact Hf]; cbn [request_tables]; set_solver).
  cbn [run_request]. apply tx_rel_discard; [typeclasses eauto|].
  unfold ingest, persist_client, ensure_client_exists, persist_heartbeat, persist_task_upload.
  tx_walk.
Qed.

(** The clock readings of the retention runs among the requests. *)
Definition cleanup_times (r : Request) : list Z :=
  match r with ReqCleanup now => [now] | _ => [] end.
(** A receipt outlives every request but a retention run more than
    [RECEIPT_RETENTION_MS] after it was written. *)
Lemma serve_receipt r db x : x ∈ db IngestReceipts ->
  (forall t, t ∈ cleanup_times r -> t - RECEIPT_RETENTION_MS <= rc_received_at_ms x) ->
  x ∈ serve db r IngestReceipts.
Proof.
  intros Hx Ht. unfold serve. destruct (is_cleanup r) eqn:Ec.
  - destruct r as [| | |now| | | | |]; try discriminate Ec. cbn. tab_simpl.
    apply delete_where_elem. split; [done|]. apply Z.ltb_ge, Ht. by apply list_elem_of_singleton.
  - revert Hx. apply (run_tx_rel receipts_kept); by apply run_request_receipts.
Qed.
Lemma serve_all_receipt rs db x : x ∈ db IngestReceipts ->
  (forall t, ReqCleanup t ∈ rs -> t - RECEIPT_RETENTION_MS <= rc_received_at_ms x) ->
  x ∈ serve_all rs db IngestReceipts.
Proof.
  revert db. induction rs as [|r rs IH]; intros db Hx Ht; [done|].
  apply IH; [apply serve_receipt; [done|]|].
  - intros t Hin. apply Ht. destruct r; cbn in Hin; try by apply elem_of_nil in Hin.
    apply list_elem_of_singleton in Hin as ->. apply elem_of_cons. by left.
  - intros t Hin. apply Ht. apply elem_of_cons. by right.
Qed.
Lemma serve_all_inv rs db : server_inv db -> server_inv (serve_all rs db).
Proof. revert db. induction rs as [|r rs IH]; intros db Hdb; [done|]. by apply IH, server_inv_step. Qed.

(** [C8] At-least-once delivery is safe.  Once a batch was accepted as new at the
    time [now], and after any further requests of anybody and any retention runs
    up to 400 days later, every upload of the same client under the same
    batch identifier changes nothing: it is answered as a duplicate when the
    payload is the same, and as a conflict when it is not.  (A retention run
    after that deletes the receipt, and the batch would be applied again.) *)
Theorem ingest_exactly_once now h b db ack db1 d rs now' h' b' d' p :
  reachable db -> ingest now h b db = Ok (IngestAccepted ack, db1) -> decode_body b = Ok d ->
  ak_duplicate ack = false ->
  (forall t, ReqCleanup t ∈ rs -> t <= now + RECEIPT_RETENTION_MS) ->
  let db2 := serve_all rs db1 in
  auth_of h' (db2 ApiTokens) = Ok p -> can_ingest (pr_role p) = true ->
  decode_body b' = Ok d' -> batch_client d' = pr_client_id p ->
  batch_client d' = batch_client d -> batch_id d' = batch_id d ->
  ingest now' h' b' db2 = Ok (replay_response d d', db2).
Proof.
  intros Hr E Hd Hnew Ht db2. pose proof (si_keys _ (reachable_server_inv _ Hr)) as Hwf.
  destruct (ingest_puts _ _ _ _ _ _ _ Hwf E Hnew Hd) as [_ Hreceipts].
  set (row := mkReceiptRow (batch_client d) (batch_id d) (db_payload_sha256 d) now) in Hreceipts.
  apply (ingest_replay d row).
  - apply si_keys, serve_all_inv.
    assert (serve db (ReqIngest now h b) = db1) as <-.
    { unfold serve, run_tx. cbn [run_request]. unfold discard, mbind, tx_bind. by rewrite E. }
    by apply server_inv_step, reachable_server_inv.
  - apply serve_all_receipt; [rewrite Hreceipts, elem_of_app, list_elem_of_singleton; by right|].
    intros t Hin%Ht. cbn. lia.
  - done.
  - done.
Qed.
End steps.

(** ** Witnesses *)
Module ServerStepsFixture.
Import CodecFixture HttpFixture ServerFixture.
Lemma db0_reachable : reachable db0.
Proof.
  eapply rtc_l; [apply (step_request db_empty (ReqIssueToken "client" "secret" None false 1 2))|].
  eapply rtc_l; [apply (step_request _
    (ReqIssueToken "client" "reader" (Some TokenRoleArg_Reader) false 1 2))|].
  apply rtc_refl.
Qed.
Lemma reachable_inv_witness : all_rows row_ok db0 /\ objects_linked db0.
Proof. destruct (reachable_inv db0 db0_reachable) as [_ Hr Hl _ _]. split; [exact Hr | exact Hl]. Defined.

(** Another token is issued, and retention runs a year later, between the two
    deliveries. *)
Definition between : list Request :=
  [ReqIssueToken "other" "token" None true 5 6; ReqCleanup (365 * 24 * 60 * 60 * 1000)].
Definition db2 : Db := serve_all between db1.
Lemma early_cleanup t : ReqCleanup t ∈ between -> t <= 2000 + RECEIPT_RETENTION_MS.
Proof.
  unfold between. rewrite !elem_of_cons, elem_of_nil. intros [[=]|[[= ->]|[]]]. by vm_compute.
Qed.
Lemma authorized2 : auth_of (bearer_of "secret") (db2 ApiTokens) = Ok client.
Proof. vm_compute. reflexivity. Qed.
Lemma ingest_exactly_once_witness :
  ingest 3000 (bearer_of "secret") body db2
  = Ok (IngestAccepted (mkIngestAck (uuid7 1) (sha256_hex [x2a; x2b]) 0 0 true), db2).
Proof.
  unfold db2. rewrite (@ingest_exactly_once uuid_fixture digest_fixture cbor zstd http_fixture
    _ _ _ _ _ _ _ between 3000 (bearer_of "secret") body _ _ db0_reachable ingest_run
    body_decodes (eq_refl false) early_cleanup authorized2 (eq_refl true) body_decodes
    (eq_refl _) (eq_refl _) (eq_refl _)).
  vm_compute. reflexivity.
Defined.
End ServerStepsFixture.
