(* ===== verification/Model.v ===== *)
(** * The client's records

    The types of [src/crates/client/src/model.rs], which the capture lanes
    produce and the store persists.  Where this file and the protocol crate
    both have a type of one name, the unqualified name is the client's and
    [wire.TaskPhase] the protocol's, as in the sources.  A time stamp is a value
    of the [time] crate, a parameter. *)
From Stdlib Require Import ZArith Strings.Byte Strings.String.
From S2P Require Import Prelude RustStr Types.
Local Open Scope string_scope.
Local Open Scope Z_scope.

Module wire := Types.

(** The [time] crate. *)
Class TimeApi := {
  OffsetDateTime : Type;
  #[global] OffsetDateTime_eq_dec :: EqDecision OffsetDateTime;
  (** [OffsetDateTime::unix_timestamp] *)
  unix_timestamp : OffsetDateTime -> Z;
  (** [self + Duration::seconds(n)], [None] where the sum panics *)
  add_seconds : OffsetDateTime -> Z -> option OffsetDateTime;
  (** [OffsetDateTime::from_unix_timestamp_nanos(n).ok()] *)
  from_unix_timestamp_nanos : Z -> option OffsetDateTime }.

(* src: src/crates/client/src/model.rs:7-7 ProviderId *)
Record ProviderId : Type := mkProviderId { pvi_0 : string }.
#[export] Instance ProviderId_eq_dec : EqDecision ProviderId.
Proof. solve_decision. Defined.

(* src: src/crates/client/src/model.rs:16-22 TaskKey *)
Record TaskKey : Type := mkTaskKey {
  key_client_id : string;
  key_provider : ProviderId;
  key_session_id : string;
  key_thread_id : string;
  key_turn_id : string }.
#[export] Instance TaskKey_eq_dec : EqDecision TaskKey.
Proof. solve_decision. Defined.

(* src: src/crates/client/src/model.rs:26-28 task_ref *)
Definition task_ref (k : TaskKey) : string :=
  key_session_id k +:+ ":" +:+ key_thread_id k +:+ ":" +:+ key_turn_id k.

(* src: src/crates/client/src/model.rs:43-48 TaskPhase *)
Inductive TaskPhase : Type :=
| TaskPhase_Running
| TaskPhase_AwaitingTool
| TaskPhase_Retrying
| TaskPhase_Terminal.
#[export] Instance TaskPhase_eq_dec : EqDecision TaskPhase.
Proof. solve_decision. Defined.

(* src: src/crates/client/src/model.rs:52-58 TaskOutcome *)
Inductive TaskOutcome : Type :=
| TaskOutcome_Completed
| TaskOutcome_Failed
| TaskOutcome_Aborted
| TaskOutcome_Terminated
| TaskOutcome_Lost.
#[export] Instance TaskOutcome_eq_dec : EqDecision TaskOutcome.
Proof. solve_decision. Defined.

(* src: src/crates/client/src/model.rs:62-66 Completeness *)
Inductive Completeness : Type :=
| Completeness_Complete
| Completeness_Degraded
| Completeness_Unknown.
#[export] Instance Completeness_eq_dec : EqDecision Completeness.
Proof. solve_decision. Defined.

(* src: src/crates/client/src/model.rs:70-77 AttemptStatus *)
Inductive AttemptStatus : Type :=
| AttemptStatus_Running
| AttemptStatus_Completed
| AttemptStatus_Failed
| AttemptStatus_Incomplete
| AttemptStatus_Cancelled
| AttemptStatus_TransportLost.
#[export] Instance AttemptStatus_eq_dec : EqDecision AttemptStatus.
Proof. solve_decision. Defined.

(* src: src/crates/client/src/model.rs:81-93 TransitionCause *)
Inductive TransitionCause : Type :=
| TransitionCause_CaptureStarted
| TransitionCause_AttemptStarted
| TransitionCause_AttemptCompleted
| TransitionCause_ResponseEndTurn
| TransitionCause_ToolCallObserved
| TransitionCause_RetryScheduled
| TransitionCause_CodexTurnComplete
| TransitionCause_CodexTurnAborted
| TransitionCause_ProcessExited
| TransitionCause_CaptureLost
| TransitionCause_ClientRecovered.
#[export] Instance TransitionCause_eq_dec : EqDecision TransitionCause.
Proof. solve_decision. Defined.

(* src: src/crates/client/src/model.rs:96-103 ProviderError *)
Record ProviderError : Type := mkProviderError {
  pve_wire_type : string;
  pve_code : option string;
  pve_message : string;
  pve_param : option string }.
#[export] Instance ProviderError_eq_dec : EqDecision ProviderError.
Proof. solve_decision. Defined.

(* src: src/crates/client/src/model.rs:106-110 HttpError *)
Record HttpError : Type := mkHttpError {
  hte_status : Z;
  hte_provider_error : option ProviderError }.
#[export] Instance HttpError_eq_dec : EqDecision HttpError.
Proof. solve_decision. Defined.

(* src: src/crates/client/src/model.rs:113-115 IncompleteResponse *)
Record IncompleteResponse : Type := mkIncompleteResponse {
  inc_reason : string }.
#[export] Instance IncompleteResponse_eq_dec : EqDecision IncompleteResponse.
Proof. solve_decision. Defined.

(* src: src/crates/client/src/model.rs:118-122 CodexTerminalError *)
Record CodexTerminalError : Type := mkCodexTerminalError {
  cte_code : option string;
  cte_message : string }.
#[export] Instance CodexTerminalError_eq_dec : EqDecision CodexTerminalError.
Proof. solve_decision. Defined.

(* src: src/crates/client/src/model.rs:125-127 TurnAbort *)
Record TurnAbort : Type := mkTurnAbort {
  tab_reason : string }.
#[export] Instance TurnAbort_eq_dec : EqDecision TurnAbort.
Proof. solve_decision. Defined.

(* src: src/crates/client/src/model.rs:130-135 ProcessTermination *)
Record ProcessTermination : Type := mkProcessTermination {
  prt_exit_code : option Z;
  prt_signal : option Z }.
#[export] Instance ProcessTermination_eq_dec : EqDecision ProcessTermination.
Proof. solve_decision. Defined.

(* src: src/crates/client/src/model.rs:138-142 CaptureLoss *)
Record CaptureLoss : Type := mkCaptureLoss {
  cpl_reason : string;
  cpl_lost_bytes : option Z }.
#[export] Instance CaptureLoss_eq_dec : EqDecision CaptureLoss.
Proof. solve_decision. Defined.

(* src: src/crates/client/src/model.rs:145-150 UnsupportedCodexBuild *)
Record UnsupportedCodexBuild : Type := mkUnsupportedCodexBuild {
  ucb_executable_sha256 : string;
  ucb_architecture : string;
  ucb_codex_version : option string }.
#[export] Instance UnsupportedCodexBuild_eq_dec : EqDecision UnsupportedCodexBuild.
Proof. solve_decision. Defined.

(* src: src/crates/client/src/model.rs:154-163 StructuredError *)
Inductive StructuredError : Type :=
| StructuredError_Provider (x : ProviderError)
| StructuredError_Http (x : HttpError)
| StructuredError_Incomplete (x : IncompleteResponse)
| StructuredError_CodexTerminal (x : CodexTerminalError)
| StructuredError_TurnAborted (x : TurnAbort)
| StructuredError_ProcessTerminated (x : ProcessTermination)
| StructuredError_CaptureLost (x : CaptureLoss)
| StructuredError_UnsupportedCodexBuild (x : UnsupportedCodexBuild).
#[export] Instance StructuredError_eq_dec : EqDecision StructuredError.
Proof. solve_decision. Defined.

(* src: src/crates/client/src/model.rs:166-177 TokenUsage *)
Record TokenUsage : Type := mkTokenUsage {
  tku_input_tokens : option Z;
  tku_output_tokens : option Z;
  tku_cached_input_tokens : option Z;
  tku_reasoning_tokens : option Z;
  tku_total_tokens : option Z }.
#[export] Instance TokenUsage_eq_dec : EqDecision TokenUsage.
Proof. solve_decision. Defined.

(* src: src/crates/client/src/model.rs:295-304 CaptureHealth *)
Record CaptureHealth : Type := mkCaptureHealth {
  cph_af_packet_active : bool;
  cph_uprobe_active : bool;
  cph_profile_supported : bool;
  cph_ring_buffer_drops : Z;
  cph_active_flows : Z;
  cph_outbox_bytes : Z;
  cph_last_error : option StructuredError }.
#[export] Instance CaptureHealth_eq_dec : EqDecision CaptureHealth.
Proof. solve_decision. Defined.

Section model.
Context `{TimeApi}.
(* src: src/crates/client/src/model.rs:32-39 SessionSummary *)
Record SessionSummary : Type := mkSessionSummary {
  sns_task : TaskKey;
  sns_parent_turn_id : option string;
  sns_root_turn_id : option string;
  sns_first_seen_at : OffsetDateTime }.

(* src: src/crates/client/src/model.rs:180-192 TaskTransition *)
Record TaskTransition : Type := mkTaskTransition {
  trn_event_id : Uuid;
  trn_task : TaskKey;
  trn_sequence : Z;
  trn_observed_at : OffsetDateTime;
  trn_phase : TaskPhase;
  trn_outcome : option TaskOutcome;
  trn_cause : TransitionCause;
  trn_completeness : Completeness;
  trn_error : option StructuredError }.

(* src: src/crates/client/src/model.rs:195-220 TaskSummary *)
Record TaskSummary : Type := mkTaskSummary {
  tsm_task : TaskKey;
  tsm_conversation_title : option string;
  tsm_phase : TaskPhase;
  tsm_outcome : option TaskOutcome;
  tsm_sequence : Z;
  tsm_last_event_id : Uuid;
  tsm_started_at : OffsetDateTime;
  tsm_updated_at : OffsetDateTime;
  tsm_terminal_at : option OffsetDateTime;
  tsm_attempt_count : Z;
  tsm_model : option string;
  tsm_tool_names : list string;
  tsm_response_ids : list string;
  tsm_usage : TokenUsage;
  tsm_completeness : Completeness;
  tsm_last_error : option StructuredError }.

(* src: src/crates/client/src/model.rs:223-242 AttemptSummary *)
Record AttemptSummary : Type := mkAttemptSummary {
  ats_attempt_id : Uuid;
  ats_task : TaskKey;
  ats_ordinal : Z;
  ats_status : AttemptStatus;
  ats_started_at : OffsetDateTime;
  ats_finished_at : option OffsetDateTime;
  ats_response_id : option string;
  ats_model : option string;
  ats_tool_names : list string;
  ats_usage : TokenUsage;
  ats_completeness : Completeness;
  ats_error : option StructuredError }.

(* src: src/crates/client/src/model.rs:245-261 HttpExchangeSummary *)
Record HttpExchangeSummary : Type := mkHttpExchangeSummary {
  hxs_exchange_id : Uuid;
  hxs_task : TaskKey;
  hxs_attempt_id : Uuid;
  hxs_observed_at : OffsetDateTime;
  hxs_method : string;
  hxs_path : string;
  hxs_status : option Z;
  hxs_request_bytes : Z;
  hxs_response_bytes : Z;
  hxs_request_sha256 : option string;
  hxs_response_sha256 : option string;
  hxs_completeness : Completeness }.

(* src: src/crates/client/src/model.rs:264-275 CaptureGapSummary *)
Record CaptureGapSummary : Type := mkCaptureGapSummary {
  cgs_gap_id : Uuid;
  cgs_client_instance_id : Uuid;
  cgs_task : option TaskKey;
  cgs_observed_at : OffsetDateTime;
  cgs_reason : string;
  cgs_lost_bytes : option Z;
  cgs_flow_id : option Uuid }.

(* src: src/crates/client/src/model.rs:278-292 ProcessSummary *)
Record ProcessSummary : Type := mkProcessSummary {
  prs_process_instance_id : Uuid;
  prs_client_instance_id : Uuid;
  prs_pid : Z;
  prs_executable_sha256 : string;
  prs_codex_version : option string;
  prs_started_at : OffsetDateTime;
  prs_exited_at : option OffsetDateTime;
  prs_exit_code : option Z;
  prs_signal : option Z }.

(* src: src/crates/client/src/model.rs:307-312 HeartbeatSummary *)
Record HeartbeatSummary : Type := mkHeartbeatSummary {
  hbs_client_instance_id : Uuid;
  hbs_observed_at : OffsetDateTime;
  hbs_client_version : string;
  hbs_health : CaptureHealth }.

(* src: src/crates/client/src/model.rs:316-325 SummaryRecord *)
Inductive SummaryRecord : Type :=
| SummaryRecord_Session (x : SessionSummary)
| SummaryRecord_Task (x : TaskSummary)
| SummaryRecord_TaskTransition (x : TaskTransition)
| SummaryRecord_Attempt (x : AttemptSummary)
| SummaryRecord_HttpExchange (x : HttpExchangeSummary)
| SummaryRecord_CaptureGap (x : CaptureGapSummary)
| SummaryRecord_Process (x : ProcessSummary)
| SummaryRecord_Heartbeat (x : HeartbeatSummary).
End model.

Module TimeFixture.
(** Nanoseconds since the epoch. *)
#[export] Instance time : TimeApi := {|
  OffsetDateTime := Z; unix_timestamp t := t / 10 ^ 9; add_seconds t n := Some (t + n * 10 ^ 9);
  from_unix_timestamp_nanos n := Some n |}.
End TimeFixture.
