(* ===== verification/Mapping.v ===== *)
(** * From the client's records to wire records

    The pure part of [src/crates/client/src/store.rs]: what [persist_ingress]
    normalises, how a batch's records become events, attempts, errors and gaps
    of the protocol, and the retry delays.  [Uuid::now_v7] is a fresh
    identifier, an argument of each function that calls it. *)
From Stdlib Require Import ZArith Lia Strings.Byte Strings.String.
From S2P Require Import Prelude RustStr Digest Types Fixtures Validation Model.
Local Open Scope string_scope.
Local Open Scope list_scope.
Local Open Scope Z_scope.

(** ** Texts *)
Section texts.
Context `{DigestApi}.
(* src: src/crates/client/src/store.rs:1400-1404 truncate_message: suffix *)
Definition truncation_suffix (message : string) : string :=
  " [truncated orig_len=" +:+ show_Z (str_len message) +:+ " sha256="
  +:+ sha256_hex (as_bytes message) +:+ "]".
(* src: src/crates/client/src/store.rs:1395-1411 truncate_message *)
Definition truncate_message (message : string) : string :=
  let max := 32 * 1024 in
  if str_len message <=? max then message
  else
    let suffix := truncation_suffix message in
    let keep := Z.to_nat (Z.max 0 (max - str_len suffix)) in
    let last := floor_boundary (as_bytes message) keep in
    of_bytes (take last (as_bytes message)) +:+ suffix.

(* src: src/crates/client/src/store.rs:1377-1391 normalize_error_opt: match *)
Definition normalize_error (e : StructuredError) : StructuredError :=
  let provider p := mkProviderError (pve_wire_type p) (pve_code p)
                      (truncate_message (pve_message p)) (pve_param p) in
  match e with
  | StructuredError_Provider inner => StructuredError_Provider (provider inner)
  | StructuredError_Http inner =>
    StructuredError_Http (mkHttpError (hte_status inner) (provider <$> hte_provider_error inner))
  | StructuredError_Incomplete inner =>
    StructuredError_Incomplete (mkIncompleteResponse (truncate_message (inc_reason inner)))
  | StructuredError_CodexTerminal inner =>
    StructuredError_CodexTerminal
      (mkCodexTerminalError (cte_code inner) (truncate_message (cte_message inner)))
  | StructuredError_TurnAborted inner =>
    StructuredError_TurnAborted (mkTurnAbort (truncate_message (tab_reason inner)))
  | StructuredError_CaptureLost inner =>
    StructuredError_CaptureLost (mkCaptureLoss (truncate_message (cpl_reason inner)) (cpl_lost_bytes inner))
  | StructuredError_ProcessTerminated _ | StructuredError_UnsupportedCodexBuild _ => e
  end.
(* src: src/crates/client/src/store.rs:1375-1393 normalize_error_opt *)
Definition normalize_error_opt (error : option StructuredError) : option StructuredError :=
  normalize_error <$> error.
End texts.

Section mapping.
Context `{UuidApi} `{DigestApi} `{TimeApi}.

(* src: src/crates/client/src/store.rs:1360-1373 normalize_record_error *)
Definition normalize_record_error (record : SummaryRecord) : SummaryRecord :=
  match record with
  | SummaryRecord_Task s =>
    SummaryRecord_Task (mkTaskSummary (tsm_task s) (tsm_conversation_title s) (tsm_phase s)
      (tsm_outcome s) (tsm_sequence s) (tsm_last_event_id s) (tsm_started_at s) (tsm_updated_at s)
      (tsm_terminal_at s) (tsm_attempt_count s) (tsm_model s) (tsm_tool_names s)
      (tsm_response_ids s) (tsm_usage s) (tsm_completeness s) (normalize_error_opt (tsm_last_error s)))
  | SummaryRecord_TaskTransition t =>
    SummaryRecord_TaskTransition (mkTaskTransition (trn_event_id t) (trn_task t) (trn_sequence t)
      (trn_observed_at t) (trn_phase t) (trn_outcome t) (trn_cause t) (trn_completeness t)
      (normalize_error_opt (trn_error t)))
  | SummaryRecord_Attempt a =>
    SummaryRecord_Attempt (mkAttemptSummary (ats_attempt_id a) (ats_task a) (ats_ordinal a)
      (ats_status a) (ats_started_at a) (ats_finished_at a) (ats_response_id a) (ats_model a)
      (ats_tool_names a) (ats_usage a) (ats_completeness a) (normalize_error_opt (ats_error a)))
  | SummaryRecord_Heartbeat h =>
    let c := hbs_health h in
    SummaryRecord_Heartbeat (mkHeartbeatSummary (hbs_client_instance_id h) (hbs_observed_at h)
      (hbs_client_version h)
      (mkCaptureHealth (cph_af_packet_active c) (cph_uprobe_active c) (cph_profile_supported c)
         (cph_ring_buffer_drops c) (cph_active_flows c) (cph_outbox_bytes c)
         (normalize_error_opt (cph_last_error c))))
  | SummaryRecord_Session _ | SummaryRecord_HttpExchange _
  | SummaryRecord_CaptureGap _ | SummaryRecord_Process _ => record
  end.
(* src: src/crates/client/src/store.rs:1355-1358 normalize_record *)
Definition normalize_record (record : SummaryRecord) : SummaryRecord := normalize_record_error record.

(* src: src/crates/client/src/store.rs:1340-1353 split_records *)
Fixpoint split_loop (chunks : list (list SummaryRecord)) (current records : list SummaryRecord)
    : list (list SummaryRecord) :=
  match records with
  | [] => match current with
          | [] => chunks
          | _ => chunks ++ [current]
          end
  | record :: records' =>
    let current := current ++ [record] in
    if Nat.leb 128 (length current) then split_loop (chunks ++ [current]) [] records'
    else split_loop chunks current records'
  end.
(* src: src/crates/client/src/store.rs:1340-1353 split_records *)
Definition split_records (records : list SummaryRecord) : list (list SummaryRecord) :=
  split_loop [] [] records.

(* src: src/crates/client/src/store.rs:1801-1803 ts *)
Definition ts (value : OffsetDateTime) : Z := unix_timestamp value * 1000.

(** ** Enums *)
(* src: src/crates/client/src/store.rs:1437-1444 map_phase *)
Definition map_phase (value : TaskPhase) : wire.TaskPhase :=
  match value with
  | TaskPhase_Running => wire.TaskPhase_Running
  | TaskPhase_AwaitingTool => wire.TaskPhase_AwaitingTool
  | TaskPhase_Retrying => wire.TaskPhase_Retrying
  | TaskPhase_Terminal => wire.TaskPhase_Terminal
  end.
(* src: src/crates/client/src/store.rs:1446-1454 map_outcome *)
Definition map_outcome (value : TaskOutcome) : TerminalOutcome :=
  match value with
  | TaskOutcome_Completed => TerminalOutcome_Completed
  | TaskOutcome_Failed => TerminalOutcome_Failed
  | TaskOutcome_Aborted => TerminalOutcome_Aborted
  | TaskOutcome_Terminated => TerminalOutcome_Terminated
  | TaskOutcome_Lost => TerminalOutcome_Lost
  end.
(* src: src/crates/client/src/store.rs:1456-1461 map_integrity *)
Definition map_integrity (value : Completeness) : IntegrityState :=
  match value with
  | Completeness_Complete => IntegrityState_Complete
  | Completeness_Degraded | Completeness_Unknown => IntegrityState_Degraded
  end.
(** The sum of [u64]s wraps, as in a release build. *)
(* src: src/crates/client/src/store.rs:1463-1474 map_usage *)
Definition map_usage (u : TokenUsage) : UsageSummary :=
  let or0 := unwrap_or 0 in
  mkUsageSummary (or0 (tku_input_tokens u)) (or0 (tku_output_tokens u)) (or0 (tku_reasoning_tokens u))
    (unwrap_or (wrap64 (or0 (tku_input_tokens u) + or0 (tku_output_tokens u)
                        + or0 (tku_reasoning_tokens u))) (tku_total_tokens u)).
(* src: src/crates/client/src/store.rs:1476-1485 map_attempt_status *)
Definition map_attempt_status (status : AttemptStatus) : wire.AttemptStatus :=
  match status with
  | AttemptStatus_Running => wire.AttemptStatus_Running
  | AttemptStatus_Completed => wire.AttemptStatus_Completed
  | AttemptStatus_Failed => wire.AttemptStatus_Failed
  | AttemptStatus_Incomplete => wire.AttemptStatus_Incomplete
  | AttemptStatus_Cancelled => wire.AttemptStatus_Cancelled
  | AttemptStatus_TransportLost => wire.AttemptStatus_TransportLost
  end.

(** ** Errors *)
(** [format!("{kind:?}")]. *)
Definition kind_debug (k : TaskEventKind) : string :=
  match k with
  | TaskEventKind_TaskObserved => "TaskObserved"
  | TaskEventKind_AttemptStarted => "AttemptStarted"
  | TaskEventKind_AttemptCompleted => "AttemptCompleted"
  | TaskEventKind_AttemptFailed => "AttemptFailed"
  | TaskEventKind_AttemptIncomplete => "AttemptIncomplete"
  | TaskEventKind_AttemptCancelled => "AttemptCancelled"
  | TaskEventKind_AttemptLost => "AttemptLost"
  | TaskEventKind_AwaitingTool => "AwaitingTool"
  | TaskEventKind_Retrying => "Retrying"
  | TaskEventKind_TerminalCompleted => "TerminalCompleted"
  | TaskEventKind_TerminalFailed => "TerminalFailed"
  | TaskEventKind_TerminalAborted => "TerminalAborted"
  | TaskEventKind_TerminalTerminated => "TerminalTerminated"
  | TaskEventKind_TerminalLost => "TerminalLost"
  | TaskEventKind_CaptureGap => "CaptureGap"
  | TaskEventKind_UnsupportedBuild => "UnsupportedBuild"
  | TaskEventKind_ProcessExit => "ProcessExit"
  end.

(** [error_id] is [Uuid::now_v7()]. *)
(* src: src/crates/client/src/store.rs:1589-1734 map_error_record *)
Definition map_error_record (error_id : Uuid) (task_ref : string) (attempt_id : option Uuid)
    (occurred_at_ms : Z) (error : StructuredError) (event_kind : option TaskEventKind) : ErrorRecord :=
  let record source wire_type code message param reason http_status exit_code signal :=
    mkErrorRecord error_id task_ref attempt_id occurred_at_ms source wire_type code message param
      reason http_status exit_code signal in
  match error with
  | StructuredError_Provider inner =>
    record (if String.eqb (pve_wire_type inner) "response.cancelled"
            then ErrorSource_ResponseCancelled else ErrorSource_ResponseFailed)
      (Some (pve_wire_type inner)) (pve_code inner) (pve_message inner) (pve_param inner)
      None None None None
  | StructuredError_Http inner =>
    let provider := hte_provider_error inner in
    record ErrorSource_HttpStatus (pve_wire_type <$> provider) (provider ≫= pve_code)
      (match provider with
       | Some value => pve_message value
       | None => "http " +:+ show_Z (hte_status inner)
       end)
      (provider ≫= pve_param) None (Some (hte_status inner)) None None
  | StructuredError_Incomplete inner =>
    record ErrorSource_ResponseIncomplete None None (inc_reason inner) None (Some (inc_reason inner))
      None None None
  | StructuredError_CodexTerminal inner =>
    record ErrorSource_TurnComplete None (cte_code inner) (cte_message inner) None None None None None
  | StructuredError_TurnAborted inner =>
    record ErrorSource_TurnAborted None None (tab_reason inner) None (Some (tab_reason inner))
      None None None
  | StructuredError_ProcessTerminated inner =>
    record ErrorSource_ProcessExit None None "process exited" None (kind_debug <$> event_kind) None
      (prt_exit_code inner) (prt_signal inner)
  | StructuredError_CaptureLost inner =>
    record ErrorSource_CaptureGap None None (cpl_reason inner) None (Some (cpl_reason inner))
      None None None
  | StructuredError_UnsupportedCodexBuild inner =>
    record ErrorSource_UnsupportedCodexBuild None (Some (ucb_executable_sha256 inner))
      ("unsupported build " +:+ ucb_architecture inner) (ucb_codex_version inner)
      None None None None
  end.

(* src: src/crates/client/src/store.rs:1736-1741 extract_http_status *)
Definition extract_http_status (error : option StructuredError) : option Z :=
  match error with
  | Some (StructuredError_Http inner) => Some (hte_status inner)
  | _ => None
  end.
(* src: src/crates/client/src/store.rs:1743-1748 extract_process_exit *)
Definition extract_process_exit (error : option StructuredError) : option Z * option Z :=
  match error with
  | Some (StructuredError_ProcessTerminated inner) => (prt_exit_code inner, prt_signal inner)
  | _ => (None, None)
  end.
(** [BTreeSet::insert] keeps the first of equal identifiers. *)
(* src: src/crates/client/src/store.rs:1750-1756 dedupe_errors *)
Definition dedupe_errors (errors : list ErrorRecord) : list ErrorRecord :=
  (fix go (seen : gset N) (l : list ErrorRecord) : list ErrorRecord :=
     match l with
     | [] => []
     | e :: l' =>
       if bool_decide (er_error_id e ∈ seen) then go seen l'
       else e :: go ({[er_error_id e]} ∪ seen) l'
     end) ∅ errors.
(* src: src/crates/client/src/store.rs:1758-1765 merge_unique *)
Definition merge_unique (current appended : list string) : list string :=
  fold_left (fun current value =>
    if negb (str_is_empty value) && negb (existsb (String.eqb value) current)
    then current ++ [value] else current) appended current.

(** ** Events *)
(* src: src/crates/client/src/store.rs:1559-1571 classify_attempt_failure *)
Definition classify_attempt_failure (error : option StructuredError) : TaskEventKind :=
  match error with
  | Some (StructuredError_Incomplete _) => TaskEventKind_AttemptIncomplete
  | Some (StructuredError_CaptureLost _) => TaskEventKind_AttemptLost
  | Some (StructuredError_Provider provider) =>
    if String.eqb (pve_wire_type provider) "response.cancelled"
    then TaskEventKind_AttemptCancelled else TaskEventKind_AttemptFailed
  | Some (StructuredError_Http _) => TaskEventKind_AttemptFailed
  | _ => TaskEventKind_Retrying
  end.
(* src: src/crates/client/src/store.rs:1488-1529 map_transition_event: kind *)
Definition transition_kind (cause : TransitionCause) (phase : TaskPhase) (outcome : option TaskOutcome)
    (error : option StructuredError) : TaskEventKind :=
  match cause, phase, outcome with
  | TransitionCause_AttemptStarted, _, _ => TaskEventKind_AttemptStarted
  | TransitionCause_ResponseEndTurn, TaskPhase_Terminal, Some TaskOutcome_Completed =>
    TaskEventKind_TerminalCompleted
  | TransitionCause_ResponseEndTurn, _, _ => TaskEventKind_AttemptCompleted
  | TransitionCause_ToolCallObserved, _, _ => TaskEventKind_AwaitingTool
  | TransitionCause_RetryScheduled, _, _ => TaskEventKind_Retrying
  | TransitionCause_CaptureLost, TaskPhase_Terminal, Some TaskOutcome_Lost =>
    TaskEventKind_TerminalLost
  | TransitionCause_CaptureLost, _, _ => TaskEventKind_CaptureGap
  | TransitionCause_ProcessExited, _, Some TaskOutcome_Lost => TaskEventKind_TerminalLost
  | TransitionCause_ProcessExited, _, _ => TaskEventKind_ProcessExit
  | TransitionCause_CodexTurnAborted, _, _ => TaskEventKind_TerminalAborted
  | TransitionCause_CodexTurnComplete, _, Some TaskOutcome_Completed => TaskEventKind_TerminalCompleted
  | TransitionCause_CodexTurnComplete, _, Some TaskOutcome_Failed => TaskEventKind_TerminalFailed
  | TransitionCause_CodexTurnComplete, _, Some TaskOutcome_Aborted => TaskEventKind_TerminalAborted
  | TransitionCause_CodexTurnComplete, _, Some TaskOutcome_Terminated =>
    TaskEventKind_TerminalTerminated
  | TransitionCause_CodexTurnComplete, _, Some TaskOutcome_Lost => TaskEventKind_TerminalLost
  | TransitionCause_CodexTurnComplete, _, None => TaskEventKind_AttemptCompleted
  | TransitionCause_AttemptCompleted, TaskPhase_AwaitingTool, _ => TaskEventKind_AwaitingTool
  | TransitionCause_AttemptCompleted, TaskPhase_Retrying, _ => classify_attempt_failure error
  | TransitionCause_AttemptCompleted, _, _ => TaskEventKind_AttemptCompleted
  | TransitionCause_CaptureStarted, _, _ | TransitionCause_ClientRecovered, _, _ =>
    TaskEventKind_TaskObserved
  end.
(* src: src/crates/client/src/store.rs:1487-1557 map_transition_event *)
Definition map_transition_event (error_id : Uuid) (t : TaskTransition) : TaskEvent :=
  let kind := transition_kind (trn_cause t) (trn_phase t) (trn_outcome t) (trn_error t) in
  let tref := task_ref (trn_task t) in
  {| te_event_id := trn_event_id t;
     te_task_ref := tref;
     te_sequence := trn_sequence t;
     te_occurred_at_ms := ts (trn_observed_at t);
     te_kind := kind;
     te_phase := map_phase (trn_phase t);
     te_terminal := map_outcome <$> trn_outcome t;
     te_attempt_id := None;
     te_response_id := None;
     te_model := None;
     te_tool_names := [];
     te_usage := UsageSummary_default;
     te_error := (fun error => map_error_record error_id tref None (ts (trn_observed_at t)) error
                                 (Some kind)) <$> trn_error t;
     te_http_status := extract_http_status (trn_error t);
     te_exit_code := (extract_process_exit (trn_error t)).1;
     te_signal := (extract_process_exit (trn_error t)).2;
     te_note := None |}.

(* src: src/crates/client/src/store.rs:1573-1587 map_gap_record *)
Definition map_gap_record (gap : CaptureGapSummary) : CaptureGapRecord :=
  mkCaptureGapRecord (cgs_gap_id gap) (task_ref <$> cgs_task gap)
    (match cgs_flow_id gap with
     | Some value => uuid_to_string value
     | None => "unknown"
     end)
    FlowDirection_ServerToClient (ts (cgs_observed_at gap))
    (unwrap_or 0 (cgs_lost_bytes gap)) (unwrap_or 0 (cgs_lost_bytes gap)) (cgs_reason gap).

(* src: src/crates/client/src/store.rs:1767-1780 is_priority_record *)
Definition is_priority_record (record : SummaryRecord) : bool :=
  match record with
  | SummaryRecord_CaptureGap _ | SummaryRecord_Heartbeat _ => true
  | SummaryRecord_Task summary => is_some (tsm_outcome summary) || is_some (tsm_last_error summary)
  | SummaryRecord_TaskTransition transition =>
    bool_decide (trn_phase transition = TaskPhase_Terminal) || is_some (trn_error transition)
  | SummaryRecord_Attempt attempt => negb (bool_decide (ats_status attempt = AttemptStatus_Running))
  | SummaryRecord_Process process =>
    is_some (prs_signal process) || is_some_and (fun code => negb (code =? 0)) (prs_exit_code process)
  | SummaryRecord_Session _ | SummaryRecord_HttpExchange _ => false
  end.

(* src: src/crates/client/src/store.rs:1782-1790 content_part_name *)
Definition content_part_name (part : ContentPart) : string :=
  match part with
  | ContentPart_Request => "request"
  | ContentPart_Response => "response"
  | ContentPart_ToolInput => "tool_input"
  | ContentPart_ToolOutput => "tool_output"
  | ContentPart_ModelText => "model_text"
  end.
(* src: src/crates/client/src/store.rs:1792-1799 command_meta *)
Definition command_meta (command : ClientCommand) : Uuid * option Z :=
  match command with
  | ClientCommand_RequestContent c => (crc_command_id c, cr_expires_at_ms (crc_request c))
  end.
(** Seconds; [2_u64.saturating_pow] does not saturate below exponent 11. *)
(* src: src/crates/client/src/store.rs:1814-1817 backoff_delay *)
Definition backoff_delay (attempt_count : Z) : Z :=
  Z.min (2 ^ Z.min attempt_count 10 * 5) 600.

(* src: src/crates/client/src/store.rs:1805-1808 from_ms *)
Definition from_ms (value : Z) : option OffsetDateTime := from_unix_timestamp_nanos (value * 1000000).
End mapping.

(** ** What the protocol accepts *)
(** The errors whose record is valid. *)
Definition provider_ok (p : ProviderError) : Prop :=
  text_ok MAX_SHORT_TEXT_BYTES (pve_wire_type p) /\ text_ok MAX_ERROR_MESSAGE_BYTES (pve_message p)
  /\ opt_ok (text_ok MAX_SHORT_TEXT_BYTES) (pve_code p)
  /\ opt_ok (text_ok MAX_SHORT_TEXT_BYTES) (pve_param p).
Definition structured_ok (e : StructuredError) : Prop :=
  match e with
  | StructuredError_Provider inner => provider_ok inner
  | StructuredError_Http inner =>
    100 <= hte_status inner <= 599 /\ opt_ok provider_ok (hte_provider_error inner)
  | StructuredError_Incomplete inner => text_ok MAX_ERROR_MESSAGE_BYTES (inc_reason inner)
  | StructuredError_CodexTerminal inner =>
    text_ok MAX_ERROR_MESSAGE_BYTES (cte_message inner)
    /\ opt_ok (text_ok MAX_SHORT_TEXT_BYTES) (cte_code inner)
  | StructuredError_TurnAborted inner => text_ok MAX_ERROR_MESSAGE_BYTES (tab_reason inner)
  | StructuredError_ProcessTerminated inner =>
    is_Some (prt_exit_code inner) \/ is_Some (prt_signal inner)
  | StructuredError_CaptureLost inner => text_ok MAX_ERROR_MESSAGE_BYTES (cpl_reason inner)
  | StructuredError_UnsupportedCodexBuild inner =>
    is_hex64 (ucb_executable_sha256 inner) = true
    /\ str_len (ucb_architecture inner) <= MAX_ERROR_MESSAGE_BYTES - 18
    /\ opt_ok (text_ok MAX_SHORT_TEXT_BYTES) (ucb_codex_version inner)
  end.

(** The kinds of error a transition may carry as evidence, by the cause and
    the projection it moves to. *)
Inductive legal_transition :
    TransitionCause -> TaskPhase -> option TaskOutcome -> option StructuredError -> Prop :=
| legal_start c e :
    c ∈ [TransitionCause_CaptureStarted; TransitionCause_ClientRecovered; TransitionCause_AttemptStarted] ->
    legal_transition c TaskPhase_Running None e
| legal_end_turn e p :
    p ∈ [TaskPhase_Running; TaskPhase_AwaitingTool] ->
    legal_transition TransitionCause_ResponseEndTurn p None e
| legal_end_turn_completed c :
    c ∈ [TransitionCause_ResponseEndTurn; TransitionCause_CodexTurnComplete] ->
    legal_transition c TaskPhase_Terminal (Some TaskOutcome_Completed) None
| legal_tool c e :
    c ∈ [TransitionCause_ToolCallObserved; TransitionCause_AttemptCompleted] ->
    legal_transition c TaskPhase_AwaitingTool None e
| legal_retry c e :
    c ∈ [TransitionCause_RetryScheduled; TransitionCause_AttemptCompleted] ->
    legal_transition c TaskPhase_Retrying None e
| legal_attempt e :
    legal_transition TransitionCause_AttemptCompleted TaskPhase_Running None e
| legal_gap p e :
    p <> TaskPhase_Terminal -> legal_transition TransitionCause_CaptureLost p None e
| legal_lost c x :
    c ∈ [TransitionCause_CaptureLost; TransitionCause_ProcessExited; TransitionCause_CodexTurnComplete] ->
    legal_transition c TaskPhase_Terminal (Some TaskOutcome_Lost) (Some (StructuredError_CaptureLost x))
| legal_exit c x :
    c ∈ [TransitionCause_ProcessExited; TransitionCause_CodexTurnComplete] ->
    legal_transition c TaskPhase_Terminal (Some TaskOutcome_Terminated)
      (Some (StructuredError_ProcessTerminated x))
| legal_aborted c x :
    c ∈ [TransitionCause_CodexTurnAborted; TransitionCause_CodexTurnComplete] ->
    legal_transition c TaskPhase_Terminal (Some TaskOutcome_Aborted)
      (Some (StructuredError_TurnAborted x))
| legal_failed x :
    legal_transition TransitionCause_CodexTurnComplete TaskPhase_Terminal (Some TaskOutcome_Failed)
      (Some (StructuredError_CodexTerminal x))
| legal_turn p e :
    p ∈ [TaskPhase_Running; TaskPhase_AwaitingTool] ->
    legal_transition TransitionCause_CodexTurnComplete p None e.

Section mapping_lemmas.
Context `{UuidApi} `{DigestApi} `{TimeApi}.

Lemma text_ok_app_l b max p s : printable b = true -> b ∈ as_bytes p ->
  text_ok max (p +:+ s) <-> str_len s <= max - str_len p.
Proof.
  intros Hb Hin. unfold text_ok, str_len. rewrite <- !length_as_bytes, as_bytes_app, length_app.
  rewrite (not_blank b) by (try done; rewrite as_bytes_app; set_solver). intuition lia.
Qed.
Lemma hex64_text_ok s : is_hex64 s = true -> text_ok MAX_SHORT_TEXT_BYTES s.
Proof.
  unfold is_hex64, text_ok, MAX_SHORT_TEXT_BYTES. intros [Hl Hx]%andb_true_iff. apply Z.eqb_eq in Hl.
  split; [|lia]. unfold str_len in Hl. rewrite <- length_as_bytes in Hl.
  destruct (as_bytes s) as [|b l] eqn:E; [done|]. apply (not_blank b); [|rewrite E; set_solver].
  cbn [forallb] in Hx. apply andb_true_iff in Hx as [Hx _].
  unfold is_ascii_hexdigit, printable, in_range in *. simpl_bools. lia.
Qed.
Lemma http_message_ok n : 100 <= n <= 599 -> text_ok MAX_ERROR_MESSAGE_BYTES ("http " +:+ show_Z n).
Proof.
  intros Hn. apply (text_ok_app_l "h"%byte); [done | by_decide|].
  unfold str_len. rewrite <- length_as_bytes. destruct (show_Z_digits 3 n) as [Hl _]; [lia..|].
  unfold MAX_ERROR_MESSAGE_BYTES. cbn. lia.
Qed.
Lemma kind_debug_ok k : text_ok MAX_ERROR_MESSAGE_BYTES (kind_debug k).
Proof. destruct k; by vm_compute. Qed.

Lemma on_text_Ok path max o :
  on_some o (fun s => validate_text path s max) = Ok tt <-> opt_ok (text_ok max) o.
Proof. destruct o as [s|]; cbn; [apply validate_text_Ok | done]. Qed.
Lemma map_error_valid id tref attempt at_ms e kind :
  get_version_num id = 7 -> text_ok MAX_ID_BYTES tref ->
  validate (map_error_record id tref attempt at_ms e kind) = Ok tt <-> structured_ok e.
Proof.
  intros Hid Href.
  change (validate ?r) with (ErrorRecord_validate r). unfold ErrorRecord_validate, source_fields_valid.
  assert (Hreason : forall k, opt_ok (text_ok MAX_ERROR_MESSAGE_BYTES) (kind_debug <$> k))
    by (intros [k|]; [apply kind_debug_ok | done]).
  destruct e as [p|h|i|c|t|p|c|u]; cbn [map_error_record er_error_id er_task_ref er_message
    er_wire_type er_code er_param er_reason er_http_status er_source er_exit_code er_signal structured_ok];
    rewrite !bind_tt_Ok, !on_text_Ok.
  - destruct (String.eqb _ _); result_iff; cbn; unfold provider_ok; tauto.
  - result_iff. destruct (hte_provider_error h) as [p|]; cbn.
    + unfold provider_ok. result_iff. tauto.
    + result_iff. pose proof (http_message_ok (hte_status h)). tauto.
  - result_iff. cbn. tauto.
  - result_iff. cbn. tauto.
  - result_iff. cbn. tauto.
  - result_iff. cbn. rewrite !is_some_true. specialize (Hreason kind).
    assert (text_ok MAX_ERROR_MESSAGE_BYTES "process exited") by by vm_compute.
    destruct kind; cbn in *; tauto.
  - result_iff. cbn. tauto.
  - result_iff. cbn. rewrite (text_ok_app_l "u"%byte) by (try done; by_decide). cbn.
    pose proof (hex64_text_ok (ucb_executable_sha256 u)). tauto.
Qed.

(** The projection and the evidence of a transition's event. *)
Definition event_legal (id : Uuid) (t : TaskTransition) : bool :=
  let e := map_transition_event id t in
  bool_decide (te_terminal e = expected_terminal (te_kind e))
  && Bool.eqb (is_some (expected_terminal (te_kind e))) (phase_is (te_phase e) wire.TaskPhase_Terminal)
  && phase_valid e && evidence_valid e.
Ltac pick_legal :=
  once first [constructor; by_decide | constructor; discriminate | constructor].
Lemma event_legal_iff id t :
  event_legal id t = true
  <-> legal_transition (trn_cause t) (trn_phase t) (trn_outcome t) (trn_error t).
Proof.
  destruct t as [eid task seq at_ms phase outcome cause comp error]. cbn [trn_cause trn_phase trn_outcome trn_error].
  split.
  - intros Hl. unfold event_legal in Hl. rewrite !andb_true_iff in Hl. destruct Hl as (((H1' & H2') & H3') & H4').
    destruct cause, phase; try discriminate H3'; destruct outcome as [[]|];
      try discriminate H1'; try discriminate H2'; try discriminate H3';
      try pick_legal; destruct error as [[]|]; try discriminate H1'; try discriminate H4';
      try pick_legal;
      cbv -[String.eqb map_outcome uuid_to_string show_Z decide pve_wire_type] in H1', H4';
      destruct (String.eqb _ _); first [discriminate H1' | discriminate H4'].
  - intros Hl. destruct Hl as [c e Hc|e p Hp|c Hc|c e Hc|c e Hc|e|p e Hp|c x Hc|c x Hc|c x Hc|x|p e Hp];
      rewrite ?elem_of_cons, ?elem_of_nil in *; try (destruct_or!; subst; done).
    all: try done.
    + destruct_or!; subst; try done. destruct e as [[]|]; try done.
      cbv -[String.eqb map_outcome uuid_to_string show_Z decide pve_wire_type]. by destruct (String.eqb _ _).
    + by destruct p.
Qed.

(** ** Truncation *)
Context `{!DigestLaws}.
Lemma truncation_suffix_shape m : str_len m < 10 ^ 20 ->
  (length (as_bytes (truncation_suffix m)) <= 114)%nat
  /\ utf8_valid (as_bytes (truncation_suffix m)) = true
  /\ "["%byte ∈ as_bytes (truncation_suffix m).
Proof.
  intros Hm. unfold truncation_suffix. rewrite !as_bytes_app.
  destruct (sha256_hex_shape (as_bytes m)) as [Hl Hx].
  destruct (show_Z_digits 20 (str_len m)) as [Hd Hdx]; [unfold str_len in *; lia..|].
  split; [|split].
  - rewrite !length_app, Hl. cbn. lia.
  - apply utf8_valid_ascii_all. rewrite !forallb_app, !andb_true_iff.
    assert (Hw : forall (p q : byte -> bool) l, (forall b, p b = true -> q b = true) ->
              forallb p l = true -> forallb q l = true).
    { intros p q l Hpq. rewrite !forallb_forall. auto. }
    repeat split; try reflexivity; (eapply Hw; [|eassumption]); cbn; intros b;
      unfold is_ascii_hexdigit, in_range; intros; simpl_bools; lia.
  - apply elem_of_app. left. by_decide.
Qed.

Lemma truncate_spec m : utf8_valid (as_bytes m) = true -> str_len m < 10 ^ 20 ->
  let r := truncate_message m in
  str_len r <= MAX_ERROR_MESSAGE_BYTES /\ utf8_valid (as_bytes r) = true
  /\ (str_len m <= MAX_ERROR_MESSAGE_BYTES -> r = m)
  /\ (MAX_ERROR_MESSAGE_BYTES < str_len m ->
       exists n, as_bytes r = take n (as_bytes m) ++ as_bytes (truncation_suffix m)
         /\ is_char_boundary (as_bytes m) n = true
         /\ forall k, is_char_boundary (as_bytes m) k = true ->
              Z.of_nat k + str_len (truncation_suffix m) <= MAX_ERROR_MESSAGE_BYTES -> (k <= n)%nat).
Proof.
  intros Hv Hm. cbv zeta. unfold truncate_message, MAX_ERROR_MESSAGE_BYTES.
  destruct (Z.leb_spec (str_len m) (32 * 1024)) as [Hle|Hgt].
  { repeat split; try done. lia. }
  destruct (truncation_suffix_shape m Hm) as (Hs & Hsv & _).
  set (suffix := truncation_suffix m) in *. set (keep := Z.to_nat _).
  assert (Hkeep : Z.of_nat keep + Z.of_nat (length (as_bytes suffix)) = 32768).
  { subst keep. unfold str_len. rewrite <- length_as_bytes. lia. }
  destruct (floor_boundary_spec (as_bytes m) keep) as [Hb1 Hb2].
  set (n := floor_boundary (as_bytes m) keep) in *.
  split; [|split; [|split]].
  - unfold str_len. rewrite <- length_as_bytes, as_bytes_app, as_of_bytes, length_app, length_take. lia.
  - rewrite as_bytes_app, as_of_bytes, utf8_valid_app; [done|]. by apply utf8_valid_take.
  - lia.
  - intros _. exists n. rewrite as_bytes_app, as_of_bytes. split; [done|]. split; [done|].
    intros k Hk Hkl. destruct (Nat.le_gt_cases k n) as [|Hgt']; [done|].
    rewrite (floor_boundary_max (as_bytes m) keep k) in Hk; [done|]. fold n.
    unfold str_len in Hkl. rewrite <- length_as_bytes in Hkl. lia.
Qed.
Lemma truncate_text_ok m : utf8_valid (as_bytes m) = true -> str_len m < 10 ^ 20 ->
  str_is_empty (trim m) = false -> text_ok MAX_ERROR_MESSAGE_BYTES (truncate_message m).
Proof.
  intros Hv Hm Hb. destruct (truncate_spec m Hv Hm) as (Hl & _ & Hsame & Hcut). split; [|done].
  destruct (Z.le_gt_cases (str_len m) MAX_ERROR_MESSAGE_BYTES) as [Hle|Hgt]; [by rewrite Hsame|].
  destruct (Hcut ltac:(lia)) as (n & E & _). apply (not_blank "["%byte); [done|].
  rewrite E. destruct (truncation_suffix_shape m Hm) as (_ & _ & Hin). apply elem_of_app. by right.
Qed.

(** A message is cut to at most 32 KiB of valid UTF-8: a short one is
    unchanged, a longer one keeps the longest prefix of whole characters that
    leaves room for a suffix with its length and digest; a message that is not
    blank is accepted by the protocol afterwards. *)
Theorem truncate_message_spec m : utf8_valid (as_bytes m) = true -> str_len m < 10 ^ 20 ->
  let r := truncate_message m in
  utf8_valid (as_bytes r) = true
  /\ (str_is_empty (trim m) = false -> text_ok MAX_ERROR_MESSAGE_BYTES r)
  /\ (str_len m <= MAX_ERROR_MESSAGE_BYTES -> r = m)
  /\ (MAX_ERROR_MESSAGE_BYTES < str_len m ->
       exists n, as_bytes r = take n (as_bytes m) ++ as_bytes (truncation_suffix m)
         /\ is_char_boundary (as_bytes m) n = true
         /\ forall k, is_char_boundary (as_bytes m) k = true ->
              Z.of_nat k + str_len (truncation_suffix m) <= MAX_ERROR_MESSAGE_BYTES -> (k <= n)%nat).
Proof.
  intros Hv Hm. destruct (truncate_spec m Hv Hm) as (_ & H1' & H2' & H3').
  split; [done|]. split; [by apply truncate_text_ok|]. done.
Qed.

(** The event of a transition is accepted by the protocol exactly when the
    cause, the projection it moves to and its error are one of the legal
    combinations, the error is well formed, and the identifiers are. *)
Theorem transition_valid_iff id t : get_version_num id = 7 ->
  validate (map_transition_event id t) = Ok tt
  <-> get_version_num (trn_event_id t) = 7 /\ text_ok MAX_ID_BYTES (task_ref (trn_task t))
      /\ trn_sequence t <> 0 /\ opt_ok structured_ok (trn_error t)
      /\ legal_transition (trn_cause t) (trn_phase t) (trn_outcome t) (trn_error t).
Proof.
  intros Hid. rewrite <- (event_legal_iff id).
  change (validate ?e) with (TaskEvent_validate e).
  unfold TaskEvent_validate, validate_event_projection, validate_event_evidence, event_legal.
  result_iff. cbn [te_event_id te_task_ref te_sequence te_error map_transition_event].
  assert (Herr : text_ok MAX_ID_BYTES (task_ref (trn_task t)) ->
    on_some ((fun error => map_error_record id (task_ref (trn_task t)) None (ts (trn_observed_at t)) error
        (Some (transition_kind (trn_cause t) (trn_phase t) (trn_outcome t) (trn_error t)))) <$> trn_error t)
      (fun err => _ ← map_err (under "error") (validate err);
         guard_or (bool_decide (er_task_ref err = task_ref (trn_task t)))
           (mkVE "error.task_ref" "must match event task_ref")) = Ok tt
    <-> opt_ok structured_ok (trn_error t)).
  { intros Href. destruct (trn_error t) as [e|]; cbn; [|done]. result_iff. rewrite map_error_valid by done.
    assert (er_task_ref (map_error_record id (task_ref (trn_task t)) None (ts (trn_observed_at t)) e
      (Some (transition_kind (trn_cause t) (trn_phase t) (trn_outcome t) (Some e)))) = task_ref (trn_task t))
      by by destruct e. tauto. }
  rewrite on_some_Ok in Herr. tauto.
Qed.
End mapping_lemmas.

(** ** Witnesses *)
Module MappingFixture.
Import TimeFixture.
(** Forty thousand bytes of two-byte characters. *)
Definition long_message : string := of_bytes (concat (replicate 20000 [xc3; xa9])).
Lemma truncate_message_spec_witness :
  utf8_valid (as_bytes (truncate_message long_message)) = true
  /\ exists n, as_bytes (truncate_message long_message)
               = take n (as_bytes long_message) ++ as_bytes (truncation_suffix long_message).
Proof.
  assert (Hv : utf8_valid (as_bytes long_message) = true) by (vm_compute; reflexivity).
  assert (Hl : str_len long_message = 40000) by (vm_compute; reflexivity).
  destruct (truncate_message_spec long_message Hv ltac:(rewrite Hl; lia)) as (H1 & _ & _ & H2).
  split; [exact H1|]. unfold MAX_ERROR_MESSAGE_BYTES in H2. rewrite Hl in H2.
  destruct (H2 ltac:(lia)) as (n & E & _). exists n. exact E.
Defined.

Definition key : TaskKey := mkTaskKey "client" (mkProviderId "openai") "session" "thread" "turn".
Definition completed : TaskTransition :=
  mkTaskTransition (uuid7 1) key 3 (5 * 10 ^ 9) TaskPhase_Terminal (Some TaskOutcome_Completed)
    TransitionCause_CodexTurnComplete Completeness_Complete None.
(** An attempt that ended while the task did is no legal event. *)
Definition illegal : TaskTransition :=
  mkTaskTransition (uuid7 1) key 3 (5 * 10 ^ 9) TaskPhase_Terminal (Some TaskOutcome_Completed)
    TransitionCause_AttemptCompleted Completeness_Complete None.
Lemma transition_valid_iff_witness :
  validate (map_transition_event (uuid7 2) completed) = Ok tt
  /\ validate (map_transition_event (uuid7 2) illegal) <> Ok tt.
Proof.
  split.
  - apply (transition_valid_iff (uuid7 2) completed); [by vm_compute|].
    split; [reflexivity|]. split; [by vm_compute|]. split; [done|]. split; [exact I|].
    cbn. constructor. by_decide.
  - intros Hv. apply (transition_valid_iff (uuid7 2) illegal) in Hv as (_ & _ & _ & _ & Hl); [|by vm_compute].
    cbn in Hl. inversion Hl; subst. set_solver.
Defined.
End MappingFixture.
