(* ===== verification/Blob.v ===== *)
(** * The client's content store

    [src/crates/client/src/blob.rs]: bodies are compressed and kept under
    their digest ([store]), cut into chunks when the server asks for them
    ([load_chunks]), and announced by a manifest ([manifest]).  The file
    system is a map from paths to contents; a directory is created as needed,
    so the only failing operation is reading a file that does not exist.  The
    theorems are about the chunks and the manifest; ContentUpload follows them to
    the server. *)
From Stdlib Require Import ZArith Lia Strings.Byte Strings.String.
From S2P Require Import Prelude RustStr Digest Types Fixtures Validation Codec Http1 Table Sql Db Server ServerContent Model.
Local Open Scope string_scope.
Local Open Scope list_scope.
Local Open Scope Z_scope.

(* src: src/crates/client/src/blob.rs:17-17 RETENTION_HOURS *)
Definition RETENTION_HOURS : Z := 72.

(** [Path::join] on Unix: an absolute argument replaces the path. *)
Definition needs_separator (p : string) : bool :=
  match rev (as_bytes p) with
  | [] => false
  | b :: _ => negb (Byte.eqb b "/"%byte)
  end.
Definition path_join (p q : string) : string :=
  if starts_with (as_bytes "/") (as_bytes q) then q
  else if needs_separator p then p +:+ "/" +:+ q else p +:+ q.

(** [&s[..n]]: a panic inside a character. *)
Definition str_prefix (n : nat) (s : string) : option string :=
  match as_bytes s !! n with
  | Some b => if is_cont b then None else Some (of_bytes (take n (as_bytes s)))
  | None => Some s
  end.

(** [<[u8]>::chunks]. *)
Fixpoint chunks_fuel (fuel n : nat) (l : bytes) : list bytes :=
  match fuel, l with
  | S fuel', _ :: _ => take n l :: chunks_fuel fuel' n (drop n l)
  | _, _ => []
  end.
Definition slice_chunks (n : nat) (l : bytes) : list bytes := chunks_fuel (length l) n l.

(** [usize::div_ceil]. *)
Definition div_ceil (a b : Z) : Z := (a + b - 1) / b.

(* src: src/crates/client/src/blob.rs:166-169 chunk_count *)
Definition chunk_count (compressed_bytes : Z) : Z :=
  let chunks := div_ceil compressed_bytes MAX_CONTENT_CHUNK_BYTES in
  wrap32 (Z.max chunks 1).

(* src: src/crates/client/src/blob.rs:155-159 sanitize_headers: sensitive *)
Definition sensitive (key : string) : bool :=
  let lower := to_ascii_lowercase key in
  bool_decide (lower ∈ ["authorization"; "proxy-authorization"; "cookie"; "set-cookie"])
  || contains lower "api-key".
(* src: src/crates/client/src/blob.rs:151-163 sanitize_headers *)
Definition sanitize_headers (headers : gmap string string) : gmap string string :=
  filter (fun kv => negb (sensitive kv.1) = true) headers.

(* src: src/crates/client/src/blob.rs:30-30 SanitizedHeaders *)
Record SanitizedHeaders : Type := mkSanitizedHeaders { sh_0 : gmap string string }.

(** The file system, and the path written before the rename: the extension of
    [path], which ends in [.zst], is replaced. *)
Abbreviation Fs := (gmap string bytes).
Definition with_extension_tmp (path : string) : string :=
  of_bytes (take (length (as_bytes path) - 3) (as_bytes path)) +:+ "tmp".

Section blob.
Context `{UuidApi} `{DigestApi} `{ZstdApi} `{TimeApi}.

(* src: src/crates/client/src/blob.rs:20-27 StoredContentInput *)
Record StoredContentInput : Type := mkStoredContentInput {
  in_task : TaskKey;
  in_part : ContentPart;
  in_media_type : string;
  in_body : bytes;
  in_headers : gmap string string;
  in_created_at : OffsetDateTime }.
(* src: src/crates/client/src/blob.rs:33-44 StoredBlob *)
Record StoredBlob : Type := mkStoredBlob {
  bl_task : TaskKey;
  bl_part : ContentPart;
  bl_object_sha256 : string;
  bl_media_type : string;
  bl_uncompressed_bytes : Z;
  bl_compressed_bytes : bytes;
  bl_chunk_count : Z;
  bl_created_at : OffsetDateTime;
  bl_expires_at : OffsetDateTime;
  bl_sanitized_headers : SanitizedHeaders }.

(* src: src/crates/client/src/blob.rs:48-64 manifest *)
Definition manifest (b : StoredBlob) (request_id : Uuid) : ContentObjectManifest :=
  mkContentObjectManifest request_id (task_ref (bl_task b)) (key_session_id (bl_task b))
    (key_thread_id (bl_task b)) (bl_part b) (bl_object_sha256 b) (bl_media_type b)
    (bl_uncompressed_bytes b) (Z.of_nat (length (bl_compressed_bytes b))) (bl_chunk_count b)
    (unix_timestamp (bl_created_at b) * 1000).

(** The errors of this file: the [bail!], and what [?] passes on. *)
Inductive BlobError : Type :=
| BlobError_EmptyMediaType
| BlobError_Zstd (e : io_error)
| BlobError_Read (object_sha256 : string).

(* src: src/crates/client/src/blob.rs:138-141 object_path *)
Definition object_path (root object_sha256 : string) : option string :=
  prefix ← str_prefix (Nat.min 2 (length (as_bytes object_sha256))) object_sha256;
  mret (path_join (path_join root prefix) (object_sha256 +:+ ".zst")).

(* src: src/crates/client/src/blob.rs:82-90 store: write *)
Definition write_new (path : string) (compressed_bytes : bytes) (fs : Fs) : Fs :=
  match fs !! path with
  | Some _ => fs
  | None => <[path := compressed_bytes]> (delete (with_extension_tmp path) fs)
  end.
(** The file system afterwards, and the result; [None] is a panic. *)
(* src: src/crates/client/src/blob.rs:77-105 store *)
Definition store (root : string) (input : StoredContentInput) (fs : Fs)
    : Fs * option (result BlobError StoredBlob) :=
  if str_is_empty (trim (in_media_type input)) then (fs, Some (Err BlobError_EmptyMediaType))
  else
    let object_sha256 := sha256_hex (in_body input) in
    match encode_all (in_body input) 3 with
    | Err e => (fs, Some (Err (BlobError_Zstd e)))
    | Ok compressed_bytes =>
      match object_path root object_sha256 with
      | None => (fs, None)
      | Some path =>
        (write_new path compressed_bytes fs,
         expires_at ← add_seconds (in_created_at input) (3600 * RETENTION_HOURS);
         mret (Ok (mkStoredBlob (in_task input) (in_part input) object_sha256 (in_media_type input)
           (Z.of_nat (length (in_body input))) compressed_bytes
           (chunk_count (Z.of_nat (length (in_body input)))) (in_created_at input) expires_at
           (mkSanitizedHeaders (sanitize_headers (in_headers input))))))
      end
    end.

(* src: src/crates/client/src/blob.rs:115-126 load_chunks: loop *)
Definition chunk_of (request_id : Uuid) (object_sha256 : string) (count : Z) (i : nat)
    (payload_zstd : bytes) : ContentUploadChunk :=
  mkContentUploadChunk request_id (wrap32 (Z.of_nat i)) count object_sha256
    (sha256_hex payload_zstd) payload_zstd (wrap32 (Z.of_nat i) + 1 =? count).
(* src: src/crates/client/src/blob.rs:107-128 load_chunks *)
Definition load_chunks (root object_sha256 : string) (request_id : Uuid) (fs : Fs)
    : option (result BlobError (list ContentUploadChunk)) :=
  path ← object_path root object_sha256;
  mret (bytes ← ok_or (BlobError_Read object_sha256) (fs !! path);
        let count := chunk_count (Z.of_nat (length bytes)) in
        Ok (imap (chunk_of request_id object_sha256 count)
              (slice_chunks (Z.to_nat MAX_CONTENT_CHUNK_BYTES) bytes))).

(* src: src/crates/client/src/blob.rs:130-136 remove *)
Definition remove (root object_sha256 : string) (fs : Fs) : option Fs :=
  path ← object_path root object_sha256;
  mret (delete path fs).
End blob.

(** ** Chunks *)
Section chunks.
Context (n : nat) (Hn : (0 < n)%nat).

Lemma chunks_fuel_spec fuel l :
  (length l <= fuel)%nat ->
  concat (chunks_fuel fuel n l) = l
  /\ Forall (fun p => (length p <= n)%nat) (chunks_fuel fuel n l)
  /\ Z.of_nat (length (chunks_fuel fuel n l)) = div_ceil (Z.of_nat (length l)) (Z.of_nat n).
Proof.
  unfold div_ceil. revert l. induction fuel as [|fuel IH]; intros l Hl.
  - destruct l; [|cbn in Hl; lia]. cbn. split; [done|]. split; [constructor|].
    symmetry. apply Z.div_small. lia.
  - destruct l as [|b l]; cbn [chunks_fuel].
    { cbn. split; [done|]. split; [constructor|]. symmetry. apply Z.div_small. lia. }
    set (w := b :: l) in *.
    assert (Hd : (length (drop n w) = length w - n)%nat) by apply length_drop.
    assert (Hw : (0 < length w)%nat) by (cbn; lia).
    destruct (IH (drop n w)) as (Hc & Hf & Hlen); [lia|]. split; [|split].
    + cbn [concat]. rewrite Hc. apply take_drop.
    + constructor; [|done]. rewrite length_take. lia.
    + cbn [length]. rewrite Nat2Z.inj_succ, Hlen, Hd.
      destruct (Nat.le_gt_cases n (length w)).
      * rewrite Nat2Z.inj_sub by done. 
        replace (Z.of_nat (length w) + Z.of_nat n - 1)
          with (Z.of_nat (length w) - Z.of_nat n + Z.of_nat n - 1 + 1 * Z.of_nat n) by lia.
        rewrite Z.div_add by lia. lia.
      * replace (length w - n)%nat with 0%nat by lia.
        rewrite (Z.div_small (Z.of_nat 0 + _ - 1)) by lia.
        apply (Z.div_unique _ _ 1 (Z.of_nat (length w) - 1)); lia.
Qed.
Lemma slice_chunks_spec l :
  concat (slice_chunks n l) = l
  /\ Forall (fun p => (length p <= n)%nat) (slice_chunks n l)
  /\ Z.of_nat (length (slice_chunks n l)) = div_ceil (Z.of_nat (length l)) (Z.of_nat n).
Proof. by apply chunks_fuel_spec. Qed.
End chunks.

(** The largest length whose number of chunks is a [u32]. *)
Definition max_blob : Z := u32_max * MAX_CONTENT_CHUNK_BYTES.
Lemma chunk_count_small z : 1 <= z <= max_blob ->
  chunk_count z = div_ceil z MAX_CONTENT_CHUNK_BYTES /\ 1 <= chunk_count z <= u32_max.
Proof.
  unfold max_blob, chunk_count, div_ceil, MAX_CONTENT_CHUNK_BYTES, u32_max. intros Hz.
  assert (1 <= (z + 1024 * 1024 - 1) / (1024 * 1024) <= 4294967295).
  { split; [apply Z.div_le_lower_bound; lia|].
    apply Z.lt_succ_r, Z.div_lt_upper_bound; lia. }
  set (k := (z + 1024 * 1024 - 1) / (1024 * 1024)) in *. clearbody k.
  rewrite Z.max_l by lia. rewrite wrap_small by lia. lia.
Qed.

(** ** Paths *)
Lemma take_suffix_path_join p q :
  starts_with (as_bytes "/") (as_bytes q) = false ->
  exists pre, as_bytes (path_join p q) = pre ++ as_bytes q.
Proof.
  unfold path_join. intros ->. destruct (needs_separator p).
  - exists (as_bytes p ++ as_bytes "/"). by rewrite !as_bytes_app, app_assoc.
  - exists (as_bytes p). apply as_bytes_app.
Qed.

Section blob_lemmas.
Context `{UuidApi} `{DigestApi} `{ZstdApi} `{TimeApi}.

Lemma hex64_spec s : is_hex64 s = true ->
  length (as_bytes s) = 64%nat /\ forallb is_ascii_hexdigit (as_bytes s) = true.
Proof.
  unfold is_hex64, str_len. rewrite andb_true_iff, Z.eqb_eq, length_as_bytes. intros [? ?].
  split; [lia | done].
Qed.
Lemma hexdigit_ascii b : is_ascii_hexdigit b = true -> is_cont b = false /\ Byte.eqb "/"%byte b = false.
Proof. destruct b; vm_compute; done. Qed.

(** The path of a digest exists, ends in it, and so determines it. *)
Lemma object_path_hex root s : is_hex64 s = true ->
  exists pre p, object_path root s = Some p /\ as_bytes p = pre ++ as_bytes s ++ as_bytes ".zst".
Proof.
  intros [Hl Hx]%hex64_spec. unfold object_path, str_prefix. rewrite Hl. cbn [Nat.min].
  destruct (as_bytes s) as [|a [|b [|c l]]] eqn:E; try discriminate Hl. cbn [lookup list_lookup].
  cbn [forallb] in Hx. rewrite !andb_true_iff in Hx. destruct Hx as (Ha & Hb & Hc & _).
  pose proof (hexdigit_ascii c Hc) as [-> _]. pose proof (hexdigit_ascii a Ha) as [_ Hs].
  cbn [mbind option_bind mret option_ret].
  destruct (take_suffix_path_join (path_join root (of_bytes (take 2 (a :: b :: c :: l))))
              (s +:+ ".zst")) as [pre Hp].
  - rewrite as_bytes_app, E. change (as_bytes "/") with ["/"%byte].
    cbn [app starts_with]. by rewrite Hs.
  - eexists pre, _. split; [reflexivity|]. by rewrite Hp, as_bytes_app, E.
Qed.
Lemma object_path_inj root s t p : is_hex64 s = true -> is_hex64 t = true ->
  object_path root s = Some p -> object_path root t = Some p -> s = t.
Proof.
  intros Hs Ht Es Et.
  destruct (object_path_hex root s Hs) as (a & p1 & E1 & B1).
  destruct (object_path_hex root t Ht) as (b & p2 & E2 & B2).
  apply hex64_spec in Hs as [Hs _]. apply hex64_spec in Ht as [Ht _].
  rewrite Es in E1. rewrite Et in E2. injection E1 as <-. injection E2 as <-.
  rewrite B1, !app_assoc in B2. apply app_inj_2 in B2 as [B2 _]; [|done].
  apply app_inj_2 in B2 as [_ B2]; [by apply as_bytes_inj | congruence].
Qed.

(** ** The store *)
(** What the compressor promises: no empty frame, and decoding what it encoded. *)
Class BlobLaws : Prop := {
  encode_all_nonempty b level c : encode_all b level = Ok c -> c <> [];
  decode_encode b level c : encode_all b level = Ok c -> decoder_new c = Ok (mkStream b None) }.
Context `{!DigestLaws} `{!BlobLaws}.

Lemma sha256_hex_hex64 b : is_hex64 (sha256_hex b) = true.
Proof.
  destruct (sha256_hex_shape b) as [Hl Hd]. unfold is_hex64, str_len.
  by rewrite <- length_as_bytes, Hl, Hd.
Qed.

(** Every stored object is the compressed form of a body with its digest. *)
Definition store_ok (root : string) (fs : Fs) : Prop :=
  forall sha path c, is_hex64 sha = true -> object_path root sha = Some path -> fs !! path = Some c ->
    exists body, sha256_hex body = sha /\ encode_all body 3 = Ok c.

Lemma store_ok_empty root : store_ok root ∅.
Proof. intros sha path c _ _ Hl. by rewrite lookup_empty in Hl. Qed.
Lemma store_ok_delete root fs p : store_ok root fs -> store_ok root (delete p fs).
Proof.
  intros Hok sha path c Hs Hp Hl. apply lookup_delete_Some in Hl as [_ Hl]. by eapply Hok.
Qed.
Lemma store_spec root input fs fs' r : store root input fs = (fs', r) -> store_ok root fs ->
  store_ok root fs'
  /\ forall b, r = Some (Ok b) ->
    bl_object_sha256 b = sha256_hex (in_body input)
    /\ bl_uncompressed_bytes b = Z.of_nat (length (in_body input))
    /\ bl_chunk_count b = chunk_count (Z.of_nat (length (in_body input)))
    /\ encode_all (in_body input) 3 = Ok (bl_compressed_bytes b)
    /\ exists path c, object_path root (bl_object_sha256 b) = Some path /\ fs' !! path = Some c
       /\ (fs !! path = None -> c = bl_compressed_bytes b).
Proof.
  unfold store. intros E Hok. destruct (str_is_empty _); [injection E as <- <-; by split|].
  destruct (encode_all (in_body input) 3) as [c|e] eqn:Ec; [|injection E as <- <-; by split].
  destruct (object_path root _) as [path|] eqn:Ep; [|injection E as <- <-; by split].
  injection E as <- <-. split.
  - unfold write_new. destruct (fs !! path) as [old|]; [done|].
    intros sha p c' Hs Hp Hl. apply lookup_insert_Some in Hl as [[-> ->]|[_ Hl]].
    + exists (in_body input). split; [|done]. symmetry.
      by apply (object_path_inj root _ _ p Hs (sha256_hex_hex64 _) Hp Ep).
    + by eapply (store_ok_delete root fs (with_extension_tmp path) Hok).
  - intros b E. destruct (add_seconds _ _) as [ex|]; [|done]. injection E as <-. cbn.
    do 3 (split; [done|]). split; [done|]. exists path. rewrite Ep. unfold write_new.
    destruct (fs !! path) as [old|] eqn:El.
    + exists old. by rewrite El.
    + exists c. by rewrite lookup_insert_eq.
Qed.
Lemma remove_spec root sha fs fs' : remove root sha fs = Some fs' -> store_ok root fs ->
  store_ok root fs' /\ forall path, object_path root sha = Some path -> fs' !! path = None.
Proof.
  unfold remove. destruct (object_path root sha) as [path|]; [|done]. intros [= <-] Hok.
  split; [by apply store_ok_delete|]. intros p [= <-]. apply lookup_delete_eq.
Qed.

(** ** Delivery *)
Lemma imap_indexes {A} (f : nat -> A -> ContentUploadChunk) (l : list A) :
  (forall i x, (i < length l)%nat -> cc_chunk_index (f i x) = Z.of_nat i) ->
  map cc_chunk_index (imap f l) = seqZ 0 (Z.of_nat (length l)).
Proof.
  intros Hf. apply list_eq. intros i. rewrite list_lookup_fmap, list_lookup_imap.
  destruct (l !! i) as [x|] eqn:E; cbn.
  - pose proof (lookup_lt_Some _ _ _ E). rewrite Hf by done. symmetry.
    apply lookup_seqZ. lia.
  - apply lookup_ge_None in E. symmetry. apply lookup_seqZ_ge. lia.
Qed.
Lemma map_payload_imap rid sha n l :
  map cc_payload_zstd (imap (chunk_of rid sha n) l) = l.
Proof.
  apply list_eq. intros i. rewrite list_lookup_fmap, list_lookup_imap. by destruct (l !! i).
Qed.

Lemma load_chunks_spec root sha rid fs path c :
  object_path root sha = Some path -> fs !! path = Some c -> is_hex64 sha = true ->
  get_version_num rid = 7 -> c <> [] -> Z.of_nat (length c) <= max_blob ->
  exists cs, load_chunks root sha rid fs = Some (Ok cs)
    /\ numbered rid sha cs /\ Forall chunk_wf cs /\ concat (map cc_payload_zstd cs) = c
    /\ Z.of_nat (length cs) = chunk_count (Z.of_nat (length c)).
Proof.
  intros Hp Hl Hsha Hv Hne Hmax. unfold load_chunks. rewrite Hp. cbn [mbind option_bind mret option_ret].
  rewrite Hl. cbn [ok_or mbind result_bind]. set (n := chunk_count _).
  set (k := Z.to_nat MAX_CONTENT_CHUNK_BYTES). eexists; split; [reflexivity|].
  assert (Hk : Z.of_nat k = MAX_CONTENT_CHUNK_BYTES) by (subst k; unfold MAX_CONTENT_CHUNK_BYTES; lia).
  assert (Hk0 : (0 < k)%nat) by (unfold MAX_CONTENT_CHUNK_BYTES in Hk; lia). clearbody k.
  destruct (slice_chunks_spec k Hk0 c) as (Hc & Hf & Hlen). rewrite Hk in Hlen.
  assert (1 <= Z.of_nat (length c)) by (destruct c; [done | cbn; lia]).
  destruct (chunk_count_small (Z.of_nat (length c))) as [Hn Hb]; [lia|].
  fold n in Hn, Hb. rewrite <- Hn in Hlen. clearbody n.
  assert (Hwrap : forall i, (i < length (slice_chunks k c))%nat -> wrap32 (Z.of_nat i) = Z.of_nat i).
  { intros i Hi. apply wrap_small. unfold u32_max in Hb. lia. }
  assert (Hat : forall i x, imap (chunk_of rid sha n) (slice_chunks k c) !! i = Some x ->
    exists p, x = chunk_of rid sha n i p /\ (i < length (slice_chunks k c))%nat /\ (length p <= k)%nat).
  { intros i x. rewrite list_lookup_imap. destruct (slice_chunks k c !! i) as [p|] eqn:E; [|done].
    cbn. intros [= <-]. exists p. split; [done|]. split; [by eapply lookup_lt_Some|].
    by eapply (Forall_lookup_1 _ _ _ _ Hf). }
  split; [|split; [|split]].
  - split; rewrite ?length_imap.
    + apply imap_indexes. intros i x Hi. by apply Hwrap.
    + apply Forall_lookup. intros i x (p & -> & _)%Hat. cbn. by rewrite Hlen.
  - apply Forall_lookup. intros i x (p & -> & Hi & Hpk)%Hat. constructor; cbn; try done.
    + apply sha256_hex_hex64.
    + lia.
    + rewrite Hwrap by done. lia.
    + rewrite Hwrap, Z.eqb_eq by done. lia.
    + unfold MAX_CONTENT_CHUNK_BYTES in Hk. lia.
    + symmetry. apply hex_lower.
  - by rewrite map_payload_imap.
  - by rewrite length_imap.
Qed.

(** The server's last step accepts what it assembles, if it is what the
    manifest announces, and keeps it under its digest. *)
Lemma store_object_accepts `{CborApi} `{HttpApi} now request m c (dup : bool) (db : Db) assembled body :
  assemble_object (cc_request_id c) (cc_object_sha256 c) (cc_chunk_count c) db = Ok (assembled, db) ->
  decode_all assembled = Ok body ->
  sha256_hex body = to_ascii_lowercase (cc_object_sha256 c) ->
  Z.of_nat (length assembled) = mf_compressed_bytes m ->
  Z.of_nat (length body) = mf_uncompressed_bytes m ->
  exists db', store_object now request m c dup db
    = Ok (mkContentUploadResult (cc_request_id c) ContentUploadStatus_Stored
            (if dup then Some "duplicate_chunk_stored" else None), db')
    /\ exists row, find_key (row_key ContentObjects) (mf_object_sha256 m) (db' ContentObjects) = Some row
       /\ ob_content_zstd row = assembled.
Proof.
  intros Ha Hd Hs Hc Hu. unfold store_object.
  set (rest := _ ← touch_conversation (cr_client_id request) (cr_session_id request) (cr_thread_id request) now;
    count ← linked_object_count (cr_request_id request);
    _ ← (if Z.of_nat (length (cr_parts request)) <=? count
         then complete_request_and_command (cr_request_id request) "stored" "stored" now
         else update ContentRequests (fun r => bool_decide (rq_request_id r = cr_request_id request))
                (fun r => request_set "partial_upload" (rq_outcome r) (rq_completed_at_ms r) r));
    mret (mkContentUploadResult (cc_request_id c) ContentUploadStatus_Stored
            (if dup then Some "duplicate_chunk_stored" else None))).
  assert (Ht : tx_total rest) by (unfold rest, touch_conversation, linked_object_count,
    complete_request_and_command; total_walk).
  assert (Hf : tx_rel (frame [ContentConversations; ContentRequests; Commands]) rest)
    by (unfold rest, touch_conversation, linked_object_count, complete_request_and_command; tx_walk).
  assert (exists db1 : Db, upsert_content_object request m assembled body now db = Ok (m, db1)
    /\ exists row, find_key (row_key ContentObjects) (mf_object_sha256 m) (db1 ContentObjects) = Some row
       /\ ob_content_zstd row = assembled) as (db1 & E1 & row & Hrow & Hz).
  { eexists. split; [reflexivity|]. tab_simpl.
    set (row := mkObjectRow (mf_object_sha256 m) assembled _ _ now now).
    match goal with |- context [upsert _ row ?f ?t] =>
      pose proof (upsert_find (row_key ContentObjects) row f t) as Hup end.
    eexists. split; [by apply Hup|]. by destruct (find_key _ _ (db ContentObjects)). }
  destruct (Ht db1) as (r & db' & E). pose proof (Hf _ _ _ E) as Hframe.
  assert (r = mkContentUploadResult (cc_request_id c) ContentUploadStatus_Stored
                (if dup then Some "duplicate_chunk_stored" else None)) as ->.
  { unfold rest in E. repeat (apply tx_bind_Ok in E as (? & ? & _ & E)). by apply tx_ret_Ok in E as [-> _]. }
  exists db'. split.
  - apply tx_bind_Ok. exists assembled, db. split; [done|].
    apply tx_bind_Ok. exists body, db. split; [apply tx_lift_Ok; by rewrite Hd|].
    apply tx_bind_Ok. exists tt, db. split; [apply require_Ok; by rewrite Hs, String.eqb_refl|].
    apply tx_bind_Ok. exists tt, db. split; [apply require_Ok; by rewrite Hc, Hu, !Z.eqb_refl|].
    apply tx_bind_Ok. by exists m, db1.
  - exists row. split; [|done]. by rewrite Hframe by set_solver.
Qed.

(** [C37] The manifest counts the chunks of the body, the chunks are those of the
    compressed object: when the two counts differ, the server refuses every
    chunk of the object with a conflict, in whatever order and how often they
    are sent. *)
Theorem manifest_counts_body `{CborApi} `{HttpApi} root input fs fs' b rid cs :
  store_ok root fs ->
  (forall path c, fs' !! path = Some c -> Z.of_nat (length c) <= max_blob) ->
  get_version_num rid = 7 -> store root input fs = (fs', Some (Ok b)) ->
  load_chunks root (bl_object_sha256 b) rid fs' = Some (Ok cs) ->
  object_path root (bl_object_sha256 b) ≫= (fs !!.) = None ->
  chunk_count (Z.of_nat (length (in_body input)))
    <> chunk_count (Z.of_nat (length (bl_compressed_bytes b))) ->
  forall now headers command_id c principal request db, c ∈ cs ->
    client_request headers command_id (Ok tt) db = Ok (principal, request, db) ->
    cr_request_id request = rid -> expired request now = false ->
    load_manifest rid (bl_object_sha256 b) db = Ok (Some (manifest b rid), db) ->
    upload_chunk now headers command_id c db = Err CONFLICT.
Proof.
  intros Hok Hmax Hv E Hload Hnew Hne now headers cid x principal request db Hx Hreq Hrid Hexp Hman.
  destruct (store_spec _ _ _ _ _ E Hok) as [Hok' Hb].
  destruct (Hb b eq_refl) as (Hsha & _ & Hcount & Henc & path & c & Hp & Hl & Hfresh).
  assert (Hhex : is_hex64 (bl_object_sha256 b) = true) by (rewrite Hsha; apply sha256_hex_hex64).
  rewrite Hp in Hnew. cbn [mbind option_bind] in Hnew. specialize (Hfresh Hnew). subst c.
  destruct (load_chunks_spec root (bl_object_sha256 b) rid fs' path (bl_compressed_bytes b))
    as (cs' & Hload' & [_ Hnum] & Hwf & _ & Hlen);
    [done..| by eapply encode_all_nonempty | by eapply Hmax |].
  rewrite Hload in Hload'. injection Hload' as <-.
  rewrite Forall_forall in Hnum, Hwf. destruct (Hnum x Hx) as (Hx1 & Hx2 & Hx3).
  unfold upload_chunk. rewrite (proj2 (chunk_validate_spec x)) by (by apply Hwf).
  apply tx_bind_Err. right. exists (principal, request), db. split; [done|].
  apply tx_bind_Err. right. exists tt, db. split.
  { apply require_Ok. by rewrite Hrid, Hx1, bool_decide_eq_true_2. }
  unfold not_expired_or. rewrite Hexp, Hrid, Hx2.
  apply tx_bind_Err. right. exists (Some (manifest b rid)), db. split; [done|].
  apply tx_bind_Err. right. exists (manifest b rid), db. split; [done|].
  apply tx_bind_Err. left. unfold require, tx_lift. cbn [mf_chunk_count manifest].
  rewrite Hcount, Hx3, Hlen, (proj2 (Z.eqb_neq _ _)) by done. done.
Qed.
End blob_lemmas.

(** ** Witnesses *)
Module BlobFixture.
Import TimeFixture CodecFixture HttpFixture ServerFixture.
#[export] Instance blob_laws : BlobLaws.
Proof.
  split.
  - by intros b level c [= <-].
  - by intros b level c [= <-].
Qed.

Definition key : TaskKey := mkTaskKey "client" (mkProviderId "openai") "30" "t" "u".
Definition input (body : bytes) : StoredContentInput :=
  mkStoredContentInput key ContentPart_Request "text/plain" body
    {["Authorization" := "Bearer x"; "accept" := "*/*"]} (100 * 10 ^ 9).

End BlobFixture.

(** A digest of the length, and a compressor of zeros: a frame of type 1 is a
    run of zeros of the given length. *)
Module ZerosFixture.
Import TimeFixture CodecFixture HttpFixture ServerFixture BlobFixture.
#[local] Instance length_digest : DigestApi := {|
  sha256_digest b := be_bytes 32 (Z.of_nat (length b));
  hex_encode := @hex_encode digest_fixture |}.
Definition zeros (p : bytes) : Prop :=
  p = replicate (length p) x00 /\ Z.of_nat (length p) < 256 ^ 8.
#[local] Instance zeros_dec p : Decision (zeros p).
Proof. unfold zeros. apply _. Defined.
#[local] Instance run_length : ZstdApi := {|
  io_error := unit;
  encode_all p _ := Ok (if decide (zeros p) then x01 :: be_bytes 8 (Z.of_nat (length p)) else x02 :: p);
  decoder_new b := match b with
                   | x02 :: p => Ok (mkStream p None)
                   | x01 :: n => Ok (mkStream (replicate (Z.to_nat (be_val n)) x00) None)
                   | _ => Err tt
                   end |}.
#[local] Instance length_digest_laws : DigestLaws.
Proof. split; [intros b; apply length_be_bytes | apply fixture_hex.. | apply fixture_lower]. Qed.
#[local] Instance zeros_laws : BlobLaws.
Proof.
  split.
  - intros b level c [= <-]. by destruct (decide (zeros b)).
  - intros b level c [= <-]. destruct (decide (zeros b)) as [[Hb Hl]|]; [|done].
    cbn [decoder_new run_length]. rewrite be_val_be_bytes by lia. by rewrite Nat2Z.id, <- Hb.
Qed.

(** One byte more than a chunk, all zeros. *)
Definition body : bytes := replicate (Z.to_nat 1048577) x00.
Definition sha : string :=
  "0000000000000000000000000000000000000000000000000000000000100001".
Definition frame1 : bytes := [x01; x00; x00; x00; x00; x00; x10; x00; x01].
Definition blob : StoredBlob :=
  mkStoredBlob key ContentPart_Request sha "text/plain" 1048577 frame1 2 (100 * 10 ^ 9) (259300 * 10 ^ 9)
    (mkSanitizedHeaders {["accept" := "*/*"]}).
Definition path : string := "/blobs/00/" +:+ sha +:+ ".zst".
Lemma body_length : Z.of_nat (length body) = 1048577.
Proof. unfold body. rewrite length_replicate. lia. Qed.
Lemma body_sha : sha256_hex body = sha.
Proof. unfold sha256_hex, sha256_bytes. cbn [sha256_digest length_digest]. rewrite body_length. by vm_compute. Qed.
Lemma body_frame : encode_all body 3 = Ok frame1.
Proof.
  cbn [encode_all run_length]. rewrite decide_True.
  - rewrite body_length. by vm_compute.
  - split; [unfold body; by rewrite length_replicate | by rewrite body_length].
Qed.
Lemma body_stored : store "/blobs" (input body) ∅ = ({[path := frame1]}, Some (Ok blob)).
Proof.
  unfold store. cbn [in_body in_media_type in_task in_part in_created_at in_headers input].
  change (str_is_empty (trim "text/plain")) with false. cbv iota.
  rewrite body_frame, body_sha, body_length.
  change (object_path "/blobs" sha) with (Some path). reflexivity.
Qed.

Lemma frame1_chunks :
  ok_or (BlobError_Read sha) (Some frame1) ≫= (fun bytes =>
    Ok (imap (chunk_of (uuid7 1) sha (chunk_count (Z.of_nat (length bytes))))
          (slice_chunks (Z.to_nat MAX_CONTENT_CHUNK_BYTES) bytes)))
  = Ok [mkContentUploadChunk (uuid7 1) 0 1 sha (sha256_hex frame1) frame1 true].
Proof.
  cbn [ok_or mbind result_bind].
  assert (slice_chunks (Z.to_nat MAX_CONTENT_CHUNK_BYTES) frame1 = [frame1]) as -> by by vm_compute.
  reflexivity.
Qed.

(** A request for the content of the task, and the announced manifest. *)
Definition ready : Db :=
  exec (_ ← issue_token "client" "secret" None false 1 2;
        _ ← insert Tasks (mkTaskRow "30:t:u" "client" "openai" "30" "t" "u" wire.TaskPhase_Running None 0
                            sample_snapshot);
        _ ← create_content_request_inner 1000 (uuid7 1) (uuid7 2) (cli_admin "cli") "30:t:u"
              [ContentPart_Request] None;
        upload_manifests 2000 (bearer_of "secret") (uuid7 2) [manifest blob (uuid7 1)]) db_empty.
Definition chunk : ContentUploadChunk :=
  mkContentUploadChunk (uuid7 1) 0 1 sha (sha256_hex frame1) frame1 true.

Lemma manifest_counts_body_witness :
  upload_chunk 3000 (bearer_of "secret") (uuid7 2) chunk ready = Err CONFLICT.
Proof.
  assert (Hr : exists principal request,
    client_request (bearer_of "secret") (uuid7 2) (Ok tt) ready = Ok (principal, request, ready)
    /\ cr_request_id request = uuid7 1 /\ expired request 3000 = false).
  { eexists _, _. split; [vm_compute; reflexivity|]. by vm_compute. }
  destruct Hr as (principal & request & Hr & Hid & Hexp).
  apply (manifest_counts_body "/blobs" (input body) ∅ {[path := frame1]} blob (uuid7 1) [chunk]
           (store_ok_empty _)) with (principal := principal) (request := request).
  - intros p c Hl. apply lookup_singleton_Some in Hl as [_ <-]. by vm_compute.
  - reflexivity.
  - exact body_stored.
  - unfold load_chunks. cbn [bl_object_sha256 blob].
    change (object_path "/blobs" sha) with (Some path). cbn [mbind option_bind mret option_ret].
    rewrite lookup_singleton_eq, frame1_chunks. reflexivity.
  - cbn [bl_object_sha256 blob]. change (object_path "/blobs" sha) with (Some path). reflexivity.
  - cbn [in_body input]. rewrite body_length. by vm_compute.
  - apply elem_of_cons. by left.
  - exact Hr.
  - exact Hid.
  - exact Hexp.
  - vm_compute. reflexivity.
Defined.
End ZerosFixture.
