(* ===== verification/Store.v ===== *)
(** * The client's store

    [ClientStore] of [src/crates/client/src/store.rs]: the tables [migrate]
    creates, the transaction that persists a capture ([persist_ingress]) and
    queues its batches in the outbox, the outbox and command queues with their
    retries, and the retention of objects.  A column that stores JSON holds the
    value.  Each method is one step on the database and the blob directory;
    readings of the clock and fresh identifiers are arguments. *)
From Stdlib Require Import ZArith Lia Strings.Byte Strings.String.
From S2P Require Import Prelude RustStr Digest Types Fixtures Validation Codec Table Sql Model Mapping Blob.
Local Open Scope string_scope.
Local Open Scope list_scope.
Local Open Scope Z_scope.

(* src: src/crates/client/src/store.rs:33-33 OUTBOX_HARD_CAP_BYTES *)
Definition OUTBOX_HARD_CAP_BYTES : Z := 1024 * 1024 * 1024.
(* src: src/crates/client/src/store.rs:34-34 OUTBOX_PRIORITY_RESERVE_BYTES *)
Definition OUTBOX_PRIORITY_RESERVE_BYTES : Z := 64 * 1024 * 1024.
(* src: src/crates/client/src/store.rs:35-35 ACK_RETENTION_DAYS *)
Definition ACK_RETENTION_DAYS : Z := 400.

(* src: src/crates/client/src/store.rs:86-91 CommandStatus *)
Inductive CommandStatus : Type :=
| CommandStatus_Pending | CommandStatus_Running | CommandStatus_Failed | CommandStatus_Completed.
#[export] Instance CommandStatus_eq_dec : EqDecision CommandStatus.
Proof. solve_decision. Defined.

(** ** Tables *)
(* src: src/crates/client/src/store.rs:628-638 migrate: processes *)
Record ProcessRow : Type := mkProcessRow {
  po_process_instance_id : Uuid;
  po_client_instance_id : Uuid;
  po_pid : Z;
  po_executable_sha256 : string;
  po_codex_version : option string;
  po_started_at : Z;
  po_exited_at : option Z;
  po_exit_code : option Z;
  po_signal : option Z }.
(* src: src/crates/client/src/store.rs:639-648 migrate: flows *)
Record FlowRow : Type := mkFlowRow {
  fl_flow_id : Uuid;
  fl_client_instance_id : Uuid;
  fl_process_instance_id : option Uuid;
  fl_local_addr : string;
  fl_remote_addr : string;
  fl_transport : string;
  fl_created_at : Z;
  fl_closed_at : option Z }.
(* src: src/crates/client/src/store.rs:649-674 migrate: active_tasks *)
Record ActiveTaskRow : Type := mkActiveTaskRow {
  at_task_ref : string;
  at_client_id : string;
  at_provider : string;
  at_session_id : string;
  at_thread_id : string;
  at_turn_id : string;
  at_conversation_title : option string;
  at_phase : TaskPhase;
  at_outcome : option TaskOutcome;
  at_sequence : Z;
  at_last_event_id : Uuid;
  at_started_at : Z;
  at_updated_at : Z;
  at_terminal_at : option Z;
  at_attempt_count : Z;
  at_model : option string;
  at_tool_names : list string;
  at_response_ids : list string;
  at_usage : TokenUsage;
  at_completeness : Completeness;
  at_last_error : option StructuredError;
  at_parent_turn_id : option string;
  at_root_turn_id : option string;
  at_first_seen_at : option Z }.
(* src: src/crates/client/src/store.rs:675-688 migrate: attempts *)
Record AttemptRow : Type := mkAttemptRow {
  ap_attempt_id : Uuid;
  ap_task_ref : string;
  ap_ordinal : Z;
  ap_status : AttemptStatus;
  ap_started_at : Z;
  ap_finished_at : option Z;
  ap_response_id : option string;
  ap_model : option string;
  ap_tool_names : list string;
  ap_usage : TokenUsage;
  ap_completeness : Completeness;
  ap_error : option StructuredError }.
(* src: src/crates/client/src/store.rs:689-697 migrate: capture_gaps *)
Record GapRow : Type := mkGapRow {
  gp_gap_id : Uuid;
  gp_client_instance_id : Uuid;
  gp_task_ref : option string;
  gp_observed_at : Z;
  gp_reason : string;
  gp_lost_bytes : option Z;
  gp_flow_id : option Uuid }.
(* src: src/crates/client/src/store.rs:698-710 migrate: raw_objects *)
Record RawObjectRow : Type := mkRawObjectRow {
  ro_object_sha256 : string;
  ro_task_ref : string;
  ro_part : string;
  ro_media_type : string;
  ro_uncompressed_bytes : Z;
  ro_compressed_bytes : Z;
  ro_chunk_count : Z;
  ro_created_at : Z;
  ro_expires_at : Z;
  ro_pinned_by_command_id : option Uuid;
  ro_sanitized_headers : SanitizedHeaders }.
(* src: src/crates/client/src/store.rs:711-721 migrate: outbox *)
Record OutboxRow : Type := mkOutboxRow {
  ox_batch_id : Uuid;
  ox_payload_sha256 : string;
  ox_body : bytes;
  ox_record_count : Z;
  ox_created_at : Z;
  ox_next_attempt_at : Z;
  ox_attempt_count : Z;
  ox_last_error : option string;
  ox_is_priority : bool }.
(* src: src/crates/client/src/store.rs:722-727 migrate: acked_batches *)
Record AckedRow : Type := mkAckedRow {
  ab_batch_id : Uuid;
  ab_payload_sha256 : string;
  ab_acked_at : Z }.
(* src: src/crates/client/src/store.rs:728-738 migrate: commands *)
Record QueuedCommandRow : Type := mkQueuedCommandRow {
  qc_command_id : Uuid;
  qc_expires_at : Z;
  qc_status : CommandStatus;
  qc_payload : ClientCommand;
  qc_result : option ContentUploadResult;
  qc_error : option string;
  qc_attempt_count : Z;
  qc_next_attempt_at : Z;
  qc_completed_at : option Z }.

Inductive Tab : Type :=
| processes | flows | active_tasks | attempts | capture_gaps | raw_objects | outbox
| acked_batches | commands.
#[export] Instance Tab_eq_dec : EqDecision Tab.
Proof. solve_decision. Defined.
(* src: src/crates/client/src/store.rs:626-754 ClientStore::migrate *)
Definition Row (t : Tab) : Type :=
  match t with
  | processes => ProcessRow
  | flows => FlowRow
  | active_tasks => ActiveTaskRow
  | attempts => AttemptRow
  | capture_gaps => GapRow
  | raw_objects => RawObjectRow
  | outbox => OutboxRow
  | acked_batches => AckedRow
  | commands => QueuedCommandRow
  end.
Definition Key (t : Tab) : Type :=
  match t with
  | active_tasks | raw_objects => string
  | acked_batches => Uuid * string
  | _ => Uuid
  end.
#[export] Instance Key_eq_dec t : EqDecision (Key t).
Proof. destruct t; cbn; apply _. Defined.
(** The [PRIMARY KEY] columns. *)
(* src: src/crates/client/src/store.rs:626-754 ClientStore::migrate *)
Definition row_key (t : Tab) : Row t -> Key t :=
  match t with
  | processes => po_process_instance_id
  | flows => fl_flow_id
  | active_tasks => at_task_ref
  | attempts => ap_attempt_id
  | capture_gaps => gp_gap_id
  | raw_objects => ro_object_sha256
  | outbox => ox_batch_id
  | acked_batches => fun r => (ab_batch_id r, ab_payload_sha256 r)
  | commands => qc_command_id
  end.

Section store.
Context `{UuidApi} `{DigestApi} `{CborApi} `{ZstdApi} `{TimeApi}.

(** The errors of this file, and what [?] passes on.  [StoreError_Panic] is the
    panic of a time out of range; the other errors of a database (a full disk, a
    corrupt file) are outside the model. *)
Inductive StoreError : Type :=
| StoreError_Sql
| StoreError_RowNotFound
| StoreError_HardCap
| StoreError_RoutineBudget
| StoreError_Encode (e : CodecError)
| StoreError_Blob (e : BlobError)
| StoreError_Panic.

#[export] Instance store_schema : Schema StoreError Row Key row_key := {|
  tab_eq_dec := Tab_eq_dec; tab_key_eq_dec := Key_eq_dec; sql_conflict := StoreError_Sql |}.
Abbreviation StoreTx := (Transaction Row StoreError).

(** ** Applying records *)
(** [sequence > s || sequence == s && last_event_id == id]: already applied. *)
Definition stale (row : ActiveTaskRow) (sequence : Z) (event_id : Uuid) : bool :=
  (sequence <? at_sequence row)
  || ((at_sequence row =? sequence) && bool_decide (at_last_event_id row = event_id)).

(** The row of [INSERT], and what [ON CONFLICT DO UPDATE] makes of the old one. *)
(* src: src/crates/client/src/store.rs:1104-1131 upsert_task_summary_tx: row *)
Definition summary_row (s : TaskSummary) : ActiveTaskRow :=
  let k := tsm_task s in
  {| at_task_ref := task_ref k;
     at_client_id := key_client_id k;
     at_provider := pvi_0 (key_provider k);
     at_session_id := key_session_id k;
     at_thread_id := key_thread_id k;
     at_turn_id := key_turn_id k;
     at_conversation_title := tsm_conversation_title s;
     at_phase := tsm_phase s;
     at_outcome := tsm_outcome s;
     at_sequence := tsm_sequence s;
     at_last_event_id := tsm_last_event_id s;
     at_started_at := ts (tsm_started_at s);
     at_updated_at := ts (tsm_updated_at s);
     at_terminal_at := ts <$> tsm_terminal_at s;
     at_attempt_count := tsm_attempt_count s;
     at_model := tsm_model s;
     at_tool_names := tsm_tool_names s;
     at_response_ids := tsm_response_ids s;
     at_usage := tsm_usage s;
     at_completeness := tsm_completeness s;
     at_last_error := tsm_last_error s;
     at_parent_turn_id := None;
     at_root_turn_id := None;
     at_first_seen_at := Some (ts (tsm_started_at s)) |}.
(* src: src/crates/client/src/store.rs:1104-1131 upsert_task_summary_tx: row *)
Definition merge_summary (s : TaskSummary) (old : ActiveTaskRow) : ActiveTaskRow :=
  {| at_task_ref := at_task_ref old;
     at_client_id := at_client_id old;
     at_provider := at_provider old;
     at_session_id := at_session_id old;
     at_thread_id := at_thread_id old;
     at_turn_id := at_turn_id old;
     at_conversation_title := opt_or (tsm_conversation_title s) (at_conversation_title old);
     at_phase := tsm_phase s;
     at_outcome := tsm_outcome s;
     at_sequence := tsm_sequence s;
     at_last_event_id := tsm_last_event_id s;
     at_started_at := ts (tsm_started_at s);
     at_updated_at := ts (tsm_updated_at s);
     at_terminal_at := ts <$> tsm_terminal_at s;
     at_attempt_count := tsm_attempt_count s;
     at_model := tsm_model s;
     at_tool_names := tsm_tool_names s;
     at_response_ids := tsm_response_ids s;
     at_usage := tsm_usage s;
     at_completeness := tsm_completeness s;
     at_last_error := tsm_last_error s;
     at_parent_turn_id := at_parent_turn_id old;
     at_root_turn_id := at_root_turn_id old;
     at_first_seen_at := at_first_seen_at old |}.
(* src: src/crates/client/src/store.rs:1083-1134 ClientStore::upsert_task_summary_tx *)
Definition upsert_task_summary_tx (s : TaskSummary) : StoreTx bool :=
  let tref := task_ref (tsm_task s) in
  existing ← fetch_optional active_tasks (fun r => String.eqb (at_task_ref r) tref);
  if is_some_and (fun row => stale row (tsm_sequence s) (tsm_last_event_id s)) existing then mret false
  else
    _ ← insert_or_update active_tasks (summary_row s) (merge_summary s);
    mret true.

(** [TokenUsage] of the text "{}". *)
Definition no_usage : TokenUsage := mkTokenUsage None None None None None.
(** A row made from a transition keeps what the old one, if any, counted. *)
Definition transition_terminal_at (t : TaskTransition) : option Z :=
  if bool_decide (trn_phase t = TaskPhase_Terminal) then Some (ts (trn_observed_at t)) else None.
(* src: src/crates/client/src/store.rs:1147-1197 upsert_transition_tx: row *)
Definition transition_row (t : TaskTransition) (existing : option ActiveTaskRow) : ActiveTaskRow :=
  let '(started_at, attempt_count, tool_names, response_ids, usage) :=
    match existing with
    | Some row => (at_started_at row, at_attempt_count row, at_tool_names row, at_response_ids row,
                   at_usage row)
    | None => (ts (trn_observed_at t), 0, [], [], no_usage)
    end in
  let k := trn_task t in
  {| at_task_ref := task_ref k;
     at_client_id := key_client_id k;
     at_provider := pvi_0 (key_provider k);
     at_session_id := key_session_id k;
     at_thread_id := key_thread_id k;
     at_turn_id := key_turn_id k;
     at_conversation_title := None;
     at_phase := trn_phase t;
     at_outcome := trn_outcome t;
     at_sequence := trn_sequence t;
     at_last_event_id := trn_event_id t;
     at_started_at := started_at;
     at_updated_at := ts (trn_observed_at t);
     at_terminal_at := transition_terminal_at t;
     at_attempt_count := attempt_count;
     at_model := None;
     at_tool_names := tool_names;
     at_response_ids := response_ids;
     at_usage := usage;
     at_completeness := trn_completeness t;
     at_last_error := trn_error t;
     at_parent_turn_id := None;
     at_root_turn_id := None;
     at_first_seen_at := Some started_at |}.
(* src: src/crates/client/src/store.rs:1147-1197 upsert_transition_tx: row *)
Definition merge_transition (t : TaskTransition) (old : ActiveTaskRow) : ActiveTaskRow :=
  {| at_task_ref := at_task_ref old;
     at_client_id := at_client_id old;
     at_provider := at_provider old;
     at_session_id := at_session_id old;
     at_thread_id := at_thread_id old;
     at_turn_id := at_turn_id old;
     at_conversation_title := at_conversation_title old;
     at_phase := trn_phase t;
     at_outcome := trn_outcome t;
     at_sequence := trn_sequence t;
     at_last_event_id := trn_event_id t;
     at_started_at := at_started_at old;
     at_updated_at := ts (trn_observed_at t);
     at_terminal_at := transition_terminal_at t;
     at_attempt_count := at_attempt_count old;
     at_model := at_model old;
     at_tool_names := at_tool_names old;
     at_response_ids := at_response_ids old;
     at_usage := at_usage old;
     at_completeness := trn_completeness t;
     at_last_error := trn_error t;
     at_parent_turn_id := at_parent_turn_id old;
     at_root_turn_id := at_root_turn_id old;
     at_first_seen_at := at_first_seen_at old |}.
(* src: src/crates/client/src/store.rs:1136-1200 ClientStore::upsert_transition_tx *)
Definition upsert_transition_tx (t : TaskTransition) : StoreTx bool :=
  let tref := task_ref (trn_task t) in
  existing ← fetch_optional active_tasks (fun r => String.eqb (at_task_ref r) tref);
  if is_some_and (fun row => stale row (trn_sequence t) (trn_event_id t)) existing then mret false
  else
    _ ← insert_or_update active_tasks (transition_row t existing) (merge_transition t);
    mret true.

(** [UPDATE active_tasks SET attempt_count = ?, ...] of a new attempt. *)
Definition count_attempt (a : AttemptSummary) (row : ActiveTaskRow) : ActiveTaskRow :=
  {| at_task_ref := at_task_ref row;
     at_client_id := at_client_id row;
     at_provider := at_provider row;
     at_session_id := at_session_id row;
     at_thread_id := at_thread_id row;
     at_turn_id := at_turn_id row;
     at_conversation_title := at_conversation_title row;
     at_phase := at_phase row;
     at_outcome := at_outcome row;
     at_sequence := at_sequence row;
     at_last_event_id := at_last_event_id row;
     at_started_at := at_started_at row;
     at_updated_at := at_updated_at row;
     at_terminal_at := at_terminal_at row;
     at_attempt_count := Z.max (at_attempt_count row) (ats_ordinal a);
     at_model := opt_or (ats_model a) (at_model row);
     at_tool_names := merge_unique (at_tool_names row) (ats_tool_names a);
     at_response_ids := merge_unique (at_response_ids row) (option_list (ats_response_id a));
     at_usage := ats_usage a;
     at_completeness := ats_completeness a;
     at_last_error := opt_or (ats_error a) (at_last_error row);
     at_parent_turn_id := at_parent_turn_id row;
     at_root_turn_id := at_root_turn_id row;
     at_first_seen_at := at_first_seen_at row |}.
(* src: src/crates/client/src/store.rs:1202-1262 ClientStore::upsert_attempt_tx *)
Definition upsert_attempt_tx (a : AttemptSummary) : StoreTx bool :=
  let tref := task_ref (ats_task a) in
  exists_ ← fetch_optional attempts (fun r => bool_decide (ap_attempt_id r = ats_attempt_id a));
  _ ← insert_or_update attempts
        (mkAttemptRow (ats_attempt_id a) tref (ats_ordinal a) (ats_status a) (ts (ats_started_at a))
           (ts <$> ats_finished_at a) (ats_response_id a) (ats_model a) (ats_tool_names a) (ats_usage a)
           (ats_completeness a) (ats_error a))
        (fun old => mkAttemptRow (ap_attempt_id old) (ap_task_ref old) (ap_ordinal old) (ats_status a)
           (ap_started_at old) (ts <$> ats_finished_at a) (ats_response_id a) (ats_model a)
           (ats_tool_names a) (ats_usage a) (ats_completeness a) (ats_error a));
  if is_none exists_ then
    row ← fetch_optional active_tasks (fun r => String.eqb (at_task_ref r) tref);
    match row with
    | Some row =>
      _ ← update active_tasks (fun r => String.eqb (at_task_ref r) tref) (count_attempt a);
      mret true
    | None => mret true
    end
  else mret true.
(* src: src/crates/client/src/store.rs:1264-1290 ClientStore::upsert_gap_tx *)
Definition upsert_gap_tx (g : CaptureGapSummary) : StoreTx bool :=
  exists_ ← fetch_optional capture_gaps (fun r => bool_decide (gp_gap_id r = cgs_gap_id g));
  match exists_ with
  | Some _ => mret false
  | None =>
    _ ← insert capture_gaps
          (mkGapRow (cgs_gap_id g) (cgs_client_instance_id g) (task_ref <$> cgs_task g)
             (ts (cgs_observed_at g)) (cgs_reason g) (cgs_lost_bytes g) (cgs_flow_id g));
    mret true
  end.
(* src: src/crates/client/src/store.rs:1292-1320 ClientStore::upsert_process_tx *)
Definition upsert_process_tx (p : ProcessSummary) : StoreTx bool :=
  exists_ ← fetch_optional processes
    (fun r => bool_decide (po_process_instance_id r = prs_process_instance_id p));
  _ ← insert_or_update processes
        (mkProcessRow (prs_process_instance_id p) (prs_client_instance_id p) (prs_pid p)
           (prs_executable_sha256 p) (prs_codex_version p) (ts (prs_started_at p))
           (ts <$> prs_exited_at p) (prs_exit_code p) (prs_signal p))
        (fun old => mkProcessRow (po_process_instance_id old) (po_client_instance_id old) (po_pid old)
           (po_executable_sha256 old) (po_codex_version old) (po_started_at old)
           (ts <$> prs_exited_at p) (prs_exit_code p) (prs_signal p));
  mret (is_none exists_).

(** [UPDATE active_tasks SET parent_turn_id = COALESCE(?, parent_turn_id), ...]. *)
Definition merge_session (s : SessionSummary) (row : ActiveTaskRow) : ActiveTaskRow :=
  {| at_task_ref := at_task_ref row;
     at_client_id := at_client_id row;
     at_provider := at_provider row;
     at_session_id := at_session_id row;
     at_thread_id := at_thread_id row;
     at_turn_id := at_turn_id row;
     at_conversation_title := at_conversation_title row;
     at_phase := at_phase row;
     at_outcome := at_outcome row;
     at_sequence := at_sequence row;
     at_last_event_id := at_last_event_id row;
     at_started_at := at_started_at row;
     at_updated_at := at_updated_at row;
     at_terminal_at := at_terminal_at row;
     at_attempt_count := at_attempt_count row;
     at_model := at_model row;
     at_tool_names := at_tool_names row;
     at_response_ids := at_response_ids row;
     at_usage := at_usage row;
     at_completeness := at_completeness row;
     at_last_error := at_last_error row;
     at_parent_turn_id := opt_or (sns_parent_turn_id s) (at_parent_turn_id row);
     at_root_turn_id := opt_or (sns_root_turn_id s) (at_root_turn_id row);
     at_first_seen_at := opt_or (at_first_seen_at row) (Some (ts (sns_first_seen_at s))) |}.
(** [rows_affected] counts the rows the condition selects. *)
(* src: src/crates/client/src/store.rs:1322-1337 ClientStore::merge_session_tx *)
Definition merge_session_tx (s : SessionSummary) : StoreTx bool :=
  let p := fun r => String.eqb (at_task_ref r) (task_ref (sns_task s)) in
  affected ← fetch_all active_tasks p;
  _ ← update active_tasks p (merge_session s);
  mret (negb (bool_decide (affected = []))).

(* src: src/crates/client/src/store.rs:756-774 ClientStore::apply_record_tx *)
Definition apply_record_tx (record : SummaryRecord) : StoreTx bool :=
  match record with
  | SummaryRecord_Task summary => upsert_task_summary_tx summary
  | SummaryRecord_TaskTransition transition =>
    _ ← upsert_transition_tx transition;
    mret true
  | SummaryRecord_Attempt attempt => upsert_attempt_tx attempt
  | SummaryRecord_CaptureGap gap => upsert_gap_tx gap
  | SummaryRecord_Process process => upsert_process_tx process
  | SummaryRecord_Session session => merge_session_tx session
  | SummaryRecord_Heartbeat _ => mret true
  | SummaryRecord_HttpExchange _ => mret true
  end.

(** ** Wire batches *)
(** What the clock and the identifier generator answer while batch [b] is
    built and queued; [sp_record_id b i] is for the [i]-th record of the
    batch, [sp_snapshot_id b i] for the [i]-th task. *)
Record Supply : Type := mkSupply {
  sp_batch_id : nat -> Uuid;
  sp_record_id : nat -> nat -> Uuid;
  sp_snapshot_id : nat -> nat -> Uuid;
  sp_generated_at : nat -> Z;
  sp_created_at : nat -> Z;
  sp_next_attempt_at : nat -> Z }.

(* src: src/crates/client/src/store.rs:122-127 TaskAccumulator *)
Record TaskAccumulator : Type := mkTaskAccumulator {
  ta_attempts : list AttemptRecord;
  ta_events : list TaskEvent;
  ta_errors : list ErrorRecord;
  ta_gaps : list CaptureGapRecord }.
Definition TaskAccumulator_default : TaskAccumulator := mkTaskAccumulator [] [] [] [].
Definition push_attempt (r : AttemptRecord) (a : TaskAccumulator) : TaskAccumulator :=
  mkTaskAccumulator (ta_attempts a ++ [r]) (ta_events a) (ta_errors a) (ta_gaps a).
Definition push_event (e : TaskEvent) (a : TaskAccumulator) : TaskAccumulator :=
  mkTaskAccumulator (ta_attempts a) (ta_events a ++ [e]) (ta_errors a) (ta_gaps a).
Definition push_error (e : option ErrorRecord) (a : TaskAccumulator) : TaskAccumulator :=
  mkTaskAccumulator (ta_attempts a) (ta_events a) (ta_errors a ++ option_list e) (ta_gaps a).
Definition push_gap (g : CaptureGapRecord) (a : TaskAccumulator) : TaskAccumulator :=
  mkTaskAccumulator (ta_attempts a) (ta_events a) (ta_errors a) (ta_gaps a ++ [g]).

(** [SELECT object_sha256 ... WHERE task_ref = ? AND part = ? ORDER BY created_at
    DESC LIMIT 1]. *)
Definition newest_object (tref : string) (part : ContentPart) : StoreTx (option RawObjectRow) :=
  rows ← fetch_all raw_objects
    (fun r => String.eqb (ro_task_ref r) tref && String.eqb (ro_part r) (content_part_name part));
  mret (head (order_by (fun a b => ro_created_at b <=? ro_created_at a) rows)).

(* src: src/crates/client/src/store.rs:984-1029 ClientStore::build_attempt_record_tx *)
Definition build_attempt_record_tx (error_id : Uuid) (a : AttemptSummary) : StoreTx AttemptRecord :=
  let tref := task_ref (ats_task a) in
  request ← newest_object tref ContentPart_Request;
  response ← newest_object tref ContentPart_Response;
  mret {| ar_attempt_id := ats_attempt_id a;
          ar_task_ref := tref;
          ar_ordinal := ats_ordinal a;
          ar_response_id := ats_response_id a;
          ar_transport := "responses";
          ar_status := map_attempt_status (ats_status a);
          ar_http_status := extract_http_status (ats_error a);
          ar_model := ats_model a;
          ar_tool_names := ats_tool_names a;
          ar_usage := map_usage (ats_usage a);
          ar_error := (fun error => map_error_record error_id tref (Some (ats_attempt_id a))
                         (ts (unwrap_or (ats_started_at a) (ats_finished_at a))) error None)
                      <$> ats_error a;
          ar_request_object_sha256 := ro_object_sha256 <$> request;
          ar_response_object_sha256 := ro_object_sha256 <$> response;
          ar_started_at_ms := ts (ats_started_at a);
          ar_ended_at_ms := ts <$> ats_finished_at a;
          ar_awaiting_tool := false |}.

(* src: src/crates/client/src/store.rs:1031-1053 ClientStore::build_heartbeat *)
Definition build_heartbeat (client : ClientInstance) (heartbeat_id : Uuid) (h : HeartbeatSummary)
    : Heartbeat :=
  let c := hbs_health h in
  {| hb_heartbeat_id := heartbeat_id;
     hb_client_id := ci_client_id client;
     hb_instance_id := hbs_client_instance_id h;
     hb_observed_at_ms := ts (hbs_observed_at h);
     hb_queue_depth := 0;
     hb_active_task_count := 0;
     hb_capture_health :=
       if negb (cph_profile_supported c) then IntegrityState_UnsupportedBuild
       else if (0 <? cph_ring_buffer_drops c)
               || (match cph_last_error c with
                   | Some (StructuredError_CaptureLost _) => true
                   | _ => false
                   end)
       then IntegrityState_Degraded
       else IntegrityState_Complete;
     hb_note := Some (hbs_client_version h) |}.

(* src: src/crates/client/src/store.rs:945-978 load_snapshot_tx: TaskSnapshot *)
Definition snapshot_of (error_id : Uuid) (tref : string) (row : ActiveTaskRow) : TaskSnapshot :=
  {| ts_task_ref := tref;
     ts_identity := mkTaskIdentity (at_provider row) (at_session_id row) (at_thread_id row)
                      (at_turn_id row);
     ts_codex := mkCodexTaskMetadata "turn" (at_parent_turn_id row) (at_root_turn_id row);
     ts_conversation_title := at_conversation_title row;
     ts_sequence := at_sequence row;
     ts_phase := map_phase (at_phase row);
     ts_terminal := map_outcome <$> at_outcome row;
     ts_integrity := map_integrity (at_completeness row);
     ts_model := at_model row;
     ts_attempt_count := at_attempt_count row;
     ts_tool_names := at_tool_names row;
     ts_response_ids := at_response_ids row;
     ts_usage := map_usage (at_usage row);
     ts_started_at_ms := at_started_at row;
     ts_updated_at_ms := at_updated_at row;
     ts_completed_at_ms := at_terminal_at row;
     ts_last_error := (fun error => map_error_record error_id tref None (at_updated_at row) error None)
                      <$> at_last_error row |}.
(* src: src/crates/client/src/store.rs:923-982 ClientStore::load_snapshot_tx *)
Definition load_snapshot_tx (error_id : Uuid) (tref : string) : StoreTx (option TaskSnapshot) :=
  row ← fetch_optional active_tasks (fun r => String.eqb (at_task_ref r) tref);
  mret (snapshot_of error_id tref <$> row).

(** The state of the loop over a batch's records: [task_refs] as inserted,
    [tasks], [heartbeats]. *)
Record Gathered : Type := mkGathered {
  ga_task_refs : list string;
  ga_tasks : gmap string TaskAccumulator;
  ga_heartbeats : list Heartbeat }.
Definition note_task (tref : string) (f : TaskAccumulator -> TaskAccumulator) (g : Gathered) : Gathered :=
  mkGathered (ga_task_refs g ++ [tref])
    (<[tref := f (unwrap_or TaskAccumulator_default (ga_tasks g !! tref))]> (ga_tasks g))
    (ga_heartbeats g).
(* src: src/crates/client/src/store.rs:847-897 build_wire_batch_tx: loop *)
Fixpoint gather (client : ClientInstance) (ids : nat -> Uuid) (i : nat) (records : list SummaryRecord)
    (g : Gathered) : StoreTx Gathered :=
  match records with
  | [] => mret g
  | record :: records' =>
    g' ← match record with
         | SummaryRecord_Session s =>
           mret (mkGathered (ga_task_refs g ++ [task_ref (sns_task s)]) (ga_tasks g) (ga_heartbeats g))
         | SummaryRecord_Task s =>
           mret (mkGathered (ga_task_refs g ++ [task_ref (tsm_task s)]) (ga_tasks g) (ga_heartbeats g))
         | SummaryRecord_TaskTransition t =>
           let event := map_transition_event (ids i) t in
           mret (note_task (task_ref (trn_task t))
                   (fun acc => push_event event (push_error (te_error event) acc)) g)
         | SummaryRecord_Attempt a =>
           r ← build_attempt_record_tx (ids i) a;
           mret (note_task (task_ref (ats_task a))
                   (fun acc => push_attempt r (push_error (ar_error r) acc)) g)
         | SummaryRecord_CaptureGap gap =>
           mret (match cgs_task gap with
                 | Some k => note_task (task_ref k) (push_gap (map_gap_record gap)) g
                 | None => g
                 end)
         | SummaryRecord_Heartbeat h =>
           mret (mkGathered (ga_task_refs g) (ga_tasks g)
                   (ga_heartbeats g ++ [build_heartbeat client (ids i) h]))
         | SummaryRecord_HttpExchange _ | SummaryRecord_Process _ => mret g
         end;
    gather client ids (S i) records' g'
  end.
(* src: src/crates/client/src/store.rs:899-911 build_wire_batch_tx: uploads *)
Fixpoint build_uploads (ids : nat -> Uuid) (i : nat) (tasks : gmap string TaskAccumulator)
    (task_refs : list string) : StoreTx (list TaskUpload) :=
  match task_refs with
  | [] => mret []
  | tref :: task_refs' =>
    snapshot ← load_snapshot_tx (ids i) tref;
    uploads ← build_uploads ids (S i) tasks task_refs';
    mret (match snapshot with
          | Some snapshot =>
            let acc := unwrap_or TaskAccumulator_default (tasks !! tref) in
            mkTaskUpload snapshot (ta_attempts acc) (ta_events acc) (dedupe_errors (ta_errors acc))
              (ta_gaps acc) :: uploads
          | None => uploads
          end)
  end.
(** A [BTreeSet] of strings iterates in the order of their bytes. *)
Definition btree_set (l : list string) : list string := order_by text_le (remove_dups l).
(* src: src/crates/client/src/store.rs:838-921 ClientStore::build_wire_batch_tx *)
Definition build_wire_batch_tx (client : ClientInstance) (sp : Supply) (b : nat)
    (records : list SummaryRecord) : StoreTx IngestBatch :=
  g ← gather client (sp_record_id sp b) 0 records (mkGathered [] ∅ []);
  uploads ← build_uploads (sp_snapshot_id sp b) 0 (ga_tasks g) (btree_set (ga_task_refs g));
  mret (mkIngestBatch PROTOCOL_VERSION (sp_batch_id sp b) (sp_generated_at sp b) client uploads
          (ga_heartbeats g)).

(** ** The outbox *)
Definition body_bytes (rows : list OutboxRow) : Z :=
  fold_right Z.add 0 (map (fun r => Z.of_nat (length (ox_body r))) rows).
(* src: src/crates/client/src/store.rs:1055-1081 ClientStore::ensure_outbox_capacity_tx *)
Definition ensure_outbox_capacity_tx (next_bytes : Z) (priority : bool) : StoreTx unit :=
  rows ← fetch_all outbox (fun _ => true);
  prows ← fetch_all outbox ox_is_priority;
  let total_bytes := body_bytes rows in
  let priority_bytes := body_bytes prows in
  _ ← require (total_bytes + next_bytes <=? OUTBOX_HARD_CAP_BYTES) StoreError_HardCap;
  if priority then mret tt
  else
    let routine_bytes := total_bytes - priority_bytes in
    let routine_cap := OUTBOX_HARD_CAP_BYTES - OUTBOX_PRIORITY_RESERVE_BYTES in
    require (routine_bytes + next_bytes <=? routine_cap) StoreError_RoutineBudget.

(* src: src/crates/client/src/store.rs:813-834 enqueue_records_tx: loop *)
Fixpoint enqueue_batches (client : ClientInstance) (sp : Supply) (priority : bool) (b : nat)
    (batches : list (list SummaryRecord)) : StoreTx nat :=
  match batches with
  | [] => mret O
  | batch_records :: batches' =>
    wire_batch ← build_wire_batch_tx client sp b batch_records;
    if bool_decide (ib_tasks wire_batch = []) && bool_decide (ib_heartbeats wire_batch = [])
    then enqueue_batches client sp priority (S b) batches'
    else
      encoded ← tx_lift (map_err StoreError_Encode (encode_batch wire_batch));
      _ ← ensure_outbox_capacity_tx (Z.of_nat (length (eb_bytes encoded))) priority;
      _ ← insert outbox
            {| ox_batch_id := eb_batch_id encoded;
               ox_payload_sha256 := eb_payload_sha256 encoded;
               ox_body := eb_bytes encoded;
               ox_record_count :=
                 Z.of_nat (length (ib_tasks wire_batch) + length (ib_heartbeats wire_batch));
               ox_created_at := sp_created_at sp b;
               ox_next_attempt_at := sp_next_attempt_at sp b;
               ox_attempt_count := 0;
               ox_last_error := None;
               ox_is_priority := priority |};
      inserted ← enqueue_batches client sp priority (S b) batches';
      mret (S inserted)
  end.
(* src: src/crates/client/src/store.rs:802-836 ClientStore::enqueue_records_tx *)
Definition enqueue_records_tx (client : ClientInstance) (sp : Supply) (records : list SummaryRecord)
    : StoreTx nat :=
  match records with
  | [] => mret O
  | _ => enqueue_batches client sp (existsb is_priority_record records) 0 (split_records records)
  end.

(** ** The store *)
(* src: src/crates/client/src/store.rs:38-42 ClientStore *)
Record ClientStore : Type := mkClientStore {
  cs_db : Database Row;
  cs_fs : gmap string bytes;
  cs_root : string;
  cs_client : ClientInstance }.
(* src: src/crates/client/src/store.rs:45-49 PersistOutcome *)
Record PersistOutcome : Type := mkPersistOutcome {
  pc_enqueued_batches : nat;
  pc_stored_contents : nat;
  pc_duplicate_records : nat }.
Definition set_db (s : ClientStore) (db : Database Row) : ClientStore :=
  mkClientStore db (cs_fs s) (cs_root s) (cs_client s).
Definition set_fs (s : ClientStore) (fs : gmap string bytes) : ClientStore :=
  mkClientStore (cs_db s) fs (cs_root s) (cs_client s).
(** A method that only uses the database. *)
Definition run_db {A} (m : StoreTx A) (s : ClientStore) : result StoreError A * ClientStore :=
  let '(r, db) := run_tx m (cs_db s) in (r, set_db s db).

(* src: src/crates/client/src/store.rs:776-800 ClientStore::store_raw_object_tx *)
Definition store_raw_object_tx (b : StoredBlob) : StoreTx unit :=
  insert_or_replace raw_objects
    {| ro_object_sha256 := bl_object_sha256 b;
       ro_task_ref := task_ref (bl_task b);
       ro_part := content_part_name (bl_part b);
       ro_media_type := bl_media_type b;
       ro_uncompressed_bytes := bl_uncompressed_bytes b;
       ro_compressed_bytes := Z.of_nat (length (bl_compressed_bytes b));
       ro_chunk_count := bl_chunk_count b;
       ro_created_at := ts (bl_created_at b);
       ro_expires_at := ts (bl_expires_at b);
       ro_pinned_by_command_id := None;
       ro_sanitized_headers := bl_sanitized_headers b |}.

(* src: src/crates/client/src/store.rs:172-178 persist_ingress: apply *)
Fixpoint apply_records (records : list SummaryRecord) : StoreTx (list SummaryRecord * nat) :=
  match records with
  | [] => mret ([], O)
  | record :: records' =>
    applied ← apply_record_tx record;
    rest ← apply_records records';
    mret (if applied : bool then (record :: rest.1, rest.2) else (rest.1, S rest.2))
  end.
(** The blob directory is not part of the transaction: what was written stays. *)
(* src: src/crates/client/src/store.rs:180-185 persist_ingress: contents *)
Fixpoint store_contents (root : string) (contents : list StoredContentInput) (fs : gmap string bytes)
    (db : Database Row) : gmap string bytes * result StoreError (Database Row) :=
  match contents with
  | [] => (fs, Ok db)
  | content :: contents' =>
    match Blob.store root content fs with
    | (fs', None) => (fs', Err StoreError_Panic)
    | (fs', Some (Err e)) => (fs', Err (StoreError_Blob e))
    | (fs', Some (Ok stored)) =>
      match store_raw_object_tx stored db with
      | Ok (_, db') => store_contents root contents' fs' db'
      | Err e => (fs', Err e)
      end
    end
  end.
(* src: src/crates/client/src/store.rs:162-194 ClientStore::persist_ingress *)
Definition persist_ingress (sp : Supply) (records : list SummaryRecord)
    (contents : list StoredContentInput) (s : ClientStore) : result StoreError PersistOutcome * ClientStore :=
  let records := map normalize_record records in
  match apply_records records (cs_db s) with
  | Err e => (Err e, s)
  | Ok ((accepted, duplicate_records), db1) =>
    match store_contents (cs_root s) contents (cs_fs s) db1 with
    | (fs', Err e) => (Err e, set_fs s fs')
    | (fs', Ok db2) =>
      match enqueue_records_tx (cs_client s) sp accepted db2 with
      | Err e => (Err e, set_fs s fs')
      | Ok (enqueued_batches, db3) =>
        (Ok (mkPersistOutcome enqueued_batches (length contents) duplicate_records),
         set_fs (set_db s db3) fs')
      end
    end
  end.

(* src: src/crates/client/src/store.rs:52-56 PendingBatch *)
Record PendingBatch : Type := mkPendingBatch {
  pb_batch_id : Uuid;
  pb_payload_sha256 : string;
  pb_body : bytes }.
(* src: src/crates/client/src/store.rs:196-211 ClientStore::next_due_batch *)
Definition next_due_batch (now : OffsetDateTime) : StoreTx (option PendingBatch) :=
  rows ← fetch_all outbox (fun r => ox_next_attempt_at r <=? ts now);
  mret ((fun r => mkPendingBatch (ox_batch_id r) (ox_payload_sha256 r) (ox_body r))
        <$> head (order_by (fun a b => ox_created_at a <=? ox_created_at b) rows)).
(* src: src/crates/client/src/store.rs:213-230 ClientStore::mark_batch_acked *)
Definition mark_batch_acked (now : Z) (ack : IngestAck) : StoreTx unit :=
  _ ← insert_or_replace acked_batches (mkAckedRow (ak_batch_id ack) (ak_payload_sha256 ack) now);
  delete_from outbox (fun r => bool_decide (ox_batch_id r = ak_batch_id ack)
                               && String.eqb (ox_payload_sha256 r) (ak_payload_sha256 ack)).
(** [OffsetDateTime::now_utc() + backoff_delay(attempt_count)]. *)
Definition retry_at (now : OffsetDateTime) (attempt_count : Z) : StoreTx Z :=
  next ← some_or StoreError_Panic (add_seconds now (backoff_delay attempt_count));
  mret (ts next).
(* src: src/crates/client/src/store.rs:232-248 ClientStore::mark_batch_retry *)
Definition mark_batch_retry (now : OffsetDateTime) (batch_id : Uuid) (error : string) : StoreTx unit :=
  let p := fun r => bool_decide (ox_batch_id r = batch_id) in
  row ← fetch_optional outbox p;
  row ← some_or StoreError_RowNotFound row;
  next_attempt ← retry_at now (ox_attempt_count row);
  update outbox p (fun r => mkOutboxRow (ox_batch_id r) (ox_payload_sha256 r) (ox_body r)
    (ox_record_count r) (ox_created_at r) next_attempt (ox_attempt_count r + 1)
    (Some (truncate_message error)) (ox_is_priority r)).

(** ** Commands *)
(** [now i] is the reading for the [i]-th command; the expiry and the next
    attempt read the clock too. *)
(* src: src/crates/client/src/store.rs:250-270 ClientStore::save_commands *)
Fixpoint save_commands (now : nat -> Z) (i : nat) (cmds : list ClientCommand) : StoreTx unit :=
  match cmds with
  | [] => mret tt
  | command :: cmds' =>
    let '(command_id, expires_at_ms) := command_meta command in
    _ ← insert_or_update commands
          {| qc_command_id := command_id;
             qc_expires_at := unwrap_or (now i + 7 * 86400000) expires_at_ms;
             qc_status := CommandStatus_Pending;
             qc_payload := command;
             qc_result := None;
             qc_error := None;
             qc_attempt_count := 0;
             qc_next_attempt_at := now i;
             qc_completed_at := None |} (fun old => old);
    save_commands now (S i) cmds'
  end.
(* src: src/crates/client/src/store.rs:94-98 StoredCommand *)
Record StoredCommand : Type := mkStoredCommand {
  sq_command : ClientCommand;
  sq_status : CommandStatus;
  sq_attempt_count : Z }.
(* src: src/crates/client/src/store.rs:272-290 ClientStore::next_due_command *)
Definition next_due_command (now : OffsetDateTime) : StoreTx (option StoredCommand) :=
  row ← fetch_optional commands
    (fun r => bool_decide (qc_status r ∈ [CommandStatus_Pending; CommandStatus_Failed; CommandStatus_Running])
              && (qc_next_attempt_at r <=? ts now));
  mret ((fun r => mkStoredCommand (qc_payload r) (qc_status r) (qc_attempt_count r)) <$> row).

(* src: src/crates/client/src/store.rs:101-105 UploadWork *)
Record UploadWork : Type := mkUploadWork {
  uk_command_id : Uuid;
  uk_request_id : Uuid;
  uk_manifests : list ContentObjectManifest }.
(* src: src/crates/client/src/store.rs:108-114 UploadPreparation *)
Inductive UploadPreparation : Type :=
| UploadPreparation_Ready (w : UploadWork)
| UploadPreparation_Expired (command_id : Uuid) (result : ContentUploadResult).

(** The manifests of the requested parts, or why there are none; [now i] is the
    reading for the [i]-th part. *)
(* src: src/crates/client/src/store.rs:312-361 prepare_upload: loop *)
Fixpoint collect_manifests (request : ContentRequest) (now : nat -> Z) (i : nat)
    (parts : list ContentPart) : StoreTx (ContentUploadResult + list ContentObjectManifest) :=
  match parts with
  | [] => mret (inr [])
  | part :: parts' =>
    let refuse note := mret (inl (mkContentUploadResult (cr_request_id request)
                                    ContentUploadStatus_ContentExpired (Some note))) in
    row ← newest_object (cr_task_ref request) part;
    match row with
    | None => refuse ("missing local content for part " +:+ content_part_name part)
    | Some row =>
      if ro_expires_at row <=? now i
      then refuse ("expired local content for part " +:+ content_part_name part)
      else
        rest ← collect_manifests request now (S i) parts';
        mret (match rest with
              | inl r => inl r
              | inr manifests =>
                inr (mkContentObjectManifest (cr_request_id request) (cr_task_ref request)
                       (cr_session_id request) (cr_thread_id request) part (ro_object_sha256 row)
                       (ro_media_type row) (ro_uncompressed_bytes row) (ro_compressed_bytes row)
                       (ro_chunk_count row) (ro_created_at row) :: manifests)
              end)
    end
  end.
Definition set_pin (pin : option Uuid) (r : RawObjectRow) : RawObjectRow :=
  mkRawObjectRow (ro_object_sha256 r) (ro_task_ref r) (ro_part r) (ro_media_type r)
    (ro_uncompressed_bytes r) (ro_compressed_bytes r) (ro_chunk_count r) (ro_created_at r)
    (ro_expires_at r) pin (ro_sanitized_headers r).
(** [now 0] is the reading at the start, [now (S i)] at part [i], the last the
    next attempt. *)
(* src: src/crates/client/src/store.rs:292-381 ClientStore::prepare_upload *)
Definition prepare_upload (now : nat -> Z) (command : ClientCommand) : StoreTx UploadPreparation :=
  match command with
  | ClientCommand_RequestContent content =>
    let command_id := crc_command_id content in
    let request := crc_request content in
    if is_some_and (fun expires_at_ms => expires_at_ms <=? now O) (cr_expires_at_ms request) then
      mret (UploadPreparation_Expired command_id
        (mkContentUploadResult (cr_request_id request) ContentUploadStatus_ContentExpired
           (Some "content request expired")))
    else
      found ← collect_manifests request now 1 (cr_parts request);
      match found with
      | inl result => mret (UploadPreparation_Expired command_id result)
      | inr manifests =>
        _ ← update raw_objects (fun r => String.eqb (ro_task_ref r) (cr_task_ref request))
              (set_pin (Some command_id));
        _ ← update commands (fun r => bool_decide (qc_command_id r = command_id))
              (fun r => mkQueuedCommandRow (qc_command_id r) (qc_expires_at r) CommandStatus_Running
                 (qc_payload r) (qc_result r) (qc_error r) (qc_attempt_count r + 1)
                 (now (S (length (cr_parts request)))) (qc_completed_at r));
        mret (UploadPreparation_Ready (mkUploadWork command_id (cr_request_id request) manifests))
      end
  end.

(** [UPDATE raw_objects SET pinned_by_command_id = NULL WHERE pinned_by_command_id = ?]. *)
Definition unpin (command_id : Uuid) : StoreTx unit :=
  update raw_objects (fun r => bool_decide (ro_pinned_by_command_id r = Some command_id)) (set_pin None).
(* src: src/crates/client/src/store.rs:383-410 ClientStore::complete_command *)
Definition complete_command (completed_at next_attempt_at : Z) (command_id : Uuid)
    (result : ContentUploadResult) (keep_pinned : bool) : StoreTx unit :=
  _ ← update commands (fun r => bool_decide (qc_command_id r = command_id))
        (fun r => mkQueuedCommandRow (qc_command_id r) (qc_expires_at r) CommandStatus_Completed
           (qc_payload r) (Some result) (qc_error r) (qc_attempt_count r) next_attempt_at
           (Some completed_at));
  if keep_pinned then mret tt else unpin command_id.
(* src: src/crates/client/src/store.rs:412-444 ClientStore::fail_command *)
Definition fail_command (now : OffsetDateTime) (command_id : Uuid) (error : string) (keep_pinned : bool)
    : StoreTx unit :=
  let p := fun r => bool_decide (qc_command_id r = command_id) in
  row ← fetch_optional commands p;
  row ← some_or StoreError_RowNotFound row;
  next_attempt ← retry_at now (qc_attempt_count row);
  _ ← update commands p
        (fun r => mkQueuedCommandRow (qc_command_id r) (qc_expires_at r) CommandStatus_Failed
           (qc_payload r) (qc_result r) (Some (truncate_message error)) (qc_attempt_count r)
           next_attempt (qc_completed_at r));
  if keep_pinned then mret tt else unpin command_id.

(** ** Retention *)
(** [expires_at <= ? AND pinned_by_command_id IS NULL]. *)
Definition disposable (now : OffsetDateTime) (r : RawObjectRow) : bool :=
  (ro_expires_at r <=? ts now) && is_none (ro_pinned_by_command_id r).
(** [None] is the panic of [remove]; what was removed before it stays. *)
Fixpoint remove_blobs (root : string) (shas : list string) (fs : gmap string bytes)
    : gmap string bytes * option unit :=
  match shas with
  | [] => (fs, Some tt)
  | sha :: shas' =>
    match Blob.remove root sha fs with
    | Some fs' => remove_blobs root shas' fs'
    | None => (fs, None)
    end
  end.
(** [ts(now - Duration::days(n))]. *)
Definition days_before (now : OffsetDateTime) (n : Z) : StoreTx Z :=
  t ← some_or StoreError_Panic (add_seconds now (- (86400 * n)));
  mret (ts t).
(** The three statements are not one transaction. *)
(* src: src/crates/client/src/store.rs:446-473 ClientStore::cleanup *)
Definition cleanup (now : OffsetDateTime) (s : ClientStore) : result StoreError unit * ClientStore :=
  match remove_blobs (cs_root s)
          (map ro_object_sha256 (select (disposable now) (cs_db s raw_objects))) (cs_fs s) with
  | (fs', None) => (Err StoreError_Panic, set_fs s fs')
  | (fs', Some _) =>
    let s1 := (run_db (delete_from raw_objects (disposable now)) (set_fs s fs')).2 in
    match run_db (acked_before ← days_before now ACK_RETENTION_DAYS;
                  delete_from acked_batches (fun r => ab_acked_at r <=? acked_before)) s1 with
    | (Err e, s2) => (Err e, s2)
    | (Ok _, s2) =>
      run_db (completed_before ← days_before now 30;
              delete_from commands
                (fun r => bool_decide (qc_status r = CommandStatus_Completed)
                          && is_some_and (fun t => t <=? completed_before) (qc_completed_at r))) s2
    end
  end.

(** ** Reads and small writes *)
(* src: src/crates/client/src/store.rs:59-66 HealthSnapshot *)
Record HealthSnapshot : Type := mkHealthSnapshot {
  hsn_outbox_batches : Z;
  hsn_outbox_bytes : Z;
  hsn_pending_commands : Z;
  hsn_active_tasks : Z;
  hsn_active_flows : Z;
  hsn_raw_objects : Z }.
(* src: src/crates/client/src/store.rs:475-496 ClientStore::health_snapshot *)
Definition health_snapshot (db : Database Row) : HealthSnapshot :=
  let count {R} (l : list R) := Z.of_nat (length l) in
  mkHealthSnapshot (count (db outbox)) (body_bytes (db outbox))
    (count (select (fun r => negb (bool_decide (qc_status r = CommandStatus_Completed))) (db commands)))
    (count (db active_tasks)) (count (select (fun r => is_none (fl_closed_at r)) (db flows)))
    (count (db raw_objects)).
(* src: src/crates/client/src/store.rs:498-504 ClientStore::load_chunks *)
Definition load_chunks (m : ContentObjectManifest) (s : ClientStore)
    : option (result BlobError (list ContentUploadChunk)) :=
  Blob.load_chunks (cs_root s) (mf_object_sha256 m) (mf_request_id m) (cs_fs s).
(* src: src/crates/client/src/store.rs:69-82 TaskCursor *)
Record TaskCursor : Type := mkTaskCursor {
  tc_sequence : Z;
  tc_conversation_title : option string;
  tc_attempt_count : Z;
  tc_phase : TaskPhase;
  tc_outcome : option TaskOutcome;
  tc_started_at : OffsetDateTime;
  tc_updated_at : OffsetDateTime;
  tc_completeness : Completeness;
  tc_model : option string;
  tc_tool_names : list string;
  tc_response_ids : list string;
  tc_usage : TokenUsage }.
(* src: src/crates/client/src/store.rs:506-535 ClientStore::load_task_cursor *)
Definition load_task_cursor (task : TaskKey) : StoreTx (option TaskCursor) :=
  row ← fetch_optional active_tasks (fun r => String.eqb (at_task_ref r) (task_ref task));
  match row with
  | None => mret None
  | Some row =>
    started_at ← some_or StoreError_Panic (from_ms (at_started_at row));
    updated_at ← some_or StoreError_Panic (from_ms (at_updated_at row));
    mret (Some (mkTaskCursor (at_sequence row) (at_conversation_title row) (at_attempt_count row)
      (at_phase row) (at_outcome row) started_at updated_at (at_completeness row) (at_model row)
      (at_tool_names row) (at_response_ids row) (at_usage row)))
  end.
(* src: src/crates/client/src/store.rs:582-591 ClientStore::has_attempt_response *)
Definition has_attempt_response (task : TaskKey) (response_id : string) (db : Database Row) : bool :=
  existsb (fun r => String.eqb (ap_task_ref r) (task_ref task)
                    && bool_decide (ap_response_id r = Some response_id)) (db attempts).
(* src: src/crates/client/src/store.rs:593-615 ClientStore::note_flow_open *)
Definition note_flow_open (client : ClientInstance) (flow_id : Uuid) (process_instance_id : option Uuid)
    (local_addr remote_addr transport : string) (created_at : OffsetDateTime) : StoreTx unit :=
  insert_or_update flows
    (mkFlowRow flow_id (ci_instance_id client) process_instance_id local_addr remote_addr transport
       (ts created_at) None) (fun old => old).
(* src: src/crates/client/src/store.rs:617-624 ClientStore::note_flow_closed *)
Definition note_flow_closed (flow_id : Uuid) (closed_at : OffsetDateTime) : StoreTx unit :=
  update flows (fun r => bool_decide (fl_flow_id r = flow_id))
    (fun r => mkFlowRow (fl_flow_id r) (fl_client_instance_id r) (fl_process_instance_id r)
       (fl_local_addr r) (fl_remote_addr r) (fl_transport r) (fl_created_at r) (Some (ts closed_at))).

Definition set_title (title : string) (row : ActiveTaskRow) : ActiveTaskRow :=
  {| at_task_ref := at_task_ref row;
     at_client_id := at_client_id row;
     at_provider := at_provider row;
     at_session_id := at_session_id row;
     at_thread_id := at_thread_id row;
     at_turn_id := at_turn_id row;
     at_conversation_title := Some title;
     at_phase := at_phase row;
     at_outcome := at_outcome row;
     at_sequence := at_sequence row;
     at_last_event_id := at_last_event_id row;
     at_started_at := at_started_at row;
     at_updated_at := at_updated_at row;
     at_terminal_at := at_terminal_at row;
     at_attempt_count := at_attempt_count row;
     at_model := at_model row;
     at_tool_names := at_tool_names row;
     at_response_ids := at_response_ids row;
     at_usage := at_usage row;
     at_completeness := at_completeness row;
     at_last_error := at_last_error row;
     at_parent_turn_id := at_parent_turn_id row;
     at_root_turn_id := at_root_turn_id row;
     at_first_seen_at := at_first_seen_at row |}.
(** The session record of a renamed task; [None] is the panic of [from_ms]. *)
(* src: src/crates/client/src/store.rs:559-575 sync_conversation_title: records *)
Definition title_record (row : ActiveTaskRow) : option SummaryRecord :=
  first_seen_at ← from_ms (at_started_at row);
  mret (SummaryRecord_Session (mkSessionSummary
    (mkTaskKey (at_client_id row) (mkProviderId (at_provider row)) (at_session_id row)
       (at_thread_id row) (at_turn_id row)) None None first_seen_at)).
(** The update is not in one transaction with the records. *)
(* src: src/crates/client/src/store.rs:537-580 ClientStore::sync_conversation_title *)
Definition sync_conversation_title (sp : Supply) (session_id title : string) (s : ClientStore)
    : result StoreError nat * ClientStore :=
  let p := fun r => String.eqb (at_session_id r) session_id
                    && negb (bool_decide (at_conversation_title r = Some title)) in
  let rows := select p (cs_db s active_tasks) in
  match rows with
  | [] => (Ok O, s)
  | _ =>
    let s1 := (run_db (update active_tasks p (set_title title)) s).2 in
    match mapM title_record rows with
    | None => (Err StoreError_Panic, s1)
    | Some records =>
      match persist_ingress sp records [] s1 with
      | (Ok outcome, s2) => (Ok (pc_enqueued_batches outcome), s2)
      | (Err e, s2) => (Err e, s2)
      end
    end
  end.
End store.
