(* ===== verification/StoreSteps.v ===== *)
(** * The client's store as a state machine

    Every transaction and single statement of [ClientStore] is a step, so a run
    of [store_step]s is any interleaving of the capture, flush, command, title
    and cleanup loops.  The invariant of the reachable stores ([store_inv]): keys,
    outbox rows that decode to the client's own valid batches, the byte
    budget of the outbox, and stored objects. *)
From Stdlib Require Import ZArith Lia Strings.Byte Strings.String.
From S2P Require Import Prelude RustStr Digest Types Fixtures Validation Codec Table Sql Model Mapping Blob Store.
Local Open Scope string_scope.
Local Open Scope list_scope.
Local Open Scope Z_scope.

Section steps.
Context `{UuidApi} `{DigestApi} `{CborApi} `{ZstdApi} `{TimeApi}.
#[local] Abbreviation StoreTx := (Transaction Row StoreError).

(** What is atomic: a transaction, a statement outside one, the removal of one
    file; with the clock readings and fresh identifiers of the call.  A restart
    opens the same data directory under the same client identifier. *)
Inductive StoreOp : Type :=
| OpReopen (client : ClientInstance)
| OpPersist (sp : Supply) (records : list SummaryRecord) (contents : list StoredContentInput)
| OpAcked (now : Z) (ack : IngestAck)
| OpRetry (now : OffsetDateTime) (batch_id : Uuid) (error : string)
| OpSaveCommand (now : nat -> Z) (i : nat) (command : ClientCommand)
| OpPrepare (now : nat -> Z) (command : ClientCommand)
| OpComplete (completed_at next_attempt_at : Z) (command_id : Uuid) (r : ContentUploadResult)
    (keep_pinned : bool)
| OpFail (now : OffsetDateTime) (command_id : Uuid) (error : string) (keep_pinned : bool)
| OpRemoveBlob (object_sha256 : string)
| OpDeleteObjects (p : RawObjectRow -> bool)
| OpDeleteAcked (p : AckedRow -> bool)
| OpDeleteCommands (p : QueuedCommandRow -> bool)
| OpFlowOpen (flow_id : Uuid) (process : option Uuid) (local_addr remote_addr transport : string)
    (created_at : OffsetDateTime)
| OpFlowClosed (flow_id : Uuid) (closed_at : OffsetDateTime)
| OpSetTitle (p : ActiveTaskRow -> bool) (title : string).

Definition run_op (op : StoreOp) (s : ClientStore) : ClientStore :=
  match op with
  | OpReopen client =>
    if String.eqb (ci_client_id client) (ci_client_id (cs_client s))
    then mkClientStore (cs_db s) (cs_fs s) (cs_root s) client else s
  | OpPersist sp records contents => (persist_ingress sp records contents s).2
  | OpAcked now ack => (run_db (mark_batch_acked now ack) s).2
  | OpRetry now batch_id error => (run_db (mark_batch_retry now batch_id error) s).2
  | OpSaveCommand now i command => (run_db (save_commands now i [command]) s).2
  | OpPrepare now command => (run_db (prepare_upload now command) s).2
  | OpComplete c n i r k => (run_db (complete_command c n i r k) s).2
  | OpFail now i e k => (run_db (fail_command now i e k) s).2
  | OpRemoveBlob sha => set_fs s (unwrap_or (cs_fs s) (Blob.remove (cs_root s) sha (cs_fs s)))
  | OpDeleteObjects p => (run_db (delete_from raw_objects p) s).2
  | OpDeleteAcked p => (run_db (delete_from acked_batches p) s).2
  | OpDeleteCommands p => (run_db (delete_from commands p) s).2
  | OpFlowOpen i p l r t c => (run_db (note_flow_open (cs_client s) i p l r t c) s).2
  | OpFlowClosed i c => (run_db (note_flow_closed i c) s).2
  | OpSetTitle p title => (run_db (update active_tasks p (set_title title)) s).2
  end.
Inductive store_step (s : ClientStore) : ClientStore -> Prop :=
| step_op op : store_step s (run_op op s).
(** [ClientStore::open] on an empty data directory. *)
Definition open_empty (root : string) (client : ClientInstance) : ClientStore :=
  mkClientStore no_rows ∅ root client.
Definition store_reachable (s : ClientStore) : Prop :=
  exists root client, rtc store_step (open_empty root client) s.

(** ** What a step does to the database

    [persist_ingress] is its transaction on the database, with the blob
    directory aside. *)
Lemma run_db_snd {A} (m : StoreTx A) s :
  (run_db m s).2 = set_db s (run_tx m (cs_db s)).2.
Proof. unfold run_db. by destruct (run_tx m (cs_db s)). Qed.

(** An object [BlobStore::store] returned. *)
Definition blob_ok (b : StoredBlob) : Prop :=
  exists body, bl_object_sha256 b = sha256_hex body
    /\ encode_all body 3 = Ok (bl_compressed_bytes b)
    /\ bl_uncompressed_bytes b = Z.of_nat (length body).
Lemma store_blob_ok root c fs fs' b : Blob.store root c fs = (fs', Some (Ok b)) -> blob_ok b.
Proof.
  unfold Blob.store. destruct (str_is_empty _); [done|].
  destruct (encode_all (in_body c) 3) as [z|] eqn:E; [|done].
  destruct (object_path _ _); [|done]. destruct (add_seconds _ _); [|done].
  intros [= _ <-]. by exists (in_body c).
Qed.
(** The rows [store_contents] adds. *)
Lemma store_contents_rel R `{!PreOrder R} root contents fs db fs' db' :
  (forall b, blob_ok b -> tx_rel R (store_raw_object_tx b)) ->
  store_contents root contents fs db = (fs', Ok db') -> R db db'.
Proof.
  intros Hr. revert fs db. induction contents as [|c contents IH]; intros fs db; cbn [store_contents].
  - by intros [= _ <-].
  - destruct (Blob.store root c fs) as [fs1 [[b|e]|]] eqn:Es; [|done|done].
    apply store_blob_ok in Es as Hb.
    destruct (store_raw_object_tx b db) as [[[] db1]|e] eqn:E; [|done]. intros E'.
    etrans; [by eapply Hr | by eapply IH].
Qed.
Lemma persist_rel R `{!PreOrder R} sp records contents s :
  (forall rs, tx_rel R (apply_records rs)) ->
  (forall b, blob_ok b -> tx_rel R (store_raw_object_tx b)) ->
  (forall rs, tx_rel R (enqueue_records_tx (cs_client s) sp rs)) ->
  R (cs_db s) (cs_db (persist_ingress sp records contents s).2).
Proof.
  intros Ha Hb He. unfold persist_ingress.
  destruct (apply_records _ (cs_db s)) as [[[acc dup] db1]|e] eqn:E1; [|done].
  destruct (store_contents _ _ _ db1) as [fs' [db2|e]] eqn:E2; [|done].
  destruct (enqueue_records_tx _ _ _ db2) as [[n db3]|e] eqn:E3; [|done]. cbn.
  etrans; [by eapply Ha|]. etrans; [by eapply store_contents_rel|]. by eapply He.
Qed.
Lemma apply_records_rel R `{!PreOrder R} records :
  (forall r, tx_rel R (apply_record_tx r)) -> tx_rel R (apply_records records).
Proof. intros Hr. induction records; cbn [apply_records]; tx_walk. Qed.
Lemma gather_rel R `{!PreOrder R} client ids i records g : tx_rel R (gather client ids i records g).
Proof.
  revert i g. induction records as [|r records IH]; intros i g; cbn [gather]; [tx_walk|].
  apply tx_rel_bind; [done| |intros; apply IH].
  destruct r; unfold build_attempt_record_tx, newest_object; tx_walk.
Qed.
Lemma build_uploads_rel R `{!PreOrder R} ids i tasks refs : tx_rel R (build_uploads ids i tasks refs).
Proof.
  revert i. induction refs as [|t refs IH]; intros i; cbn [build_uploads]; [tx_walk|].
  unfold load_snapshot_tx. apply tx_rel_bind; [done|tx_walk|intros ?].
  apply tx_rel_bind; [done|apply IH|intros; tx_walk].
Qed.
Lemma build_wire_batch_rel R `{!PreOrder R} client sp b records :
  tx_rel R (build_wire_batch_tx client sp b records).
Proof.
  unfold build_wire_batch_tx. apply tx_rel_bind; [done|by apply gather_rel|intros g].
  apply tx_rel_bind; [done|by apply build_uploads_rel|intros; tx_walk].
Qed.
Lemma ensure_capacity_rel R `{!PreOrder R} n p : tx_rel R (ensure_outbox_capacity_tx n p).
Proof. unfold ensure_outbox_capacity_tx. tx_walk. Qed.
Lemma enqueue_rel R `{!PreOrder R} client sp records :
  (forall r, tx_rel R (insert outbox r)) -> tx_rel R (enqueue_records_tx client sp records).
Proof.
  intros Hi. unfold enqueue_records_tx. destruct records as [|r rs]; [tx_walk|].
  generalize (existsb is_priority_record (r :: rs)) as p. generalize 0%nat as b.
  induction (split_records (r :: rs)) as [|rec batches IH]; intros b p; cbn [enqueue_batches]; [tx_walk|].
  apply tx_rel_bind; [done|by apply build_wire_batch_rel|intros w].
  destruct (_ && _); [apply IH|]. tx_walk.
Qed.
Lemma run_db_rel R `{!PreOrder R} {A} (m : StoreTx A) s :
  tx_rel R m -> R (cs_db s) (cs_db (run_db m s).2).
Proof. intros Hm. rewrite run_db_snd. by apply (run_tx_rel R m). Qed.
(** The transactions a step is made of. *)
Inductive part_of (client : ClientInstance) : forall {A : Type}, StoreTx A -> Type :=
| part_apply r : part_of client (apply_record_tx r)
| part_object b : blob_ok b -> part_of client (store_raw_object_tx b)
| part_enqueue sp rs : part_of client (enqueue_records_tx client sp rs)
| part_acked now ack : part_of client (mark_batch_acked now ack)
| part_retry now i e : part_of client (mark_batch_retry now i e)
| part_save now i cmds : part_of client (save_commands now i cmds)
| part_prepare now c : part_of client (prepare_upload now c)
| part_complete c n i r k : part_of client (complete_command c n i r k)
| part_fail now i e k : part_of client (fail_command now i e k)
| part_delete t p : t ∈ [raw_objects; acked_batches; commands] -> part_of client (delete_from t p)
| part_open i p l r t c : part_of client (note_flow_open client i p l r t c)
| part_closed i c : part_of client (note_flow_closed i c)
| part_title p t : part_of client (update active_tasks p (set_title t)).

(** Acknowledgements are the only parts that take rows out of the outbox. *)
Definition part_acks {client A} {m : StoreTx A} (p : part_of client m) : bool :=
  match p with part_acked _ _ _ => true | _ => false end.
Definition is_ack (op : StoreOp) : bool :=
  match op with OpAcked _ _ => true | _ => false end.
Lemma run_op_parts R `{!PreOrder R} op s :
  (forall A (m : StoreTx A) (p : part_of (cs_client s) m),
     (part_acks p = true -> is_ack op = true) -> tx_rel R m) ->
  R (cs_db s) (cs_db (run_op op s)).
Proof.
  intros Hp. destruct op; cbn [run_op];
    try (apply run_db_rel; [done | unshelve eapply Hp; [constructor; set_solver | done]]).
  - by destruct (String.eqb _ _).
  - apply persist_rel; [done| | |].
    + intros rs. apply apply_records_rel; [done|]. intros r. by unshelve eapply Hp; [constructor|].
    + intros b Hb. by unshelve eapply Hp; [by constructor|].
    + intros rs. by unshelve eapply Hp; [constructor|].
  - done.
Qed.
Lemma run_op_rel R `{!PreOrder R} op s :
  (forall A (m : StoreTx A), part_of (cs_client s) m -> tx_rel R m) ->
  R (cs_db s) (cs_db (run_op op s)).
Proof. intros Hp. apply run_op_parts; [done|]. intros A m p _. by apply Hp. Qed.

(** ** Keys *)
Lemma collect_manifests_rel R `{!PreOrder R} request now i parts :
  tx_rel R (collect_manifests request now i parts).
Proof.
  revert i. induction parts as [|p parts IH]; intros i; cbn [collect_manifests]; [tx_walk|].
  unfold newest_object. tx_walk.
Qed.
#[local] Hint Extern 1 (tx_rel _ (collect_manifests _ _ _ _)) =>
  apply collect_manifests_rel; typeclasses eauto : tx.
Lemma part_wf client A (m : StoreTx A) : part_of client m -> tx_rel (keeps db_wf) m.
Proof.
  destruct 1.
  - destruct r; cbn [apply_record_tx];
      unfold upsert_task_summary_tx, upsert_transition_tx, upsert_attempt_tx, upsert_gap_tx,
        upsert_process_tx, merge_session_tx; tx_walk.
  - unfold store_raw_object_tx. tx_walk.
  - apply enqueue_rel; [typeclasses eauto|]. intros. tx_walk.
  - unfold mark_batch_acked. tx_walk.
  - unfold mark_batch_retry, retry_at. tx_walk.
  - revert i. induction cmds as [|[c] cmds IH]; intros i; cbn [save_commands command_meta]; tx_walk.
  - destruct c as [c]. unfold prepare_upload. tx_walk.
  - unfold complete_command, unpin. tx_walk.
  - unfold fail_command, unpin, retry_at. tx_walk.
  - tx_walk.
  - unfold note_flow_open. tx_walk.
  - unfold note_flow_closed. tx_walk.
  - tx_walk.
Qed.

(** Tables a part leaves alone. *)
Definition part_tables {client A} {m : StoreTx A} (p : part_of client m) : list Tab :=
  match p with
  | part_apply _ _ => [active_tasks; attempts; capture_gaps; processes]
  | part_object _ _ _ => [raw_objects]
  | part_enqueue _ _ _ => [outbox]
  | part_acked _ _ _ => [acked_batches; outbox]
  | part_retry _ _ _ _ => [outbox]
  | part_save _ _ _ _ => [commands]
  | part_prepare _ _ _ => [raw_objects; commands]
  | part_complete _ _ _ _ _ _ | part_fail _ _ _ _ _ => [commands; raw_objects]
  | part_delete _ t _ _ => [t]
  | part_open _ _ _ _ _ _ _ | part_closed _ _ _ => [flows]
  | part_title _ _ _ => [active_tasks]
  end.
Lemma part_frame client A (m : StoreTx A) (p : part_of client m) : tx_rel (frame (part_tables p)) m.
Proof.
  destruct p; cbn [part_tables].
  - destruct r; cbn [apply_record_tx];
      unfold upsert_task_summary_tx, upsert_transition_tx, upsert_attempt_tx, upsert_gap_tx,
        upsert_process_tx, merge_session_tx; tx_walk.
  - unfold store_raw_object_tx. tx_walk.
  - apply enqueue_rel; [typeclasses eauto|]. intros. tx_walk.
  - unfold mark_batch_acked. tx_walk.
  - unfold mark_batch_retry, retry_at. tx_walk.
  - revert i. induction cmds as [|[c] cmds IH]; intros i; cbn [save_commands command_meta]; tx_walk.
  - destruct c as [c]. unfold prepare_upload. tx_walk.
  - unfold complete_command, unpin. tx_walk.
  - unfold fail_command, unpin, retry_at. tx_walk.
  - tx_walk.
  - unfold note_flow_open. tx_walk.
  - unfold note_flow_closed. tx_walk.
  - tx_walk.
Qed.

(** ** The outbox *)
Definition routine (rows : list OutboxRow) : list OutboxRow :=
  select (fun r => negb (ox_is_priority r)) rows.
Definition within_budget (rows : list OutboxRow) : Prop :=
  body_bytes rows <= OUTBOX_HARD_CAP_BYTES
  /\ body_bytes (routine rows) <= OUTBOX_HARD_CAP_BYTES - OUTBOX_PRIORITY_RESERVE_BYTES.
(** A queued batch: the encoding of a non-empty batch of this client, whatever
    start of it queued the batch. *)
Definition queued (client_id : string) (r : OutboxRow) (b : IngestBatch) : Prop :=
  exists e, encode_batch b = Ok e
    /\ ci_client_id (ib_client b) = client_id /\ ~ (ib_tasks b = [] /\ ib_heartbeats b = [])
    /\ ox_batch_id r = eb_batch_id e /\ ox_payload_sha256 r = eb_payload_sha256 e
    /\ ox_body r = eb_bytes e.
Definition outbox_ok (client_id : string) (rows : list OutboxRow) : Prop :=
  within_budget rows /\ Forall (fun r => exists b, queued client_id r b) rows.

Lemma body_bytes_nonneg rows : 0 <= body_bytes rows.
Proof. unfold body_bytes. induction rows; cbn; lia. Qed.
Lemma body_bytes_cons r rows : body_bytes (r :: rows) = Z.of_nat (length (ox_body r)) + body_bytes rows.
Proof. done. Qed.
Lemma body_bytes_app l k : body_bytes (l ++ k) = body_bytes l + body_bytes k.
Proof. induction l as [|r l IH]; [done|]. cbn [app]. rewrite !body_bytes_cons, IH. lia. Qed.
Lemma body_bytes_select p rows : body_bytes (select p rows) <= body_bytes rows.
Proof.
  induction rows as [|r rows IH]; [done|].
  rewrite select_cons. destruct (p r); rewrite ?body_bytes_cons; lia.
Qed.
Lemma body_bytes_split p rows :
  body_bytes rows = body_bytes (select p rows) + body_bytes (select (fun r => negb (p r)) rows).
Proof.
  induction rows as [|r rows IH]; [done|].
  rewrite !select_cons. destruct (p r); cbn [negb]; rewrite ?body_bytes_cons; lia.
Qed.
Lemma within_budget_delete p rows : within_budget rows -> within_budget (delete_where p rows).
Proof.
  unfold within_budget, routine. rewrite select_delete_comm. unfold delete_where.
  intros [Ht Hr]. split; (etrans; [apply body_bytes_select | done]).
Qed.
Lemma within_budget_update p f rows :
  (forall r, ox_body (f r) = ox_body r /\ ox_is_priority (f r) = ox_is_priority r) ->
  within_budget rows -> within_budget (update_where p f rows).
Proof.
  intros Hf. assert (E : forall q, (forall r, q (f r) = q r) ->
    body_bytes (select q (update_where p f rows)) = body_bytes (select q rows)).
  { intros q Hq. induction rows as [|r rows IH]; [done|]. cbn [update_where map]. rewrite !select_cons.
    fold (update_where p f rows). destruct (Hf r) as [Hb _], (p r); rewrite ?Hq;
      destruct (q r); rewrite ?body_bytes_cons, ?Hb, IH; done. }
  unfold within_budget, routine. rewrite E by (intros r; by destruct (Hf r) as [_ ->]).
  rewrite <- (select_true rows), <- (select_true (update_where p f rows)) at 1. by rewrite E.
Qed.
#[local] Abbreviation outbox_fetch_Ok := (fetch_all_Ok (Row := Row) (Er := StoreError) outbox).
#[local] Abbreviation outbox_insert_Ok := (insert_Ok (Row := Row) (Er := StoreError) outbox).
Lemma ensure_capacity_Ok n p db u db' :
  ensure_outbox_capacity_tx n p db = Ok (u, db') ->
  db' = db /\ body_bytes (db outbox) + n <= OUTBOX_HARD_CAP_BYTES
  /\ (p = false -> body_bytes (routine (db outbox)) + n
                   <= OUTBOX_HARD_CAP_BYTES - OUTBOX_PRIORITY_RESERVE_BYTES).
Proof.
  unfold ensure_outbox_capacity_tx. intros E.
  apply tx_bind_Ok in E as (rows & ? & [-> ->]%outbox_fetch_Ok & E).
  apply tx_bind_Ok in E as (prows & ? & [-> ->]%outbox_fetch_Ok & E).
  rewrite select_true in E. cbv zeta in E.
  apply tx_bind_Ok in E as ([] & ? & [Hc%Z.leb_le ->]%require_Ok & E).
  destruct p.
  - apply tx_ret_Ok in E as [_ ->]. done.
  - apply require_Ok in E as [Hr%Z.leb_le ->]. split; [done|]. split; [done|]. intros _.
    unfold routine. pose proof (body_bytes_split ox_is_priority (db outbox)). cbn [Row] in *. lia.
Qed.
Lemma within_budget_push r rows :
  within_budget rows ->
  body_bytes rows + Z.of_nat (length (ox_body r)) <= OUTBOX_HARD_CAP_BYTES ->
  (ox_is_priority r = false -> body_bytes (routine rows) + Z.of_nat (length (ox_body r))
                               <= OUTBOX_HARD_CAP_BYTES - OUTBOX_PRIORITY_RESERVE_BYTES) ->
  within_budget (rows ++ [r]).
Proof.
  assert (Eb : body_bytes [r] = Z.of_nat (length (ox_body r)))
    by (rewrite body_bytes_cons; apply Z.add_0_r).
  unfold within_budget, routine. intros [_ Hr] Ht Hp. rewrite select_app, !body_bytes_app, select_cons.
  split; [lia|]. destruct (ox_is_priority r); cbn [negb]; [by rewrite Z.add_0_r|].
  change (select _ []) with (@nil OutboxRow). specialize (Hp eq_refl). lia.
Qed.

(** What [build_wire_batch_tx] reads decides the batch, not the database. *)
Lemma build_wire_batch_client client sp b records db w db' :
  build_wire_batch_tx client sp b records db = Ok (w, db') ->
  db' = db /\ ib_client w = client /\ ib_batch_id w = sp_batch_id sp b.
Proof.
  intros E. assert (db = db') as <- by exact (build_wire_batch_rel eq _ _ _ _ _ _ _ E).
  unfold build_wire_batch_tx in E.
  apply tx_bind_Ok in E as (g & ? & _ & E). apply tx_bind_Ok in E as (us & ? & _ & E).
  by apply tx_ret_Ok in E as [-> _].
Qed.
Lemma enqueue_ok client sp records :
  tx_rel (keeps (fun db => outbox_ok (ci_client_id client) (db outbox))) (enqueue_records_tx client sp records).
Proof.
  unfold enqueue_records_tx. destruct records as [|r rs]; [tx_walk|].
  generalize (existsb is_priority_record (r :: rs)) as p. generalize 0%nat as b.
  induction (split_records (r :: rs)) as [|rec batches IH]; intros b p; cbn [enqueue_batches]; [tx_walk|].
  intros db n db' E Hok.
  apply tx_bind_Ok in E as (w & ? & (-> & Hc & _)%build_wire_batch_client & E).
  destruct (_ && _) eqn:Hempty; [by eapply IH|].
  apply tx_bind_Ok in E as (e & ? & [He%map_err_Ok ->]%tx_lift_Ok & E).
  apply tx_bind_Ok in E as ([] & ? & (-> & Ht & Hr)%ensure_capacity_Ok & E).
  apply tx_bind_Ok in E as ([] & db1 & [_ ->]%outbox_insert_Ok & E).
  apply tx_bind_Ok in E as (m & ? & E & [-> ->]%tx_ret_Ok). eapply IH; [exact E|]. tab_simpl.
  destruct Hok as [Hb Hq]. split; [by apply within_budget_push|]. apply Forall_app. split; [done|].
  apply Forall_singleton. exists w, e. split; [done|]. split; [by rewrite Hc|]. split; [|done].
  intros [E1 E2]. by rewrite E1, E2, !bool_decide_eq_true_2 in Hempty.
Qed.
Lemma part_outbox client A (m : StoreTx A) (p : part_of client m) :
  tx_rel (keeps (fun db => outbox_ok (ci_client_id client) (db outbox))) m.
Proof.
  destruct (decide (outbox ∈ part_tables p)) as [Hin|Hn].
  - destruct p; cbn [part_tables] in Hin; try (exfalso; set_solver).
    + apply enqueue_ok.
    + intros db u db' E [Hb Hq]. unfold mark_batch_acked in E. tx_inv E. tab_simpl.
      split; [by apply within_budget_delete|]. eapply Forall_forall. intros r [Hr _]%delete_where_elem.
      by eapply Forall_forall in Hq.
    + intros db u db' E [Hb Hq]. unfold mark_batch_retry, retry_at in E. tx_inv E. tab_simpl.
      split; [by apply within_budget_update|]. eapply Forall_forall. intros r Hr.
      apply list_elem_of_fmap in Hr as (r0 & -> & Hr). eapply Forall_forall in Hq; [|exact Hr].
      by destruct (bool_decide _).
  - eapply (keeps_frame (part_tables p) outbox); [exact Hn | apply part_frame].
Qed.

(** What a queued row is, apart from its retries. *)
Definition same_batch (r r' : OutboxRow) : Prop :=
  ox_batch_id r = ox_batch_id r' /\ ox_payload_sha256 r = ox_payload_sha256 r' /\ ox_body r = ox_body r'.
Definition outbox_kept (db db' : Database Row) : Prop :=
  forall r, r ∈ db outbox -> exists r', r' ∈ db' outbox /\ same_batch r r'.
#[export] Instance outbox_kept_preorder : PreOrder outbox_kept.
Proof.
  split; [by intros db r Hr; exists r|]. intros db1 db2 db3 H12 H23 r Hr.
  destruct (H12 r Hr) as (r2 & Hr2 & E1 & E2 & E3), (H23 _ Hr2) as (r3 & Hr3 & E4 & E5 & E6).
  exists r3. split; [done|]. split_and!; congruence.
Qed.
Lemma outbox_frame ts {A} (m : StoreTx A) : outbox ∉ ts -> tx_rel (frame ts) m -> tx_rel outbox_kept m.
Proof. intros Ht Hm db a db' E r. rewrite (Hm _ _ _ E _ Ht). intros Hr. by exists r. Qed.
Lemma part_outbox_kept client A (m : StoreTx A) (p : part_of client m) :
  part_acks p = false -> tx_rel outbox_kept m.
Proof.
  pose proof (part_frame _ _ _ p) as Hf. destruct p; cbn [part_tables part_acks] in *; intros Ha;
    try done; try (eapply outbox_frame; [|exact Hf]; set_solver).
  - apply enqueue_rel; [typeclasses eauto|]. intros row db u db' [_ ->]%outbox_insert_Ok r Hr. tab_simpl.
    exists r. split; [apply elem_of_app; by left | done].
  - intros db u db' E r Hr. unfold mark_batch_retry, retry_at in E. tx_inv E. tab_simpl.
    eexists. split; [apply list_elem_of_fmap; exists r; by split|]. by destruct (bool_decide _).
Qed.
Lemma op_outbox_kept op s : is_ack op = false -> outbox_kept (cs_db s) (cs_db (run_op op s)).
Proof.
  intros Ho. apply (run_op_parts outbox_kept). intros A m p Hp. apply (part_outbox_kept _ _ _ p).
  rewrite Ho in Hp. by destruct (part_acks p); [specialize (Hp eq_refl)|].
Qed.

(** ** The other tables *)
Definition row_task (r : ActiveTaskRow) : TaskKey :=
  mkTaskKey (at_client_id r) (mkProviderId (at_provider r)) (at_session_id r) (at_thread_id r)
    (at_turn_id r).
(** A task row is stored under the reference of its own columns; an object row
    describes a stored body; a command row is stored under the identifier of
    its payload, and a completed one has its result and time. *)
Definition row_ok (t : Tab) : Row t -> Prop :=
  match t with
  | active_tasks => fun r => at_task_ref r = task_ref (row_task r)
  | raw_objects => fun r => exists body c,
      ro_object_sha256 r = sha256_hex body /\ encode_all body 3 = Ok c
      /\ ro_uncompressed_bytes r = Z.of_nat (length body)
      /\ ro_compressed_bytes r = Z.of_nat (length c)
  | commands => fun r =>
      qc_command_id r = (command_meta (qc_payload r)).1
      /\ (qc_status r = CommandStatus_Completed ->
          is_some (qc_result r) = true /\ is_some (qc_completed_at r) = true)
  | _ => fun _ => True
  end.
#[local] Abbreviation rows_ok := (all_rows row_ok).

Lemma rows_frame ts {A} (m : StoreTx A) :
  active_tasks ∉ ts -> raw_objects ∉ ts -> commands ∉ ts -> tx_rel (frame ts) m ->
  tx_rel (keeps rows_ok) m.
Proof.
  intros Ha Hr Hc Hm db a db' E Hok t. specialize (Hm _ _ _ E).
  destruct t; try (rewrite Forall_forall; done); rewrite Hm by done; apply Hok.
Qed.
Lemma rows_side {A} (m : StoreTx A) :
  tx_rel (frame [attempts; capture_gaps; processes]) m -> tx_rel (keeps rows_ok) m.
Proof. apply rows_frame; set_solver. Qed.
#[local] Hint Extern 1 (tx_rel (keeps rows_ok) (insert_or_update active_tasks (transition_row ?t ?e) _)) =>
  apply rows_insert_or_update; [by destruct e | intros ? Ho _; exact Ho] : tx.
#[local] Hint Extern 2 (tx_rel (keeps rows_ok) (insert_or_update active_tasks _ _)) =>
  apply rows_insert_or_update; [reflexivity | intros ? Ho _; exact Ho] : tx.
#[local] Hint Extern 2 (tx_rel (keeps rows_ok) (insert_or_update attempts _ _)) =>
  apply rows_side, insert_or_update_frame; set_solver : tx.
#[local] Hint Extern 1 (tx_rel (keeps rows_ok) (update _ _ _)) =>
  apply rows_update; intros ? Ho; first [exact Ho | by destruct Ho] : tx.
Lemma part_rows client A (m : StoreTx A) : part_of client m -> tx_rel (keeps rows_ok) m.
Proof.
  intros p. pose proof (part_frame _ _ _ p) as Hf. destruct p; cbn [part_tables] in Hf;
    try (eapply rows_frame; [| | |exact Hf]; set_solver).
  - destruct r as [s|s|t|a|g|h|pr|e]; cbn [apply_record_tx];
      unfold upsert_task_summary_tx, upsert_transition_tx, upsert_attempt_tx, merge_session_tx; tx_walk.
    + apply rows_side, insert_frame. set_solver.
    + apply rows_side, insert_or_update_frame. set_solver.
  - destruct b0 as (body & Hs & Hc & Hu). apply rows_insert_or_replace. cbn.
    exists body, (bl_compressed_bytes b). done.
  - clear Hf. revert i. induction cmds as [|[c] cmds IH]; intros i; cbn [save_commands command_meta]; tx_walk.
    apply rows_insert_or_update; [done|]. by intros old Ho.
  - destruct c as [c]. unfold prepare_upload. tx_walk.
  - unfold complete_command, unpin. tx_walk.
  - unfold fail_command, unpin, retry_at. tx_walk.
  - apply rows_delete.
  - tx_walk.
Qed.

(** ** The invariant *)
Lemma persist_keeps_client sp records contents s :
  cs_client (persist_ingress sp records contents s).2 = cs_client s.
Proof.
  unfold persist_ingress. destruct (apply_records _ _) as [[[acc dup] db1]|e]; [|done].
  destruct (store_contents _ _ _ db1) as [fs' [db2|e]]; [|done].
  by destruct (enqueue_records_tx _ _ _ db2) as [[n db3]|e].
Qed.
Lemma run_op_client op s : ci_client_id (cs_client (run_op op s)) = ci_client_id (cs_client s).
Proof.
  destruct op; cbn [run_op]; rewrite ?run_db_snd, ?persist_keeps_client; try done.
  by destruct (String.eqb_spec (ci_client_id client) (ci_client_id (cs_client s))).
Qed.
Definition queue_ok (s : ClientStore) : Prop :=
  outbox_ok (ci_client_id (cs_client s)) (cs_db s outbox).
Lemma queue_step op s : queue_ok s -> queue_ok (run_op op s).
Proof.
  unfold queue_ok. rewrite run_op_client.
  exact (run_op_rel (keeps (fun db => outbox_ok (ci_client_id (cs_client s)) (db outbox))) op s
           (part_outbox _)).
Qed.
Lemma queue_run s s' : rtc store_step s s' -> queue_ok s -> queue_ok s'.
Proof. induction 1 as [|s1 s2 s3 [op] _ IH]; [done|]. intros ?. by apply IH, queue_step. Qed.
Lemma queue_empty root client : queue_ok (open_empty root client).
Proof. split; [by vm_compute | apply Forall_nil_2]. Qed.

Section invariant.
Context `{!DigestLaws} `{!BlobLaws}.
Record store_inv (s : ClientStore) : Prop := mk_store_inv {
  si_keys : db_wf (cs_db s);
  si_rows : rows_ok (cs_db s);
  si_outbox : queue_ok s;
  si_files : store_ok (cs_root s) (cs_fs s) }.

Lemma store_contents_files root contents fs db fs' r :
  store_contents root contents fs db = (fs', r) -> store_ok root fs -> store_ok root fs'.
Proof.
  revert fs db. induction contents as [|c contents IH]; intros fs db; cbn [store_contents].
  - by intros [= <- _].
  - destruct (Blob.store root c fs) as [fs1 o] eqn:Es. intros E Hok.
    destruct (store_spec _ _ _ _ _ Es Hok) as [Hok' _].
    destruct o as [[b|e]|]; [|by injection E as <- _..].
    destruct (store_raw_object_tx b db) as [[[] db1]|e]; [by eapply IH | by injection E as <- _].
Qed.
Lemma run_op_files op s :
  store_ok (cs_root s) (cs_fs s) -> store_ok (cs_root (run_op op s)) (cs_fs (run_op op s)).
Proof.
  intros Hok. destruct op; cbn [run_op]; try (rewrite run_db_snd; done).
  - by destruct (String.eqb_spec (ci_client_id client) (ci_client_id (cs_client s))).
  - unfold persist_ingress. destruct (apply_records _ _) as [[[acc dup] db1]|e]; [|done].
    destruct (store_contents _ _ _ db1) as [fs' [db2|e]] eqn:E; apply store_contents_files in E; try done.
    by destruct (enqueue_records_tx _ _ _ db2) as [[n db3]|e].
  - cbn. destruct (Blob.remove _ _ _) as [fs'|] eqn:E; [|done]. by apply remove_spec in E as [? _].
Qed.
Lemma store_inv_step op s : store_inv s -> store_inv (run_op op s).
Proof.
  intros [Hk Hr Ho Hf]. split; [| |by apply queue_step|by apply run_op_files].
  - exact (run_op_rel (keeps db_wf) op s (part_wf _) Hk).
  - exact (run_op_rel (keeps rows_ok) op s (part_rows _) Hr).
Qed.
Lemma store_inv_empty root client : store_inv (open_empty root client).
Proof.
  split; [apply no_rows_wf | intros []; apply Forall_nil_2 | apply queue_empty | apply store_ok_empty].
Qed.
Lemma run_store_inv s s' : rtc store_step s s' -> store_inv s -> store_inv s'.
Proof. induction 1 as [|s1 s2 s3 [op] _ IH]; [done|]. intros ?. by apply IH, store_inv_step. Qed.
Lemma reachable_store_inv s : store_reachable s -> store_inv s.
Proof. intros (root & client & Hr). eapply run_store_inv, store_inv_empty. exact Hr. Qed.

(** [C6] However the loops of the client interleave, and over restarts, its store
    stays consistent: primary keys hold; every task row is stored under the
    reference of its own columns, every object row describes a body with that
    digest, every completed command has its result; every file is the
    compressed form of a body with the digest in its name; and every row of
    the outbox is the encoding of a valid, non-empty batch of this client. *)
Theorem store_reachable_inv s : store_reachable s -> store_inv s.
Proof. apply reachable_store_inv. Qed.
End invariant.

(** [C38] The outbox never outgrows its budget: its bodies stay within the hard cap,
    and those that are not priority leave the reserve free, so a priority
    batch is refused only when priority batches hold the rest of the reserve. *)
Theorem outbox_budget s n :
  store_reachable s ->
  within_budget (cs_db s outbox)
  /\ (n + body_bytes (select ox_is_priority (cs_db s outbox)) <= OUTBOX_PRIORITY_RESERVE_BYTES ->
     ensure_outbox_capacity_tx n true (cs_db s) = Ok (tt, cs_db s)).
Proof.
  intros (root & client & Hr).
  destruct (queue_run _ _ Hr (queue_empty root client)) as [[Ht Hrt] _]. split; [done|]. intros Hn.
  pose proof (body_bytes_split ox_is_priority (cs_db s outbox)) as Hs.
  change (select (fun r => negb (ox_is_priority r)) (cs_db s outbox)) with (routine (cs_db s outbox)) in Hs.
  unfold ensure_outbox_capacity_tx. apply tx_bind_Ok. exists (cs_db s outbox), (cs_db s).
  split; [apply outbox_fetch_Ok; by rewrite select_true|].
  apply tx_bind_Ok. exists (select ox_is_priority (cs_db s outbox)), (cs_db s).
  split; [by apply outbox_fetch_Ok|]. cbv zeta.
  apply tx_bind_Ok. exists tt, (cs_db s). split; [|done]. apply require_Ok. split; [|done].
  apply Z.leb_le. cbn [Row] in *. lia.
Qed.

(** ** Sequences *)
(** A later version of a task row. *)
Definition advances (r r' : ActiveTaskRow) : Prop :=
  at_task_ref r = at_task_ref r' /\ row_task r = row_task r' /\ at_sequence r <= at_sequence r'
  /\ (forall t, at_first_seen_at r = Some t -> at_first_seen_at r' = Some t).
#[export] Instance advances_preorder : PreOrder advances.
Proof.
  split; [by intros r | intros r1 r2 r3 (? & ? & ? & ?) (? & ? & ? & ?)].
  split; [congruence|]. split; [congruence|]. split; [lia | auto].
Qed.
Definition tasks_advance (db db' : Database Row) : Prop :=
  forall r, r ∈ db active_tasks -> exists r', r' ∈ db' active_tasks /\ advances r r'.
#[export] Instance tasks_advance_preorder : PreOrder tasks_advance.
Proof.
  split; [by intros db r Hr; exists r|]. intros db1 db2 db3 H12 H23 r Hr.
  destruct (H12 r Hr) as (r2 & Hr2 & ?), (H23 _ Hr2) as (r3 & Hr3 & ?). exists r3. by split; [|etrans].
Qed.
Lemma advance_frame ts {A} (m : StoreTx A) :
  active_tasks ∉ ts -> tx_rel (frame ts) m -> tx_rel tasks_advance m.
Proof. intros Ht Hm db a db' E r. rewrite (Hm _ _ _ E _ Ht). intros Hr. by exists r. Qed.
Lemma advance_update p f : (forall r, advances r (f r)) -> tx_rel tasks_advance (update active_tasks p f).
Proof.
  intros Hf db u db' ->%update_Ok r Hr. tab_simpl. exists (if p r then f r else r).
  split; [apply list_elem_of_fmap; by exists r | by destruct (p r)].
Qed.
Lemma find_task tref (t : list ActiveTaskRow) :
  List.find (fun r => String.eqb (at_task_ref r) tref) t = find_key (row_key active_tasks) tref t.
Proof. apply find_ext. intros r. cbn. by destruct (String.eqb_spec (at_task_ref r) tref); case_bool_decide. Qed.
(** Replacing a row unless the update is stale. *)
Lemma advance_upsert r merge seq id db :
  is_some_and (fun row => stale row seq id)
    (find_key (row_key active_tasks) (at_task_ref r) (db active_tasks)) = false ->
  (forall old, at_sequence old <= seq -> advances old (merge old)) ->
  tasks_advance db (set_table active_tasks (upsert (row_key active_tasks) r merge (db active_tasks)) db).
Proof.
  intros Hst Hm x Hx. tab_simpl. destruct (upsert_image (row_key active_tasks) r merge _ x Hx) as [?|[Hf ?]];
    [by exists x|]. exists (merge x). split; [done|]. cbn [row_key] in *. rewrite Hf in Hst. apply Hm.
  cbn in Hst. unfold stale in Hst. apply orb_false_iff in Hst as [Hst _].
  by apply Z.ltb_ge in Hst.
Qed.
#[local] Abbreviation task_fetch_Ok := (@Sql.fetch_optional_Ok Tab StoreError Row active_tasks).
Lemma advance_summary s : tx_rel tasks_advance (upsert_task_summary_tx s).
Proof.
  intros db b db' E. unfold upsert_task_summary_tx in E. cbv zeta in E.
  apply tx_bind_Ok in E as (row & ? & [-> ->]%task_fetch_Ok & E).
  cbn [Row] in E. rewrite find_task in E. destruct (is_some_and _ _) eqn:Hst.
  - by apply tx_ret_Ok in E as [_ ->].
  - apply tx_bind_Ok in E as ([] & ? & ->%insert_or_update_Ok & [_ ->]%tx_ret_Ok).
    eapply advance_upsert; [exact Hst | done].
Qed.
Lemma transition_row_ref t existing : at_task_ref (transition_row t existing) = task_ref (trn_task t).
Proof. by destruct existing. Qed.
Lemma advance_transition t : tx_rel tasks_advance (upsert_transition_tx t).
Proof.
  intros db b db' E. unfold upsert_transition_tx in E. cbv zeta in E.
  apply tx_bind_Ok in E as (row & ? & [-> ->]%task_fetch_Ok & E).
  cbn [Row] in E. rewrite find_task in E. destruct (is_some_and _ _) eqn:Hst.
  - by apply tx_ret_Ok in E as [_ ->].
  - apply tx_bind_Ok in E as ([] & ? & ->%insert_or_update_Ok & [_ ->]%tx_ret_Ok).
    eapply advance_upsert; [rewrite transition_row_ref; exact Hst | done].
Qed.
#[local] Hint Extern 1 (tx_rel tasks_advance (update active_tasks _ _)) =>
  apply advance_update; intros ?; split_and!; [done | done | cbn; lia | intros ? E; cbn; by rewrite E] : tx.
#[local] Hint Extern 2 (tx_rel tasks_advance (insert_or_update attempts _ _)) =>
  apply (advance_frame [attempts]); [set_solver | apply insert_or_update_frame; set_solver] : tx.
Lemma part_advance client A (m : StoreTx A) : part_of client m -> tx_rel tasks_advance m.
Proof.
  intros p. pose proof (part_frame _ _ _ p) as Hf. destruct p; cbn [part_tables] in Hf;
    try (eapply advance_frame; [|exact Hf]; set_solver); [|tx_walk].
  destruct r as [s|s|t|a|g|h|pr|e]; cbn [apply_record_tx].
  - unfold merge_session_tx. tx_walk.
  - apply advance_summary.
  - apply tx_rel_bind; [typeclasses eauto | apply advance_transition | intros; tx_walk].
  - unfold upsert_attempt_tx. tx_walk.
  - tx_walk.
  - apply (advance_frame [capture_gaps]); [set_solver|]. unfold upsert_gap_tx. tx_walk.
  - apply (advance_frame [processes]); [set_solver|]. unfold upsert_process_tx. tx_walk.
  - tx_walk.
Qed.
Lemma run_advance s s' : rtc store_step s s' -> tasks_advance (cs_db s) (cs_db s').
Proof.
  induction 1 as [|s1 s2 s3 [op] _ IH]; [done|]. etrans; [|exact IH].
  exact (run_op_rel tasks_advance op s1 (part_advance _)).
Qed.
(** Whatever runs, a task is never lost from the store and never goes back:
    its row keeps its reference, identity and first-seen time, and its
    sequence number only grows. *)
Theorem tasks_never_regress s s' r :
  rtc store_step s s' -> r ∈ cs_db s active_tasks ->
  exists r', r' ∈ cs_db s' active_tasks /\ advances r r'.
Proof. intros Hr. apply (run_advance _ _ Hr). Qed.
End steps.

(** ** Witnesses *)
Module StoreFixture.
Import TimeFixture CodecFixture BlobFixture.
Definition client : ClientInstance := mkClientInstance "client" (uuid7 2) "host" "linux" "0.1" 900.
Definition key : TaskKey := mkTaskKey "client" (mkProviderId "openai") "session" "thread" "turn".
Definition now : Z := 5 * 10 ^ 9.
Definition summary (sequence : Z) : TaskSummary :=
  {| tsm_task := key; tsm_conversation_title := Some "title"; tsm_phase := TaskPhase_Running;
     tsm_outcome := None; tsm_sequence := sequence; tsm_last_event_id := uuid7 40;
     tsm_started_at := now; tsm_updated_at := now; tsm_terminal_at := None; tsm_attempt_count := 1;
     tsm_model := None; tsm_tool_names := []; tsm_response_ids := []; tsm_usage := no_usage;
     tsm_completeness := Completeness_Complete; tsm_last_error := None |}.
Definition heartbeat : HeartbeatSummary :=
  mkHeartbeatSummary (uuid7 2) now "0.1" (mkCaptureHealth true false true 0 1 0 None).
Definition records : list SummaryRecord :=
  [SummaryRecord_Task (summary 1); SummaryRecord_Heartbeat heartbeat].
Definition supply : Supply :=
  mkSupply (fun b => uuid7 (100 + N.of_nat b)) (fun b i => uuid7 (1000 * N.of_nat (S b) + N.of_nat i))
    (fun b i => uuid7 (2000 * N.of_nat (S b) + N.of_nat i)) (fun _ => 5000) (fun _ => 5000) (fun _ => 5000).
(** The batch these records become, and a CBOR writer that knows it. *)
Definition queued_batch : IngestBatch :=
  match (_ ← apply_records records;
         build_wire_batch_tx client supply 0 records) no_rows with
  | Ok (w, _) => w
  | Err _ => sample_batch
  end.
#[export] Instance cbor : CborApi := {|
  ser_error := unit; de_error := unit;
  into_writer b := if decide (b = queued_batch) then Ok [x2a; x2b] else Err tt;
  from_reader p := if decide (take 2 p = [x2a; x2b]) then Ok (queued_batch, 2%nat) else Err tt |}.
#[export] Instance laws : CodecLaws.
Proof.
  split.
  - intros b p. cbn. case_decide; [|done]. intros [= <-]. subst. cbn. done.
  - intros p level c [= <-]. done.
Qed.
Definition store0 : ClientStore := open_empty "/blobs" client.
Definition store1 : ClientStore := run_op (OpPersist supply records [input [x2a; x2b]]) store0.
Definition store2 : ClientStore := run_op (OpPersist supply [SummaryRecord_Task (summary 3)] []) store1.

Lemma store1_reachable : store_reachable store1.
Proof. exists "/blobs", client. apply rtc_once. apply (step_op store0). Qed.
Lemma store1_client : ci_client_id (cs_client store1) = "client".
Proof. vm_compute. reflexivity. Qed.
Lemma store_reachable_inv_witness :
  length (cs_db store1 outbox) = 1%nat
  /\ Forall (fun r => exists b, queued "client" r b) (cs_db store1 outbox).
Proof.
  destruct (store_reachable_inv store1 store1_reachable) as [_ _ [_ Hq] _].
  rewrite store1_client in Hq. split; [by vm_compute | exact Hq].
Defined.
Lemma outbox_budget_witness : within_budget (cs_db store1 outbox)
  /\ ensure_outbox_capacity_tx (64 * 1024 * 1024 - 3) true (cs_db store1) = Ok (tt, cs_db store1).
Proof.
  destruct (outbox_budget store1 (64 * 1024 * 1024 - 3) store1_reachable) as [Hb Hc].
  split; [exact Hb|]. apply Hc. apply Z.leb_le. vm_compute. reflexivity.
Defined.
Lemma tasks_never_regress_witness : exists r r',
  r ∈ cs_db store1 active_tasks /\ r' ∈ cs_db store2 active_tasks /\ advances r r'.
Proof.
  destruct (cs_db store1 active_tasks) as [|r rows] eqn:E.
  - assert (Hne : is_some (head (cs_db store1 active_tasks)) = true) by (vm_compute; reflexivity).
    by rewrite E in Hne.
  - destruct (tasks_never_regress store1 store2 r) as (r' & Hr' & Ha).
    + apply rtc_once. apply (step_op store1).
    + rewrite E. by apply elem_of_cons; left.
    + exists r, r'. split; [by apply elem_of_cons; left | exact (conj Hr' Ha)].
Defined.
End StoreFixture.
