(* ===== verification/Service.v ===== *)
(** * The client's service and its HTTP calls

    [src/crates/client/src/transport.rs] and the operations of
    [src/crates/client/src/service.rs]: one round of the flush, command, cleanup
    and heartbeat loops, the back-off of the loops, and the decoding of
    fixtures.  The network is an argument: the answer to a request, or the
    error of the HTTP client. *)
From Stdlib Require Import ZArith Lia Strings.Byte Strings.String.
From S2P Require Import Prelude RustStr Digest Types Fixtures Validation Codec Table Sql Model Mapping Blob Store.
Local Open Scope string_scope.
Local Open Scope list_scope.
Local Open Scope Z_scope.

(** A request as [reqwest] sends it and the response it gets. *)
Record HttpRequest : Type := mkHttpRequest {
  hq_method : string;
  hq_url : string;
  hq_bearer : string;
  hq_headers : list (string * string);
  hq_body : bytes }.
Record HttpResponse : Type := mkHttpResponse {
  hs_status : Z;
  hs_body : bytes }.

(** The [reqwest] crate, and [serde_json] on the bodies it sends and reads. *)
Class ReqwestApi := {
  reqwest_error : Type;
  (** [error.to_string()] *)
  error_text : reqwest_error -> string;
  (** the error of [error_for_status] *)
  status_error : Z -> reqwest_error;
  json_of_manifests : list ContentObjectManifest -> bytes;
  json_of_chunk : ContentUploadChunk -> bytes;
  json_of_result : ContentUploadResult -> bytes;
  ack_of_json : bytes -> result reqwest_error IngestAck;
  poll_of_json : bytes -> result reqwest_error CommandPollResponse }.

Section service.
Context `{UuidApi} `{DigestApi} `{CborApi} `{ZstdApi} `{TimeApi} `{ReqwestApi}.

(** ** transport.rs *)
(* src: src/crates/client/src/transport.rs:12-16 ServerApi *)
Record ServerApi : Type := mkServerApi {
  sv_base_url : string;
  sv_api_token : string }.
(* src: src/crates/client/src/transport.rs:19-25 ServerApi::new *)
Definition ServerApi_new (server_url api_token : string) : ServerApi :=
  mkServerApi (trim_end_byte "/"%byte server_url) api_token.

Definition Network : Type := HttpRequest -> result reqwest_error HttpResponse.
(** [response.error_for_status()]: 4xx and 5xx are errors. *)
Definition error_for_status (r : HttpResponse) : result reqwest_error HttpResponse :=
  if (400 <=? hs_status r) && (hs_status r <? 600) then Err (status_error (hs_status r)) else Ok r.

Definition ingest_request (api : ServerApi) (payload_sha256 : string) (body : bytes) : HttpRequest :=
  mkHttpRequest "POST" (sv_base_url api +:+ "/api/v1/ingest") (sv_api_token api)
    [("content-type", "application/cbor"); ("content-encoding", "zstd");
     ("x-payload-sha256", payload_sha256)] body.
(* src: src/crates/client/src/transport.rs:27-49 ServerApi::post_ingest *)
Definition post_ingest (api : ServerApi) (net : Network) (payload_sha256 : string) (body : bytes)
    : result reqwest_error (option IngestAck) :=
  response ← net (ingest_request api payload_sha256 body);
  if hs_status response =? 204 then mret None
  else
    _ ← error_for_status response;
    ack ← ack_of_json (hs_body response);
    mret (Some ack).
Definition poll_request (api : ServerApi) (wait_seconds : Z) : HttpRequest :=
  mkHttpRequest "GET"
    (sv_base_url api +:+ "/api/v1/client/commands/next?wait=" +:+ show_Z wait_seconds)
    (sv_api_token api) [] [].
(* src: src/crates/client/src/transport.rs:51-71 ServerApi::poll_commands *)
Definition poll_commands (api : ServerApi) (net : Network) (wait_seconds : Z)
    : result reqwest_error CommandPollResponse :=
  response ← net (poll_request api wait_seconds);
  if hs_status response =? 204 then mret (mkCommandPollResponse 0 [])
  else
    _ ← error_for_status response;
    poll_of_json (hs_body response).
(** A POST of a JSON body below [/api/v1/client/commands/]. *)
Definition command_request (api : ServerApi) (command_id : Uuid) (suffix : string) (body : bytes)
    : HttpRequest :=
  mkHttpRequest "POST"
    (sv_base_url api +:+ "/api/v1/client/commands/" +:+ uuid_to_string command_id +:+ suffix)
    (sv_api_token api) [("content-type", "application/json")] body.
Definition post_json (api : ServerApi) (net : Network) (command_id : Uuid) (suffix : string)
    (body : bytes) : result reqwest_error unit :=
  response ← net (command_request api command_id suffix body);
  _ ← error_for_status response;
  mret tt.
(* src: src/crates/client/src/transport.rs:73-89 ServerApi::post_manifests *)
Definition post_manifests (api : ServerApi) (net : Network) (command_id : Uuid)
    (manifests : list ContentObjectManifest) : result reqwest_error unit :=
  post_json api net command_id "/content/manifests" (json_of_manifests manifests).
(* src: src/crates/client/src/transport.rs:91-103 ServerApi::post_chunk *)
Definition post_chunk (api : ServerApi) (net : Network) (command_id : Uuid) (chunk : ContentUploadChunk)
    : result reqwest_error unit :=
  post_json api net command_id "/content/chunks" (json_of_chunk chunk).
(* src: src/crates/client/src/transport.rs:105-121 ServerApi::post_upload_result *)
Definition post_upload_result (api : ServerApi) (net : Network) (command_id : Uuid)
    (r : ContentUploadResult) : result reqwest_error unit :=
  post_json api net command_id "/result" (json_of_result r).

(** ** service.rs *)
(** What [anyhow::Error] carries here. *)
Inductive ClientError : Type :=
| ClientError_Store (e : StoreError)
| ClientError_Http (e : reqwest_error)
| ClientError_Blob (e : BlobError)
| ClientError_Base64 (message : string)
| ClientError_Panic.

Definition on_store {A} (r : result StoreError A * ClientStore) : result ClientError A * ClientStore :=
  (map_err ClientError_Store r.1, r.2).
(** [m?; k] on the store. *)
Definition and_then {A B} (m : result ClientError A * ClientStore)
    (k : A -> ClientStore -> result ClientError B * ClientStore) : result ClientError B * ClientStore :=
  match m with
  | (Ok a, s) => k a s
  | (Err e, s) => (Err e, s)
  end.

(** The clock readings of one round. *)
Record Clock : Type := mkClock {
  ck_due : OffsetDateTime;      (** [now_utc] given to the [next_due_] query *)
  ck_step : nat -> Z;           (** [now_ms] readings of the step in between *)
  ck_retry : OffsetDateTime;    (** [now_utc] of a retry *)
  ck_done : Z;                  (** [now_ms] of an acknowledgement or completion *)
  ck_next : Z }.                (** the reading after it *)

(* src: src/crates/client/src/service.rs:101-119 ClientService::flush_outbox_once *)
Definition flush_outbox_once (api : ServerApi) (net : Network) (ck : Clock) (s : ClientStore)
    : result ClientError unit * ClientStore :=
  and_then (on_store (run_db (next_due_batch (ck_due ck)) s)) (fun batch s =>
  match batch with
  | None => (Ok tt, s)
  | Some batch =>
    match post_ingest api net (pb_payload_sha256 batch) (pb_body batch) with
    | Ok (Some ack) => on_store (run_db (mark_batch_acked (ck_done ck) ack) s)
    | Ok None => (Ok tt, s)
    | Err error =>
      on_store (run_db (mark_batch_retry (ck_retry ck) (pb_batch_id batch) (error_text error)) s)
    end
  end).

(* src: src/crates/client/src/service.rs:121-127 ClientService::poll_command_once *)
Definition poll_command_once (api : ServerApi) (net : Network) (wait_seconds : Z) (now : nat -> Z)
    (s : ClientStore) : result ClientError unit * ClientStore :=
  match poll_commands api net wait_seconds with
  | Err e => (Err (ClientError_Http e), s)
  | Ok response => on_store (run_db (save_commands now 0 (cp_commands response)) s)
  end.

Fixpoint post_chunks (api : ServerApi) (net : Network) (command_id : Uuid)
    (chunks : list ContentUploadChunk) : result reqwest_error unit :=
  match chunks with
  | [] => mret tt
  | chunk :: chunks' =>
    _ ← post_chunk api net command_id chunk;
    post_chunks api net command_id chunks'
  end.
(** [Ok (Some e)]: a chunk was refused, and the rest is not sent. *)
(* src: src/crates/client/src/service.rs:155-164 execute_due_command_once: chunks *)
Fixpoint upload_objects (api : ServerApi) (net : Network) (command_id : Uuid) (s : ClientStore)
    (manifests : list ContentObjectManifest) : result ClientError (option reqwest_error) :=
  match manifests with
  | [] => mret None
  | manifest :: manifests' =>
    loaded ← ok_or ClientError_Panic (load_chunks manifest s);
    chunks ← map_err ClientError_Blob loaded;
    match post_chunks api net command_id chunks with
    | Err e => mret (Some e)
    | Ok _ => upload_objects api net command_id s manifests'
    end
  end.
(* src: src/crates/client/src/service.rs:129-178 ClientService::execute_due_command_once *)
Definition execute_due_command_once (api : ServerApi) (net : Network) (ck : Clock) (s : ClientStore)
    : result ClientError unit * ClientStore :=
  and_then (on_store (run_db (next_due_command (ck_due ck)) s)) (fun stored s =>
  match stored with
  | None => (Ok tt, s)
  | Some stored =>
    and_then (on_store (run_db (prepare_upload (ck_step ck) (sq_command stored)) s)) (fun prepared s =>
    match prepared with
    | UploadPreparation_Expired command_id result =>
      match post_upload_result api net command_id result with
      | Err e => (Err (ClientError_Http e), s)
      | Ok _ => on_store (run_db (complete_command (ck_done ck) (ck_next ck) command_id result false) s)
      end
    | UploadPreparation_Ready work =>
      let command_id := uk_command_id work in
      let fail error := on_store (run_db (fail_command (ck_retry ck) command_id (error_text error) true) s) in
      match post_manifests api net command_id (uk_manifests work) with
      | Err error => fail error
      | Ok _ =>
        match upload_objects api net command_id s (uk_manifests work) with
        | Err e => (Err e, s)
        | Ok (Some error) => fail error
        | Ok None =>
          let result := mkContentUploadResult (uk_request_id work) ContentUploadStatus_Stored None in
          match post_upload_result api net command_id result with
          | Err e => (Err (ClientError_Http e), s)
          | Ok _ =>
            on_store (run_db (complete_command (ck_done ck) (ck_next ck) command_id result false) s)
          end
        end
      end
    end)
  end).

(* src: src/crates/client/src/service.rs:180-182 ClientService::cleanup_once *)
Definition cleanup_once (now : OffsetDateTime) (s : ClientStore) : result ClientError unit * ClientStore :=
  on_store (cleanup now s).
(** [runtime_health.snapshot] is the argument [health]. *)
(* src: src/crates/client/src/service.rs:184-199 ClientService::emit_heartbeat_once *)
Definition emit_heartbeat_once (sp : Supply) (health : Z -> Z -> CaptureHealth) (instance_id : Uuid)
    (client_version : string) (now : OffsetDateTime) (s : ClientStore)
    : result ClientError unit * ClientStore :=
  let snapshot := health_snapshot (cs_db s) in
  and_then (on_store (persist_ingress sp
    [SummaryRecord_Heartbeat (mkHeartbeatSummary instance_id now client_version
       (health (wrap32 (hsn_active_flows snapshot)) (hsn_outbox_bytes snapshot)))] [] s))
    (fun _ s => (Ok tt, s)).
(* src: src/crates/client/src/service.rs:207-213 ClientService::run_once *)
Definition run_once (api : ServerApi) (net : Network) (wait_seconds : Z) (flush command : Clock)
    (now : nat -> Z) (cleanup_at : OffsetDateTime) (s : ClientStore)
    : result ClientError unit * ClientStore :=
  and_then (flush_outbox_once api net flush s) (fun _ s =>
  and_then (poll_command_once api net wait_seconds now s) (fun _ s =>
  and_then (execute_due_command_once api net command s) (fun _ s =>
  cleanup_once cleanup_at s))).

(** The delay of a loop after each round of it: none after a success, and a
    doubling one, up to half a minute, after failures. *)
(* src: src/crates/client/src/service.rs:344-355 run_daemon_with_components: flush loop *)
Fixpoint loop_delays (backoff_seconds : Z) (rounds : list bool) : list Z :=
  match rounds with
  | [] => []
  | true :: rounds' => 0 :: loop_delays 1 rounds'
  | false :: rounds' => backoff_seconds :: loop_delays (Z.min (backoff_seconds * 2) 30) rounds'
  end.

(** ** Fixtures *)
Definition BASE64_TABLE : bytes :=
  as_bytes "ABCDEFGHIJKLMNOPQRSTUVWXYZabcdefghijklmnopqrstuvwxyz0123456789+/".
(** [reverse[byte]]: 255 for a byte that is not in the table. *)
Definition base64_reverse (b : byte) : Z :=
  match position b BASE64_TABLE with
  | Some i => Z.of_nat i
  | None => 255
  end.
(** [nums] and [padding] of one chunk. *)
Fixpoint base64_nums (chunk : bytes) : result string (list Z * nat) :=
  match chunk with
  | [] => mret ([], O)
  | b :: chunk' =>
    if Byte.eqb b "="%byte then
      rest ← base64_nums chunk';
      mret (0 :: rest.1, S rest.2)
    else
      _ ← guard_or (negb (base64_reverse b =? 255)) "invalid base64 character";
      rest ← base64_nums chunk';
      mret (base64_reverse b :: rest.1, rest.2)
  end.
(** [u8] shifts drop the high bits. *)
Definition base64_out (n0 n1 n2 n3 : Z) (padding : nat) : bytes :=
  [to_u8 (Z.lor (wrap 8 (Z.shiftl n0 2)) (Z.shiftr n1 4))]
  ++ (if (padding <? 2)%nat then [to_u8 (Z.lor (wrap 8 (Z.shiftl n1 4)) (Z.shiftr n2 2))] else [])
  ++ (if (padding <? 1)%nat then [to_u8 (Z.lor (wrap 8 (Z.shiftl n2 6)) n3)] else []).
Fixpoint base64_chunks (l : bytes) : result string bytes :=
  match l with
  | a :: b :: c :: d :: l' =>
    chunk ← base64_nums [a; b; c; d];
    match chunk with
    | ([n0; n1; n2; n3], padding) =>
      out ← base64_chunks l';
      mret (base64_out n0 n1 n2 n3 padding ++ out)
    | _ => mret []
    end
  | _ => mret []
  end.
(** [u8::is_ascii_whitespace]. *)
Definition is_ascii_whitespace (b : byte) : bool :=
  bool_decide (b ∈ [x20; x09; x0a; x0c; x0d]).
(* src: src/crates/client/src/service.rs:504-544 base64_decode *)
Definition base64_decode (value : string) : result string bytes :=
  let filtered := List.filter (fun b => negb (is_ascii_whitespace b)) (as_bytes value) in
  _ ← guard_or (length filtered mod 4 =? 0)%nat "invalid base64 length";
  base64_chunks filtered.

(* src: src/crates/client/src/service.rs:44-53 FixtureContent *)
Record FixtureContent : Type := mkFixtureContent {
  fx_task : TaskKey;
  fx_part : ContentPart;
  fx_media_type : string;
  fx_body_base64 : string;
  fx_headers : gmap string string;
  fx_created_at : OffsetDateTime }.
(* src: src/crates/client/src/service.rs:36-41 FixtureBundle *)
Record FixtureBundle : Type := mkFixtureBundle {
  fb_records : list SummaryRecord;
  fb_contents : list FixtureContent }.
(* src: src/crates/client/src/service.rs:73-77 ClientService::ingest *)
Definition ingest (sp : Supply) (records : list SummaryRecord) (contents : list StoredContentInput)
    (s : ClientStore) : result ClientError PersistOutcome * ClientStore :=
  on_store (persist_ingress sp records contents s).
Definition fixture_content (c : FixtureContent) : result ClientError StoredContentInput :=
  body ← map_err ClientError_Base64 (base64_decode (fx_body_base64 c));
  mret (mkStoredContentInput (fx_task c) (fx_part c) (fx_media_type c) body (fx_headers c)
          (fx_created_at c)).
Fixpoint fixture_contents (l : list FixtureContent) : result ClientError (list StoredContentInput) :=
  match l with
  | [] => mret []
  | c :: l' =>
    input ← fixture_content c;
    inputs ← fixture_contents l';
    mret (input :: inputs)
  end.
(* src: src/crates/client/src/service.rs:79-99 ClientService::ingest_fixture *)
Definition ingest_fixture (sp : Supply) (fixture : FixtureBundle) (s : ClientStore)
    : result ClientError PersistOutcome * ClientStore :=
  match fixture_contents (fb_contents fixture) with
  | Err e => (Err e, s)
  | Ok contents => ingest sp (fb_records fixture) contents s
  end.
End service.

(** ** Base64 *)
(** The encoding of RFC 4648, as a reference. *)
Definition base64_digit (n : Z) : byte := List.nth (Z.to_nat n) BASE64_TABLE x00.
Fixpoint base64_encode (l : bytes) : bytes :=
  match l with
  | [] => []
  | [a] => [base64_digit (u8 a / 4); base64_digit (u8 a mod 4 * 16); "="; "="]%byte
  | [a; b] =>
    [base64_digit (u8 a / 4); base64_digit (u8 a mod 4 * 16 + u8 b / 16);
     base64_digit (u8 b mod 16 * 4); "="%byte]
  | a :: b :: c :: l' =>
    [base64_digit (u8 a / 4); base64_digit (u8 a mod 4 * 16 + u8 b / 16);
     base64_digit (u8 b mod 16 * 4 + u8 c / 64); base64_digit (u8 c mod 64)] ++ base64_encode l'
  end.

#[local] Ltac Zify.zify_post_hook ::= Z.to_euclidean_division_equations.
(** Statements on six-bit values, by enumeration. *)
Definition six_bits : list Z := seqZ 0 64.
Lemma six_bits_elem n : 0 <= n < 64 -> n ∈ six_bits.
Proof. intros. apply elem_of_seqZ. lia. Qed.
Definition digit_ok (n : Z) : bool :=
  (base64_reverse (base64_digit n) =? n) && negb (Byte.eqb (base64_digit n) "="%byte)
  && negb (is_ascii_whitespace (base64_digit n)).
Lemma digits_ok n : 0 <= n < 64 -> digit_ok n = true.
Proof.
  intros Hn. assert (Hall : forallb digit_ok six_bits = true) by (vm_compute; reflexivity).
  rewrite forallb_forall in Hall. apply Hall, list_elem_of_In. by apply six_bits_elem.
Qed.
Definition shifts_ok (p : Z * Z) : bool :=
  let '(m, n) := p in
  (Z.lor (wrap 8 (Z.shiftl m 2)) (Z.shiftr n 4) =? m * 4 + n / 16)
  && (Z.lor (wrap 8 (Z.shiftl m 4)) (Z.shiftr n 2) =? m mod 16 * 16 + n / 4)
  && (Z.lor (wrap 8 (Z.shiftl m 6)) n =? m mod 4 * 64 + n).
Lemma shifts_spec m n : 0 <= m < 64 -> 0 <= n < 64 ->
  Z.lor (wrap 8 (Z.shiftl m 2)) (Z.shiftr n 4) = m * 4 + n / 16
  /\ Z.lor (wrap 8 (Z.shiftl m 4)) (Z.shiftr n 2) = m mod 16 * 16 + n / 4
  /\ Z.lor (wrap 8 (Z.shiftl m 6)) n = m mod 4 * 64 + n.
Proof.
  intros Hm Hn.
  assert (Hall : forallb (fun m => forallb (fun n => shifts_ok (m, n)) six_bits) six_bits = true)
    by (vm_compute; reflexivity).
  rewrite forallb_forall in Hall. specialize (Hall m (proj1 (list_elem_of_In _ _) (six_bits_elem m Hm))).
  rewrite forallb_forall in Hall. specialize (Hall n (proj1 (list_elem_of_In _ _) (six_bits_elem n Hn))).
  unfold shifts_ok in Hall. by rewrite !andb_true_iff, !Z.eqb_eq in Hall; destruct Hall as [[? ?] ?].
Qed.
Lemma nums_digit n l : 0 <= n < 64 ->
  base64_nums (base64_digit n :: l) = (rest ← base64_nums l; mret (n :: rest.1, rest.2)).
Proof.
  intros Hn. pose proof (digits_ok n Hn) as Hd. unfold digit_ok in Hd.
  rewrite !andb_true_iff, Z.eqb_eq, !negb_true_iff in Hd. destruct Hd as [[Hr He] _].
  cbn [base64_nums]. rewrite He, Hr. by rewrite (proj2 (Z.eqb_neq n 255)) by lia.
Qed.
Lemma to_u8_eq z b : z = u8 b -> to_u8 z = b.
Proof. intros ->. apply to_u8_u8. Qed.
(** The bytes of a group and the six-bit values they are cut into. *)
Lemma out_first x n : 0 <= n < 16 -> to_u8 (Z.lor (wrap 8 (Z.shiftl (u8 x / 4) 2))
  (Z.shiftr (u8 x mod 4 * 16 + n) 4)) = x.
Proof.
  intros Hn. pose proof (u8_range x). apply to_u8_eq.
  rewrite (proj1 (shifts_spec (u8 x / 4) (u8 x mod 4 * 16 + n) ltac:(lia) ltac:(lia))). lia.
Qed.
Lemma out_second x m n : 0 <= m < 4 -> 0 <= n < 4 ->
  to_u8 (Z.lor (wrap 8 (Z.shiftl (m * 16 + u8 x / 16) 4)) (Z.shiftr (u8 x mod 16 * 4 + n) 2)) = x.
Proof.
  intros Hm Hn. pose proof (u8_range x). apply to_u8_eq.
  rewrite (proj1 (proj2 (shifts_spec (m * 16 + u8 x / 16) (u8 x mod 16 * 4 + n) ltac:(lia) ltac:(lia)))). lia.
Qed.
Lemma out_third x m : 0 <= m < 16 ->
  to_u8 (Z.lor (wrap 8 (Z.shiftl (m * 4 + u8 x / 64) 6)) (u8 x mod 64)) = x.
Proof.
  intros Hm. pose proof (u8_range x). apply to_u8_eq.
  rewrite (proj2 (proj2 (shifts_spec (m * 4 + u8 x / 64) (u8 x mod 64) ltac:(lia) ltac:(lia)))). lia.
Qed.
Lemma chunks_step a b c d l nums padding :
  base64_nums [a; b; c; d] = Ok (nums, padding) ->
  base64_chunks (a :: b :: c :: d :: l)
  = match nums with
    | [n0; n1; n2; n3] => out ← base64_chunks l; mret (base64_out n0 n1 n2 n3 padding ++ out)
    | _ => mret []
    end.
Proof. cbn [base64_chunks]. by intros ->. Qed.
Lemma base64_chunks_encode b : base64_chunks (base64_encode b) = Ok b.
Proof.
  induction b as [b IH] using (well_founded_induction (well_founded_ltof _ (@length byte))).
  destruct b as [|x [|y [|z l]]]; [done|..]; cbn [base64_encode app];
    pose proof (u8_range x); try pose proof (u8_range y); try pose proof (u8_range z).
  - erewrite chunks_step by (rewrite !nums_digit by lia; reflexivity).
    cbn [base64_chunks mbind result_bind mret result_ret]. unfold base64_out. cbn [app Nat.ltb Nat.leb fst snd]. do 2 f_equal.
    rewrite <- (Z.add_0_r (u8 x mod 4 * 16)). by apply out_first.
  - erewrite chunks_step by (rewrite !nums_digit by lia; reflexivity).
    cbn [base64_chunks mbind result_bind mret result_ret]. unfold base64_out. cbn [app Nat.ltb Nat.leb fst snd]. rewrite out_first by lia. do 3 f_equal.
    rewrite <- (Z.add_0_r (u8 y mod 16 * 4)). apply out_second; lia.
  - erewrite chunks_step by (rewrite !nums_digit by lia; reflexivity).
    rewrite IH by (unfold ltof; cbn; lia). cbn [mbind result_bind mret result_ret].
    unfold base64_out. cbn [app Nat.ltb Nat.leb fst snd]. by rewrite out_first, out_second, out_third by lia.
Qed.
Lemma encode_shape b : (length (base64_encode b) mod 4 = 0)%nat
  /\ forallb (fun x => negb (is_ascii_whitespace x)) (base64_encode b) = true.
Proof.
  assert (Hd : forall n, 0 <= n < 64 -> negb (is_ascii_whitespace (base64_digit n)) = true).
  { intros n Hn. pose proof (digits_ok n Hn) as Hn'. unfold digit_ok in Hn'.
    rewrite !andb_true_iff in Hn'. apply Hn'. }
  induction b as [b IH] using (well_founded_induction (well_founded_ltof _ (@length byte))).
  destruct b as [|x [|y [|z l]]]; [done|..]; cbn [base64_encode app forallb length];
    pose proof (u8_range x); try pose proof (u8_range y); try pose proof (u8_range z);
    rewrite !Hd by lia; try done.
  destruct (IH l) as [Hl ->]; [unfold ltof; cbn; lia|]. split; [|done].
  change (S (S (S (S ?n)))) with (4 + n)%nat. rewrite Nat.add_comm, <- (Nat.mul_1_l 4) at 1.
  by rewrite Nat.Div0.mod_add.
Qed.

(** A fixture's body is the one that was encoded, however the text is wrapped:
    decoding what base64 made of any bytes, with ASCII white space anywhere,
    gives the bytes back. *)
Theorem base64_roundtrip value b :
  List.filter (fun x => negb (is_ascii_whitespace x)) (as_bytes value) = base64_encode b ->
  base64_decode value = Ok b.
Proof.
  intros E. unfold base64_decode. rewrite E. destruct (encode_shape b) as [Hl _].
  rewrite Hl. cbn [Nat.eqb guard_or mbind result_bind]. apply base64_chunks_encode.
Qed.
Lemma base64_roundtrip_witness :
  base64_decode "Y29k ZXg=" = Ok (as_bytes "codex") /\ base64_decode "====" = Ok [x00].
Proof. split; [by apply base64_roundtrip; vm_compute | vm_compute; reflexivity]. Defined.
