(* ===== verification/ContentUpload.v ===== *)
(** * Uploading content over HTTP

    What becomes of a stored body between the client's [load_chunks] and the
    server's [upload_chunk]: the JSON text of a chunk, axum's [Json] extractor
    with its limit on the body, the handler.  An object whose chunks fit arrives
    ([stored_blob_arrives]); one of a mebibyte or more does not, because a full
    chunk is too long as JSON ([full_chunk_refused]). *)
From Stdlib Require Import ZArith Lia Strings.Byte Strings.String.
From S2P Require Import Service Prelude RustStr Digest Types Fixtures Validation Codec Http1 Model Blob Table Sql Db Server ServerContent ServerSteps.
Local Open Scope string_scope.
Local Open Scope list_scope.
Local Open Scope Z_scope.

(** ** Bytes as JSON *)
(** [serde_json] on a [Vec<u8>]: an array of numbers, without blanks. *)
Definition json_number (b : byte) : bytes := as_bytes (show_Z (u8 b)).
Definition json_numbers (l : bytes) : bytes :=
  match l with
  | [] => []
  | b :: l' => json_number b ++ concat (map (fun b => as_bytes "," ++ json_number b) l')
  end.
Definition json_array (l : bytes) : bytes := as_bytes "[" ++ json_numbers l ++ as_bytes "]".
(** Two bytes of text for every byte, at least, and one more. *)
Lemma json_array_length l : l <> [] -> (2 * length l + 1 <= length (json_array l))%nat.
Proof.
  assert (forall b, (1 <= length (json_number b))%nat) as Hb.
  { intros b. pose proof (u8_range b). destruct (show_Z_digits 3 (u8 b)) as [Hl _]; [lia..|].
    unfold json_number. lia. }
  destruct l as [|b l]; [done|]. intros _. unfold json_array, json_numbers.
  rewrite !length_app. cbn [length as_bytes]. change (length (as_bytes "[")) with 1%nat.
  change (length (as_bytes "]")) with 1%nat. pose proof (Hb b).
  assert (2 * length l <= length (concat (map (fun b => as_bytes "," ++ json_number b) l)))%nat; [|lia].
  clear -Hb. induction l as [|c l IH]; [done|]. cbn [map concat length]. rewrite !length_app.
  change (length (as_bytes ",")) with 1%nat. pose proof (Hb c). lia.
Qed.

(** axum's default limit on the body an extractor reads, which [build_router] does
    not change. *)
(* src: src/crates/server/src/lib.rs:393-425 build_router: no DefaultBodyLimit *)
Definition BODY_LIMIT : Z := 2097152.
(** The [Json] extractor. *)
Class JsonBodyApi := { extract_chunk : bytes -> result Status ContentUploadChunk }.
(** The text of a chunk has its payload as an array somewhere; the extractor reads
    back what fits and refuses what does not. *)
Class JsonBodyLaws `{ReqwestApi} `{JsonBodyApi} : Prop := {
  json_of_chunk_payload c : exists before after,
    json_of_chunk c = before ++ json_array (cc_payload_zstd c) ++ after;
  extract_fits c : Z.of_nat (length (json_of_chunk c)) <= BODY_LIMIT -> extract_chunk (json_of_chunk c) = Ok c;
  extract_limit body : BODY_LIMIT < Z.of_nat (length body) -> extract_chunk body = Err PAYLOAD_TOO_LARGE }.

Section upload.
Context `{UuidApi} `{DigestApi} `{CborApi} `{ZstdApi} `{HttpApi} `{TimeApi} `{ReqwestApi} `{JsonBodyApi}
  `{!JsonBodyLaws}.
(** The endpoint: the extractor runs before the handler's body. *)
(* src: src/crates/server/src/lib.rs:801-808 upload_chunk: Json *)
Definition chunk_endpoint (now : Z) (headers : HeaderMap) (command_id : Uuid) (body : bytes)
    : Tx ContentUploadResult :=
  chunk ← tx_lift (extract_chunk body);
  upload_chunk now headers command_id chunk.
(** The request for a chunk fits. *)
Definition fits (c : ContentUploadChunk) : Prop := Z.of_nat (length (json_of_chunk c)) <= BODY_LIMIT.
Lemma full_chunk_too_long c : MAX_CONTENT_CHUNK_BYTES <= Z.of_nat (length (cc_payload_zstd c)) -> ~ fits c.
Proof.
  unfold MAX_CONTENT_CHUNK_BYTES, fits, BODY_LIMIT. intros Hl.
  destruct (json_of_chunk_payload c) as (before & after & ->). rewrite !length_app.
  pose proof (json_array_length (cc_payload_zstd c)) as Hj. destruct (cc_payload_zstd c); [cbn in Hl; lia|].
  specialize (Hj ltac:(done)). lia.
Qed.
Lemma endpoint_refuses now headers i c db : ~ fits c ->
  chunk_endpoint now headers i (json_of_chunk c) db = Err PAYLOAD_TOO_LARGE.
Proof.
  intros Hc. apply tx_bind_Err. left. unfold tx_lift. rewrite extract_limit; [done|]. unfold fits in Hc. lia.
Qed.

(** ** What does not fit *)
Context `{!DigestLaws} `{!BlobLaws}.
(** The first of the chunks of an object of a mebibyte is a full one. *)
Lemma first_chunk_full root sha rid fs path c cs :
  object_path root sha = Some path -> fs !! path = Some c -> load_chunks root sha rid fs = Some (Ok cs) ->
  MAX_CONTENT_CHUNK_BYTES <= Z.of_nat (length c) ->
  exists x rest, cs = x :: rest /\ cc_chunk_index x = 0 /\ Z.of_nat (length (cc_payload_zstd x)) = MAX_CONTENT_CHUNK_BYTES.
Proof.
  intros Hp Hl Hload Hlen. unfold load_chunks in Hload. rewrite Hp in Hload.
  cbn [mbind option_bind mret option_ret] in Hload. rewrite Hl in Hload. cbn [ok_or mbind result_bind] in Hload.
  injection Hload as <-. remember (Z.to_nat MAX_CONTENT_CHUNK_BYTES) as k eqn:Ek.
  assert (Z.of_nat k = MAX_CONTENT_CHUNK_BYTES) as Hk by (rewrite Ek; unfold MAX_CONTENT_CHUNK_BYTES; lia). clear Ek.
  unfold slice_chunks. destruct c as [|b c]; [unfold MAX_CONTENT_CHUNK_BYTES in Hlen; cbn in Hlen; lia|].
  cbn [length chunks_fuel]. rewrite imap_cons. eexists _, _. split; [reflexivity|]. split; [done|].
  cbn [chunk_of cc_payload_zstd]. rewrite length_take, Nat.min_l by lia. exact Hk.
Qed.

(** No row of the object has index 0. *)
Definition not_first (rid : Uuid) (sha : string) (t : Tab) : Row t -> Prop :=
  match t with
  | ContentChunks => fun r => of_object rid sha r = true -> ck_chunk_index r <> 0
  | _ => fun _ => True
  end.
Lemma upload_not_first rid sha now headers i c : cc_chunk_index c <> 0 ->
  tx_rel (keeps (all_rows (not_first rid sha))) (upload_chunk now headers i c).
Proof.
  intros Hc. unfold upload_chunk, not_expired_or, client_request, ensure_client_role, authorize, load_command_request,
    load_manifest, upsert_chunk_row, is_object_complete, store_object, assemble_object, upsert_content_object,
    touch_conversation, linked_object_count, complete_request_and_command.
  tx_walk.
  all: try (first [ by apply rows_update | by apply rows_insert_or_update ]).
  apply rows_insert. intros _. exact Hc.
Qed.
(** Any sequence of uploads of these chunks, each at its time, under its headers
    and for its command; a failing one changes nothing. *)
Definition upload_all (ds : list (Z * HeaderMap * Uuid * ContentUploadChunk)) (db : Db) : Db :=
  fold_left (fun db '(now, headers, i, c) => (run_tx (chunk_endpoint now headers i (json_of_chunk c)) db).2) ds db.
Lemma upload_all_not_first rid sha ds db :
  Forall (fun d => ~ fits d.2 \/ cc_chunk_index d.2 <> 0) ds ->
  all_rows (not_first rid sha) db -> all_rows (not_first rid sha) (upload_all ds db).
Proof.
  revert db. induction ds as [|[[[now headers] i] c] ds IH]; intros db Hds Hdb; [done|].
  apply Forall_cons in Hds as [Hc Hds]. cbn [upload_all fold_left]. apply IH; [done|].
  assert (tx_rel (keeps (all_rows (not_first rid sha))) (chunk_endpoint now headers i (json_of_chunk c))) as Hk;
    [|by apply (run_tx_rel (keeps (all_rows (not_first rid sha))))].
  cbn in Hc. destruct (decide (Z.of_nat (length (json_of_chunk c)) <= BODY_LIMIT)) as [Hf|Hf].
  - destruct Hc as [Hc|Hc]; [by destruct Hc|]. unfold chunk_endpoint. rewrite extract_fits by done.
    intros db1 x db2 (c' & ? & [[= <-] ->]%tx_lift_Ok & E)%tx_bind_Ok. by eapply upload_not_first.
  - intros db1 x db2. by rewrite endpoint_refuses.
Qed.
Lemma not_first_incomplete rid sha n db : 0 < n -> all_rows (not_first rid sha) db ->
  is_object_complete rid sha n db = Ok (false, db).
Proof.
  intros Hn Hdb. apply tx_bind_Ok. exists (select (of_object rid sha) (db ContentChunks)), db.
  split; [by apply (fetch_all_Ok ContentChunks)|]. apply tx_ret_Ok. split; [|done].
  pose proof (order_by_perm by_index (select (of_object rid sha) (db ContentChunks))) as Hp.
  destruct (order_by _ _) as [|r rows]; [by rewrite (proj2 (Z.eqb_neq (Z.of_nat (length (@nil ChunkRow))) n)) by (cbn; lia)|].
  assert (r ∈ select (of_object rid sha) (db ContentChunks)) as [Hr Ho]%select_elem
    by (rewrite <- Hp; set_solver).
  specialize (Hdb ContentChunks). rewrite Forall_forall in Hdb. pose proof (Hdb r Hr Ho) as Hi.
  cbn [indexes_from]. by rewrite (proj2 (Z.eqb_neq _ 0) Hi), andb_false_r.
Qed.

(** [C9] An object of a mebibyte never arrives.  serde writes a payload as an array
    of numbers, so the text of a full chunk is longer than axum lets a body be, and
    the router sets no other limit.  For every stored object of at least
    [MAX_CONTENT_CHUNK_BYTES] bytes: however often, in whatever order, with
    whatever credentials and at whatever times its chunks are sent, its first
    chunk is refused with 413 and the object is not complete. *)
Theorem full_chunk_refused root sha rid fs path c : is_hex64 sha = true -> get_version_num rid = 7 ->
  object_path root sha = Some path -> fs !! path = Some c ->
  MAX_CONTENT_CHUNK_BYTES <= Z.of_nat (length c) <= max_blob ->
  exists first rest, load_chunks root sha rid fs = Some (Ok (first :: rest)) /\
  forall ds db, (forall d, d ∈ ds -> d.2 ∈ first :: rest) -> object_chunks rid sha db = [] ->
    let db' := upload_all ds db in
    (forall now headers i, chunk_endpoint now headers i (json_of_chunk first) db' = Err PAYLOAD_TOO_LARGE)
    /\ is_object_complete rid sha (cc_chunk_count first) db' = Ok (false, db').
Proof.
  intros Hsha Hv Hp Hl [Hlen Hmax].
  assert (c <> []) as Hne by (intros ->; unfold MAX_CONTENT_CHUNK_BYTES in Hlen; cbn in Hlen; lia).
  destruct (load_chunks_spec root sha rid fs path c) as (cs & Hload & Hnum & Hwf & _ & Hn); [done..|].
  destruct (first_chunk_full root sha rid fs path c cs) as (x & rest & -> & Hx & Hfull); [done..|].
  exists x, rest. split; [done|]. intros ds db Hds Hdb db'.
  assert (~ fits x) as Hbig by (apply full_chunk_too_long; lia).
  assert (all_rows (not_first rid sha) db') as Hnf.
  { apply upload_all_not_first.
    - apply Forall_forall. intros d Hd%Hds. destruct (decide (cc_chunk_index d.2 = 0)) as [Hi|]; [|by right].
      left. rewrite (numbered_inj rid sha (x :: rest) Hnum d.2 x); [done | done | set_solver | congruence].
    - intros t. destruct t; try (apply Forall_forall; done). apply Forall_forall. intros r Hr Ho.
      assert (row_chunk r ∈ object_chunks rid sha db) as Hin
        by (apply list_elem_of_fmap_2, select_elem; done).
      by rewrite Hdb in Hin; apply elem_of_nil in Hin. }
  split; [intros; by apply endpoint_refuses|]. apply not_first_incomplete; [|done].
  destruct Hnum as [_ Hnum]. apply Forall_cons in Hnum as [(_ & _ & ->) _]. cbn [length]. lia.
Qed.

(** ** What fits *)
(** [C36] A stored body reaches the server, when its chunks fit in a request and the
    manifest's chunk count is that of the compressed object (it counts the body's,
    [manifest_counts_body]): there is one chunk then, and the endpoint, given its
    JSON text under a live request of the client with the blob's manifest, answers
    that it is stored and keeps under the body's digest the compressed object,
    which decompresses to the body.  For an object the client had not stored
    before, and of which the server has no chunk. *)
Theorem stored_blob_arrives root input fs fs' b rid cs : store_ok root fs ->
  (forall path c, fs' !! path = Some c -> Z.of_nat (length c) <= max_blob) ->
  get_version_num rid = 7 -> store root input fs = (fs', Some (Ok b)) ->
  object_path root (bl_object_sha256 b) ≫= (fs !!.) = None ->
  load_chunks root (bl_object_sha256 b) rid fs' = Some (Ok cs) -> Forall fits cs ->
  chunk_count (Z.of_nat (length (in_body input))) = chunk_count (Z.of_nat (length (bl_compressed_bytes b))) ->
  exists c, cs = [c] /\
  forall now headers command_id principal request db, db_wf db ->
    client_request headers command_id (Ok tt) db = Ok (principal, request, db) ->
    cr_request_id request = rid -> expired request now = false ->
    load_manifest rid (bl_object_sha256 b) db = Ok (Some (manifest b rid), db) ->
    object_chunks rid (bl_object_sha256 b) db = [] ->
    exists db' row,
      chunk_endpoint now headers command_id (json_of_chunk c) db
      = Ok (mkContentUploadResult rid ContentUploadStatus_Stored None, db')
      /\ find_key (row_key ContentObjects) (bl_object_sha256 b) (db' ContentObjects) = Some row
      /\ ob_content_zstd row = bl_compressed_bytes b
      /\ decode_all (ob_content_zstd row) = Ok (in_body input)
      /\ sha256_hex (in_body input) = bl_object_sha256 b.
Proof.
  intros Hok Hmax Hv E Hnew Hload Hfits Hcounts. destruct (store_spec _ _ _ _ _ E Hok) as [_ Hb].
  destruct (Hb b eq_refl) as (Hsha & Hulen & Hcount & Henc & path & z & Hp & Hl & Hfresh).
  assert (Hhex : is_hex64 (bl_object_sha256 b) = true) by (rewrite Hsha; apply sha256_hex_hex64).
  rewrite Hp in Hnew. cbn [mbind option_bind] in Hnew. specialize (Hfresh Hnew). subst z.
  destruct (load_chunks_spec root (bl_object_sha256 b) rid fs' path (bl_compressed_bytes b))
    as (cs' & Hload' & Hnum & Hwf & Hcat & Hn); [done..| by eapply encode_all_nonempty | by eapply Hmax |].
  rewrite Hload in Hload'. injection Hload' as <-.
  assert (Z.of_nat (length (bl_compressed_bytes b)) < MAX_CONTENT_CHUNK_BYTES) as Hsmall.
  { apply Z.nle_gt. intros Hbig.
    destruct (first_chunk_full root (bl_object_sha256 b) rid fs' path (bl_compressed_bytes b) cs)
      as (x & rest & -> & _ & Hx); [done..|].
    apply Forall_cons in Hfits as [Hx' _]. apply (full_chunk_too_long x); [lia | done]. }
  assert (Z.of_nat (length cs) = 1) as Hone.
  { assert (bl_compressed_bytes b <> []) as Hne by by eapply encode_all_nonempty.
    assert (1 <= Z.of_nat (length (bl_compressed_bytes b)))
      by (destruct (bl_compressed_bytes b); [done | cbn; lia]).
    rewrite Hn. destruct (chunk_count_small (Z.of_nat (length (bl_compressed_bytes b)))) as [-> _].
    { unfold max_blob, MAX_CONTENT_CHUNK_BYTES, u32_max in *. lia. }
    unfold div_ceil, MAX_CONTENT_CHUNK_BYTES in *. symmetry.
    apply (Z.div_unique _ _ 1 (Z.of_nat (length (bl_compressed_bytes b)) - 1)); lia. }
  destruct cs as [|c [|? ?]]; [done | | cbn in Hone; lia]. exists c. split; [done|].
  intros now headers command_id principal request db Hwf' Hreq Hrid Hexp Hman Hnone.
  pose proof Hnum as [_ (Hr1 & Hr2 & Hr3)%Forall_singleton].
  apply Forall_cons in Hwf as [Hval%chunk_validate_spec _]. apply Forall_cons in Hfits as [Hfits _].
  assert (holds rid (bl_object_sha256 b) [c] db []) as Hh
    by (split_and!; [done | by rewrite Hnone | constructor | set_solver]).
  destruct (upsert_chunk_holds rid (bl_object_sha256 b) [c] Hnum db [] c now Hh) as (dup & db1 & Eup & _ & ->);
    [set_solver|].
  destruct (chunks_delivered rid (bl_object_sha256 b) [c] Hnum [(now, c)] db) as (db1' & Ed & Hcomp & Hass);
    [done | done | set_solver|].
  assert (db1' = db1) as ->.
  { unfold deliver_chunks in Ed. cbn [tx_iter fst snd] in Ed. apply tx_bind_Ok in Ed as ([] & ? & E1 & [_ ->]%tx_ret_Ok).
    apply tx_bind_Ok in E1 as (? & ? & E1 & [_ ->]%tx_ret_Ok). rewrite Eup in E1. by injection E1 as _ ->. }
  rewrite bool_decide_eq_true_2 in Hcomp by (apply Forall_singleton; set_solver).
  specialize (Hass ltac:(apply Forall_singleton; set_solver)). rewrite Hcat in Hass.
  pose proof (decode_encode _ _ _ Henc) as Hdec.
  destruct (store_object_accepts now request (manifest b rid) c false db1 (bl_compressed_bytes b) (in_body input))
    as (db2 & Est & row & Hrow & Hz).
  - by rewrite Hr1, Hr2, Hr3.
  - unfold decode_all. by rewrite Hdec.
  - rewrite Hr2, Hsha. symmetry. apply hex_lower.
  - done.
  - done.
  - exists db2, row. split; [|split_and!; [exact Hrow | done | rewrite Hz; unfold decode_all; by rewrite Hdec | done]].
    unfold chunk_endpoint. rewrite extract_fits by exact Hfits. apply tx_bind_Ok. exists c, db. split; [done|].
    unfold upload_chunk. rewrite Hval. apply tx_bind_Ok. exists (principal, request), db. split; [exact Hreq|].
    apply tx_bind_Ok. exists tt, db. split; [apply require_Ok; by rewrite Hrid, Hr1, bool_decide_eq_true_2|].
    unfold not_expired_or. rewrite Hexp, Hrid, Hr2, Hr1, Hr3.
    apply tx_bind_Ok. exists (Some (manifest b rid)), db. split; [exact Hman|].
    apply tx_bind_Ok. exists (manifest b rid), db. split; [done|].
    apply tx_bind_Ok. exists tt, db. split.
    { apply require_Ok. split; [|done]. cbn [mf_chunk_count manifest]. apply Z.eqb_eq. rewrite Hcount, Hcounts, <- Hn. done. }
    apply tx_bind_Ok. exists false, db1. split; [exact Eup|].
    apply tx_bind_Ok. exists true, db1. split; [exact Hcomp|]. rewrite Hr1 in Est. exact Est.
Qed.
End upload.

(** ** Witnesses *)
Module UploadFixture.
Import TimeFixture CodecFixture HttpFixture ServerFixture BlobFixture.
(** A text for a chunk that can be read back: a number for the whole of it in
    binary, then the payload. *)
Fixpoint bits (p : positive) : bytes :=
  match p with
  | xH => []
  | xO p => x30 :: bits p
  | xI p => x31 :: bits p
  end.
Fixpoint unbits (l : bytes) : positive :=
  match l with
  | x30 :: l' => xO (unbits l')
  | x31 :: l' => xI (unbits l')
  | _ => xH
  end.
Lemma unbits_bits p rest : unbits (bits p ++ x5b :: rest) = p.
Proof. induction p as [p IH|p IH|]; cbn; [by rewrite IH.. | done]. Qed.
Definition fields (c : ContentUploadChunk) : N * Z * Z * string * string * list Z * bool :=
  (cc_request_id c, cc_chunk_index c, cc_chunk_count c, cc_object_sha256 c, cc_payload_sha256 c,
   map u8 (cc_payload_zstd c), cc_is_last c).
Definition of_fields (f : N * Z * Z * string * string * list Z * bool) : ContentUploadChunk :=
  let '(i, k, n, sha, psha, payload, l) := f in mkContentUploadChunk i k n sha psha (map to_u8 payload) l.
Lemma of_fields_fields c : of_fields (fields c) = c.
Proof.
  destruct c. unfold of_fields, fields. cbn. rewrite map_map. f_equal.
  etransitivity; [|apply map_id]. apply map_ext. exact to_u8_u8.
Qed.
#[local] Instance reqwest : ReqwestApi := {|
  reqwest_error := Z; error_text _ := ""; status_error z := z;
  json_of_manifests _ := []; json_of_result _ := [];
  json_of_chunk c := bits (encode (fields c)) ++ json_array (cc_payload_zstd c);
  ack_of_json _ := Err 0; poll_of_json _ := Err 0 |}.
#[local] Instance json_body : JsonBodyApi := {|
  extract_chunk b := if BODY_LIMIT <? Z.of_nat (length b) then Err PAYLOAD_TOO_LARGE
                     else ok_or BAD_REQUEST (of_fields <$> decode (unbits b)) |}.
#[local] Instance json_body_laws : JsonBodyLaws.
Proof.
  split.
  - intros c. exists (bits (encode (fields c))), []. by rewrite app_nil_r.
  - intros c Hc. cbn [extract_chunk json_body]. rewrite (proj2 (Z.ltb_ge _ _) Hc).
    cbn [json_of_chunk reqwest]. unfold json_array. change (as_bytes "[") with [x5b]. cbn [app].
    rewrite unbits_bits, countable.decode_encode. cbn [ok_or fmap option_fmap option_map]. f_equal. apply of_fields_fields.
  - intros body Hb. cbn [extract_chunk json_body]. by rewrite (proj2 (Z.ltb_lt _ _) Hb).
Qed.

(** An object of exactly one mebibyte. *)
Definition big_sha : string := "0000000000000000000000000000000000000000000000000000000000100000".
Definition big_path : string := "/blobs/00/" +:+ big_sha +:+ ".zst".
Definition big : bytes := replicate (Z.to_nat MAX_CONTENT_CHUNK_BYTES) x61.
Lemma full_chunk_refused_witness : exists first rest,
  load_chunks "/blobs" big_sha (uuid7 1) {[big_path := big]} = Some (Ok (first :: rest))
  /\ let db := upload_all [(5, bearer_of "secret", uuid7 2, first)] db1 in
     chunk_endpoint 6 (bearer_of "secret") (uuid7 2) (json_of_chunk first) db = Err PAYLOAD_TOO_LARGE
     /\ is_object_complete (uuid7 1) big_sha (cc_chunk_count first) db = Ok (false, db).
Proof.
  destruct (full_chunk_refused "/blobs" big_sha (uuid7 1) {[big_path := big]} big_path big)
    as (first & rest & Hl & Hall).
  - reflexivity.
  - reflexivity.
  - reflexivity.
  - apply lookup_singleton_eq.
  - unfold big. rewrite length_replicate, Z2Nat.id by (unfold MAX_CONTENT_CHUNK_BYTES; lia).
    unfold max_blob, MAX_CONTENT_CHUNK_BYTES, u32_max. lia.
  - exists first, rest. split; [exact Hl|].
    destruct (Hall [(5, bearer_of "secret", uuid7 2, first)] db1) as [Hr Hc].
    + intros d ->%list_elem_of_singleton. apply elem_of_cons. by left.
    + reflexivity.
    + split; [apply Hr | exact Hc].
Defined.

(** A request for the content of a task whose body is small. *)
Definition stored : Fs * option (result BlobError StoredBlob) := store "/blobs" (input [x2a; x2b]) ∅.
Definition asked (b : StoredBlob) : Db :=
  exec (_ ← issue_token "client" "secret" None false 1 2;
        _ ← insert Tasks (mkTaskRow "30:t:u" "client" "openai" "30" "t" "u" wire.TaskPhase_Running None 0
                            sample_snapshot);
        _ ← create_content_request_inner 1000 (uuid7 1) (uuid7 2) (cli_admin "cli") "30:t:u"
              [ContentPart_Request] None;
        upload_manifests 2000 (bearer_of "secret") (uuid7 2) [manifest b (uuid7 1)]) db_empty.
Lemma asked_wf b : db_wf (asked b).
Proof.
  unfold asked. apply (run_tx_rel (keeps db_wf)); [|apply db_wf_empty].
  apply tx_rel_bind; [typeclasses eauto | apply issue_token_wf | intros _].
  apply tx_rel_bind; [typeclasses eauto | tx_walk | intros _].
  apply tx_rel_bind; [typeclasses eauto | |intros _].
  - unfold create_content_request_inner, touch_conversation, ensure_admin_role. tx_walk. apply evict_old_rel;
      [typeclasses eauto|]. intros. apply evict_conversation_wf.
  - unfold upload_manifests, not_expired_or, accept_manifest, persist_manifest_row,
      complete_request_and_command, client_request, ensure_client_role, load_command_request, authorize. tx_walk.
Qed.
Lemma stored_blob_arrives_witness : exists b c db',
  stored.2 = Some (Ok b) /\ load_chunks "/blobs" (bl_object_sha256 b) (uuid7 1) stored.1 = Some (Ok [c])
  /\ chunk_endpoint 3000 (bearer_of "secret") (uuid7 2) (json_of_chunk c) (asked b)
     = Ok (mkContentUploadResult (uuid7 1) ContentUploadStatus_Stored None, db').
Proof.
  assert (Hok : match stored with
    | (fs, Some (Ok b)) =>
      match load_chunks "/blobs" (bl_object_sha256 b) (uuid7 1) fs with
      | Some (Ok cs) => forallb (fun c => Z.of_nat (length (json_of_chunk c)) <=? BODY_LIMIT) cs
      | _ => false
      end && (chunk_count 2 =? chunk_count (Z.of_nat (length (bl_compressed_bytes b))))
      && match client_request (bearer_of "secret") (uuid7 2) (Ok tt) (asked b) with
         | Ok ((p, r), _) => bool_decide (cr_request_id r = uuid7 1) && negb (expired r 3000)
         | Err _ => false
         end
      && match load_manifest (uuid7 1) (bl_object_sha256 b) (asked b) with
         | Ok (Some m, _) => bool_decide (m = manifest b (uuid7 1))
         | _ => false
         end
      && Nat.eqb (length (object_chunks (uuid7 1) (bl_object_sha256 b) (asked b))) 0
    | _ => false
    end = true) by (vm_compute; reflexivity).
  destruct stored as [fs' [[b|]|]] eqn:Es; try discriminate Hok.
  destruct (load_chunks _ _ _ fs') as [[cs|]|] eqn:El; try discriminate Hok.
  destruct (client_request _ _ _ (asked b)) as [[[p r] d1]|] eqn:Er; [|by rewrite !andb_false_r in Hok].
  destruct (load_manifest _ _ (asked b)) as [[[m|] d2]|] eqn:Em; try by rewrite !andb_false_r in Hok.
  assert (d1 = asked b) as -> by (symmetry; exact (client_request_rel eq _ _ _ _ _ _ Er)).
  assert (d2 = asked b) as -> by (unfold load_manifest in Em; by tx_inv Em).
  apply andb_true_iff in Hok as [Hok Hnone%Nat.eqb_eq%length_zero_iff_nil].
  apply andb_true_iff in Hok as [Hok Hm%bool_decide_eq_true]. subst m.
  apply andb_true_iff in Hok as [Hok [Hid%bool_decide_eq_true Hexp%negb_true_iff]%andb_true_iff].
  apply andb_true_iff in Hok as [Hfits Hcount%Z.eqb_eq].
  destruct (stored_blob_arrives "/blobs" (input [x2a; x2b]) ∅ fs' b (uuid7 1) cs (store_ok_empty _))
    as (c & -> & Hall).
  - apply (f_equal fst) in Es. cbn [fst] in Es. subst fs'. intros path c Hl.
    assert (Hlen : map_Forall (fun _ (c : bytes) => length c = 3%nat) stored.1) by by_decide.
    rewrite (Hlen path c Hl). by vm_compute.
  - reflexivity.
  - exact Es.
  - destruct (object_path "/blobs" (bl_object_sha256 b)); [apply lookup_empty | reflexivity].
  - exact El.
  - apply Forall_forall. intros x Hx%list_elem_of_In. rewrite forallb_forall in Hfits.
    by apply Z.leb_le, Hfits.
  - exact Hcount.
  - destruct (Hall 3000 (bearer_of "secret") (uuid7 2) p r (asked b)) as (db' & row & E & _);
      [| exact Er | exact Hid | exact Hexp | exact Em | exact Hnone |].
    + exact (asked_wf b).
    + exists b, c, db'. split; [reflexivity|]. split; [exact El | exact E].
Defined.
End UploadFixture.
