(* ===== verification/Delivery.v ===== *)
(** * Delivery: the client's outbox against the server's ingest

    The client's store and the server's database joined by a network that may
    lose, delay, reorder and duplicate requests and responses.  The client sends the
    batch that is due ([next_due_batch]), the server runs [ingest] on any
    request ever sent, and the client may see any acknowledgement ever given.
    In between both run whatever else they do. *)
From Stdlib Require Import ZArith Lia Strings.Byte Strings.String.
From S2P Require Import Prelude RustStr Digest Types Fixtures Validation Codec Http1 Table Sql Db Server ServerContent ServerSteps Model Mapping Blob Store StoreSteps Service.
Local Open Scope string_scope.
Local Open Scope list_scope.
Local Open Scope Z_scope.

(** The tables of both sides. *)
#[local] Abbreviation ServerDb := (Database Db.Row).
#[local] Abbreviation receipts := (Db.IngestReceipts).

Section delivery.
Context `{UuidApi} `{DigestApi} `{CborApi} `{ZstdApi} `{HttpApi} `{TimeApi}.

(** ** What the server accepts *)
Lemma persist_client_total b : tx_total (persist_client b).
Proof. unfold persist_client, ensure_client_exists. total_walk. Qed.
Lemma upsert_payloads_total {T} t (as_row : Db.PayloadRow T -> Db.Row t) tref items id_fn ts_fn :
  tx_total (upsert_payloads t as_row tref items id_fn ts_fn).
Proof. unfold upsert_payloads. total_walk. Qed.
#[local] Hint Resolve upsert_payloads_total : tx.
Lemma persist_task_upload_total c u : tx_total (persist_task_upload c u).
Proof. unfold persist_task_upload. total_walk. Qed.
#[local] Hint Resolve persist_task_upload_total : tx.
Lemma persist_heartbeats_Ok hs (db : ServerDb) :
  keyed (Db.row_key Db.Heartbeats) (db Db.Heartbeats ++ map heartbeat_row hs) ->
  exists db', tx_iter persist_heartbeat hs db = Ok (tt, db').
Proof.
  revert db. induction hs as [|h hs IH]; intros db Hk; cbn [tx_iter]; [by eexists|].
  assert (Hk' : keyed (Db.row_key Db.Heartbeats)
            ((db Db.Heartbeats ++ [heartbeat_row h]) ++ map heartbeat_row hs))
    by (rewrite <- app_assoc; exact Hk). clear Hk. rename Hk' into Hk.
  destruct (IH (set_table Db.Heartbeats (db Db.Heartbeats ++ [heartbeat_row h]) db)) as (db' & E);
    [by tab_simpl|].
  exists db'. apply tx_bind_Ok. exists tt, (set_table Db.Heartbeats (db Db.Heartbeats ++ [heartbeat_row h]) db).
  split; [|exact E]. unfold persist_heartbeat. apply insert_Ok. split; [|done].
  apply find_key_None. unfold keyed in Hk. rewrite !map_app, !NoDup_app in Hk.
  destruct Hk as [(_ & Hn & _) _]. intros Hin. apply (Hn _ Hin). by apply list_elem_of_singleton.
Qed.
(** What the checks of [ingest] leave to do. *)
Lemma ingest_checked now headers body (db : ServerDb) p d resp db' :
  auth_of headers (db Db.ApiTokens) = Ok p -> can_ingest (pr_role p) = true ->
  decode_body body = Ok d -> batch_client d = pr_client_id p ->
  match find_key (Db.row_key receipts) (batch_client d, Server.batch_id d) (db receipts) with
  | Some row => rc_payload_sha256 row = db_payload_sha256 d /\ db' = db
      /\ resp = IngestAccepted (mkIngestAck (Server.batch_id d) (rc_payload_sha256 row) 0 0 true)
  | None => exists db1 db2 db3,
      persist_client (db_batch d) db = Ok (tt, db1)
      /\ tx_iter (persist_task_upload (batch_client d)) (ib_tasks (db_batch d)) db1 = Ok (tt, db2)
      /\ tx_iter persist_heartbeat (ib_heartbeats (db_batch d)) db2 = Ok (tt, db3)
      /\ insert receipts (mkReceiptRow (batch_client d) (Server.batch_id d) (db_payload_sha256 d) now) db3
         = Ok (tt, db')
      /\ resp = IngestAccepted (mkIngestAck (Server.batch_id d) (db_payload_sha256 d)
                  (wrap32 (Z.of_nat (length (ib_tasks (db_batch d)))))
                  (wrap32 (Z.of_nat (length (ib_heartbeats (db_batch d))))) false)
  end -> Server.ingest now headers body db = Ok (resp, db').
Proof.
  intros Ha Hr Hd Hc Hrest. unfold Server.ingest.
  apply tx_bind_Ok. exists p, db. split; [by apply authorize_Ok|].
  apply tx_bind_Ok. exists tt, db. split; [by apply require_Ok|].
  apply tx_bind_Ok. exists d, db. split; [by apply tx_lift_Ok|].
  apply tx_bind_Ok. exists tt, db. split; [apply require_Ok; split; [by apply String.eqb_eq | done]|].
  apply tx_bind_Ok.
  exists (find_key (Db.row_key receipts) (batch_client d, Server.batch_id d) (db receipts)), db. split.
  { apply (Db.fetch_optional_Ok receipts). split; [|done]. cbn [Db.Row]. by rewrite receipt_lookup, <- Hc. }
  rewrite <- Hc. destruct (find_key _ _ _) as [row|].
  - destruct Hrest as (Hs & -> & ->). by rewrite (proj2 (String.eqb_eq _ _) Hs).
  - destruct Hrest as (db1 & db2 & db3 & E1 & E2 & E3 & E4 & ->).
    apply tx_bind_Ok. exists tt, db1. split; [exact E1|].
    apply tx_bind_Ok. exists tt, db2. split; [exact E2|].
    apply tx_bind_Ok. exists tt, db3. split; [exact E3|].
    apply tx_bind_Ok. exists tt, db'. by split.
Qed.
(** A batch of an authorised client whose heartbeats are new is accepted, as new
    or as a duplicate. *)
Lemma ingest_accepts now headers body (db : ServerDb) p d :
  auth_of headers (db Db.ApiTokens) = Ok p -> can_ingest (pr_role p) = true ->
  decode_body body = Ok d -> batch_client d = pr_client_id p ->
  let known := find_key (Db.row_key receipts) (batch_client d, Server.batch_id d) (db receipts) in
  (forall row, known = Some row -> rc_payload_sha256 row = db_payload_sha256 d) ->
  (known = None ->
   keyed (Db.row_key Db.Heartbeats) (db Db.Heartbeats ++ map heartbeat_row (ib_heartbeats (db_batch d)))) ->
  exists ack db', Server.ingest now headers body db = Ok (IngestAccepted ack, db')
    /\ ak_duplicate ack = is_some known /\ (is_some known = true -> db' = db).
Proof.
  intros Ha Hr Hd Hc known Hsame Hh.
  assert (Hgo := fun resp db' => ingest_checked now headers body db p d resp db' Ha Hr Hd Hc).
  fold known in Hgo. destruct known as [row|] eqn:Ek.
  - eexists _, db. split; [by apply Hgo; split_and!; [apply Hsame| |]|]. done.
  - destruct (persist_client_total (db_batch d) db) as ([] & db1 & E1).
    destruct (total_iter (persist_task_upload (batch_client d)) (ib_tasks (db_batch d))
                (persist_task_upload_total _) db1) as ([] & db2 & E2).
    pose proof (persist_client_frame _ _ _ _ E1) as F1. pose proof (persist_tasks_frame _ _ _ _ _ E2) as F2.
    destruct (persist_heartbeats_Ok (ib_heartbeats (db_batch d)) db2) as (db3 & E3);
      [rewrite F2, F1 by set_solver; by apply Hh|].
    pose proof (persist_heartbeats_frame _ _ _ _ E3) as F3.
    eexists _, _. split; [apply Hgo; exists db1, db2, db3; do 3 (split; [done|]); split; [|done]|].
    + apply insert_Ok. split; [|done]. rewrite F3, F2, F1 by set_solver. exact Ek.
    + by split.
Qed.

(** ** The system *)
(** [sy_requests]: the bodies the client has sent; [sy_acks]: the
    acknowledgements the server has given.  Neither forgets, so a step may
    use a message again or never.  [sy_cleanups]: the clock readings of the
    server's retention runs. *)
Record System : Type := mkSystem {
  sy_store : ClientStore;
  sy_server : ServerDb;
  sy_requests : list bytes;
  sy_acks : list IngestAck;
  sy_cleanups : list Z }.
(** [headers] are those of the client's requests.  The server serves any request of
    anybody, and runs retention whenever it likes. *)
Inductive sys_step (headers : HeaderMap) (w : System) : System -> Prop :=
| sys_client op : is_ack op = false ->
    sys_step headers w
      (mkSystem (run_op op (sy_store w)) (sy_server w) (sy_requests w) (sy_acks w) (sy_cleanups w))
| sys_send now batch db :
    next_due_batch now (cs_db (sy_store w)) = Ok (Some batch, db) ->
    sys_step headers w
      (mkSystem (sy_store w) (sy_server w) (sy_requests w ++ [pb_body batch]) (sy_acks w) (sy_cleanups w))
| sys_ingest now body ack db :
    body ∈ sy_requests w -> Server.ingest now headers body (sy_server w) = Ok (IngestAccepted ack, db) ->
    sys_step headers w (mkSystem (sy_store w) db (sy_requests w) (sy_acks w ++ [ack]) (sy_cleanups w))
| sys_server r :
    sys_step headers w
      (mkSystem (sy_store w) (serve (sy_server w) r) (sy_requests w) (sy_acks w)
         (sy_cleanups w ++ cleanup_times r))
| sys_acked now ack : ack ∈ sy_acks w ->
    sys_step headers w
      (mkSystem (run_op (OpAcked now ack) (sy_store w)) (sy_server w) (sy_requests w) (sy_acks w)
         (sy_cleanups w)).

Definition sys_client_id (w : System) : string := ci_client_id (cs_client (sy_store w)).
(** The server holds [row], a receipt of the batch. *)
Definition receipted (w : System) (batch_id : Uuid) (sha : string) (row : Db.ReceiptRow) : Prop :=
  row ∈ sy_server w receipts
  /\ Db.row_key receipts row = (sys_client_id w, batch_id) /\ rc_payload_sha256 row = sha.
(** A retention run more than [RECEIPT_RETENTION_MS] after the receipt was written. *)
Definition purged (w : System) (row : Db.ReceiptRow) : Prop :=
  exists t, t ∈ sy_cleanups w /\ rc_received_at_ms row < t - RECEIPT_RETENTION_MS.
Section history.
Context (headers : HeaderMap) (w0 : System).
(** In the run from [w0] to [w] the server accepted the batch: it wrote a receipt, which
    it still holds unless retention has purged it. *)
Definition accepted (w : System) (batch_id : Uuid) (sha : string) : Prop :=
  exists w1 row, rtc (sys_step headers) w0 w1 /\ rtc (sys_step headers) w1 w
    /\ receipted w1 batch_id sha row /\ (row ∈ sy_server w receipts \/ purged w row).
(** A batch is waiting in the outbox, or the server has accepted it. *)
Definition accounted (w : System) (r : OutboxRow) : Prop :=
  (exists r', r' ∈ cs_db (sy_store w) outbox /\ same_batch r r')
  \/ accepted w (ox_batch_id r) (ox_payload_sha256 r).
Record sys_inv (w : System) : Prop := mk_sys_inv {
  sys_run : rtc (sys_step headers) w0 w;
  sys_queue : queue_ok (sy_store w);
  sys_sent : Forall (fun body => exists r b, queued (sys_client_id w) r b /\ ox_body r = body) (sy_requests w);
  sys_acked_all : Forall (fun ack => accepted w (ak_batch_id ack) (ak_payload_sha256 ack)) (sy_acks w) }.
End history.

Section codec_laws.
Context `{!CodecLaws}.
(** What the server reads in a queued body. *)
Lemma queued_decodes client_id r b :
  queued client_id r b ->
  exists d, decode_body (ox_body r) = Ok d /\ db_batch d = b /\ batch_client d = client_id
    /\ Server.batch_id d = ox_batch_id r /\ db_payload_sha256 d = ox_payload_sha256 r.
Proof.
  intros (e & He & Hc & _ & Hid & Hs & Hb).
  destruct (encode_decode b e He) as (payload & Hd & _ & _ & Hib & _).
  exists (mkDecodedBatch b (eb_payload_sha256 e) payload).
  unfold decode_body, batch_client, Server.batch_id. rewrite Hb, Hd. cbn.
  by rewrite Hid, Hs, Hib.
Qed.
(** The acknowledgement of an accepted body names its receipt. *)
Lemma ingest_ack now headers body (db : ServerDb) ack db' d :
  Server.ingest now headers body db = Ok (IngestAccepted ack, db') -> decode_body body = Ok d ->
  ak_batch_id ack = Server.batch_id d /\ ak_payload_sha256 ack = db_payload_sha256 d
  /\ exists r, r ∈ db' receipts /\ Db.row_key receipts r = (batch_client d, Server.batch_id d)
       /\ rc_payload_sha256 r = db_payload_sha256 d.
Proof.
  intros E Hd. split_and!; [| |by eapply ingest_receipt].
  all: apply ingest_inv in E as (p & d' & _ & _ & Hd' & _ & E); assert (d' = d) as -> by congruence.
  all: destruct (find_key _ _ _) as [row|]; [|by destruct E as (? & ? & ? & _ & _ & _ & _ & [= ->])].
  all: destruct E as [_ E]; destruct (String.eqb_spec (rc_payload_sha256 row) (db_payload_sha256 d));
    [by injection E as -> | done].
Qed.
Lemma next_due_row now db batch db' :
  next_due_batch now db = Ok (Some batch, db') ->
  db' = db /\ exists r, r ∈ db outbox /\ ox_next_attempt_at r <= ts now
    /\ batch = mkPendingBatch (ox_batch_id r) (ox_payload_sha256 r) (ox_body r).
Proof.
  unfold next_due_batch. intros E.
  apply tx_bind_Ok in E as (rows & ? & [-> ->]%(@Sql.fetch_all_Ok Tab StoreError Row outbox) & E).
  apply tx_ret_Ok in E as [E ->]. split; [done|].
  remember (order_by _ _) as l eqn:El. destruct l as [|r rows]; [done|]. injection E as ->. exists r.
  assert (Hr : r ∈ r :: rows) by (apply elem_of_cons; by left).
  rewrite El, order_by_perm in Hr. apply select_elem in Hr as [Hr Hd%Z.leb_le]. done.
Qed.
Lemma queued_row s r : queue_ok s -> r ∈ cs_db s outbox ->
  exists b, queued (ci_client_id (cs_client s)) r b.
Proof. intros [_ Hq] Hr. rewrite Forall_forall in Hq. by apply Hq. Qed.

Lemma step_client headers w w' : sys_step headers w w' -> sys_client_id w' = sys_client_id w.
Proof. intros Hs. unfold sys_client_id. destruct Hs; cbn [sy_store]; try done; apply run_op_client. Qed.
Lemma ingest_kept now headers body (db : ServerDb) resp db' :
  Server.ingest now headers body db = Ok (resp, db') -> receipts_kept db db'.
Proof.
  intros E. pose proof (run_request_receipts (ReqIngest now headers body) eq_refl db tt db') as Hk.
  apply Hk. cbn [run_request]. unfold discard, mbind, tx_bind. by rewrite E.
Qed.
(** A step keeps a receipt, or is a retention run that purges it. *)
Lemma receipt_step headers w w' row : sys_step headers w w' ->
  row ∈ sy_server w receipts \/ purged w row -> row ∈ sy_server w' receipts \/ purged w' row.
Proof.
  intros Hs [Hr|(t & Ht & Hlt)]; [|right; exists t; split; [|done]; destruct Hs; cbn [sy_cleanups]; set_solver].
  destruct Hs as [| |now body ack db _ E|r|]; cbn [sy_server]; try by left.
  - left. by apply (ingest_kept _ _ _ _ _ _ E).
  - destruct (decide (Exists (fun t => rc_received_at_ms row < t - RECEIPT_RETENTION_MS) (cleanup_times r))) as [Hp|Hp].
    + right. apply Exists_exists in Hp as (t & Ht & Hlt). exists t. cbn [sy_cleanups]. set_solver.
    + left. apply serve_receipt; [done|]. intros t Ht. apply Z.nlt_ge. intros Hlt. apply Hp, Exists_exists. eauto.
Qed.
Lemma accepted_step headers w0 w w' i sha :
  sys_step headers w w' -> accepted headers w0 w i sha -> accepted headers w0 w' i sha.
Proof.
  intros Hs (w1 & row & H1' & H2' & Hr & Hk). exists w1, row. split; [done|].
  split; [by eapply rtc_r|]. split; [done | by eapply receipt_step].
Qed.
Lemma sys_inv_step headers w0 w w' : sys_step headers w w' -> sys_inv headers w0 w -> sys_inv headers w0 w'.
Proof.
  intros Hs [Hrun Hq Hsent Hack]. pose proof (step_client _ _ _ Hs) as Hc.
  assert (Hrun' : rtc (sys_step headers) w0 w') by by eapply rtc_r.
  assert (Hold : Forall (fun ack => accepted headers w0 w' (ak_batch_id ack) (ak_payload_sha256 ack)) (sy_acks w))
    by (eapply Forall_impl; [exact Hack|]; intros ack; by apply accepted_step).
  split; [done | | |].
  - destruct Hs; cbn [sy_store]; try done; by apply queue_step.
  - rewrite Hc. destruct Hs as [| now batch db E | | |]; cbn [sy_requests]; try done.
    apply Forall_app. split; [done|]. apply Forall_singleton.
    apply next_due_row in E as (_ & r & Hr & _ & ->).
    destruct (queued_row _ _ Hq Hr) as (b & Hb). by exists r, b.
  - destruct Hs as [| | now body ack db Hb E | |]; cbn [sy_acks] in *; try done.
    apply Forall_app. split; [done|]. apply Forall_singleton. rewrite Forall_forall in Hsent.
    destruct (Hsent _ Hb) as (r & b & Hqr & <-).
    destruct (queued_decodes _ _ _ Hqr) as (d & Hd & _ & Hcl & _).
    destruct (ingest_ack _ _ _ _ _ _ _ E Hd) as (-> & -> & rc & Hrc & Hkey & Hsha).
    eexists _, rc. split; [exact Hrun'|]. split; [apply rtc_refl|]. split; [|by left].
    split; [exact Hrc|]. split; [|exact Hsha]. by rewrite Hkey, Hcl.
Qed.

Lemma accounted_step headers w0 w w' r :
  sys_inv headers w0 w -> sys_step headers w w' -> accounted headers w0 w r -> accounted headers w0 w' r.
Proof.
  intros [_ _ _ Hack] Hs [(r' & Hr' & Hsame)|Hd]; [|right; by eapply accepted_step]. pose proof Hs as Hs'.
  destruct Hs as [op Ho| | | |now ack Hin]; unfold accounted; cbn [sy_store]; try (left; by exists r').
  - destruct (op_outbox_kept _ (sy_store w) Ho r' Hr') as (r2 & Hr2 & E1 & E2 & E3).
    destruct Hsame as (E4 & E5 & E6). left. exists r2. split; [done|]. split_and!; congruence.
  - set (s' := run_op _ _).
    assert (Ho : cs_db s' outbox = delete_where
      (fun r => bool_decide (ox_batch_id r = ak_batch_id ack)
                && String.eqb (ox_payload_sha256 r) (ak_payload_sha256 ack)) (cs_db (sy_store w) outbox)).
    { subst s'. cbn [run_op]. rewrite run_db_snd. reflexivity. }
    destruct (bool_decide (ox_batch_id r' = ak_batch_id ack)
              && String.eqb (ox_payload_sha256 r') (ak_payload_sha256 ack)) eqn:Ed.
    + right. apply andb_true_iff in Ed as [Ei%bool_decide_eq_true Esh%String.eqb_eq].
      destruct Hsame as (-> & -> & _). rewrite Ei, Esh. rewrite Forall_forall in Hack.
      by apply (accepted_step _ _ _ _ _ _ Hs'), Hack.
    + left. exists r'. rewrite Ho. split; [by apply delete_where_elem | done].
Qed.
Lemma run_accounted headers w0 w w' r : rtc (sys_step headers) w w' ->
  sys_inv headers w0 w -> accounted headers w0 w r -> accounted headers w0 w' r.
Proof.
  induction 1 as [|w1 w2 w3 Hs _ IH]; [done|]. intros Hi Ha.
  apply IH; [by eapply sys_inv_step | by eapply accounted_step].
Qed.
Lemma run_sys_inv headers w0 w w' :
  rtc (sys_step headers) w w' -> sys_inv headers w0 w -> sys_inv headers w0 w'.
Proof. induction 1 as [|w1 w2 w3 Hs _ IH]; [done|]. intros Hi. apply IH. by eapply sys_inv_step. Qed.

(** A client on an empty data directory and a server in any state. *)
Definition sys_start (root : string) (client : ClientInstance) (server : ServerDb) : System :=
  mkSystem (open_empty root client) server [] [] [].
Lemma sys_inv_start headers root client server :
  sys_inv headers (sys_start root client server) (sys_start root client server).
Proof. split; [apply rtc_refl | apply queue_empty | constructor..]. Qed.

(** [C2] No batch is lost between the client and the server.  Over a network that
    loses, delays, repeats and reorders messages, and whatever both sides do
    besides, retention included, a batch that was ever queued is still in the
    outbox, or the server has accepted it: at some point of the run it wrote a receipt
    under this client, the batch's identifier and its digest, and it holds that
    receipt still, unless retention ran more than 400 days after it was
    written. *)
Theorem delivery_no_loss headers root client server w w' r :
  let start := sys_start root client server in
  rtc (sys_step headers) start w -> r ∈ cs_db (sy_store w) outbox -> rtc (sys_step headers) w w' ->
  accounted headers start w' r.
Proof.
  intros start H1' Hr H2'. eapply run_accounted; [exact H2'| |].
  - eapply run_sys_inv; [exact H1' | apply sys_inv_start].
  - left. by exists r.
Qed.

(** ** One flush *)
Lemma mark_acked_run now ack s : exists s', run_db (mark_batch_acked now ack) s = (Ok tt, s')
  /\ cs_db s' outbox = delete_where (fun r => bool_decide (ox_batch_id r = ak_batch_id ack)
       && String.eqb (ox_payload_sha256 r) (ak_payload_sha256 ack)) (cs_db s outbox)
  /\ mkAckedRow (ak_batch_id ack) (ak_payload_sha256 ack) now ∈ cs_db s' acked_batches.
Proof.
  eexists. split; [reflexivity|]. split; [reflexivity|]. cbn [set_db cs_db]. tab_simpl.
  apply elem_of_app. right. by apply list_elem_of_singleton.
Qed.
(** The row a flush picked. *)
Definition is_batch (batch : PendingBatch) (r : OutboxRow) : bool :=
  bool_decide (ox_batch_id r = pb_batch_id batch)
  && String.eqb (ox_payload_sha256 r) (pb_payload_sha256 batch).

(** A row as the flush sends it. *)
Definition pending (r : OutboxRow) : PendingBatch :=
  mkPendingBatch (ox_batch_id r) (ox_payload_sha256 r) (ox_body r).
(** A flush, from the batch of the row that is due. *)
Lemma flush_run `{ReqwestApi} api (net : Network) ck headers now p s r b (server : ServerDb) :
  queued (ci_client_id (cs_client s)) r b ->
  next_due_batch (ck_due ck) (cs_db s) = Ok (Some (pending r), cs_db s) ->
  auth_of headers (server Db.ApiTokens) = Ok p -> can_ingest (pr_role p) = true ->
  pr_client_id p = ci_client_id (cs_client s) ->
  let known := find_key (Db.row_key receipts) (pr_client_id p, ox_batch_id r) (server receipts) in
  (forall row, known = Some row -> rc_payload_sha256 row = ox_payload_sha256 r) ->
  keyed (Db.row_key Db.Heartbeats) (server Db.Heartbeats ++ map heartbeat_row (ib_heartbeats b)) ->
  (forall ack server', Server.ingest now headers (ox_body r) server = Ok (IngestAccepted ack, server') ->
     exists a, net (ingest_request api (ox_payload_sha256 r) (ox_body r)) = Ok a
       /\ hs_status a = 200 /\ ack_of_json (hs_body a) = Ok ack) ->
  exists d ack server' s',
    decode_body (ox_body r) = Ok d /\ db_batch d = b
    /\ Server.ingest now headers (ox_body r) server = Ok (IngestAccepted ack, server')
    /\ ak_duplicate ack = is_some known /\ (is_some known = true -> server' = server)
    /\ flush_outbox_once api net ck s = (Ok tt, s')
    /\ cs_db s' outbox = delete_where (is_batch (pending r)) (cs_db s outbox)
    /\ mkAckedRow (ox_batch_id r) (ox_payload_sha256 r) (ck_done ck) ∈ cs_db s' acked_batches.
Proof.
  intros Hb Hdue Ha Hrole Hp known Hsame Hfresh Hnet.
  destruct (queued_decodes _ _ _ Hb) as (d & Hd & Hdb & Hdc & Hdi & Hds).
  destruct (ingest_accepts now headers (ox_body r) server p d Ha Hrole Hd) as (ack & server' & E & Hdup & Hkeep).
  { by rewrite Hdc, Hp. }
  { rewrite Hdc, Hdi, Hds, <- Hp. exact Hsame. }
  { intros _. by rewrite Hdb. }
  rewrite Hdc, Hdi, <- Hp in Hdup, Hkeep. fold known in Hdup, Hkeep.
  destruct (ingest_ack _ _ _ _ _ _ _ E Hd) as (Hi & Hs & _). rewrite Hdi in Hi. rewrite Hds in Hs.
  destruct (Hnet _ _ E) as (resp & Hresp & Hstatus & Hjson).
  assert (Hpost : post_ingest api net (ox_payload_sha256 r) (ox_body r) = Ok (Some ack)).
  { unfold post_ingest. rewrite Hresp. cbn [mbind result_bind]. rewrite Hstatus. cbn [Z.eqb Pos.eqb].
    unfold error_for_status. rewrite Hstatus. cbn [Z.leb Z.compare Pos.compare Pos.compare_cont andb].
    change (400 <=? 200) with false. cbn [andb mbind result_bind]. by rewrite Hjson. }
  destruct (mark_acked_run (ck_done ck) ack s) as (s' & Hrun & Hout & Hack). rewrite Hi, Hs in Hout, Hack.
  exists d, ack, server', s'. do 5 (split; [done|]). split; [|done].
  unfold flush_outbox_once. unfold run_db at 1. unfold run_tx. rewrite Hdue.
  replace (set_db s (cs_db s)) with s by (by destruct s).
  cbn [on_store and_then map_err fst snd pb_payload_sha256 pb_body pending]. by rewrite Hpost, Hrun.
Qed.

(** [C3] End to end.  When the network works, a flush delivers the batch that is
    due: the server decodes it to the valid batch the client queued and
    accepts it, as new, or without a change as a duplicate if an earlier
    answer was lost; the client takes exactly this batch out of its outbox and
    records the acknowledgement. *)
Theorem flush_delivers `{ReqwestApi} api (net : Network) ck headers now p s batch (server : ServerDb) :
  store_reachable s ->
  next_due_batch (ck_due ck) (cs_db s) = Ok (Some batch, cs_db s) ->
  auth_of headers (server Db.ApiTokens) = Ok p -> can_ingest (pr_role p) = true ->
  pr_client_id p = ci_client_id (cs_client s) ->
  let known := find_key (Db.row_key receipts) (pr_client_id p, pb_batch_id batch) (server receipts) in
  (forall row, known = Some row -> rc_payload_sha256 row = pb_payload_sha256 batch) ->
  (forall b, decode_batch (pb_body batch) = Ok b ->
     keyed (Db.row_key Db.Heartbeats) (server Db.Heartbeats ++ map heartbeat_row (ib_heartbeats b))) ->
  (forall ack server', Server.ingest now headers (pb_body batch) server = Ok (IngestAccepted ack, server') ->
     exists r, net (ingest_request api (pb_payload_sha256 batch) (pb_body batch)) = Ok r
       /\ hs_status r = 200 /\ ack_of_json (hs_body r) = Ok ack) ->
  exists b ack server' s',
    decode_batch (pb_body batch) = Ok b /\ ib_batch_id b = pb_batch_id batch
    /\ Server.ingest now headers (pb_body batch) server = Ok (IngestAccepted ack, server')
    /\ ak_duplicate ack = is_some known /\ (is_some known = true -> server' = server)
    /\ flush_outbox_once api net ck s = (Ok tt, s')
    /\ cs_db s' outbox = delete_where (is_batch batch) (cs_db s outbox)
    /\ mkAckedRow (pb_batch_id batch) (pb_payload_sha256 batch) (ck_done ck) ∈ cs_db s' acked_batches.
Proof.
  intros (root & client & Hreach) Hdue Ha Hrole Hp known Hsame Hfresh Hnet.
  pose proof (queue_run _ _ Hreach (queue_empty root client)) as Hq.
  destruct (next_due_row _ _ _ _ Hdue) as (_ & r & Hr & _ & ->).
  destruct (queued_row _ _ Hq Hr) as (b & Hb).
  destruct (queued_decodes _ _ _ Hb) as (d & Hd & Hdb & _ & Hdi & _).
  assert (Hdec : decode_batch (ox_body r) = Ok b).
  { unfold decode_batch, decode_body in *. destruct (decode_batch_with_payload (ox_body r)) as [d'|[]];
      try done. injection Hd as ->. cbn. by rewrite Hdb. }
  destruct (flush_run api net ck headers now p s r b server) as (d' & ack & server' & s' & _ & _ & Hrun); try done.
  { by apply Hfresh. }
  exists b, ack, server', s'. split; [exact Hdec|]. split; [by rewrite <- Hdb|]. exact Hrun.
Qed.
End codec_laws.

(** ** A refused result *)
(** Rounds of the command loop. *)
Fixpoint command_rounds `{ReqwestApi} (api : ServerApi) (rounds : list (Network * Clock)) (s : ClientStore)
    : list (result ClientError unit) * ClientStore :=
  match rounds with
  | [] => ([], s)
  | (net, ck) :: rounds' =>
    let '(r, s1) := execute_due_command_once api net ck s in
    let '(rs, s2) := command_rounds api rounds' s1 in
    (r :: rs, s2)
  end.
Definition expired_result (request : ContentRequest) : ContentUploadResult :=
  mkContentUploadResult (cr_request_id request) ContentUploadStatus_ContentExpired
    (Some "content request expired").

(** [C40] A result that is refused stops the queue.  When the oldest command has
    expired and the server refuses its result (as it does, with 404, for a
    command its database does not have), every round of the command loop
    fails on it without a change to the store: the command is neither
    completed nor postponed, and no later command is ever executed. *)
Theorem refused_result_starves `{ReqwestApi} api rounds s row rest c expires :
  cs_db s commands = row :: rest ->
  qc_payload row = ClientCommand_RequestContent c -> qc_status row <> CommandStatus_Completed ->
  cr_expires_at_ms (crc_request c) = Some expires ->
  Forall (fun round : Network * Clock =>
    let '(net, ck) := round in
    qc_next_attempt_at row <= ts (ck_due ck) /\ expires <= ck_step ck 0
    /\ is_ok (post_upload_result api net (crc_command_id c) (expired_result (crc_request c))) = false) rounds ->
  (command_rounds api rounds s).2 = s
  /\ Forall (fun r => is_ok r = false) (command_rounds api rounds s).1.
Proof.
  intros Hcmds Hpay Hst Hexp. induction 1 as [|[net ck] rounds (Hdue & Hnow & Href) _ IH]; [by split|].
  cbn [command_rounds].
  assert (E : exists e, execute_due_command_once api net ck s = (Err (ClientError_Http e), s)).
  { unfold execute_due_command_once, run_db, run_tx.
    assert (Hn : next_due_command (ck_due ck) (cs_db s)
      = Ok (Some (mkStoredCommand (qc_payload row) (qc_status row) (qc_attempt_count row)), cs_db s)).
    { unfold next_due_command, fetch_optional, mbind, tx_bind. rewrite Hcmds. cbn [List.find].
      rewrite bool_decide_eq_true_2 by (destruct (qc_status row); try set_solver; done).
      rewrite (proj2 (Z.leb_le _ _)) by done. done. }
    rewrite Hn. cbn [on_store and_then map_err fst snd sq_command set_db cs_db]. rewrite Hpay.
    unfold prepare_upload. rewrite Hexp. cbn [is_some_and]. rewrite (proj2 (Z.leb_le _ _)) by done.
    cbn [mret tx_ret map_err and_then on_store fst snd].
    fold (expired_result (crc_request c)).
    destruct (post_upload_result _ _ _ _) as [u|e]; [done|]. exists e. by destruct s. }
  destruct E as (e & E). rewrite E. destruct (command_rounds api rounds s) as [rs s2].
  cbn [fst snd] in *. destruct IH as [-> ?]. split; [done | by constructor].
Qed.
End delivery.

(** ** Witnesses *)
Module DeliveryFixture.
Import TimeFixture CodecFixture HttpFixture ServerFixture BlobFixture StoreFixture.
Definition headers : HeaderMap := bearer_of "secret".
Definition start : System := sys_start "/blobs" StoreFixture.client db0.
Definition w1 : System := mkSystem store1 db0 [] [] [].
Definition due : option PendingBatch :=
  match next_due_batch (6 * 10 ^ 9) (cs_db store1) with Ok (b, _) => b | Err _ => None end.
Definition batch : PendingBatch := unwrap_or (mkPendingBatch 0 "" []) due.
Definition the_ack : IngestAck :=
  match Server.ingest 7000 headers (pb_body batch) db0 with
  | Ok (IngestAccepted a, _) => a
  | _ => mkIngestAck 0 "" 0 0 true
  end.
Lemma start_run : rtc (sys_step headers) start w1.
Proof. apply rtc_once. by apply (sys_client headers start (OpPersist supply records [input [x2a; x2b]])). Qed.
Lemma due_batch : next_due_batch (6 * 10 ^ 9) (cs_db store1) = Ok (Some batch, cs_db store1).
Proof.
  assert (Hd : is_some due = true) by (vm_compute; reflexivity).
  unfold batch. unfold due in *. unfold next_due_batch, fetch_all, mbind, tx_bind in *.
  cbn [mret tx_ret] in *. by destruct (head _).
Qed.
Lemma ingest_ok : exists db', Server.ingest 7000 headers (pb_body batch) db0 = Ok (IngestAccepted the_ack, db').
Proof.
  assert (Hok : match Server.ingest 7000 headers (pb_body batch) db0 with
                | Ok (IngestAccepted _, _) => true | _ => false end = true) by (vm_compute; reflexivity).
  unfold the_ack. destruct (Server.ingest _ _ _ _) as [[[a|c] db']|e]; try done. by exists db'.
Qed.
Definition accepting_server : Database Db.Row :=
  match Server.ingest 7000 headers (pb_body batch) db0 with Ok (_, db') => db' | Err _ => db0 end.
(** The batch is sent, accepted and acknowledged, and two years later its receipt is
    purged. *)
Lemma delivery_no_loss_witness : exists r w', r ∈ cs_db (sy_store w1) outbox
  /\ accounted headers start w' r /\ cs_db (sy_store w') outbox = [] /\ sy_server w' receipts = [].
Proof.
  destruct ingest_ok as (db' & E).
  destruct (cs_db store1 outbox) as [|r rows] eqn:Er.
  { assert (Hne : is_some (head (cs_db store1 outbox)) = true) by (vm_compute; reflexivity).
    by rewrite Er in Hne. }
  assert (Hr : r ∈ cs_db (sy_store w1) outbox) by (cbn [sy_store w1]; rewrite Er; by apply elem_of_cons; left).
  set (w2 := mkSystem store1 db0 [pb_body batch] [] []).
  set (w3 := mkSystem store1 db' [pb_body batch] [the_ack] []).
  set (w4 := mkSystem (run_op (OpAcked 8000 the_ack) store1) db' [pb_body batch] [the_ack] []).
  set (late := ReqCleanup (2 * 365 * 24 * 60 * 60 * 1000)).
  set (w5 := mkSystem (sy_store w4) (serve db' late) [pb_body batch] [the_ack] (cleanup_times late)).
  assert (Hsent : pb_body batch ∈ sy_requests w2) by exact (proj2 (list_elem_of_singleton _ _) eq_refl).
  assert (Hgiven : the_ack ∈ sy_acks w3) by exact (proj2 (list_elem_of_singleton _ _) eq_refl).
  exists r, w5. split; [exact Hr|]. split; [|split].
  - refine (delivery_no_loss headers "/blobs" StoreFixture.client db0 w1 w5 r start_run Hr _).
    refine (rtc_l _ w1 w2 w5 (sys_send headers w1 _ _ _ due_batch) _).
    refine (rtc_l _ w2 w3 w5 (sys_ingest headers w2 7000 _ _ _ Hsent E) _).
    refine (rtc_l _ w3 w4 w5 (sys_acked headers w3 8000 the_ack Hgiven) _).
    refine (rtc_l _ w4 w5 w5 (sys_server headers w4 late) (rtc_refl _ _)).
  - vm_compute. reflexivity.
  - assert (db' = accepting_server) as -> by (unfold accepting_server; by rewrite E). vm_compute. reflexivity.
Defined.

#[export] Instance reqwest : ReqwestApi := {|
  reqwest_error := Z; error_text := show_Z; status_error z := z;
  json_of_manifests _ := []; json_of_chunk _ := []; json_of_result _ := [];
  ack_of_json _ := Ok the_ack; poll_of_json _ := Ok (mkCommandPollResponse 0 []) |}.
Definition api : ServerApi := ServerApi_new "https://watch.example/" "secret".
Definition clock : Clock := mkClock (6 * 10 ^ 9) (fun _ => 6000) (6 * 10 ^ 9) 6000 6000.
Lemma batch_decodes : decode_batch (pb_body batch) = Ok queued_batch.
Proof. vm_compute. reflexivity. Qed.
Lemma flush_delivers_witness : exists b s',
  decode_batch (pb_body batch) = Ok b
  /\ flush_outbox_once api (fun _ => Ok (mkHttpResponse 200 [])) clock store1 = (Ok tt, s')
  /\ cs_db s' outbox = delete_where (is_batch batch) (cs_db store1 outbox).
Proof.
  destruct (flush_delivers api (fun _ => Ok (mkHttpResponse 200 [])) clock headers 7000
              ServerFixture.client store1 batch db0 store1_reachable due_batch)
    as (b & ack & server' & s' & Hd & _ & _ & _ & _ & Hf & Ho & _).
  - vm_compute. reflexivity.
  - reflexivity.
  - by rewrite store1_client.
  - intros row Hrow. assert (Hn : db0 receipts = []) by (vm_compute; reflexivity).
    by rewrite Hn in Hrow.
  - intros b Hb. rewrite batch_decodes in Hb. injection Hb as <-.
    assert (Hk : bool_decide (keyed (Db.row_key Db.Heartbeats)
      (db0 Db.Heartbeats ++ map heartbeat_row (ib_heartbeats queued_batch))) = true) by (vm_compute; reflexivity).
    by apply bool_decide_eq_true in Hk.
  - intros ack server' E. exists (mkHttpResponse 200 []). split; [done|]. split; [done|].
    cbn [ack_of_json reqwest]. unfold the_ack. by rewrite E.
  - exists b, s'. exact (conj Hd (conj Hf Ho)).
Defined.

(** Two commands, of which the first has expired; the server answers 404. *)
Definition command (n : N) (expires : option Z) : ContentRequestCommand :=
  mkContentRequestCommand (uuid7 n)
    (mkContentRequest (uuid7 (n + 50)) "client" "session:thread:turn" "session" "thread" 1000 expires
       [ContentPart_Request]).
Definition refusing : ClientStore :=
  (run_db (save_commands (fun _ => 2000) 0
     [ClientCommand_RequestContent (command 10 (Some 3000)); ClientCommand_RequestContent (command 11 None)])
     store0).2.
Definition not_found : Network := fun _ => Ok (mkHttpResponse 404 []).
Definition rounds : list (Network * Clock) := [(not_found, clock); (not_found, clock); (not_found, clock)].
Lemma refused_result_starves_witness :
  length (cs_db refusing commands) = 2%nat
  /\ (command_rounds api rounds refusing).2 = refusing.
Proof.
  split; [vm_compute; reflexivity|].
  destruct (cs_db refusing commands) as [|row rest] eqn:E.
  { assert (Hne : length (cs_db refusing commands) = 2%nat) by (vm_compute; reflexivity).
    rewrite E in Hne. discriminate Hne. }
  assert (Hrow : head (cs_db refusing commands) = Some
    (mkQueuedCommandRow (uuid7 10) 3000 CommandStatus_Pending
       (ClientCommand_RequestContent (command 10 (Some 3000))) None None 0 2000 None))
    by (vm_compute; reflexivity).
  rewrite E in Hrow. injection Hrow as ->.
  refine (proj1 (refused_result_starves api rounds refusing _ rest _ 3000 E eq_refl _ eq_refl _)).
  - discriminate.
  - unfold rounds. repeat constructor; apply Z.leb_le; vm_compute; reflexivity.
Defined.
End DeliveryFixture.
