(* ===== verification/Ip.v ===== *)
(** * IP addresses

    What the sources use of [std::net]: the order, [Display] and [FromStr] of
    [IpAddr].  An address is the list of its octets or of its eight 16-bit
    segments; the parser is the standard library's, on a cursor over the text. *)
From Stdlib Require Import ZArith Lia Strings.Byte Strings.String.
From S2P Require Import Prelude RustStr.
Local Open Scope string_scope.
Local Open Scope list_scope.
Local Open Scope Z_scope.

Inductive IpAddr : Type :=
| V4 (octets : list Z)
| V6 (segments : list Z).
#[export] Instance IpAddr_eq_dec : EqDecision IpAddr.
Proof. solve_decision. Defined.
#[export] Instance IpAddr_countable : Countable IpAddr :=
  inj_countable' (fun a => match a with V4 o => inl o | V6 s => inr s end)
    (fun x => match x with inl o => V4 o | inr s => V6 s end) ltac:(by intros []).
(** Octets and segments are in range. *)
Definition ip_ok (a : IpAddr) : Prop :=
  match a with
  | V4 octets => length octets = 4%nat /\ Forall (fun o => 0 <= o < 256) octets
  | V6 segments => length segments = 8%nat /\ Forall (fun s => 0 <= s < 65536) segments
  end.

(** [Ord]: every V4 address before every V6 one, then by the octets. *)
Fixpoint lex_le (a b : list Z) : bool :=
  match a, b with
  | [], _ => true
  | _ :: _, [] => false
  | x :: a', y :: b' => (x <? y) || ((x =? y) && lex_le a' b')
  end.
Definition ip_le (a b : IpAddr) : bool :=
  match a, b with
  | V4 x, V4 y | V6 x, V6 y => lex_le x y
  | V4 _, V6 _ => true
  | V6 _, V4 _ => false
  end.

(** ** [Display] *)
Definition hex_digit (z : Z) : byte := to_u8 (if z <? 10 then 48 + z else 87 + z).
(** [{:x}] of a [u16]. *)
Fixpoint show_hex_fuel (fuel : nat) (z : Z) (acc : bytes) : bytes :=
  match fuel with
  | O => acc
  | S fuel' =>
    let acc := hex_digit (z mod 16) :: acc in
    if z <? 16 then acc else show_hex_fuel fuel' (z / 16) acc
  end.
Definition show_hex (z : Z) : string := of_bytes (show_hex_fuel 4 z []).
Definition ipv4_to_string (octets : list Z) : string := join "." (map show_Z octets).
Definition fmt_subslice (segments : list Z) : string := join ":" (map show_hex segments).
(** The first longest run of zeros, as (start, length). *)
Fixpoint zero_run (i : nat) (current longest : nat * nat) (segments : list Z) : nat * nat :=
  match segments with
  | [] => longest
  | segment :: segments' =>
    if segment =? 0 then
      let current := if Nat.eqb current.2 0 then (i, 1%nat) else (current.1, S current.2) in
      zero_run (S i) current (if Nat.ltb longest.2 current.2 then current else longest) segments'
    else zero_run (S i) (O, O) longest segments'
  end.
(** [Ipv6Addr::to_ipv4_mapped]. *)
Definition to_ipv4_mapped (segments : list Z) : option (list Z) :=
  match segments with
  | [a; b; c; d; e; f; ab; cd] =>
    if forallb (Z.eqb 0) [a; b; c; d; e] && (f =? 65535)
    then Some [ab / 256; ab mod 256; cd / 256; cd mod 256] else None
  | _ => None
  end.
Definition ipv6_to_string (segments : list Z) : string :=
  match to_ipv4_mapped segments with
  | Some octets => "::ffff:" +:+ ipv4_to_string octets
  | None =>
    let '(start, len) := zero_run 0 (O, O) (O, O) segments in
    if Nat.ltb 1 len
    then fmt_subslice (take start segments) +:+ "::" +:+ fmt_subslice (drop (start + len) segments)
    else fmt_subslice segments
  end.
Definition ip_to_string (a : IpAddr) : string :=
  match a with
  | V4 octets => ipv4_to_string octets
  | V6 segments => ipv6_to_string segments
  end.

(** ** [FromStr] *)
Definition Parser (A : Type) : Type := bytes -> option (A * bytes).
Definition read_given_char (c : byte) : Parser unit := fun l =>
  match l with
  | b :: l' => if Byte.eqb b c then Some (tt, l') else None
  | [] => None
  end.
(** The digits at the cursor: their value and number. *)
Fixpoint read_digits (radix acc : Z) (count : nat) (l : bytes) : Z * nat * bytes :=
  match l with
  | b :: l' =>
    match digit_val radix b with
    | Some v => read_digits radix (acc * radix + v) (S count) l'
    | None => (acc, count, l)
    end
  | [] => (acc, count, [])
  end.
(** [read_number], into a type whose maximum is [max]. *)
Definition read_number (radix max : Z) (max_digits : nat) (allow_zero_prefix : bool) : Parser Z := fun l =>
  let '(v, count, rest) := read_digits radix 0 0 l in
  let leading_zero := match l with b :: _ => Byte.eqb b "0"%byte | [] => false end in
  if Nat.eqb count 0 || Nat.ltb max_digits count || (max <? v)
     || (negb allow_zero_prefix && leading_zero && Nat.ltb 1 count)
  then None else Some (v, rest).
Definition read_separator {A} (sep : byte) (index : nat) (inner : Parser A) : Parser A := fun l =>
  match index with
  | O => inner l
  | S _ => '(_, l') ← read_given_char sep l; inner l'
  end.
(** [n] octets from the [i]-th on. *)
Fixpoint read_octets (i n : nat) : Parser (list Z) := fun l =>
  match n with
  | O => Some ([], l)
  | S n' =>
    '(o, l1) ← read_separator "."%byte i (read_number 10 255 3 false) l;
    '(os, l2) ← read_octets (S i) n' l1;
    Some (o :: os, l2)
  end.
Definition read_ipv4_addr : Parser (list Z) := read_octets 0 4.
Definition ipv4_groups (octets : list Z) : list Z :=
  match octets with
  | [a; b; c; d] => [a * 256 + b; c * 256 + d]
  | _ => []
  end.
(** [read_groups] with [n] groups left from the [i]-th on: the groups read, and
    whether they end in an IPv4 address. *)
Fixpoint read_groups (i n : nat) (l : bytes) : list Z * bool * bytes :=
  match n with
  | O => ([], false, l)
  | S n' =>
    match (if Nat.ltb 1 n then read_separator ":"%byte i read_ipv4_addr l else None) with
    | Some (octets, l') => (ipv4_groups octets, true, l')
    | None =>
      match read_separator ":"%byte i (read_number 16 65535 4 true) l with
      | Some (g, l') => let '(gs, ipv4, l2) := read_groups (S i) n' l' in (g :: gs, ipv4, l2)
      | None => ([], false, l)
      end
    end
  end.
Definition read_ipv6_addr : Parser (list Z) := fun l =>
  let '(head, head_ipv4, l1) := read_groups 0 8 l in
  if Nat.eqb (length head) 8 then Some (head, l1)
  else if head_ipv4 then None
  else
    '(_, l2) ← read_given_char ":"%byte l1;
    '(_, l3) ← read_given_char ":"%byte l2;
    let limit := (8 - (length head + 1))%nat in
    let '(tail, _, l4) := read_groups 0 limit l3 in
    Some (head ++ replicate (8 - length head - length tail) 0 ++ tail, l4).
Definition at_end {A} (r : option (A * bytes)) : option A :=
  match r with
  | Some (a, []) => Some a
  | _ => None
  end.
(** [str.parse::<IpAddr>()]: the second alternative is tried when the first one
    fails, not when it leaves something. *)
Definition ip_parse (s : string) : option IpAddr :=
  match read_ipv4_addr (as_bytes s) with
  | Some (octets, rest) => at_end (Some (V4 octets, rest))
  | None => at_end ('(segments, rest) ← read_ipv6_addr (as_bytes s); Some (V6 segments, rest))
  end.

Example parse_v4 : ip_parse "10.0.0.255" = Some (V4 [10; 0; 0; 255]).
Proof. vm_compute. reflexivity. Qed.
Example parse_v4_bad : ip_parse "10.0.00.1" = None /\ ip_parse "1.2.3" = None /\ ip_parse "256.1.1.1" = None.
Proof. vm_compute. done. Qed.
Example parse_v6 : ip_parse "2001:db8::ff00:42:8329" = Some (V6 [8193; 3512; 0; 0; 0; 65280; 66; 33577])
  /\ ip_parse "::1" = Some (V6 [0;0;0;0;0;0;0;1]) /\ ip_parse "::" = Some (V6 [0;0;0;0;0;0;0;0])
  /\ ip_parse "::ffff:10.0.0.2" = Some (V6 [0;0;0;0;0;65535;2560;2]).
Proof. vm_compute. done. Qed.
Example show_v6 : ip_to_string (V6 [8193; 3512; 0; 0; 0; 65280; 66; 33577]) = "2001:db8::ff00:42:8329"
  /\ ip_to_string (V6 [0;0;0;0;0;0;0;1]) = "::1" /\ ip_to_string (V6 [1;0;2;0;0;0;0;0]) = "1:0:2::"
  /\ ip_to_string (V6 [0;0;0;0;0;65535;2560;2]) = "::ffff:10.0.0.2".
Proof. vm_compute. done. Qed.

(** ** Parsing what was displayed *)
Lemma read_digits_digits radix max acc c d v r : digits radix max acc d = Some v ->
  read_digits radix acc c (d ++ r) = read_digits radix v (c + length d) r.
Proof.
  revert acc c. induction d as [|b d IH]; intros acc c; cbn [digits app].
  - intros [= ->]. by rewrite Nat.add_0_r.
  - cbn [read_digits length]. destruct (digit_val radix b) as [x|]; [|done].
    destruct (_ <=? max); [|done]. intros E. rewrite (IH _ _ E). f_equal. lia.
Qed.
(** The next character is no digit. *)
Definition stops (radix : Z) (r : bytes) : Prop :=
  match r with [] => True | b :: _ => digit_val radix b = None end.
Lemma read_digits_stop radix v c r : stops radix r -> read_digits radix v c r = (v, c, r).
Proof. destruct r as [|b r]; [done|]. cbn. by intros ->. Qed.
Lemma read_number_ok radix max k zero d v r :
  digits radix max 0 d = Some v -> v <= max -> (0 < length d <= k)%nat ->
  (zero = true \/ length d = 1%nat \/ exists b d', d = b :: d' /\ Byte.eqb b "0"%byte = false) -> stops radix r ->
  read_number radix max k zero (d ++ r) = Some (v, r).
Proof.
  intros Hd Hv Hl Hz Hr. unfold read_number.
  rewrite (read_digits_digits _ _ _ _ _ _ _ Hd), read_digits_stop by done. cbn [Nat.add].
  destruct d as [|b d]; [cbn in Hl; lia|]. cbn [app].
  replace (Nat.eqb (length (b :: d)) 0) with false by done.
  assert (Nat.ltb k (length (b :: d)) = false) as -> by (apply Nat.ltb_ge; lia).
  assert ((max <? v) = false) as -> by (apply Z.ltb_ge; lia). cbn [orb].
  destruct Hz as [->|[->|(b' & d' & [= -> ->] & ->)]]; cbn [negb andb]; rewrite ?andb_false_r; done.
Qed.

(** Every octet, by evaluation. *)
Fixpoint z_range (n : nat) (z : Z) : list Z :=
  match n with O => [] | S n' => z :: z_range n' (z + 1) end.
Lemma z_range_In n a z : a <= z < a + Z.of_nat n -> z ∈ z_range n a.
Proof.
  revert a. induction n as [|n IH]; intros a Hz; [lia|]. cbn. apply elem_of_cons.
  destruct (decide (z = a)) as [->|]; [by left|]. right. apply IH. lia.
Qed.
Lemma z_range_all (f : Z -> bool) n z :
  forallb f (z_range n 0) = true -> 0 <= z < Z.of_nat n -> f z = true.
Proof. intros Hf Hz. rewrite forallb_forall in Hf. apply Hf, list_elem_of_In, z_range_In. lia. Qed.
Definition octet_check (z : Z) : bool :=
  let d := as_bytes (show_Z z) in
  bool_decide (digits 10 255 0 d = Some z) && Nat.ltb 0 (length d) && Nat.leb (length d) 3
  && (Nat.eqb (length d) 1 || match d with b :: _ => negb (Byte.eqb b "0"%byte) | [] => false end).
Lemma octet_checked : forallb octet_check (z_range 256 0) = true.
Proof. vm_compute. reflexivity. Qed.
Lemma read_octet o r : 0 <= o < 256 -> stops 10 r ->
  read_number 10 255 3 false (as_bytes (show_Z o) ++ r) = Some (o, r).
Proof.
  intros Ho Hr. pose proof (z_range_all _ 256 o octet_checked Ho) as Hc. unfold octet_check in Hc.
  rewrite !andb_true_iff, bool_decide_eq_true, Nat.ltb_lt, Nat.leb_le, orb_true_iff, Nat.eqb_eq in Hc.
  destruct Hc as [[[Hd Hl] Hl'] Hz]. apply read_number_ok; [done | lia | lia | | done].
  right. destruct Hz as [Hz|Hz]; [by left|]. right. destruct (as_bytes (show_Z o)) as [|b d]; [done|].
  exists b, d. split; [done|]. by apply negb_true_iff.
Qed.
Lemma hex_digit_spec z : 0 <= z < 16 ->
  digit_val 16 (hex_digit z) = Some z /\ is_ascii_hexdigit (hex_digit z) = true.
Proof.
  intros Hz. assert (Hn : exists n, (n < 16)%nat /\ z = Z.of_nat n) by (exists (Z.to_nat z); lia).
  destruct Hn as (n & Hn & ->). do 16 (destruct n as [|n]; [done|]). lia.
Qed.
Lemma show_hex_fuel_spec fuel z acc : 0 <= z < 16 ^ Z.of_nat fuel -> z <= 65535 -> (0 < fuel)%nat ->
  exists d, show_hex_fuel fuel z acc = d ++ acc /\ (0 < length d <= fuel)%nat
    /\ forallb is_ascii_hexdigit d = true
    /\ forall r, digits 16 65535 0 (d ++ r) = digits 16 65535 z r.
Proof.
  revert z acc. induction fuel as [|fuel IH]; intros z acc Hz Hm Hf; [lia|].
  rewrite Nat2Z.inj_succ, Z.pow_succ_r in Hz by lia. cbn [show_hex_fuel].
  pose proof (Z.div_mod z 16 ltac:(lia)). pose proof (Z.mod_pos_bound z 16 ltac:(lia)).
  destruct (hex_digit_spec (z mod 16)) as [Hv Hh]; [done|].
  destruct (Z.ltb_spec z 16).
  - exists [hex_digit (z mod 16)]. split; [done|]. split; [cbn; lia|]. cbn [forallb app digits]. rewrite Hv, Hh.
    split; [done|]. intros r. replace (0 * 16 + z mod 16) with z by (rewrite Z.mod_small; lia).
    by rewrite (proj2 (Z.leb_le z 65535)) by lia.
  - destruct fuel as [|fuel]; [cbn in Hz; lia|].
    destruct (IH (z / 16) (hex_digit (z mod 16) :: acc)) as (d & E & Hl & Hd & Hr);
      [split; [apply Z.div_pos | apply Z.div_lt_upper_bound]; lia | lia | lia |].
    exists (d ++ [hex_digit (z mod 16)]). rewrite E, <- app_assoc. split; [done|].
    rewrite length_app, forallb_app, Hd. cbn [length forallb]. rewrite Hh. split; [lia|]. split; [done|].
    intros r. rewrite <- app_assoc, Hr. cbn [app digits]. rewrite Hv.
    replace (z / 16 * 16 + z mod 16) with z by lia. by rewrite (proj2 (Z.leb_le z 65535)) by lia.
Qed.
Lemma show_hex_spec s : 0 <= s < 65536 ->
  digits 16 65535 0 (as_bytes (show_hex s)) = Some s /\ (0 < length (as_bytes (show_hex s)) <= 4)%nat
  /\ forallb is_ascii_hexdigit (as_bytes (show_hex s)) = true.
Proof.
  intros Hs. unfold show_hex. rewrite as_of_bytes.
  destruct (show_hex_fuel_spec 4 s []) as (d & E & Hl & Hd & Hr); [cbn; lia..|].
  rewrite E, app_nil_r. split; [|done]. by rewrite <- (app_nil_r d), Hr.
Qed.
Lemma read_group s r : 0 <= s < 65536 -> stops 16 r ->
  read_number 16 65535 4 true (as_bytes (show_hex s) ++ r) = Some (s, r).
Proof.
  intros Hs Hr. destruct (show_hex_spec s Hs) as (Hd & Hl & _).
  apply read_number_ok; [done | lia | lia | by left | done].
Qed.

(** ** IPv4 *)
Lemma as_bytes_join sep s t l :
  as_bytes (join sep (s :: t :: l)) = as_bytes s ++ as_bytes sep ++ as_bytes (join sep (t :: l)).
Proof.
  change (join sep (s :: t :: l)) with (s +:+ sep +:+ join sep (t :: l)). by rewrite !as_bytes_app.
Qed.
Lemma read_separator_0 {A} sep (p : Parser A) l : read_separator sep 0 p l = p l.
Proof. done. Qed.
Lemma read_separator_S {A} sep i (p : Parser A) r : read_separator sep (S i) p (sep :: r) = p r.
Proof. cbn. by rewrite byte_eqb_refl. Qed.
Lemma read_ipv4_display o r : length o = 4%nat -> Forall (fun x => 0 <= x < 256) o -> stops 10 r ->
  read_ipv4_addr (as_bytes (ipv4_to_string o) ++ r) = Some (o, r).
Proof.
  destruct o as [|a [|b [|c [|d [|]]]]]; try done. intros _ Ho Hr. rewrite !Forall_cons in Ho.
  destruct Ho as (Ha & Hb & Hc & Hd & _). unfold ipv4_to_string. cbn [map].
  rewrite !as_bytes_join. change (as_bytes ".") with ["."%byte]. cbn [join].
  unfold read_ipv4_addr. repeat rewrite <- app_assoc. cbn [app].
  cbn [read_octets]. rewrite read_separator_0, (read_octet a) by done. cbn [mbind option_bind].
  rewrite read_separator_S, (read_octet b) by done. cbn [mbind option_bind].
  rewrite read_separator_S, (read_octet c) by done. cbn [mbind option_bind].
  rewrite read_separator_S, (read_octet d) by done. done.
Qed.
(** A text without dots is no IPv4 address. *)
Lemma read_digits_suffix radix acc c l : exists d, l = d ++ (read_digits radix acc c l).2.
Proof.
  revert acc c. induction l as [|b l IH]; intros acc c; [by exists []|]. cbn [read_digits].
  destruct (digit_val radix b) as [x|]; [|by exists []].
  destruct (IH (acc * radix + x) (S c)) as [d E]. exists (b :: d). cbn. by rewrite <- E.
Qed.
Lemma read_ipv4_no_dot l : "."%byte ∉ l -> read_ipv4_addr l = None.
Proof.
  intros Hd. unfold read_ipv4_addr. cbn [read_octets]. cbn [read_separator].
  destruct (read_number 10 255 3 false l) as [[o r]|] eqn:E; [|done]. cbn [mbind option_bind].
  assert (Hr : "."%byte ∉ r).
  { unfold read_number in E. destruct (read_digits_suffix 10 0 0 l) as [d Ed].
    destruct (read_digits 10 0 0 l) as [[v c] rest]. destruct (_ || _); [done|]. injection E as <- <-.
    cbn in Ed. rewrite Ed in Hd. set_solver. }
  destruct r as [|b r]; [done|]. cbn [read_separator read_given_char].
  destruct (byte_eqb_spec b "."%byte) as [->|]; [set_solver | done].
Qed.

(** ** IPv6 *)
Definition segments_ok (gs : list Z) : Prop := Forall (fun s => 0 <= s < 65536) gs.
(** Groups from index [i] on: all but the first of a text follow a colon. *)
Fixpoint group_text (i : nat) (gs : list Z) : bytes :=
  match gs with
  | [] => []
  | g :: gs' => (if Nat.eqb i 0 then [] else [x3a]) ++ as_bytes (show_hex g) ++ group_text 1 gs'
  end.
Lemma fmt_subslice_text gs : as_bytes (fmt_subslice gs) = group_text 0 gs.
Proof.
  unfold fmt_subslice. destruct gs as [|g gs]; [done|]. cbn [group_text Nat.eqb app].
  revert g. induction gs as [|h gs IH]; intros g; [cbn; by rewrite app_nil_r|].
  cbn [map]. rewrite as_bytes_join. specialize (IH h). cbn [map] in IH. by rewrite IH.
Qed.
Lemma group_text_chars i gs b : segments_ok gs -> b ∈ group_text i gs -> is_ascii_hexdigit b = true \/ b = x3a.
Proof.
  intros Hg. revert i. induction Hg as [|g gs Hs Hg IH]; intros i; cbn [group_text]; [set_solver|].
  rewrite !elem_of_app. intros [Hb|[Hb|Hb]]; [|left|by eapply IH].
  - destruct (Nat.eqb i 0); [set_solver|]. right. set_solver.
  - destruct (show_hex_spec g Hs) as (_ & _ & Hh). rewrite forallb_forall in Hh. by apply Hh, list_elem_of_In.
Qed.
Lemma group_text_stops gs r : stops 16 r -> stops 16 (group_text 1 gs ++ r).
Proof. by destruct gs. Qed.

(** What may follow the groups: nothing, or two colons. *)
Definition after_groups (r : bytes) : Prop :=
  "."%byte ∉ r /\ (r = [] \/ exists r', r = x3a :: x3a :: r').
Lemma after_groups_stops r : after_groups r -> stops 16 r.
Proof. by intros [_ [->|[r' ->]]]. Qed.
Lemma read_number_none radix max k zero b r : digit_val radix b = None ->
  read_number radix max k zero (b :: r) = None.
Proof. intros Hb. unfold read_number. cbn [read_digits]. by rewrite Hb. Qed.
(** At the end of the groups nothing more is read. *)
Lemma read_groups_end i n r : after_groups r -> read_groups i n r = ([], false, r).
Proof.
  intros [Hd Hr]. destruct n as [|n]; [done|]. cbn [read_groups].
  assert (Hip : (if Nat.ltb 1 (S n) then read_separator x3a i read_ipv4_addr r else None) = None).
  { destruct (Nat.ltb 1 (S n)); [|done]. destruct i as [|i].
    - rewrite read_separator_0. by apply read_ipv4_no_dot.
    - destruct Hr as [->|[r' ->]]; [done|]. rewrite read_separator_S. apply read_ipv4_no_dot. set_solver. }
  rewrite Hip. destruct i as [|i].
  - destruct Hr as [->|[r' ->]]; [done|]. rewrite read_separator_0. by rewrite read_number_none.
  - destruct Hr as [->|[r' ->]]; [done|]. rewrite read_separator_S. by rewrite read_number_none.
Qed.
Lemma read_groups_text gs : forall i n r, segments_ok gs -> after_groups r -> (length gs <= n)%nat ->
  read_groups i n (group_text i gs ++ r) = (gs, false, r).
Proof.
  induction gs as [|g gs IH]; intros i n r Hg Hr Hn; [by apply read_groups_end|].
  destruct n as [|n]; [cbn in Hn; lia|]. pose proof Hg as Hg'. apply Forall_cons in Hg as [Hs Hg].
  assert (Hdot : "."%byte ∉ as_bytes (show_hex g) ++ group_text 1 gs ++ r).
  { destruct Hr as [Hr _]. rewrite !not_elem_of_app. split; [|split; [|done]].
    - intros Hin. destruct (show_hex_spec g Hs) as (_ & _ & Hh). rewrite forallb_forall in Hh.
      specialize (Hh _ (proj1 (list_elem_of_In _ _) Hin)). discriminate Hh.
    - intros Hin. by destruct (group_text_chars _ _ _ Hg Hin). }
  cbn [read_groups group_text]. rewrite <- !app_assoc.
  assert (Hsep : forall {A} (p : Parser A) l,
    read_separator x3a i p ((if Nat.eqb i 0 then [] else [x3a]) ++ l) = p l).
  { intros A p l. destruct i; [apply read_separator_0 | apply read_separator_S]. }
  rewrite !Hsep, read_ipv4_no_dot by done.
  rewrite read_group by (try done; by apply group_text_stops, after_groups_stops).
  assert (group_text 1 gs = group_text (S i) gs) as -> by (by destruct gs).
  rewrite IH by (try done; cbn in Hn; lia). by destruct (Nat.ltb 1 (S n)).
Qed.

(** The run of zeros [Display] leaves out is one. *)
Definition zeros_at (l : list Z) (run : nat * nat) : Prop :=
  exists a b, l = a ++ replicate run.2 0 ++ b /\ length a = run.1.
Lemma zero_run_gen segments : forall p current longest, zeros_at p longest ->
  (exists a, p = a ++ replicate current.2 0 /\ (current.2 = O \/ length a = current.1)) ->
  zeros_at (p ++ segments) (zero_run (length p) current longest segments).
Proof.
  induction segments as [|g segments IH]; intros p [c cl] [s l] Hl (a & Hc & Ha); cbn [fst snd] in *.
  - cbn. by rewrite app_nil_r.
  - replace (p ++ g :: segments) with ((p ++ [g]) ++ segments) by (by rewrite <- app_assoc).
    cbn [zero_run]. replace (S (length p)) with (length (p ++ [g])) by (rewrite length_app; cbn; lia).
    assert (Hlong : zeros_at (p ++ [g]) (s, l)).
    { destruct Hl as (x & y & -> & Hx). exists x, (y ++ [g]). by rewrite <- !app_assoc. }
    destruct (Z.eqb_spec g 0) as [->|]; [|apply IH; [done | by exists (p ++ [g]); rewrite app_nil_r; auto]].
    cbn [fst snd]. set (current := if Nat.eqb cl 0 then _ else _).
    assert (Hcur : exists x, p ++ [0] = x ++ replicate current.2 0 /\ length x = current.1).
    { subst current. destruct (Nat.eqb_spec cl 0) as [->|Hne]; [by exists p|]. cbn [fst snd].
      exists a. rewrite replicate_S_end, app_assoc, <- Hc. split; [done|]. by destruct Ha. }
    destruct Hcur as (x & Hx & Hlx). apply IH.
    + destruct (Nat.ltb _ _); [|done]. exists x, []. by rewrite app_nil_r.
    + exists x. auto.
Qed.
Lemma zero_run_spec segments start len :
  zero_run 0 (O, O) (O, O) segments = (start, len) ->
  segments = take start segments ++ replicate len 0 ++ drop (start + len) segments
  /\ (start + len <= length segments)%nat.
Proof.
  intros E. destruct (zero_run_gen segments [] (O, O) (O, O)) as (a & b & Hs & Ha).
  - by exists [], [].
  - by exists []; auto.
  - cbn [length app] in *. rewrite E in *. cbn [fst snd] in *. subst start. rewrite Hs at 1. split.
    + rewrite Hs, take_app_length, <- drop_drop, drop_app_length. f_equal. f_equal.
      by rewrite drop_app_ge, length_replicate, Nat.sub_diag by (rewrite length_replicate; lia).
    + rewrite Hs, !length_app, length_replicate. lia.
Qed.

Lemma read_given_char_eq c l : read_given_char c (c :: l) = Some (tt, l).
Proof. cbn. by rewrite byte_eqb_refl. Qed.
Lemma read_ipv6_shortened head len tail : segments_ok head -> segments_ok tail ->
  (1 < len)%nat -> (length head + len + length tail = 8)%nat ->
  read_ipv6_addr (group_text 0 head ++ x3a :: x3a :: group_text 0 tail)
  = Some (head ++ replicate len 0 ++ tail, []).
Proof.
  intros Hh Ht Hl Hn. unfold read_ipv6_addr.
  rewrite read_groups_text; [|done| |lia].
  - assert (Nat.eqb (length head) 8 = false) as -> by (apply Nat.eqb_neq; lia).
    rewrite read_given_char_eq. cbn [mbind option_bind].
    rewrite read_given_char_eq. cbn [mbind option_bind].
    rewrite <- (app_nil_r (group_text 0 tail)), read_groups_text; [|done| |lia].
    + by replace (8 - length head - length tail)%nat with len by lia.
    + split; [set_solver | by left].
  - split; [|right; by eexists]. rewrite !not_elem_of_cons. split; [done|]. split; [done|]. intros Hin.
    by destruct (group_text_chars _ _ _ Ht Hin).
Qed.
Lemma read_ipv6_full gs : segments_ok gs -> length gs = 8%nat ->
  read_ipv6_addr (group_text 0 gs) = Some (gs, []).
Proof.
  intros Hg Hn. unfold read_ipv6_addr.
  rewrite <- (app_nil_r (group_text 0 gs)), read_groups_text; [|done| |lia].
  - by rewrite (proj2 (Nat.eqb_eq _ _) Hn).
  - split; [set_solver | by left].
Qed.

Lemma read_ipv6_mapped ab cd : 0 <= ab < 65536 -> 0 <= cd < 65536 ->
  match read_ipv4_addr (as_bytes ("::ffff:" +:+ ipv4_to_string [ab / 256; ab mod 256; cd / 256; cd mod 256])) with
  | Some (octets, rest) => at_end (Some (V4 octets, rest))
  | None =>
    at_end ('(segments, rest) ← read_ipv6_addr
              (as_bytes ("::ffff:" +:+ ipv4_to_string [ab / 256; ab mod 256; cd / 256; cd mod 256]));
            Some (V6 segments, rest))
  end = Some (V6 [0; 0; 0; 0; 0; 65535; ab; cd]).
Proof.
  intros Hab Hcd. rewrite as_bytes_app.
  assert (Hv4 := read_ipv4_display [ab / 256; ab mod 256; cd / 256; cd mod 256] []
    eq_refl ltac:(repeat constructor; Z.to_euclidean_division_equations; lia) I).
  rewrite app_nil_r in Hv4. revert Hv4. generalize (as_bytes (ipv4_to_string [ab / 256; ab mod 256; cd / 256; cd mod 256])).
  intros text Hv4. change (as_bytes "::ffff:") with ([x3a; x3a] ++ as_bytes "ffff" ++ [x3a]).
  rewrite <- !app_assoc. cbn [app].
  assert (read_ipv4_addr (x3a :: x3a :: as_bytes "ffff" ++ x3a :: text) = None) as ->.
  { unfold read_ipv4_addr. cbn [read_octets]. by rewrite read_separator_0, read_number_none. }
  assert (Ht : read_groups 0 7 (as_bytes "ffff" ++ x3a :: text) = ([65535; ab; cd], true, [])).
  { cbn [read_groups]. cbn [Nat.ltb Nat.leb]. rewrite !read_separator_0.
    assert (read_ipv4_addr (as_bytes "ffff" ++ x3a :: text) = None) as ->.
    { unfold read_ipv4_addr. cbn [read_octets]. rewrite read_separator_0.
      change (as_bytes "ffff" ++ x3a :: text) with ("f"%byte :: drop 1 (as_bytes "ffff") ++ x3a :: text).
      by rewrite (read_number_none 10 255 3 false "f"%byte). }
    change "ffff" with (show_hex 65535). rewrite read_group by done.
    rewrite read_separator_S, Hv4. cbn [ipv4_groups]. repeat f_equal; Z.to_euclidean_division_equations; lia. }
  unfold read_ipv6_addr.
  assert (read_groups 0 8 (x3a :: x3a :: as_bytes "ffff" ++ x3a :: text)
          = ([], false, x3a :: x3a :: as_bytes "ffff" ++ x3a :: text)) as ->.
  { cbn [read_groups]. cbn [Nat.ltb Nat.leb]. rewrite !read_separator_0, (read_number_none 16) by done.
    unfold read_ipv4_addr. cbn [read_octets]. by rewrite read_separator_0, read_number_none. }
  cbn [length Nat.eqb]. rewrite read_given_char_eq. cbn [mbind option_bind].
  rewrite read_given_char_eq. cbn [mbind option_bind Nat.sub Nat.add]. by rewrite Ht.
Qed.
(** The address a text was displayed from is the one it parses to. *)
Lemma ip_roundtrip a : ip_ok a -> ip_parse (ip_to_string a) = Some a.
Proof.
  intros Ha. unfold ip_parse. destruct a as [o|gs]; destruct Ha as [Hl Ho]; cbn [ip_to_string].
  - by rewrite <- (app_nil_r (as_bytes _)), read_ipv4_display.
  - assert (Hgen : let '(start, len) := zero_run 0 (O, O) (O, O) gs in
      read_ipv6_addr (as_bytes (if Nat.ltb 1 len
        then fmt_subslice (take start gs) +:+ "::" +:+ fmt_subslice (drop (start + len) gs)
        else fmt_subslice gs)) = Some (gs, [])
      /\ "."%byte ∉ as_bytes (if Nat.ltb 1 len
        then fmt_subslice (take start gs) +:+ "::" +:+ fmt_subslice (drop (start + len) gs)
        else fmt_subslice gs)).
    { destruct (zero_run 0 (O, O) (O, O) gs) as [start len] eqn:E. apply zero_run_spec in E as [E Hle].
      assert (Hok : forall i l, segments_ok l -> "."%byte ∉ group_text i l).
      { intros i l Hg Hin. by destruct (group_text_chars _ _ _ Hg Hin). }
      assert (Ht : segments_ok (take start gs)) by by apply Forall_take.
      assert (Hd : segments_ok (drop (start + len) gs)) by by apply Forall_drop.
      destruct (Nat.ltb_spec 1 len).
      - rewrite !as_bytes_app, !fmt_subslice_text. change (as_bytes "::") with [x3a; x3a]. cbn [app].
        rewrite (read_ipv6_shortened _ len) by (try done; rewrite length_take, length_drop; lia).
        rewrite <- E. split; [done|]. rewrite not_elem_of_app, !not_elem_of_cons. auto.
      - rewrite fmt_subslice_text, read_ipv6_full by done. auto. }
    unfold ipv6_to_string. destruct (to_ipv4_mapped gs) as [o|] eqn:Em.
    + clear Hgen. unfold to_ipv4_mapped in Em. do 8 (destruct gs as [|? gs]; [done|]). destruct gs; [|done].
      destruct (forallb _ _ && _) eqn:Ez; [|done]. injection Em as <-.
      apply andb_true_iff in Ez as [Ez Ef%Z.eqb_eq]. cbn [forallb] in Ez. rewrite !andb_true_iff, !Z.eqb_eq in Ez.
      destruct_and!. subst. rewrite !Forall_cons in Ho. destruct_and!. by apply read_ipv6_mapped.
    + destruct (zero_run 0 (O, O) (O, O) gs) as [start len]. destruct Hgen as [Hg Hn].
      by rewrite read_ipv4_no_dot, Hg by done.
Qed.
Lemma ip_to_string_inj a b : ip_ok a -> ip_ok b -> ip_to_string a = ip_to_string b -> a = b.
Proof.
  intros Ha Hb E. pose proof (ip_roundtrip a Ha) as Hp. rewrite E, (ip_roundtrip b Hb) in Hp. by simplify_eq.
Qed.
