(* ===== verification/Attribution.v ===== *)
(** * Packets and the sockets they belong to

    [src/crates/capture/src/af_packet.rs]: what is kept of a packet, and the
    index of a process's TCP sockets that says whether a packet is the
    process's and in which direction it goes.  [etherparse] and the content of
    /proc and /sys are parameters; the parsing of /proc/net/tcp is the code's
    own and modelled in full. *)
From Stdlib Require Import ZArith Lia Strings.Byte Strings.String.
From S2P Require Import Prelude RustStr Table Ip Http1.
Local Open Scope string_scope.
Local Open Scope list_scope.
Local Open Scope Z_scope.

(* src: src/crates/capture/src/af_packet.rs:14-25 TcpSegment *)
Record TcpSegment : Type := mkTcpSegment {
  sg_source_ip : string;
  sg_source_port : Z;
  sg_destination_ip : string;
  sg_destination_port : Z;
  sg_sequence : Z;
  sg_ack : Z;
  sg_syn : bool;
  sg_fin : bool;
  sg_rst : bool;
  sg_payload : bytes }.

(* src: src/crates/capture/src/af_packet.rs:28-37 ProcessSocketFlow *)
Record ProcessSocketFlow : Type := mkProcessSocketFlow {
  sf_pid : Z;
  sf_fd : Z;
  sf_inode : Z;
  sf_local_ip : string;
  sf_local_port : Z;
  sf_remote_ip : string;
  sf_remote_port : Z;
  sf_ipv6 : bool }.

(* src: src/crates/capture/src/af_packet.rs:40-43 ProcessFlowDirection *)
Inductive ProcessFlowDirection : Type :=
| LocalToRemote
| RemoteToLocal.
#[export] Instance ProcessFlowDirection_eq_dec : EqDecision ProcessFlowDirection.
Proof. solve_decision. Defined.

(* src: src/crates/capture/src/af_packet.rs:48-51 ProcessFlowIndex *)
Record ProcessFlowIndex : Type := mkProcessFlowIndex {
  pfi_pid : Z;
  pfi_flows : list ProcessSocketFlow }.

(** An [io::Error] is its message. *)
Abbreviation IoError := string (only parsing).
(* src: src/crates/capture/src/af_packet.rs:61-64 PacketDecodeError *)
Inductive PacketDecodeError : Type := PacketDecodeError_Parse (message : string).
(* src: src/crates/capture/src/af_packet.rs:67-74 ProcLookupError *)
Inductive ProcLookupError : Type :=
| ProcLookupError_Io (e : IoError)
| ProcLookupError_MissingInterface (index : Z)
| ProcLookupError_InvalidProcLine (line : string).
(* src: src/crates/capture/src/af_packet.rs:77-84 TapError *)
Inductive TapError : Type :=
| TapError_Io (e : IoError)
| TapError_Proc (e : ProcLookupError)
| TapError_Decode (e : PacketDecodeError).

(** ** Direction *)
(* src: src/crates/capture/src/af_packet.rs:169-185 ProcessFlowIndex::direction_for_segment: flow *)
Definition flow_direction (flow : ProcessSocketFlow) (s : TcpSegment) : option ProcessFlowDirection :=
  if String.eqb (sf_local_ip flow) (sg_source_ip s)
     && (sf_local_port flow =? sg_source_port s)
     && String.eqb (sf_remote_ip flow) (sg_destination_ip s)
     && (sf_remote_port flow =? sg_destination_port s)
  then Some LocalToRemote
  else if String.eqb (sf_local_ip flow) (sg_destination_ip s)
     && (sf_local_port flow =? sg_destination_port s)
     && String.eqb (sf_remote_ip flow) (sg_source_ip s)
     && (sf_remote_port flow =? sg_source_port s)
  then Some RemoteToLocal
  else None.
(** [iter().find_map(f)]. *)
Fixpoint find_map {A B} (f : A -> option B) (l : list A) : option B :=
  match l with
  | [] => None
  | a :: l' => match f a with Some b => Some b | None => find_map f l' end
  end.
(* src: src/crates/capture/src/af_packet.rs:168-186 ProcessFlowIndex::direction_for_segment *)
Definition direction_for_segment (index : ProcessFlowIndex) (s : TcpSegment)
    : option ProcessFlowDirection :=
  find_map (fun flow => flow_direction flow s) (pfi_flows index).
(* src: src/crates/capture/src/af_packet.rs:163-165 ProcessFlowIndex::matches_segment *)
Definition matches_segment (index : ProcessFlowIndex) (s : TcpSegment) : bool :=
  is_some (direction_for_segment index s).

(** ** /proc *)
(** [str::lines]: a final piece without line feed keeps its carriage return. *)
Definition strip_cr (l : bytes) : bytes :=
  match rev l with
  | b :: l' => if Byte.eqb b x0d then rev l' else l
  | [] => l
  end.
Fixpoint line_pieces (pieces : list bytes) : list string :=
  match pieces with
  | [] => []
  | [last] => match last with [] => [] | _ => [of_bytes last] end
  | piece :: pieces' => of_bytes (strip_cr piece) :: line_pieces pieces'
  end.
Definition lines (s : string) : list string := line_pieces (split_on x0a [] (as_bytes s)).
(** [str::split_whitespace]: tokens up to the next white space character. *)
Fixpoint token (acc l : bytes) : bytes * bytes :=
  match l with
  | [] => (rev acc, [])
  | b :: l1 =>
    let stop := ws1 b
      || match l1 with
         | c :: l2 => ws2 b c || match l2 with d :: _ => ws3 b c d | [] => false end
         | [] => false
         end in
    if stop then (rev acc, l) else token (b :: acc) l1
  end.
Fixpoint split_whitespace_fuel (fuel : nat) (l : bytes) : list string :=
  match fuel with
  | O => []
  | S fuel' =>
    match trim_start_bytes l with
    | [] => []
    | l' => let '(t, rest) := token [] l' in of_bytes t :: split_whitespace_fuel fuel' rest
    end
  end.
(** Every token takes a byte. *)
Definition split_whitespace (s : string) : list string :=
  split_whitespace_fuel (S (length (as_bytes s))) (as_bytes s).
(** [str.parse::<i32>()]. *)
Definition parse_i32 (l : bytes) : option Z :=
  match l with
  | x2d :: (_ :: _) as l' => Z.opp <$> digits 10 (2 ^ 31) 0 l'
  | _ => from_str_radix 10 (2 ^ 31 - 1) l
  end.
(** [str::split_once(':')], [str::strip_suffix]. *)
Definition split_once_colon (s : string) : option (string * string) :=
  (fun n => (of_bytes (take n (as_bytes s)), of_bytes (drop (S n) (as_bytes s))))
    <$> position x3a (as_bytes s).
Definition strip_suffix (suffix s : string) : option string :=
  if ends_with (as_bytes suffix) (as_bytes s)
  then Some (of_bytes (take (length (as_bytes s) - length (as_bytes suffix)) (as_bytes s))) else None.

Definition u16_max : Z := 65535.
Definition invalid_line {A} (value : string) (o : option A) : result ProcLookupError A :=
  ok_or (ProcLookupError_InvalidProcLine value) o.
(** [u32::to_le_bytes] of the number printed in hexadecimal. *)
Definition le_octets (value : string) : option (list Z) :=
  raw ← from_str_radix 16 u32_max (as_bytes value);
  mret [raw mod 256; raw / 256 mod 256; raw / 65536 mod 256; raw / 16777216].
(* src: src/crates/capture/src/af_packet.rs:347-351 parse_ipv4_address *)
Definition parse_ipv4_address (value : string) : result ProcLookupError string :=
  octets ← invalid_line value (le_octets value);
  mret (ip_to_string (V4 octets)).
(** Each chunk of eight digits is two segments, its octets in network order. *)
Definition word_segments (chunk : bytes) : option (list Z) :=
  text ← from_utf8 chunk;
  octets ← le_octets text;
  mret (ipv4_groups octets).
(* src: src/crates/capture/src/af_packet.rs:353-366 parse_ipv6_address *)
Definition parse_ipv6_address (value : string) : result ProcLookupError string :=
  if negb (str_len value =? 32) then Err (ProcLookupError_InvalidProcLine value)
  else
    let b := as_bytes value in
    words ← invalid_line value (mapM word_segments
      [take 8 b; take 8 (drop 8 b); take 8 (drop 16 b); drop 24 b]);
    mret (ip_to_string (V6 (concat words))).
(* src: src/crates/capture/src/af_packet.rs:333-345 parse_proc_socket_address *)
Definition parse_proc_socket_address (value : string) (ipv6 : bool)
    : result ProcLookupError (string * Z) :=
  '(address, port) ← invalid_line value (split_once_colon value);
  port ← invalid_line value (from_str_radix 16 u16_max (as_bytes port));
  address ← (if ipv6 then parse_ipv6_address address else parse_ipv4_address address);
  mret (address, port).
(* src: src/crates/capture/src/af_packet.rs:286-292 TcpEntry *)
Record TcpEntry : Type := mkTcpEntry {
  ty_local_ip : string;
  ty_local_port : Z;
  ty_remote_ip : string;
  ty_remote_port : Z;
  ty_ipv6 : bool }.
(** [parts.len() <= 9] refuses, so that [parts[9]] exists. *)
(* src: src/crates/capture/src/af_packet.rs:311-331 parse_tcp_line *)
Definition parse_tcp_line (line : string) (ipv6 : bool) : result ProcLookupError (Z * TcpEntry) :=
  match split_whitespace line with
  | _ :: local :: remote :: _ :: _ :: _ :: _ :: _ :: _ :: inode :: _ =>
    '(local_ip, local_port) ← parse_proc_socket_address local ipv6;
    '(remote_ip, remote_port) ← parse_proc_socket_address remote ipv6;
    inode ← invalid_line line (from_str_radix 10 u64_max (as_bytes inode));
    mret (inode, mkTcpEntry local_ip local_port remote_ip remote_port ipv6)
  | _ => Err (ProcLookupError_InvalidProcLine line)
  end.

(** The files of /proc and /sys the code reads: the entries of a process's fd
    directory with the target of each link, a file's text, and the interfaces
    with the text of their [ifindex]. *)
Record ProcFs : Type := mkProcFs {
  read_fd_dir : Z -> result IoError (list (result IoError (string * result IoError string)));
  read_to_string : string -> result IoError string;
  read_class_net : result IoError (list (result IoError (string * result IoError string))) }.

(** The loop over the data lines of one table. *)
Abbreviation Entries := (gmap Z TcpEntry).
Fixpoint insert_lines (ipv6 : bool) (entries : Entries) (ls : list string)
    : result ProcLookupError Entries :=
  match ls with
  | [] => Ok entries
  | line :: ls' =>
    '(inode, entry) ← parse_tcp_line line ipv6;
    insert_lines ipv6 (<[inode := entry]> entries) ls'
  end.
(* src: src/crates/capture/src/af_packet.rs:296-307 load_tcp_entries: table *)
Definition load_table (proc : ProcFs) (file_name : string) (ipv6 : bool) (entries : Entries)
    : result ProcLookupError Entries :=
  contents ← map_err ProcLookupError_Io (read_to_string proc ("/proc/net/" +:+ file_name));
  insert_lines ipv6 entries
    (List.filter (fun line => negb (str_is_empty (trim line))) (drop 1 (lines contents))).
(* src: src/crates/capture/src/af_packet.rs:294-309 load_tcp_entries *)
Definition load_tcp_entries (proc : ProcFs) : result ProcLookupError Entries :=
  entries ← load_table proc "tcp" false ∅;
  load_table proc "tcp6" true entries.

(* src: src/crates/capture/src/af_packet.rs:279-283 parse_socket_inode *)
Definition parse_socket_inode (target : string) : option Z :=
  value ← strip_prefix "socket:[" target;
  value ← strip_suffix "]" value;
  from_str_radix 10 u64_max (as_bytes value).
(* src: src/crates/capture/src/af_packet.rs:195-206 socket_inodes_for_pid: loop *)
Fixpoint collect_inodes (sockets : gmap Z Z)
    (entries : list (result IoError (string * result IoError string)))
    : result ProcLookupError (gmap Z Z) :=
  match entries with
  | [] => Ok sockets
  | entry :: entries' =>
    '(fd_name, link) ← map_err ProcLookupError_Io entry;
    match parse_i32 (as_bytes fd_name) with
    | None => collect_inodes sockets entries'
    | Some fd =>
      target ← map_err ProcLookupError_Io link;
      match parse_socket_inode target with
      | None => collect_inodes sockets entries'
      | Some inode => collect_inodes (<[fd := inode]> sockets) entries'
      end
    end
  end.
(* src: src/crates/capture/src/af_packet.rs:189-208 socket_inodes_for_pid *)
Definition socket_inodes_for_pid (proc : ProcFs) (pid : Z) : result ProcLookupError (gmap Z Z) :=
  entries ← map_err ProcLookupError_Io (read_fd_dir proc pid);
  collect_inodes ∅ entries.
(** A [BTreeMap] iterates by its keys. *)
Definition btree_map {A} (m : gmap Z A) : list (Z * A) :=
  order_by (fun a b => a.1 <=? b.1) (map_to_list m).
(* src: src/crates/capture/src/af_packet.rs:129-150 ProcessFlowIndex::from_proc_root *)
Definition from_proc_root (proc : ProcFs) (pid : Z) : result ProcLookupError ProcessFlowIndex :=
  inode_map ← socket_inodes_for_pid proc pid;
  tcp_entries ← load_tcp_entries proc;
  let flows := omap (fun '(fd, inode) =>
    (fun entry => mkProcessSocketFlow pid fd inode (ty_local_ip entry) (ty_local_port entry)
       (ty_remote_ip entry) (ty_remote_port entry) (ty_ipv6 entry)) <$> tcp_entries !! inode)
    (btree_map inode_map) in
  mret (mkProcessFlowIndex pid flows).
(* src: src/crates/capture/src/af_packet.rs:125-127 ProcessFlowIndex::from_pid *)
Definition from_pid (proc : ProcFs) (pid : Z) : result ProcLookupError ProcessFlowIndex :=
  from_proc_root proc pid.

(* src: src/crates/capture/src/af_packet.rs:263-275 interface_name_from_index: loop *)
Fixpoint find_interface (index : Z) (entries : list (result IoError (string * result IoError string)))
    : result ProcLookupError string :=
  match entries with
  | [] => Err (ProcLookupError_MissingInterface index)
  | entry :: entries' =>
    '(name, ifindex) ← map_err ProcLookupError_Io entry;
    match ifindex with
    | Err _ => find_interface index entries'
    | Ok contents =>
      match parse_i32 (as_bytes (trim contents)) with
      | None => find_interface index entries'
      | Some candidate => if candidate =? index then Ok name else find_interface index entries'
      end
    end
  end.
(* src: src/crates/capture/src/af_packet.rs:262-277 interface_name_from_index *)
Definition interface_name_from_index (proc : ProcFs) (index : Z) : result ProcLookupError string :=
  entries ← map_err ProcLookupError_Io (read_class_net proc);
  find_interface index entries.

(** ** Packets *)
(** The slices of the [etherparse] crate the code reads. *)
Inductive NetSlice : Type :=
| Net_Ipv4 (source destination : list Z)
| Net_Ipv6 (source destination : list Z)  (* their segments *)
| Net_Other.
Record TcpSlice : Type := mkTcpSlice {
  tl_source_port : Z;
  tl_destination_port : Z;
  tl_sequence_number : Z;
  tl_acknowledgment_number : Z;
  tl_syn : bool;
  tl_fin : bool;
  tl_rst : bool;
  tl_payload : bytes }.
Inductive TransportSlice : Type :=
| Transport_Tcp (tcp : TcpSlice)
| Transport_Other.
Record SlicedPacket : Type := mkSlicedPacket {
  sp_net : option NetSlice;
  sp_transport : option TransportSlice }.
Class EtherparseApi := {
  from_ethernet : bytes -> result string SlicedPacket;
  from_ip : bytes -> result string SlicedPacket }.

Section packets.
Context `{EtherparseApi}.
(** [matches!(frame.first().map(|byte| byte >> 4), Some(4 | 6))]. *)
Definition ip_version_nibble (frame : bytes) : bool :=
  match frame with
  | [] => false
  | b :: _ => let n := Z.shiftr (u8 b) 4 in (n =? 4) || (n =? 6)
  end.
(** [None] is the [return Ok(None)]. *)
(* src: src/crates/capture/src/af_packet.rs:211-229 decode_segment: packet *)
Definition slice_packet (frame : bytes) : result PacketDecodeError (option SlicedPacket) :=
  let ip := Some <$> map_err PacketDecodeError_Parse (from_ip frame) in
  match from_ethernet frame with
  | Ok packet =>
    if is_some (sp_net packet) || is_some (sp_transport packet) || negb (ip_version_nibble frame)
    then Ok (Some packet) else ip
  | Err _ => if ip_version_nibble frame then ip else Ok None
  end.
(* src: src/crates/capture/src/af_packet.rs:210-260 decode_segment *)
Definition decode_segment (frame : bytes) : result PacketDecodeError (option TcpSegment) :=
  packet ← slice_packet frame;
  mret (packet ← packet;
    '(source_ip, destination_ip) ←
      match sp_net packet with
      | Some (Net_Ipv4 source destination) =>
        Some (ip_to_string (V4 source), ip_to_string (V4 destination))
      | Some (Net_Ipv6 source destination) =>
        Some (ip_to_string (V6 source), ip_to_string (V6 destination))
      | _ => None
      end;
    transport ← sp_transport packet;
    match transport with
    | Transport_Tcp tcp =>
      Some (mkTcpSegment source_ip (tl_source_port tcp) destination_ip (tl_destination_port tcp)
        (tl_sequence_number tcp) (tl_acknowledgment_number tcp) (tl_syn tcp) (tl_fin tcp) (tl_rst tcp)
        (tl_payload tcp))
    | Transport_Other => None
    end).

(** What [stream.read] returned: a frame, [WouldBlock], or another error. *)
Inductive ReadResult : Type :=
| Read_Frame (frame : bytes)
| Read_WouldBlock
| Read_Error (e : IoError).
(* src: src/crates/capture/src/af_packet.rs:113-121 PassiveTap::recv *)
Definition tap_recv (read : ReadResult) : result TapError (option TcpSegment) :=
  match read with
  | Read_Frame frame => map_err TapError_Decode (decode_segment frame)
  | Read_WouldBlock => Ok None
  | Read_Error e => Err (TapError_Io e)
  end.
End packets.

(** ** The kernel's rendering of a socket *)
(** [%X] at a fixed width of [n] digits. *)
Definition upper_digit (z : Z) : byte := to_u8 (if z <? 10 then 48 + z else 55 + z).
Fixpoint hex_be (n : nat) (z : Z) : bytes :=
  match n with
  | O => []
  | S n' => hex_be n' (z / 16) ++ [upper_digit (z mod 16)]
  end.
(** Four octets in memory order, read as a little-endian word. *)
Definition le_word (octets : list Z) : Z :=
  match octets with
  | [a; b; c; d] => a + 256 * b + 65536 * c + 16777216 * d
  | _ => 0
  end.
Definition octets_of (segments : list Z) : list Z := segments ≫= (fun s => [s / 256; s mod 256]).
(** The [%08X] words of an address, then [:%04X]. *)
Definition render_address (a : IpAddr) (port : Z) : bytes :=
  match a with
  | V4 octets => hex_be 8 (le_word octets)
  | V6 segments =>
    concat (map (fun i => hex_be 8 (le_word (take 4 (drop (4 * i) (octets_of segments))))) [0; 1; 2; 3]%nat)
  end ++ [x3a] ++ hex_be 4 port.
(** A socket of the kernel: its two ends and inode. *)
Record KernelSocket : Type := mkKernelSocket {
  ks_local : IpAddr;
  ks_local_port : Z;
  ks_remote : IpAddr;
  ks_remote_port : Z;
  ks_inode : Z }.
Definition is_v6 (a : IpAddr) : bool := match a with V4 _ => false | V6 _ => true end.
Record socket_ok (k : KernelSocket) : Prop := mk_socket_ok {
  so_local : ip_ok (ks_local k);
  so_remote : ip_ok (ks_remote k);
  so_family : is_v6 (ks_local k) = is_v6 (ks_remote k);
  so_ports : 0 <= ks_local_port k <= u16_max /\ 0 <= ks_remote_port k <= u16_max;
  so_inode : 0 <= ks_inode k <= u64_max }.
(** A line of /proc/net/tcp: the slot, the two addresses, the state and five
    more columns before the inode, anything after it, fields apart by spaces. *)
Definition is_field (t : bytes) : Prop := t <> [] /\ Forall (fun b => printable b = true) t.
Definition spaced (fields : list bytes) : bytes := concat (map (fun t => x20 :: t) fields).
Definition render_line (slot : bytes) (k : KernelSocket) (columns rest : list bytes) : string :=
  of_bytes (spaced ([slot; render_address (ks_local k) (ks_local_port k);
                     render_address (ks_remote k) (ks_remote_port k)]
                    ++ columns ++ [as_bytes (show_Z (ks_inode k))] ++ rest)).
Definition entry_of (k : KernelSocket) : TcpEntry :=
  mkTcpEntry (ip_to_string (ks_local k)) (ks_local_port k) (ip_to_string (ks_remote k))
    (ks_remote_port k) (is_v6 (ks_local k)).
Example parse_kernel :
  parse_proc_socket_address "0100007F:1F90" false = Ok ("127.0.0.1", 8080)
  /\ parse_proc_socket_address "00000000000000000000000001000000:1F90" true = Ok ("::1", 8080)
  /\ of_bytes (render_address (V4 [127; 0; 0; 1]) 8080) = "0100007F:1F90"
  /\ of_bytes (render_address (V6 [0;0;0;0;0;0;0;1]) 8080) = "00000000000000000000000001000000:1F90".
Proof. vm_compute. done. Qed.

(** ** Reading the rendering back *)
Lemma upper_digit_val z : 0 <= z < 16 -> digit_val 16 (upper_digit z) = Some z.
Proof.
  intros Hz. assert (Hn : exists n, (n < 16)%nat /\ z = Z.of_nat n) by (exists (Z.to_nat z); lia).
  destruct Hn as (n & Hn & ->). do 16 (destruct n as [|n]; [done|]). lia.
Qed.
Lemma hex_be_digits max n z : 0 <= z < 16 ^ Z.of_nat n -> z <= max ->
  forall r, digits 16 max 0 (hex_be n z ++ r) = digits 16 max z r.
Proof.
  revert z. induction n as [|n IH]; intros z Hz Hm r.
  - cbn in *. by replace z with 0 by lia.
  - rewrite Nat2Z.inj_succ, Z.pow_succ_r in Hz by lia. cbn [hex_be]. rewrite <- app_assoc.
    pose proof (Z.div_mod z 16 ltac:(lia)). pose proof (Z.mod_pos_bound z 16 ltac:(lia)).
    rewrite IH by (try split; try apply Z.div_pos; try apply Z.div_lt_upper_bound; lia).
    cbn [app digits]. rewrite upper_digit_val by done.
    replace (z / 16 * 16 + z mod 16) with z by lia. by rewrite (proj2 (Z.leb_le _ _) Hm).
Qed.
Lemma length_hex_be n z : length (hex_be n z) = n.
Proof. revert z. induction n as [|n IH]; intros z; [done|]. cbn. rewrite length_app, IH. cbn. lia. Qed.
Lemma upper_digit_hex z : 0 <= z < 16 -> is_ascii_hexdigit (upper_digit z) = true.
Proof.
  intros Hz. assert (Hn : exists n, (n < 16)%nat /\ z = Z.of_nat n) by (exists (Z.to_nat z); lia).
  destruct Hn as (n & Hn & ->). do 16 (destruct n as [|n]; [done|]). lia.
Qed.
Lemma hex_be_hex n z : forallb is_ascii_hexdigit (hex_be n z) = true.
Proof.
  revert z. induction n as [|n IH]; intros z; [done|]. cbn [hex_be]. rewrite forallb_app, IH. cbn.
  rewrite upper_digit_hex; [done|]. apply Z.mod_pos_bound. lia.
Qed.
Lemma hex_be_parse max n z : (0 < n)%nat -> 0 <= z < 16 ^ Z.of_nat n -> z <= max ->
  from_str_radix 16 max (hex_be n z) = Some z.
Proof.
  intros Hn Hz Hm. pose proof (hex_be_hex n z) as Hh. pose proof (length_hex_be n z) as Hl.
  rewrite from_str_radix_digits.
  - by rewrite <- (app_nil_r (hex_be n z)), hex_be_digits.
  - intros l' E. rewrite E in Hh. discriminate.
  - intros E. rewrite E in Hl. cbn in Hl. lia.
Qed.

(** A word is its four octets. *)
Lemma le_octets_word octets : length octets = 4%nat -> Forall (fun o => 0 <= o < 256) octets ->
  0 <= le_word octets <= u32_max
  /\ [le_word octets mod 256; le_word octets / 256 mod 256; le_word octets / 65536 mod 256;
      le_word octets / 16777216] = octets.
Proof.
  destruct octets as [|a [|b [|c [|d [|]]]]]; try done. intros _ Ho. rewrite !Forall_cons in Ho.
  destruct Ho as (Ha & Hb & Hc & Hd & _). cbn [le_word]. unfold u32_max. split; [lia|].
  repeat f_equal; Z.to_euclidean_division_equations; lia.
Qed.
Lemma le_octets_hex octets : length octets = 4%nat -> Forall (fun o => 0 <= o < 256) octets ->
  le_octets (of_bytes (hex_be 8 (le_word octets))) = Some octets.
Proof.
  intros Hl Ho. destruct (le_octets_word octets Hl Ho) as [Hr Hw]. unfold u32_max in Hr.
  unfold le_octets. rewrite as_of_bytes, hex_be_parse by (unfold u32_max; cbn; lia). cbn. by rewrite Hw.
Qed.

Lemma position_here b l r : b ∉ l -> position b (l ++ b :: r) = Some (length l).
Proof.
  intros Hb. induction l as [|c l IH]; cbn; [by rewrite byte_eqb_refl|].
  apply not_elem_of_cons in Hb as [Hc Hb]. destruct (byte_eqb_spec c b); [congruence|]. by rewrite IH.
Qed.
Lemma hex_no_colon l : forallb is_ascii_hexdigit l = true -> x3a ∉ l.
Proof.
  rewrite forallb_forall. intros Hl Hin%list_elem_of_In. by specialize (Hl _ Hin).
Qed.
Lemma split_once_render l port : forallb is_ascii_hexdigit l = true ->
  split_once_colon (of_bytes (l ++ [x3a] ++ hex_be 4 port)) = Some (of_bytes l, of_bytes (hex_be 4 port)).
Proof.
  intros Hl. unfold split_once_colon. rewrite as_of_bytes. cbn [app].
  rewrite position_here by (by apply hex_no_colon). cbn. rewrite take_app_length.
  by rewrite drop_app_ge, Nat.sub_succ_l, Nat.sub_diag by lia.
Qed.
Lemma hex_utf8 l : forallb is_ascii_hexdigit l = true -> utf8_valid l = true.
Proof.
  intros Hl. apply utf8_valid_ascii_all. rewrite forallb_forall in *. intros b Hb. specialize (Hl b Hb).
  unfold is_ascii_hexdigit, in_range in Hl. simpl_bools. lia.
Qed.
Lemma word_segments_hex s t : 0 <= s < 65536 -> 0 <= t < 65536 ->
  word_segments (hex_be 8 (le_word [s / 256; s mod 256; t / 256; t mod 256])) = Some [s; t].
Proof.
  intros Hs Ht. unfold word_segments.
  rewrite (proj2 (from_utf8_Some _ (of_bytes (hex_be 8 (le_word [s / 256; s mod 256; t / 256; t mod 256]))))).
  - cbn [mbind option_bind]. rewrite le_octets_hex; [|done|].
    + cbn. repeat f_equal; Z.to_euclidean_division_equations; lia.
    + repeat constructor; Z.to_euclidean_division_equations; lia.
  - split; [apply hex_utf8, hex_be_hex | by rewrite as_of_bytes].
Qed.
Lemma parse_ipv6_render segments : ip_ok (V6 segments) ->
  parse_ipv6_address (of_bytes (concat (map
    (fun i => hex_be 8 (le_word (take 4 (drop (4 * i) (octets_of segments))))) [0; 1; 2; 3]%nat)))
  = Ok (ip_to_string (V6 segments)).
Proof.
  intros [Hl Hs]. do 8 (destruct segments as [|? segments]; [done|]).
  destruct segments; [|done]. rewrite !Forall_cons in Hs. destruct_and!.
  unfold octets_of. cbn [mbind list_bind app map concat take drop Nat.mul Nat.add].
  set (w1 := hex_be 8 (le_word [z / 256; _; _; _])). set (w2 := hex_be 8 (le_word [z1 / 256; _; _; _])).
  set (w3 := hex_be 8 (le_word [z3 / 256; _; _; _])). set (w4 := hex_be 8 (le_word [z5 / 256; _; _; _])).
  assert (L1 : length w1 = 8%nat) by apply length_hex_be.
  assert (L2 : length w2 = 8%nat) by apply length_hex_be.
  assert (L3 : length w3 = 8%nat) by apply length_hex_be.
  assert (L4 : length w4 = 8%nat) by apply length_hex_be.
  assert (Hb : forall b, b = w1 ++ w2 ++ w3 ++ w4 ++ [] -> length b = 32%nat
    /\ take 8 b = w1 /\ take 8 (drop 8 b) = w2 /\ take 8 (drop 16 b) = w3 /\ drop 24 b = w4).
  { intros b ->. rewrite app_nil_r. split; [rewrite !length_app; lia|].
    repeat match goal with w := _ : bytes |- _ => clearbody w end.
    do 9 (destruct w1 as [|? w1]; try discriminate L1). do 9 (destruct w2 as [|? w2]; try discriminate L2).
    do 9 (destruct w3 as [|? w3]; try discriminate L3). do 9 (destruct w4 as [|? w4]; try discriminate L4).
    done. }
  destruct (Hb _ eq_refl) as (Hlen & C1 & C2 & C3 & C4).
  unfold parse_ipv6_address, str_len. rewrite <- length_as_bytes, as_of_bytes, Hlen. cbv zeta.
  rewrite C1, C2, C3, C4. change (negb (Z.of_nat 32 =? 32)) with false. cbv iota.
  unfold w1, w2, w3, w4. cbn [mapM]. by rewrite !word_segments_hex by done.
Qed.
Lemma parse_render_address a port : ip_ok a -> 0 <= port <= u16_max ->
  parse_proc_socket_address (of_bytes (render_address a port)) (is_v6 a) = Ok (ip_to_string a, port).
Proof.
  intros Ha Hp. unfold parse_proc_socket_address, render_address.
  rewrite split_once_render.
  - cbn [invalid_line ok_or mbind result_bind]. unfold u16_max in Hp. rewrite as_of_bytes, hex_be_parse by (unfold u16_max; cbn; lia).
    cbn [invalid_line ok_or mbind result_bind]. destruct a as [o|s].
    + unfold is_v6, parse_ipv4_address. destruct Ha as [Hl Ho]. by rewrite le_octets_hex.
    + unfold is_v6. by rewrite parse_ipv6_render.
  - destruct a; [apply hex_be_hex|]. cbn [map concat]. by rewrite !forallb_app, !hex_be_hex.
Qed.

(** Fields apart by single spaces are the tokens. *)
Definition starts_spaced (l : bytes) : Prop := l = [] \/ exists r, l = x20 :: r.
Lemma token_field acc t r : Forall (fun b => printable b = true) t -> starts_spaced r ->
  token acc (t ++ r) = (rev acc ++ t, r).
Proof.
  intros Ht Hr. revert acc. induction t as [|b t IH]; intros acc.
  - rewrite app_nil_r. cbn [app]. by destruct Hr as [->|[r' ->]].
  - apply Forall_cons in Ht as [Hb Ht]. destruct (printable_ws b Hb) as (H1 & H2 & _ & H4 & _).
    assert (token acc ((b :: t) ++ r) = token (b :: acc) (t ++ r)) as ->.
    { cbn [app token]. rewrite H1. by destruct (t ++ r) as [|c [|d l]]; rewrite ?H2, ?H4. }
    rewrite IH by done. cbn [rev]. by rewrite <- app_assoc.
Qed.
Lemma trim_start_field t r : is_field t -> trim_start_bytes (x20 :: t ++ r) = t ++ r.
Proof.
  intros [Hne Ht]. destruct t as [|b t]; [done|]. apply Forall_cons in Ht as [Hb _].
  destruct (printable_ws b Hb) as (H1 & H2 & _ & H4 & _). cbn [app].
  change (trim_start_bytes (x20 :: b :: t ++ r)) with (trim_start_bytes (b :: t ++ r)).
  cbn [trim_start_bytes]. rewrite H1. by destruct (t ++ r) as [|c [|d l]]; rewrite ?H2, ?H4.
Qed.
Lemma spaced_starts fields : starts_spaced (spaced fields).
Proof. destruct fields; [by left | right; by eexists]. Qed.
Lemma split_spaced fields : Forall is_field fields ->
  split_whitespace (of_bytes (spaced fields)) = map of_bytes fields.
Proof.
  intros Hf. unfold split_whitespace. rewrite as_of_bytes.
  assert (Hgen : forall fuel, (length (spaced fields) < fuel)%nat ->
    split_whitespace_fuel fuel (spaced fields) = map of_bytes fields); [|apply Hgen; lia].
  induction Hf as [|t fields Ht Hf IH]; intros fuel Hl; (destruct fuel as [|fuel]; [lia|]); [done|].
  change (spaced (t :: fields)) with (x20 :: t ++ spaced fields) in *.
  cbn [split_whitespace_fuel]. rewrite trim_start_field by done.
  cbn in Hl. rewrite length_app in Hl.
  destruct (t ++ spaced fields) as [|b l] eqn:E; [by destruct t; [destruct Ht | discriminate E]|].
  rewrite <- E, token_field by (try apply spaced_starts; apply Ht). cbn [rev app map].
  by rewrite IH by lia.
Qed.
Lemma hex_field n z : (0 < n)%nat -> is_field (hex_be n z).
Proof.
  intros Hn. split; [intros E; pose proof (length_hex_be n z) as Hl; rewrite E in Hl; cbn in Hl; lia|].
  pose proof (hex_be_hex n z) as Hh. rewrite Forall_forall. intros b Hb%list_elem_of_In.
  rewrite forallb_forall in Hh. specialize (Hh b Hb).
  unfold is_ascii_hexdigit, printable, in_range in *. simpl_bools. lia.
Qed.
Lemma field_app t u : is_field t -> is_field u -> is_field (t ++ u).
Proof. intros [Ht Ht'] [Hu Hu']. split; [by destruct t|]. by apply Forall_app. Qed.
Lemma render_address_field a port : is_field (render_address a port).
Proof.
  unfold render_address. apply field_app.
  - destruct a; [apply hex_field; lia|]. cbn [map concat]. rewrite app_nil_r.
    repeat (apply field_app; [apply hex_field; lia|]). apply hex_field. lia.
  - apply field_app; [by split; [done | repeat constructor] | apply hex_field; lia].
Qed.
Lemma numeral_field z : 0 <= z <= u64_max -> is_field (as_bytes (show_Z z)).
Proof.
  unfold u64_max. intros Hz. destruct (show_Z_digits 20 z) as [Hl Hd]; [cbn; lia..|].
  split; [intros E; rewrite E in Hl; cbn in Hl; lia|]. rewrite Forall_forall. intros b Hb%list_elem_of_In.
  rewrite forallb_forall in Hd. specialize (Hd b Hb). unfold printable, in_range in *. simpl_bools. lia.
Qed.

Lemma line_fields slot k columns rest : socket_ok k ->
  is_field slot -> Forall is_field columns -> Forall is_field rest ->
  Forall is_field ([slot; render_address (ks_local k) (ks_local_port k);
    render_address (ks_remote k) (ks_remote_port k)] ++ columns ++ [as_bytes (show_Z (ks_inode k))] ++ rest).
Proof.
  intros [? ? ? ? Hi] Hslot Hcol Hrest.
  repeat first [apply Forall_cons_2 | apply Forall_app_2]; try done; try apply render_address_field.
  by apply numeral_field.
Qed.

(** A line of /proc/net/tcp or /proc/net/tcp6, as the kernel prints a socket,
    parses to that socket: both addresses in the notation packets are decoded
    to, both ports, and the inode, whatever the other columns hold. *)
Theorem tcp_line_roundtrip slot k columns rest : socket_ok k ->
  is_field slot -> Forall is_field columns -> length columns = 6%nat -> Forall is_field rest ->
  parse_tcp_line (render_line slot k columns rest) (is_v6 (ks_local k)) = Ok (ks_inode k, entry_of k).
Proof.
  intros [Hlo Hre Hfam [Hlp Hrp] Hi] Hslot Hcol Hlen Hrest. unfold parse_tcp_line, render_line.
  rewrite split_spaced.
  - do 6 (destruct columns as [|? columns]; [done|]). destruct columns; [|done]. cbn [app map].
    rewrite parse_render_address by done. cbn [mbind result_bind].
    rewrite Hfam, parse_render_address by done. cbn [mbind result_bind].
    rewrite as_of_bytes, parse_show_Z by done. unfold entry_of. by rewrite Hfam.
  - by apply line_fields.
Qed.

(** ** The index and the packets *)
Lemma find_map_Some {A B} (f : A -> option B) l b : find_map f l = Some b -> exists a, a ∈ l /\ f a = Some b.
Proof.
  induction l as [|a l IH]; [done|]. cbn. destruct (f a) as [c|] eqn:E.
  - intros [= <-]. exists a. split; [by left | done].
  - intros Hf. destruct (IH Hf) as (x & Hx & ?). exists x. split; [by right | done].
Qed.
Lemma find_map_None {A B} (f : A -> option B) l : find_map f l = None <-> forall a, a ∈ l -> f a = None.
Proof.
  induction l as [|a l IH]; cbn; [by split; [intros _ x ?%elem_of_nil|]|].
  destruct (f a) as [c|] eqn:E.
  - split; [done|]. intros Hf. rewrite Hf in E; [done | by left].
  - rewrite IH. split; intros Hf x; [|intros Hx; apply Hf; by right].
    rewrite elem_of_cons. intros [->|Hx]; auto.
Qed.

(** One row of a table: the slot, the socket, the columns up to and after the inode. *)
Definition TableRow : Type := bytes * KernelSocket * list bytes * list bytes.
Definition row_line (r : TableRow) : string :=
  let '(slot, k, columns, rest) := r in render_line slot k columns rest.
Definition row_socket (r : TableRow) : KernelSocket := r.1.1.2.
Definition row_ok (v6 : bool) (r : TableRow) : Prop :=
  let '(slot, k, columns, rest) := r in
  socket_ok k /\ is_v6 (ks_local k) = v6 /\ is_field slot /\ Forall is_field columns
  /\ length columns = 6%nat /\ Forall is_field rest.
(** The text of a table: the header and a line per socket. *)
Definition render_table (header : string) (rows : list TableRow) : string :=
  of_bytes (concat (map (fun l => as_bytes l ++ [x0a]) (header :: map row_line rows))).
(** A file descriptor's link: a socket, or something else. *)
Inductive FdLink : Type :=
| Fd_Socket (inode : Z)
| Fd_Other (target : string).
Definition link_text (l : FdLink) : string :=
  match l with
  | Fd_Socket inode => "socket:[" +:+ show_Z inode +:+ "]"
  | Fd_Other target => target
  end.
Definition link_ok (l : FdLink) : Prop :=
  match l with
  | Fd_Socket inode => 0 < inode <= u64_max
  | Fd_Other target => parse_socket_inode target = None
  end.
(** The rows that name an inode.  Linux lists every socket in TIME_WAIT, and every
    other one no descriptor refers to any more, with inode 0. *)
Definition live (rows : list TableRow) : list TableRow :=
  select (fun r => negb (ks_inode (row_socket r) =? 0)) rows.
(** /proc shows these sockets of the machine and these descriptors of the process:
    a descriptor's inode is never 0, and no two rows share another one. *)
Record kernel_view (proc : ProcFs) (pid : Z) (v4 v6 : list TableRow) (fds : list (Z * FdLink)) : Prop :=
  mk_kernel_view {
  kv_fds : read_fd_dir proc pid = Ok (map (fun '(fd, l) => Ok (show_Z fd, Ok (link_text l))) fds);
  kv_fds_ok : Forall (fun '(fd, l) => 0 <= fd < 2 ^ 31 /\ link_ok l) fds;
  kv_fds_unique : NoDup fds.*1;
  kv_tcp : exists header, x0a ∉ as_bytes header
    /\ read_to_string proc "/proc/net/tcp" = Ok (render_table header v4);
  kv_tcp6 : exists header, x0a ∉ as_bytes header
    /\ read_to_string proc "/proc/net/tcp6" = Ok (render_table header v6);
  kv_v4 : Forall (row_ok false) v4;
  kv_v6 : Forall (row_ok true) v6;
  kv_inodes : NoDup (map (fun r => ks_inode (row_socket r)) (live (v4 ++ v6))) }.
(** The process holds the socket. *)
Definition owns (v4 v6 : list TableRow) (fds : list (Z * FdLink)) (k : KernelSocket) : Prop :=
  (exists r, r ∈ v4 ++ v6 /\ row_socket r = k) /\ exists fd, (fd, Fd_Socket (ks_inode k)) ∈ fds.

Lemma split_on_nonempty c acc l : split_on c acc l <> [].
Proof. revert acc. induction l as [|b l IH]; intros acc; cbn; [done|]. by destruct (Byte.eqb b c). Qed.
Lemma lines_render ls : Forall (fun l => x0a ∉ as_bytes l) ls ->
  line_pieces (split_on x0a [] (concat (map (fun l => as_bytes l ++ [x0a]) ls)))
  = map (fun l => of_bytes (strip_cr (as_bytes l))) ls.
Proof.
  induction 1 as [|l ls Hl Hls IH]; [done|]. cbn [map concat].
  set (rest := concat (map (fun l => as_bytes l ++ [x0a]) ls)) in *.
  assert (Hsplit : forall acc, split_on x0a acc ((as_bytes l ++ [x0a]) ++ rest)
    = (rev acc ++ as_bytes l) :: split_on x0a [] rest).
  { clear IH. induction (as_bytes l) as [|b bs IHb]; intros acc; cbn [app split_on].
    - by rewrite byte_eqb_refl, app_nil_r.
    - apply not_elem_of_cons in Hl as [Hb Hl]. destruct (byte_eqb_spec b x0a); [congruence|].
      rewrite IHb by done. cbn [rev]. by rewrite <- app_assoc. }
  rewrite Hsplit. cbn [rev app]. rewrite <- IH.
  pose proof (split_on_nonempty x0a [] rest). by destruct (split_on x0a [] rest).
Qed.
Lemma strip_cr_id l : x0d ∉ l -> strip_cr l = l.
Proof.
  intros Hl. unfold strip_cr. destruct (rev l) as [|b r] eqn:E; [done|].
  destruct (byte_eqb_spec b x0d) as [->|]; [|done]. destruct Hl.
  rewrite list_elem_of_In, in_rev, E. by left.
Qed.
Lemma spaced_chars fields b : Forall is_field fields -> b ∈ spaced fields -> b = x20 \/ printable b = true.
Proof.
  induction 1 as [|t fields [_ Ht] _ IH]; [by intros ?%elem_of_nil|].
  change (spaced (t :: fields)) with (x20 :: t ++ spaced fields).
  rewrite elem_of_cons, elem_of_app. intros [->|[Hb|Hb]]; [by left| |by apply IH].
  right. rewrite Forall_forall in Ht. by apply Ht.
Qed.
Lemma row_line_ok v6 r : row_ok v6 r ->
  x0a ∉ as_bytes (row_line r) /\ of_bytes (strip_cr (as_bytes (row_line r))) = row_line r
  /\ str_is_empty (trim (row_line r)) = false
  /\ parse_tcp_line (row_line r) v6 = Ok (ks_inode (row_socket r), entry_of (row_socket r)).
Proof.
  destruct r as [[[slot k] columns] rest]. intros (Hk & <- & Hs & Hc & Hl & Hr).
  cbn [row_line row_socket fst snd].
  assert (Hf := line_fields slot k columns rest Hk Hs Hc Hr).
  assert (Hch : forall b, b ∈ as_bytes (render_line slot k columns rest) -> b = x20 \/ printable b = true).
  { intros b. unfold render_line. rewrite as_of_bytes. by apply spaced_chars. }
  split; [intros Hin; by destruct (Hch _ Hin)|]. split.
  { rewrite strip_cr_id by (intros Hin; by destruct (Hch _ Hin)). by rewrite of_as_bytes. }
  split; [|by apply tcp_line_roundtrip].
  destruct Hs as [Hne Hp]. destruct slot as [|b slot]; [done|]. apply Forall_cons in Hp as [Hp _].
  apply (not_blank b); [done|]. unfold render_line. rewrite as_of_bytes. cbn. set_solver.
Qed.
Definition insert_rows (entries : Entries) (rows : list TableRow) : Entries :=
  fold_left (fun m r => <[ks_inode (row_socket r) := entry_of (row_socket r)]> m) rows entries.
Lemma load_table_render proc name v6 header rows entries : x0a ∉ as_bytes header ->
  read_to_string proc ("/proc/net/" +:+ name) = Ok (render_table header rows) -> Forall (row_ok v6) rows ->
  load_table proc name v6 entries = Ok (insert_rows entries rows).
Proof.
  intros Hh Ht Hrows. unfold load_table. rewrite Ht. cbn [map_err mbind result_bind].
  unfold lines, render_table. rewrite as_of_bytes, lines_render.
  - cbn [map drop]. rewrite drop_0, map_map. clear Ht. revert entries.
    induction Hrows as [|r rows Hr Hrows IH]; intros entries; [done|]. cbn [map].
    destruct (row_line_ok v6 r Hr) as (_ & Hs & Hb & Hp). rewrite Hs. cbn [List.filter]. rewrite Hb. cbn [negb insert_lines].
    rewrite Hp. cbn [mbind result_bind]. by rewrite IH.
  - constructor; [done|]. apply Forall_map. eapply Forall_impl; [exact Hrows|].
    intros r Hr. by destruct (row_line_ok v6 r Hr).
Qed.
Lemma live_cons r rows :
  live (r :: rows) = if ks_inode (row_socket r) =? 0 then live rows else r :: live rows.
Proof. unfold live. rewrite select_cons. by destruct (_ =? 0). Qed.
Lemma live_elem r rows : ks_inode (row_socket r) <> 0 -> r ∈ live rows <-> r ∈ rows.
Proof. intros Hr. unfold live. rewrite select_elem, negb_true_iff, Z.eqb_neq. tauto. Qed.
Lemma insert_rows_lookup rows entries i : i <> 0 -> NoDup (map (fun r => ks_inode (row_socket r)) (live rows)) ->
  insert_rows entries rows !! i =
    match List.find (fun r => ks_inode (row_socket r) =? i) rows with
    | Some r => Some (entry_of (row_socket r))
    | None => entries !! i
    end.
Proof.
  intros Hi. revert entries. induction rows as [|r rows IH]; intros entries Hn; [done|].
  rewrite live_cons in Hn. cbn [insert_rows fold_left List.find].
  change (fold_left _ rows ?m) with (insert_rows m rows). rewrite IH.
  - destruct (Z.eqb_spec (ks_inode (row_socket r)) i) as [Hr|Hne].
    + destruct (List.find _ rows) as [r'|] eqn:E; [|by rewrite Hr, lookup_insert_eq].
      apply List.find_some in E as [Hin E%Z.eqb_eq]. destruct (Z.eqb_spec (ks_inode (row_socket r)) 0); [congruence|].
      cbn [map] in Hn. apply NoDup_cons in Hn as [Hr' _]. destruct Hr'. rewrite Hr, <- E.
      apply (list_elem_of_fmap_2 (fun r => ks_inode (row_socket r))). apply live_elem; [congruence|].
      by apply list_elem_of_In.
    + destruct (List.find _ rows); [done|]. by rewrite lookup_insert_ne.
  - destruct (_ =? 0); [done|]. by apply NoDup_cons in Hn as [_ ?].
Qed.

Lemma parse_link inode : 0 < inode <= u64_max ->
  parse_socket_inode (link_text (Fd_Socket inode)) = Some inode.
Proof.
  intros Hi. assert (0 <= inode <= u64_max) by lia. unfold parse_socket_inode, link_text. rewrite strip_prefix_app. cbn [mbind option_bind].
  unfold strip_suffix, ends_with. rewrite as_bytes_app, rev_app_distr, starts_with_app, length_app.
  cbn [mbind option_bind]. rewrite Nat.add_sub, take_app_length, as_of_bytes. by rewrite parse_show_Z.
Qed.
Lemma parse_i32_show fd : 0 <= fd < 2 ^ 31 -> parse_i32 (as_bytes (show_Z fd)) = Some fd.
Proof.
  intros Hf. unfold parse_i32. destruct (show_Z_digits 10 fd) as [Hl Hd]; [lia..|].
  pose proof (parse_show_Z (2 ^ 31 - 1) fd ltac:(lia)) as Hp.
  destruct (as_bytes (show_Z fd)) as [|b l]; [done|].
  destruct (byte_eqb_spec b x2d) as [->|Hb]; [by cbn in Hd|].
  destruct b; try exact Hp. congruence.
Qed.
Definition fd_inodes (fds : list (Z * FdLink)) : gmap Z Z :=
  fold_left (fun m '(fd, l) => match l with Fd_Socket inode => <[fd := inode]> m | Fd_Other _ => m end) fds ∅.
Lemma collect_inodes_fds fds sockets : Forall (fun '(fd, l) => 0 <= fd < 2 ^ 31 /\ link_ok l) fds ->
  collect_inodes sockets (map (fun '(fd, l) => Ok (show_Z fd, Ok (link_text l))) fds)
  = Ok (fold_left (fun m '(fd, l) => match l with Fd_Socket inode => <[fd := inode]> m | Fd_Other _ => m end)
          fds sockets).
Proof.
  revert sockets. induction fds as [|[fd l] fds IH]; intros sockets Hf; [done|].
  apply Forall_cons in Hf as [[Hfd Hl] Hf]. cbn [map collect_inodes map_err mbind result_bind].
  rewrite parse_i32_show by done. destruct l as [inode|target].
  - cbn [link_ok] in Hl. rewrite parse_link by done. by rewrite IH.
  - cbn [link_ok link_text] in *. rewrite Hl. by rewrite IH.
Qed.
Lemma fd_inodes_lookup fds fd inode : NoDup fds.*1 ->
  fd_inodes fds !! fd = Some inode <-> (fd, Fd_Socket inode) ∈ fds.
Proof.
  intros Hn. unfold fd_inodes.
  assert (Hgen : forall m : gmap Z Z, (forall f, is_Some (m !! f) -> f ∉ fds.*1) ->
    fold_left (fun m '(fd, l) => match l with Fd_Socket inode => <[fd := inode]> m | Fd_Other _ => m end)
      fds m !! fd = Some inode <-> m !! fd = Some inode \/ (fd, Fd_Socket inode) ∈ fds); 
    [|rewrite Hgen by (intros f [? ?]; by rewrite lookup_empty in *); rewrite lookup_empty; naive_solver].
  induction fds as [|[f l] fds IH]; intros m Hm; cbn [fold_left].
  - rewrite elem_of_nil. tauto.
  - cbn [fmap list_fmap] in *. apply NoDup_cons in Hn as [Hf Hn]. rewrite elem_of_cons.
    destruct l as [i|t].
    + rewrite IH; [|done|].
      * destruct (decide (f = fd)) as [->|Hne].
        -- rewrite lookup_insert_eq. split; [intros [[= ->]|Hin]; auto|].
           intros [Hs|[[= ->]|Hin]]; auto. exfalso. eapply Hm; [by eexists | by left].
        -- rewrite lookup_insert_ne by done. naive_solver.
      * intros g Hg. destruct (decide (g = f)) as [->|]; [done|]. rewrite lookup_insert_ne in Hg by done.
        intros Hin. eapply Hm; [done | by right].
    + rewrite IH; [naive_solver | done |]. intros g Hg Hin. eapply Hm; [done | by right].
Qed.
Lemma NoDup_map_inj {A B} (f : A -> B) l x y : NoDup (map f l) -> x ∈ l -> y ∈ l -> f x = f y -> x = y.
Proof.
  induction l as [|a l IH]; [by intros _ ?%elem_of_nil|]. cbn [map].
  intros [Ha Hn]%NoDup_cons Hx Hy E. apply elem_of_cons in Hx as [->|Hx], Hy as [->|Hy]; try done.
  - destruct Ha. rewrite E. by apply (list_elem_of_fmap_2 f).
  - destruct Ha. rewrite <- E. by apply (list_elem_of_fmap_2 f).
  - by apply IH.
Qed.
Lemma find_row rows r : NoDup (map (fun r => ks_inode (row_socket r)) (live rows)) -> r ∈ rows ->
  ks_inode (row_socket r) <> 0 ->
  List.find (fun r' => ks_inode (row_socket r') =? ks_inode (row_socket r)) rows = Some r.
Proof.
  intros Hn Hr H0. destruct (List.find _ rows) as [r'|] eqn:E.
  - apply List.find_some in E as [Hin%list_elem_of_In E%Z.eqb_eq]. f_equal.
    apply (NoDup_map_inj (fun r => ks_inode (row_socket r)) (live rows)); try done; apply live_elem; congruence || done.
  - apply list_elem_of_In in Hr. by pose proof (List.find_none _ _ E _ Hr) as ?%Z.eqb_neq.
Qed.
Definition flow_of (pid fd : Z) (k : KernelSocket) : ProcessSocketFlow :=
  mkProcessSocketFlow pid fd (ks_inode k) (ip_to_string (ks_local k)) (ks_local_port k)
    (ip_to_string (ks_remote k)) (ks_remote_port k) (is_v6 (ks_local k)).
Lemma fd_inode_nonzero fds fd inode : Forall (fun '(fd, l) => 0 <= fd < 2 ^ 31 /\ link_ok l) fds ->
  (fd, Fd_Socket inode) ∈ fds -> inode <> 0.
Proof. rewrite Forall_forall. intros Hf Hin. apply Hf in Hin as [_ Hl]. cbn in Hl. lia. Qed.
(** The index has a flow for every socket the process holds, and no other. *)
Lemma index_flows proc pid v4 v6 fds : kernel_view proc pid v4 v6 fds ->
  exists flows, from_pid proc pid = Ok (mkProcessFlowIndex pid flows)
  /\ forall flow, flow ∈ flows <-> exists fd r, flow = flow_of pid fd (row_socket r) /\ r ∈ v4 ++ v6
       /\ (fd, Fd_Socket (ks_inode (row_socket r))) ∈ fds.
Proof.
  intros [Hfd Hfdok Hun (h4 & Hh4 & Ht4) (h6 & Hh6 & Ht6) Hv4 Hv6 Hn].
  unfold from_pid, from_proc_root, socket_inodes_for_pid. rewrite Hfd. cbn [map_err mbind result_bind].
  rewrite collect_inodes_fds by done. cbn [mbind result_bind]. unfold load_tcp_entries.
  rewrite (load_table_render _ "tcp" false h4 v4) by done. cbn [mbind result_bind].
  rewrite (load_table_render _ "tcp6" true h6 v6) by done. cbn [mbind result_bind].
  eexists. split; [reflexivity|]. intros flow.
  change (fold_left _ fds ∅) with (fd_inodes fds). unfold insert_rows at 1. unfold insert_rows.
  rewrite <- fold_left_app. change (fold_left _ (v4 ++ v6) ∅) with (insert_rows ∅ (v4 ++ v6)).
  rewrite list_elem_of_omap. unfold btree_map. setoid_rewrite order_by_perm.
  split.
  - intros ([fd inode] & Hin%elem_of_map_to_list & E). apply fd_inodes_lookup in Hin; [|done].
    rewrite insert_rows_lookup in E by (done || by eapply fd_inode_nonzero).
    destruct (List.find _ (v4 ++ v6)) as [r|] eqn:Ef; [|by rewrite lookup_empty in E].
    apply List.find_some in Ef as [Hr <-%Z.eqb_eq]. injection E as <-. exists fd, r.
    split; [done|]. split; [by apply list_elem_of_In | done].
  - intros (fd & r & -> & Hr & Hin). exists (fd, ks_inode (row_socket r)). split.
    + apply elem_of_map_to_list. by apply fd_inodes_lookup.
    + apply fd_inode_nonzero in Hin as H0; [|done]. by rewrite insert_rows_lookup, find_row.
Qed.

Lemma row_ok_ends proc pid v4 v6 fds : kernel_view proc pid v4 v6 fds ->
  forall r, r ∈ v4 ++ v6 -> ip_ok (ks_local (row_socket r)) /\ ip_ok (ks_remote (row_socket r)).
Proof.
  intros [_ _ _ _ _ H4 H6 _] r [Hr|Hr]%elem_of_app; rewrite Forall_forall in H4, H6;
    [specialize (H4 _ Hr) | specialize (H6 _ Hr)]; destruct r as [[[? k] ?] ?];
    [destruct H4 as [[] _] | destruct H6 as [[] _]]; done.
Qed.

(** The socket has these ends. *)
Definition connects (k : KernelSocket) (local : IpAddr) (local_port : Z) (remote : IpAddr) (remote_port : Z) : Prop :=
  ks_local k = local /\ ks_local_port k = local_port /\ ks_remote k = remote /\ ks_remote_port k = remote_port.
Lemma connects_iff k a p b q : ip_ok (ks_local k) -> ip_ok (ks_remote k) -> ip_ok a -> ip_ok b ->
  String.eqb (ip_to_string (ks_local k)) (ip_to_string a) && (ks_local_port k =? p)
  && String.eqb (ip_to_string (ks_remote k)) (ip_to_string b) && (ks_remote_port k =? q) = true
  <-> connects k a p b q.
Proof.
  intros Hl Hr Ha Hb. unfold connects. rewrite !andb_true_iff, !String.eqb_eq, !Z.eqb_eq. split.
  - intros [[[?%ip_to_string_inj ?] ?%ip_to_string_inj] ?]; done.
  - intros (-> & ? & -> & ?). done.
Qed.
Lemma flow_direction_spec pid fd k seg src dst : ip_ok (ks_local k) -> ip_ok (ks_remote k) ->
  ip_ok src -> ip_ok dst -> sg_source_ip seg = ip_to_string src -> sg_destination_ip seg = ip_to_string dst ->
  let out := connects k src (sg_source_port seg) dst (sg_destination_port seg) in
  let incoming := connects k dst (sg_destination_port seg) src (sg_source_port seg) in
  match flow_direction (flow_of pid fd k) seg with
  | Some LocalToRemote => out
  | Some RemoteToLocal => incoming
  | None => ~ out /\ ~ incoming
  end.
Proof.
  intros Hl Hr Hs Hd Es Ed. cbv zeta. unfold flow_direction, flow_of.
  cbn [sf_local_ip sf_local_port sf_remote_ip sf_remote_port]. rewrite Es, Ed.
  destruct (_ && _ && _ && _) eqn:E1; [by apply connects_iff|].
  destruct (String.eqb (ip_to_string (ks_local k)) (ip_to_string dst) && _ && _ && _) eqn:E2;
    [by apply connects_iff|]. rewrite <- !connects_iff by done. by rewrite E1, E2.
Qed.

(** [C21] When /proc shows the machine's sockets and the process's descriptors, the
    index built from it attributes packets by the ends /proc lists, exactly: a
    packet is the process's and outgoing when the process holds a socket listed
    with the packet's source as its local and destination as its remote end, the
    process's and incoming when it holds one listed the other way, and is left
    alone when it holds neither.  Sockets without an inode (TIME_WAIT) may be
    listed in any number.  The ends are compared as listed: a dual-stack socket
    is listed under IPv4-mapped IPv6 addresses, which no IPv4 packet carries, so
    its packets are among those left alone ([dual_stack_unattributed]). *)
Theorem attribution_exact proc pid v4 v6 fds seg src dst : kernel_view proc pid v4 v6 fds ->
  ip_ok src -> ip_ok dst -> sg_source_ip seg = ip_to_string src -> sg_destination_ip seg = ip_to_string dst ->
  exists index, from_pid proc pid = Ok index
  /\ let out k := connects k src (sg_source_port seg) dst (sg_destination_port seg) in
     let incoming k := connects k dst (sg_destination_port seg) src (sg_source_port seg) in
     match direction_for_segment index seg with
     | Some LocalToRemote => exists k, owns v4 v6 fds k /\ out k
     | Some RemoteToLocal => exists k, owns v4 v6 fds k /\ incoming k
     | None => forall k, owns v4 v6 fds k -> ~ out k /\ ~ incoming k
     end.
Proof.
  intros Hv Hs Hd Es Ed. destruct (index_flows proc pid v4 v6 fds Hv) as (flows & Hi & Hf).
  eexists. split; [exact Hi|]. cbv zeta. unfold direction_for_segment, pfi_flows.
  destruct (find_map _ flows) as [dir|] eqn:E.
  - apply find_map_Some in E as (flow & Hin & E). apply Hf in Hin as (fd & r & -> & Hr & Hin).
    destruct (row_ok_ends _ _ _ _ _ Hv r Hr) as [Hl Hm]. pose proof (flow_direction_spec pid fd _ seg src dst Hl Hm Hs Hd Es Ed) as Hspec.
    cbv zeta in Hspec. rewrite E in Hspec.
    assert (owns v4 v6 fds (row_socket r)) by (split; eexists; eauto).
    destruct dir; exists (row_socket r); done.
  - intros k [(r & Hr & <-) (fd & Hin)]. destruct (row_ok_ends _ _ _ _ _ Hv r Hr) as [Hl Hm]. rewrite find_map_None in E.
    pose proof (flow_direction_spec pid fd _ seg src dst Hl Hm Hs Hd Es Ed) as Hspec. cbv zeta in Hspec.
    rewrite E in Hspec; [done|]. apply Hf. eauto.
Qed.

(** An IPv4 connection of a dual-stack socket is listed in tcp6 under mapped
    addresses, and its packets carry plain ones: they are never attributed. *)
Theorem dual_stack_unattributed proc pid v4 v6 fds seg src dst : kernel_view proc pid v4 v6 fds ->
  ip_ok (V4 src) -> ip_ok (V4 dst) ->
  sg_source_ip seg = ip_to_string (V4 src) -> sg_destination_ip seg = ip_to_string (V4 dst) ->
  (forall k, owns v4 v6 fds k -> is_v6 (ks_local k) = true) ->
  exists index, from_pid proc pid = Ok index /\ direction_for_segment index seg = None.
Proof.
  intros Hv Hs Hd Es Ed Hown.
  destruct (index_flows proc pid v4 v6 fds Hv) as (flows & Hi & Hf). eexists. split; [exact Hi|].
  unfold direction_for_segment. apply find_map_None. intros flow Hin.
  apply Hf in Hin as (fd & r & -> & Hr & Hin). assert (Ho : owns v4 v6 fds (row_socket r)) by (split; eexists; eauto).
  pose proof (Hown _ Ho) as H6. destruct (row_ok_ends _ _ _ _ _ Hv r Hr) as [Hl Hm].
  pose proof (flow_direction_spec pid fd _ seg _ _ Hl Hm Hs Hd Es Ed) as Hspec. cbv zeta in Hspec.
  destruct (flow_direction _ seg) as [[]|]; [| |done]; destruct Hspec as (E & _);
    rewrite E in H6; discriminate.
Qed.
(** A descriptor that closes while the directory is read loses the whole index. *)
Theorem vanished_descriptor proc pid fds fd e rest : 0 <= fd < 2 ^ 31 ->
  read_fd_dir proc pid = Ok (map (fun '(fd, l) => Ok (show_Z fd, Ok (link_text l))) fds
                             ++ Ok (show_Z fd, Err e) :: rest) ->
  Forall (fun '(fd, l) => 0 <= fd < 2 ^ 31 /\ link_ok l) fds ->
  from_pid proc pid = Err (ProcLookupError_Io e).
Proof.
  intros Hfd Hdir Hok. unfold from_pid, from_proc_root, socket_inodes_for_pid. rewrite Hdir.
  cbn [map_err mbind result_bind]. clear Hdir.
  assert (Hc : forall m, collect_inodes m (map (fun '(fd, l) => Ok (show_Z fd, Ok (link_text l))) fds
      ++ Ok (show_Z fd, Err e) :: rest) = Err (ProcLookupError_Io e)); [|by rewrite Hc].
  induction fds as [|[f l] fds IH]; intros m; cbn [map app collect_inodes map_err mbind result_bind].
  - by rewrite parse_i32_show.
  - apply Forall_cons in Hok as [[Hf Hl] Hok]. rewrite parse_i32_show by done.
    destruct l as [inode|target].
    + cbn [link_ok] in Hl. rewrite parse_link by done. by apply IH.
    + cbn [link_ok link_text] in *. rewrite Hl. by apply IH.
Qed.

(** ** Witnesses *)
Module AttributionFixture.
Definition socket : KernelSocket := mkKernelSocket (V4 [127; 0; 0; 1]) 8080 (V4 [10; 0; 0; 2]) 443 456.
Definition columns : list bytes :=
  map as_bytes ["01"; "00000000:00000000"; "00:00000000"; "00000000"; "1000"; "0"].
Definition row : TableRow := (as_bytes "0:", socket, columns, [as_bytes "1"; as_bytes "-1"]).
(** Two connections in TIME_WAIT, without an inode. *)
Definition waiting (port : Z) : TableRow :=
  (as_bytes "1:", mkKernelSocket (V4 [127; 0; 0; 1]) port (V4 [10; 0; 0; 2]) 443 0, columns,
   [as_bytes "3"; as_bytes "0"]).
Definition rows : list TableRow := [waiting 8078; row; waiting 8079].
Definition fds : list (Z * FdLink) := [(0, Fd_Other "/dev/null"); (5, Fd_Socket 456)].
Definition proc : ProcFs := {|
  read_fd_dir _ := Ok [Ok ("0", Ok "/dev/null"); Ok ("5", Ok "socket:[456]")];
  read_to_string path := Ok (render_table "  sl  local_address" (if String.eqb path "/proc/net/tcp" then rows else []));
  read_class_net := Ok [] |}.
Lemma socket_fine : socket_ok socket.
Proof. split; cbn; repeat split; try (repeat constructor; lia); unfold u16_max, u64_max; lia. Qed.
Lemma is_field_dec t : bool_decide (t <> []) && forallb printable t = true -> is_field t.
Proof.
  intros [Hn Hp]%andb_true_iff. apply bool_decide_eq_true in Hn. split; [done|].
  rewrite Forall_forall. rewrite forallb_forall in Hp. intros b Hb%list_elem_of_In. by apply Hp.
Qed.
Lemma row_fine : row_ok false row.
Proof.
  split; [exact socket_fine|]. split; [reflexivity|]. split; [by apply is_field_dec|].
  split; [repeat (constructor; [by apply is_field_dec|]); constructor|]. split; [reflexivity|].
  repeat (constructor; [by apply is_field_dec|]). constructor.
Qed.
Lemma waiting_fine port : 0 <= port <= u16_max -> row_ok false (waiting port).
Proof.
  intros Hp. split; [|split; [reflexivity|split; [by apply is_field_dec|]]].
  - split; cbn; repeat split; try (repeat constructor; lia); unfold u16_max, u64_max in *; lia.
  - split; [repeat (constructor; [by apply is_field_dec|]); constructor|]. split; [reflexivity|].
    repeat (constructor; [by apply is_field_dec|]). constructor.
Qed.
Lemma view : kernel_view proc 123 rows [] fds.
Proof.
  split.
  - reflexivity.
  - repeat constructor; cbn; unfold u64_max; try lia; vm_compute; reflexivity.
  - by_decide.
  - exists "  sl  local_address". split; [by_decide | reflexivity].
  - exists "  sl  local_address". split; [by_decide | reflexivity].
  - constructor; [|constructor; [exact row_fine|constructor; [|constructor]]]; apply waiting_fine; unfold u16_max; lia.
  - constructor.
  - by_decide.
Qed.
Lemma tcp_line_roundtrip_witness :
  parse_tcp_line (row_line row) false = Ok (456, entry_of socket).
Proof.
  apply (tcp_line_roundtrip (as_bytes "0:") socket columns [as_bytes "1"; as_bytes "-1"]);
    destruct row_fine as (? & _ & ? & ? & ? & ?); assumption.
Defined.
Definition reply : TcpSegment := mkTcpSegment "10.0.0.2" 443 "127.0.0.1" 8080 1 0 false false false [].
Lemma attribution_exact_witness : exists index,
  from_pid proc 123 = Ok index /\ direction_for_segment index reply = Some RemoteToLocal.
Proof.
  assert (Ha : ip_ok (V4 [10; 0; 0; 2])) by (split; [reflexivity | repeat constructor; lia]).
  assert (Hb : ip_ok (V4 [127; 0; 0; 1])) by (split; [reflexivity | repeat constructor; lia]).
  destruct (attribution_exact proc 123 rows [] fds reply _ _ view Ha Hb eq_refl eq_refl) as (index & Hi & Hd).
  exists index. split; [exact Hi|]. cbv zeta in Hd.
  assert (Ho : owns rows [] fds socket).
  { split; [exists row; split; [right; by left | reflexivity]|]. exists 5. right. by left. }
  destruct (direction_for_segment index reply) as [[]|]; [|reflexivity|].
  - destruct Hd as (k & [(r & Hr & <-) _] & E & _). cbn in Hr.
    repeat (apply elem_of_cons in Hr as [->|Hr]; [discriminate E|]). apply elem_of_nil in Hr. destruct Hr.
  - destruct (Hd socket Ho) as [_ Hn]. destruct Hn. repeat split.
Defined.
End AttributionFixture.
