(* ===== verification/Config.v ===== *)
(** * The client's configuration

    [src/crates/client/src/config.rs]: the settings with their defaults, where
    the file is looked for, and the derived paths.  The [toml] crate's parsing
    is a parameter; a path is its text. *)
From Stdlib Require Import ZArith Lia Strings.Byte Strings.String.
From S2P Require Import Prelude RustStr Types Http1 Attribution.
Local Open Scope string_scope.
Local Open Scope list_scope.
Local Open Scope Z_scope.

(** [Path::join]: an absolute second path replaces the first. *)
Definition path_join (base p : string) : string :=
  if starts_with [x2f] (as_bytes p) then p
  else if str_is_empty base || ends_with [x2f] (as_bytes base) then base +:+ p
  else base +:+ "/" +:+ p.

(* src: src/crates/client/src/config.rs:8-8 USER_CONFIG_DIR *)
Definition USER_CONFIG_DIR : string := "codexwatch".
(* src: src/crates/client/src/config.rs:9-9 CLIENT_CONFIG_FILE *)
Definition CLIENT_CONFIG_FILE : string := "client.toml".

(* src: src/crates/client/src/config.rs:12-34 ClientConfig *)
Record ClientConfig : Type := mkClientConfig {
  cf_client_id : string;
  cf_client_instance_id : Uuid;
  cf_data_dir : string;
  cf_database_path : string;
  cf_blob_dir : string;
  cf_server_url : string;
  cf_api_token : string;
  cf_poll_wait_seconds : Z;
  cf_cleanup_interval_seconds : Z;
  cf_flush_interval_millis : Z;
  cf_heartbeat_interval_seconds : Z;
  cf_process_scan_interval_seconds : Z;
  cf_capture_poll_interval_millis : Z;
  cf_capture_interface_index : option Z;
  cf_capture_codex_pid : option Z;
  cf_capture_process_name : string;
  cf_capture_remote_ports : list Z;
  cf_ebpf_object_path : option string;
  cf_codex_binary_path : option string;
  cf_codex_home : option string;
  cf_client_version : string }.

(* src: src/crates/client/src/config.rs:38-62 ClientFileConfig *)
Record ClientFileConfig : Type := mkClientFileConfig {
  ff_client_id : string;
  ff_client_instance_id : option Uuid;
  ff_server_url : string;
  ff_api_token : string;
  ff_data_dir : option string;
  ff_database_path : option string;
  ff_blob_dir : option string;
  ff_poll_wait_seconds : option Z;
  ff_cleanup_interval_seconds : option Z;
  ff_flush_interval_millis : option Z;
  ff_heartbeat_interval_seconds : option Z;
  ff_process_scan_interval_seconds : option Z;
  ff_capture_poll_interval_millis : option Z;
  ff_capture_interface : option string;
  ff_capture_interface_index : option Z;
  ff_capture_codex_pid : option Z;
  ff_capture_process_name : option string;
  ff_capture_remote_ports : list Z;
  ff_ebpf_object_path : option string;
  ff_codex_binary_path : option string;
  ff_codex_home : option string;
  ff_client_version : option string }.

(** What [bail!], [anyhow!] and [?] report here. *)
Inductive ConfigError : Type :=
| ConfigError_Toml (message : string)
| ConfigError_Io (message : string)
| ConfigError_Message (message : string).

(* src: src/crates/client/src/config.rs:222-233 resolve_interface_index *)
Definition resolve_interface_index (read : string -> result IoError string) (name : string)
    : result ConfigError Z :=
  _ ← guard_or (negb (str_is_empty name || contains name "/" || String.eqb name "." || String.eqb name ".."))
        (ConfigError_Message ("invalid capture_interface " +:+ name));
  value ← map_err ConfigError_Io
    (read (path_join (path_join "/sys/class/net" name) "ifindex"));
  ok_or (ConfigError_Message ("parse interface index of " +:+ name)) (parse_i32 (as_bytes (trim value))).

(** [parse] is [toml::from_str], [instance_id] is [Uuid::now_v7()]. *)
(* src: src/crates/client/src/config.rs:72-119 ClientConfig::from_toml *)
Definition from_toml (parse : string -> result string ClientFileConfig)
    (read : string -> result IoError string) (instance_id : Uuid) (source : string)
    : result ConfigError ClientConfig :=
  file ← map_err ConfigError_Toml (parse source);
  let data_dir := unwrap_or "./var/client" (ff_data_dir file) in
  let database_path := unwrap_or (path_join data_dir "client.db") (ff_database_path file) in
  let blob_dir := unwrap_or (path_join data_dir "blobs") (ff_blob_dir file) in
  interface ← match ff_capture_interface file, ff_capture_interface_index file with
    | Some _, Some _ => Err (ConfigError_Message
        "configure only one of capture_interface or capture_interface_index")
    | Some name, None => Some <$> resolve_interface_index read name
    | None, index => Ok index
    end;
  mret {| cf_client_id := ff_client_id file;
          cf_client_instance_id := unwrap_or instance_id (ff_client_instance_id file);
          cf_data_dir := data_dir;
          cf_database_path := database_path;
          cf_blob_dir := blob_dir;
          cf_server_url := ff_server_url file;
          cf_api_token := ff_api_token file;
          cf_poll_wait_seconds := unwrap_or 30 (ff_poll_wait_seconds file);
          cf_cleanup_interval_seconds := unwrap_or 300 (ff_cleanup_interval_seconds file);
          cf_flush_interval_millis := unwrap_or 2000 (ff_flush_interval_millis file);
          cf_heartbeat_interval_seconds := unwrap_or 60 (ff_heartbeat_interval_seconds file);
          cf_process_scan_interval_seconds := unwrap_or 1 (ff_process_scan_interval_seconds file);
          cf_capture_poll_interval_millis := unwrap_or 50 (ff_capture_poll_interval_millis file);
          cf_capture_interface_index := interface;
          cf_capture_codex_pid := ff_capture_codex_pid file;
          cf_capture_process_name := unwrap_or "codex" (ff_capture_process_name file);
          cf_capture_remote_ports := ff_capture_remote_ports file;
          cf_ebpf_object_path := ff_ebpf_object_path file;
          cf_codex_binary_path := ff_codex_binary_path file;
          cf_codex_home := ff_codex_home file;
          cf_client_version := unwrap_or "0.1.0" (ff_client_version file) |}.

(* src: src/crates/client/src/config.rs:136-138 ClientConfig::capture_enabled *)
Definition capture_enabled (c : ClientConfig) : bool := is_some (cf_capture_interface_index c).
(* src: src/crates/client/src/config.rs:140-150 ClientConfig::validate_ebpf_config *)
Definition validate_ebpf_config (c : ClientConfig) : result ConfigError unit :=
  match cf_ebpf_object_path c, cf_codex_binary_path c with
  | Some _, Some _ | None, None => Ok tt
  | Some _, None => Err (ConfigError_Message "ebpf_object_path requires codex_binary_path")
  | None, Some _ => Err (ConfigError_Message "codex_binary_path requires ebpf_object_path")
  end.
(* src: src/crates/client/src/config.rs:153-155 ClientConfig::ebpf_enabled *)
Definition ebpf_enabled (c : ClientConfig) : bool :=
  is_some (cf_ebpf_object_path c) && is_some (cf_codex_binary_path c).
(* src: src/crates/client/src/config.rs:158-162 ClientConfig::codex_session_index_path *)
Definition codex_session_index_path (c : ClientConfig) : option string :=
  (fun home => path_join home "session_index.jsonl") <$> cf_codex_home c.
(* src: src/crates/client/src/config.rs:236-238 sqlite_url *)
Definition sqlite_url (path : string) : string := "sqlite://" +:+ path.
(* src: src/crates/client/src/config.rs:131-133 ClientConfig::database_url *)
Definition database_url (c : ClientConfig) : string := sqlite_url (cf_database_path c).

(** [path == Path::new("/")]: paths compare by their components. *)
Definition is_root_path (p : string) : bool :=
  starts_with [x2f] (as_bytes p)
  && forallb (fun piece => bool_decide (piece = [] \/ piece = [x2e]))
       (Http1.split_on x2f [] (as_bytes p)).
(* src: src/crates/client/src/config.rs:218-220 usable_config_root *)
Definition usable_config_root (path : option string) : option string :=
  match path with
  | Some p => if negb (str_is_empty p) && negb (is_root_path p) then Some p else None
  | None => None
  end.
Definition config_below (root : string) : string :=
  path_join (path_join root USER_CONFIG_DIR) CLIENT_CONFIG_FILE.
(* src: src/crates/client/src/config.rs:191-216 resolve_config_path *)
Definition resolve_config_path (effective_root : bool) (sudo_home xdg_config_home home : option string)
    : string :=
  match sudo_home with
  | Some home => config_below (path_join home ".config")
  | None =>
    if effective_root then "/etc/codexwatch/client.toml"
    else match usable_config_root xdg_config_home with
    | Some config_home => config_below config_home
    | None =>
      match usable_config_root home with
      | Some home => config_below (path_join home ".config")
      | None => "/etc/codexwatch/client.toml"
      end
    end
  end.
(** [lookup] is [User::from_name] with the home directory of the user. *)
(* src: src/crates/client/src/config.rs:177-189 sudo_user_home *)
Definition sudo_user_home (sudo_user : option string)
    (lookup : string -> result string (option string)) : result ConfigError (option string) :=
  match sudo_user with
  | None => Ok None
  | Some name =>
    if str_is_empty name || String.eqb name "root" then Ok None
    else
      user ← map_err ConfigError_Io (lookup name);
      dir ← ok_or (ConfigError_Message ("sudo user " +:+ name +:+ " does not exist")) user;
      mret (Some dir)
  end.
(* src: src/crates/client/src/config.rs:165-175 default_config_path *)
Definition default_config_path (effective_root : bool) (sudo_user : option string)
    (lookup : string -> result string (option string)) (xdg_config_home home : option string)
    : result ConfigError string :=
  sudo_home ← sudo_user_home sudo_user lookup;
  mret (resolve_config_path effective_root sudo_home xdg_config_home home).
(* src: src/crates/client/src/config.rs:65-70 ClientConfig::load *)
Definition load (effective_root : bool) (sudo_user : option string)
    (lookup : string -> result string (option string)) (xdg_config_home home : option string)
    (parse : string -> result string ClientFileConfig) (read : string -> result IoError string)
    (instance_id : Uuid) : result ConfigError ClientConfig :=
  path ← default_config_path effective_root sudo_user lookup xdg_config_home home;
  source ← map_err ConfigError_Io (read path);
  from_toml parse read instance_id source.

Example config_paths :
  resolve_config_path true (Some "/home/alice") (Some "/tmp/xdg") (Some "/root")
    = "/home/alice/.config/codexwatch/client.toml"
  /\ resolve_config_path false None (Some "/tmp/xdg") (Some "/home/alice") = "/tmp/xdg/codexwatch/client.toml"
  /\ resolve_config_path false None (Some "") (Some "/") = "/etc/codexwatch/client.toml".
Proof. vm_compute. done. Qed.
