(* ===== verification/Titles.v ===== *)
(** * Conversation titles

    [src/crates/client/src/conversation_titles.rs]: the index of session titles
    read incrementally from a file that Codex appends to.  The file as each
    refresh finds it is an argument, [serde_json] on one line a parameter. *)
From Stdlib Require Import ZArith Lia Strings.Byte Strings.String.
From S2P Require Import Prelude RustStr Http1 Attribution.
Local Open Scope string_scope.
Local Open Scope list_scope.
Local Open Scope Z_scope.

(* src: src/crates/client/src/conversation_titles.rs:14-14 INDEX_FILE_NAME *)
Definition INDEX_FILE_NAME : string := "session_index.jsonl".
(* src: src/crates/client/src/conversation_titles.rs:17-20 IndexEntry *)
Record IndexEntry : Type := mkIndexEntry {
  ie_id : string;
  ie_thread_name : string }.
(* src: src/crates/client/src/conversation_titles.rs:23-28 IndexState *)
Record IndexState : Type := mkIndexState {
  ix_titles : gmap string string;
  ix_inode : Z;
  ix_offset : Z;
  ix_partial_line : bytes }.
Definition IndexState_default : IndexState := mkIndexState ∅ 0 0 [].
(* src: src/crates/client/src/conversation_titles.rs:31-34 ConversationTitleIndex *)
Record ConversationTitleIndex : Type := mkTitleIndex {
  ct_path : option string;
  ct_state : IndexState }.

(** What a refresh finds: the answer of [metadata] (inode and length), and the
    bytes [read_to_end] returns after the seek. *)
Inductive Metadata : Type :=
| Metadata_Found (inode len : Z)
| Metadata_NotFound
| Metadata_Error (e : IoError).
Record FileView : Type := mkFileView {
  fv_metadata : Metadata;
  fv_read_from : Z -> result IoError bytes }.

(** [serde_json::from_slice::<IndexEntry>]. *)
Class EntryApi := entry_from_slice : bytes -> option IndexEntry.

Section titles.
Context `{EntryApi}.
(** [rposition(|byte| byte == '\n').map_or(0, |index| index + 1)]. *)
(* src: src/crates/client/src/conversation_titles.rs:136-140 apply_complete_lines: complete_bytes *)
Definition complete_bytes (l : bytes) : nat :=
  match position x0a (rev l) with
  | Some index => (length l - index)%nat
  | None => O
  end.
(** The loop over the lines: the titles and the changes. *)
(* src: src/crates/client/src/conversation_titles.rs:145-155 apply_complete_lines: loop *)
Fixpoint apply_lines (titles : gmap string string) (ls : list bytes)
    : gmap string string * list (string * string) :=
  match ls with
  | [] => (titles, [])
  | [] :: ls' => apply_lines titles ls'
  | line :: ls' =>
    match entry_from_slice line with
    | Some entry =>
      if bool_decide (titles !! ie_id entry = Some (ie_thread_name entry)) then apply_lines titles ls'
      else
        let '(titles', changes) := apply_lines (<[ie_id entry := ie_thread_name entry]> titles) ls' in
        (titles', (ie_id entry, ie_thread_name entry) :: changes)
    | None => apply_lines titles ls'
    end
  end.
(* src: src/crates/client/src/conversation_titles.rs:134-157 apply_complete_lines *)
Definition apply_complete_lines (s : IndexState) : IndexState * list (string * string) :=
  let n := complete_bytes (ix_partial_line s) in
  let complete := take n (ix_partial_line s) in
  let '(titles, changes) := apply_lines (ix_titles s) (split_on x0a [] complete) in
  (mkIndexState titles (ix_inode s) (ix_offset s) (drop n (ix_partial_line s)), changes).

(* src: src/crates/client/src/conversation_titles.rs:78-84 refresh: reset *)
Definition reset (s : IndexState) (inode len : Z) : IndexState :=
  let replaced := negb (ix_inode s =? 0) && negb (ix_inode s =? inode) in
  let truncated := len <? ix_offset s in
  if (ix_inode s =? 0) || replaced || truncated
  then mkIndexState ∅ (ix_inode s) 0 [] else s.
(* src: src/crates/client/src/conversation_titles.rs:65-98 ConversationTitleIndex::refresh *)
Definition refresh (view : FileView) (x : ConversationTitleIndex)
    : result IoError (list (string * string)) * ConversationTitleIndex :=
  match ct_path x with
  | None => (Ok [], x)
  | Some _ =>
    match fv_metadata view with
    | Metadata_NotFound => (Ok [], x)
    | Metadata_Error e => (Err e, x)
    | Metadata_Found inode len =>
      let s := reset (ct_state x) inode len in
      let set s := mkTitleIndex (ct_path x) s in
      if len =? ix_offset s
      then (Ok [], set (mkIndexState (ix_titles s) inode (ix_offset s) (ix_partial_line s)))
      else
        match fv_read_from view (ix_offset s) with
        | Err e => (Err e, set s)
        | Ok appended =>
          let s1 := mkIndexState (ix_titles s) inode (ix_offset s + Z.of_nat (length appended))
                      (ix_partial_line s ++ appended) in
          let '(s2, changes) := apply_complete_lines s1 in
          (Ok changes, set s2)
        end
    end
  end.
(* src: src/crates/client/src/conversation_titles.rs:37-44 ConversationTitleIndex::open *)
Definition open (view : FileView) (path : option string) : result IoError ConversationTitleIndex :=
  let '(r, x) := refresh view (mkTitleIndex path IndexState_default) in
  _ ← r; mret x.
(* src: src/crates/client/src/conversation_titles.rs:47-49 ConversationTitleIndex::title *)
Definition title (x : ConversationTitleIndex) (session_id : string) : option string :=
  ix_titles (ct_state x) !! session_id.
(** In the order of the map. *)
(* src: src/crates/client/src/conversation_titles.rs:52-63 ConversationTitleIndex::titles *)
Definition titles (x : ConversationTitleIndex) : list (string * string) :=
  map_to_list (ix_titles (ct_state x)).

(** The events [read_events_blocking] returns, each with the file as the refresh
    it causes finds it; [None] stands for an event without a name.  The result
    is what was sent, and the error that ended the loop. *)
(* src: src/crates/client/src/conversation_titles.rs:120-130 watch: loop *)
Fixpoint watch_events (events : list (option string * FileView)) (x : ConversationTitleIndex)
    : list (string * string) * option IoError * ConversationTitleIndex :=
  match events with
  | [] => ([], None, x)
  | (name, view) :: events' =>
    if bool_decide (name = Some INDEX_FILE_NAME) then
      match refresh view x with
      | (Err e, x') => ([], Some e, x')
      | (Ok changes, x') =>
        let '(sent, e, x'') := watch_events events' x' in (changes ++ sent, e, x'')
      end
    else watch_events events' x
  end.

(** ** The file's text *)
(** A file of these bytes, nothing written while it is read. *)
Definition view_of (inode : Z) (content : bytes) : FileView :=
  mkFileView (Metadata_Found inode (Z.of_nat (length content)))
    (fun offset => Ok (drop (Z.to_nat offset) content)).
(** The titles a text holds: its lines from the first to the last, later ones
    winning; an unfinished last line does not count. *)
Definition titles_of (content : bytes) : gmap string string :=
  (apply_lines ∅ (split_on x0a [] (take (complete_bytes content) content))).1.
Definition caught_up (inode : Z) (content : bytes) (s : IndexState) : Prop :=
  ix_titles s = titles_of content /\ ix_inode s = inode /\ ix_offset s = Z.of_nat (length content)
  /\ ix_partial_line s = drop (complete_bytes content) content.
Fixpoint refresh_all (views : list FileView) (x : ConversationTitleIndex) : ConversationTitleIndex :=
  match views with
  | [] => x
  | view :: views' => refresh_all views' (refresh view x).2
  end.

Lemma complete_bytes_le l : (complete_bytes l <= length l)%nat.
Proof. unfold complete_bytes. destruct (position x0a (rev l)); lia. Qed.
Lemma complete_none l : x0a ∉ l -> complete_bytes l = O.
Proof.
  intros Hl. unfold complete_bytes. rewrite (proj2 (position_None x0a (rev l))); [done|].
  by rewrite list_elem_of_In, <- in_rev, <- list_elem_of_In.
Qed.
Lemma complete_app a b : x0a ∉ b -> complete_bytes (a ++ x0a :: b) = S (length a).
Proof.
  intros Hb. unfold complete_bytes. rewrite rev_app_distr. cbn [rev]. rewrite <- app_assoc. cbn [app].
  rewrite position_here by (by rewrite list_elem_of_In, <- in_rev, <- list_elem_of_In).
  rewrite length_app, length_rev. cbn. lia.
Qed.
(** A text is its complete lines and a last line without line feed. *)
Lemma complete_cases l : (x0a ∉ l /\ complete_bytes l = O)
  \/ exists a b, l = a ++ x0a :: b /\ x0a ∉ b /\ complete_bytes l = S (length a).
Proof.
  destruct (decide (x0a ∈ l)) as [Hin|Hn]; [|left; split; [done | by apply complete_none]]. right.
  assert (Hr : x0a ∈ rev l) by (by rewrite list_elem_of_In, <- in_rev, <- list_elem_of_In).
  destruct (position x0a (rev l)) as [n|] eqn:E; [|by apply position_None in E].
  apply position_Some in E as (p & q & E & Hp & Hn). exists (rev q), (rev p).
  assert (l = rev q ++ x0a :: rev p) as ->.
  { rewrite <- (rev_involutive l), E, rev_app_distr. cbn. by rewrite <- app_assoc. }
  assert (x0a ∉ rev p) by (by rewrite list_elem_of_In, <- in_rev, <- list_elem_of_In).
  split; [done|]. split; [done|]. by apply complete_app.
Qed.

Lemma take_past {A} (a : list A) x b : take (S (length a)) (a ++ x :: b) = a ++ [x].
Proof. induction a as [|y a IH]; [done|]. cbn [length app]. by rewrite firstn_cons, IH. Qed.
Lemma drop_past {A} (a : list A) x b : drop (S (length a)) (a ++ x :: b) = b.
Proof. by induction a. Qed.
Lemma split_on_app c acc a b : split_on c acc (a ++ c :: b) = split_on c acc a ++ split_on c [] b.
Proof.
  revert acc. induction a as [|x a IH]; intros acc; cbn [app split_on].
  - by rewrite byte_eqb_refl.
  - destruct (Byte.eqb x c); [|by rewrite IH]. cbn [app]. by rewrite IH.
Qed.
Lemma apply_lines_app t l1 l2 :
  (apply_lines t (l1 ++ l2)).1 = (apply_lines (apply_lines t l1).1 l2).1.
Proof.
  revert t. induction l1 as [|[|b l] l1 IH]; intros t; [done | by apply IH |]. cbn [app apply_lines].
  destruct (entry_from_slice (b :: l)) as [e|]; [|by apply IH].
  case_bool_decide; [by apply IH|]. specialize (IH (<[ie_id e := ie_thread_name e]> t)).
  by destruct (apply_lines _ (l1 ++ l2)), (apply_lines _ l1).
Qed.
Lemma titles_of_lines a b : x0a ∉ b ->
  titles_of (a ++ x0a :: b) = (apply_lines ∅ (split_on x0a [] a)).1.
Proof.
  intros Hb. unfold titles_of. rewrite complete_app by done.
  by rewrite take_past, split_on_app, apply_lines_app.
Qed.
Lemma titles_of_none l : x0a ∉ l -> titles_of l = ∅.
Proof. intros Hl. unfold titles_of. by rewrite complete_none. Qed.

(** Reading what was appended catches up. *)
Lemma append_lines c y :
  let rest := drop (complete_bytes c) c in
  let n := complete_bytes (rest ++ y) in
  (apply_lines (titles_of c) (split_on x0a [] (take n (rest ++ y)))).1 = titles_of (c ++ y)
  /\ drop n (rest ++ y) = drop (complete_bytes (c ++ y)) (c ++ y).
Proof.
  cbv zeta. destruct (complete_cases c) as [[Hc ->]|(ca & cb & -> & Hcb & ->)].
  - change (drop 0 c) with c. rewrite (titles_of_none c) by done. split; [|done].
    unfold titles_of. done.
  - rewrite drop_past, titles_of_lines by done. rewrite <- app_assoc. cbn [app].
    destruct (complete_cases (cb ++ y)) as [[Hn ->]|(a & b & E & Hb & ->)].
    + rewrite titles_of_lines, complete_app by done. cbn [take split_on rev apply_lines fst].
      split; [done|]. by rewrite drop_past.
    + rewrite E. replace (ca ++ x0a :: a ++ x0a :: b) with ((ca ++ x0a :: a) ++ x0a :: b) by (by rewrite <- app_assoc).
      rewrite titles_of_lines, complete_app by done. split.
      * by rewrite take_past, !split_on_app, !apply_lines_app.
      * by rewrite !drop_past.
Qed.
Lemma refresh_appended inode path c y s : inode <> 0 ->
  caught_up inode c s \/ (s = IndexState_default /\ c = []) ->
  exists s', (refresh (view_of inode (c ++ y)) (mkTitleIndex (Some path) s)).2 = mkTitleIndex (Some path) s'
             /\ caught_up inode (c ++ y) s'.
Proof.
  intros Hi Hs. unfold refresh, view_of. cbn [ct_path ct_state fv_metadata fv_read_from].
  assert (Hreset : reset s inode (Z.of_nat (length (c ++ y)))
    = mkIndexState (titles_of c) (ix_inode s) (Z.of_nat (length c)) (drop (complete_bytes c) c)).
  { unfold reset. destruct Hs as [(Ht & E & Ho & Hp)|[-> ->]]; [|done].
    rewrite E, Ho, Z.eqb_refl, (proj2 (Z.eqb_neq inode 0) Hi). cbn [negb andb orb].
    rewrite (proj2 (Z.ltb_ge _ _)) by (rewrite length_app; lia). destruct s; cbn in *. by subst. }
  rewrite Hreset. cbn [ix_offset ix_titles ix_partial_line]. rewrite length_app, Nat2Z.inj_add.
  destruct (Z.eqb_spec (Z.of_nat (length c) + Z.of_nat (length y)) (Z.of_nat (length c))) as [E|E].
  - assert (y = []) as -> by (destruct y; [done | cbn in E; lia]). rewrite app_nil_r.
    eexists. split; [reflexivity|]. done.
  - rewrite Nat2Z.id, drop_app_length. unfold apply_complete_lines. cbn [ix_partial_line ix_titles ix_inode ix_offset].
    destruct (append_lines c y) as [Ht Hd]. cbv zeta in Ht, Hd.
    destruct (apply_lines _ _) as [t ch]. eexists. split; [reflexivity|]. cbn in Ht.
    unfold caught_up. cbn [ix_titles ix_inode ix_offset ix_partial_line]. rewrite length_app. repeat split; [done | lia | done].
Qed.
(** Contents each of which extends the one before. *)
Fixpoint growing (c : bytes) (cs : list bytes) : Prop :=
  match cs with
  | [] => True
  | c' :: cs' => (exists y, c' = c ++ y) /\ growing c' cs'
  end.

(** [C22] However the appends to the index file fall between the refreshes, in the
    middle of a line or of a character, the titles are those of the complete
    lines of the file, the last name of a session winning: the same as when the
    file is opened afresh. *)
Theorem titles_incremental inode path c cs : inode <> 0 -> growing [] (cs ++ [c]) ->
  let x := refresh_all (map (view_of inode) (cs ++ [c])) (mkTitleIndex (Some path) IndexState_default) in
  ix_titles (ct_state x) = titles_of c /\ open (view_of inode c) (Some path) = Ok x.
Proof.
  intros Hi Hg.
  assert (Hrun : forall c0 s, caught_up inode c0 s \/ (s = IndexState_default /\ c0 = []) ->
    growing c0 (cs ++ [c]) -> exists s', refresh_all (map (view_of inode) (cs ++ [c])) (mkTitleIndex (Some path) s)
      = mkTitleIndex (Some path) s' /\ caught_up inode c s').
  { clear Hg. induction cs as [|c1 cs IH]; intros c0 s Hs Hg; cbn [app map refresh_all].
    - destruct Hg as [[y ->] _]. by apply refresh_appended.
    - destruct Hg as [[y ->] Hg]. destruct (refresh_appended inode path c0 y s Hi Hs) as (s' & E & Hs').
      rewrite E. apply (IH (c0 ++ y)); auto. }
  destruct (Hrun [] IndexState_default ltac:(by right) Hg) as (s & E & Hs). cbv zeta. rewrite E. cbn [ct_state].
  split; [by destruct Hs|]. unfold open.
  destruct (refresh_appended inode path [] c IndexState_default Hi ltac:(by right)) as (s' & E' & Hs').
  cbn [app] in E'. destruct (refresh _ _) as [r x] eqn:Er. cbn [snd] in E'. subst x.
  assert (is_ok_any : exists v, r = Ok v).
  { unfold refresh, view_of in Er. cbn [ct_path ct_state fv_metadata fv_read_from] in Er.
    repeat case_match; simplify_eq; eauto. }
  destruct is_ok_any as [v ->]. cbn. do 2 f_equal. destruct Hs as (? & ? & ? & ?), Hs' as (? & ? & ? & ?).
  destruct s, s'. cbn in *. congruence.
Qed.
End titles.

(** ** Witness *)
Module TitlesFixture.
(** Lines of an identifier, a colon and a name. *)
#[local] Instance entries : EntryApi := fun l =>
  (fun p => mkIndexEntry p.1 p.2) <$> split_once_colon (of_bytes l).
Definition text (s : string) : bytes := as_bytes s ++ [x0a].
Definition content : bytes := text "s1:first" ++ text "s2:other" ++ text "s1:renamed" ++ as_bytes "s2:unfin".
Lemma titles_incremental_witness :
  let x := refresh_all (map (view_of 7) [take 4 content; take 12 content; content])
             (mkTitleIndex (Some "/index") IndexState_default) in
  title x "s1" = Some "renamed" /\ title x "s2" = Some "other".
Proof.
  cbv zeta. unfold title.
  assert (Hg : growing [] ([take 4 content; take 12 content] ++ [content])).
  { cbn [app growing]. split; [by exists (take 4 content)|].
    split; [exists (take 8 (drop 4 content)); reflexivity|].
    split; [exists (drop 12 content); reflexivity | exact I]. }
  destruct (titles_incremental 7 "/index" content [take 4 content; take 12 content] ltac:(discriminate) Hg)
    as [E _].
  cbn [app] in E. rewrite E. split; vm_compute; reflexivity.
Defined.
End TitlesFixture.
