(* ===== verification/Discovery.v ===== *)
(** * Sources of the capture lane

    The first part of [src/crates/client/src/capture_lane.rs]: what a source
    hands to the lane, the index of processes the sources share, the packet
    source with its queue of packets that are not attributed yet, and the scan
    of /proc.  Packets, /proc, the clock and fresh identifiers are arguments;
    the other tasks may change the shared index between two reads of it, so
    each read is an argument too. *)
From Stdlib Require Import ZArith Lia Strings.Byte Strings.String.
From S2P Require Import Prelude RustStr Digest Types Http1 Model Ip Attribution Config.
Local Open Scope string_scope.
Local Open Scope list_scope.
Local Open Scope Z_scope.

(* src: src/crates/client/src/capture_lane.rs:93-93 PENDING_SEGMENT_TTL *)
Definition PENDING_SEGMENT_TTL : Z := 15 * 1000000000.
(* src: src/crates/client/src/capture_lane.rs:94-94 MAX_PENDING_SEGMENTS *)
Definition MAX_PENDING_SEGMENTS : nat := Z.to_nat 4096.
(* src: src/crates/client/src/capture_lane.rs:95-95 MAX_PENDING_BYTES *)
Definition MAX_PENDING_BYTES : Z := 8 * 1024 * 1024.
(* src: src/crates/client/src/capture_lane.rs:96-96 MAX_CAPTURE_DRAIN_BATCH *)
Definition MAX_CAPTURE_DRAIN_BATCH : nat := 256.

Section discovery.
Context `{TimeApi} `{DigestApi} `{EtherparseApi}.

(* src: src/crates/client/src/capture_lane.rs:50-68 CaptureInput *)
Inductive CaptureInput : Type :=
| CaptureInput_TcpSegment (segment : TcpSegment)
| CaptureInput_AttributedTcpSegment (segment : TcpSegment) (process_instance_id : Uuid)
    (direction : ProcessFlowDirection)
| CaptureInput_CaptureGap (flow_id : Uuid) (task : option TaskKey) (observed_at : OffsetDateTime)
    (reason : string) (lost_bytes : option Z)
| CaptureInput_ProcessObserved (process : ProcessSummary)
| CaptureInput_ProcessExit (process : ProcessSummary).

(** ** The shared index *)
(* src: src/crates/client/src/ebpf_lane.rs:267-273 TrackedProcess *)
Record TrackedProcess : Type := mkTrackedProcess {
  tk_process_instance_id : Uuid;
  tk_client_instance_id : Uuid;
  tk_executable_sha256 : string;
  tk_codex_version : option string;
  tk_started_at : OffsetDateTime }.
(* src: src/crates/client/src/capture_lane.rs:415-419 IndexedProcess *)
Record IndexedProcess : Type := mkIndexedProcess {
  ip_process_instance_id : Uuid;
  ip_index : ProcessFlowIndex;
  ip_tracked : TrackedProcess }.
(* src: src/crates/client/src/capture_lane.rs:410-412 SharedProcessIndex *)
Record SharedProcessIndex : Type := mkSharedIndex { sh_inner : gmap Z IndexedProcess }.
(* src: src/crates/client/src/capture_lane.rs:422-439 SharedProcessIndex::upsert *)
Definition upsert (pid : Z) (process_instance_id : Uuid) (index : ProcessFlowIndex)
    (tracked : TrackedProcess) (x : SharedProcessIndex) : SharedProcessIndex :=
  mkSharedIndex (<[pid := mkIndexedProcess process_instance_id index tracked]> (sh_inner x)).
(* src: src/crates/client/src/capture_lane.rs:441-445 SharedProcessIndex::remove *)
Definition remove (pid : Z) (x : SharedProcessIndex) : SharedProcessIndex :=
  mkSharedIndex (delete pid (sh_inner x)).
(** [order] is the order in which the [HashMap] iterates. *)
(* src: src/crates/client/src/capture_lane.rs:447-456 SharedProcessIndex::match_segment *)
Definition match_segment (order : list IndexedProcess -> list IndexedProcess) (x : SharedProcessIndex)
    (segment : TcpSegment) : option (Uuid * ProcessFlowDirection) :=
  find_map (fun indexed =>
    (fun direction => (ip_process_instance_id indexed, direction))
      <$> direction_for_segment (ip_index indexed) segment)
    (order (map snd (map_to_list (sh_inner x)))).
(* src: src/crates/client/src/capture_lane.rs:458-463 SharedProcessIndex::process *)
Definition process (pid : Z) (x : SharedProcessIndex) : option TrackedProcess :=
  ip_tracked <$> sh_inner x !! pid.

(** ** The packet source *)
(* src: src/crates/client/src/capture_lane.rs:88-91 PendingSegment *)
Record PendingSegment : Type := mkPendingSegment {
  pn_received_at : Z;
  pn_segment : TcpSegment }.
(** The tap and the index are arguments of the operations. *)
(* src: src/crates/client/src/capture_lane.rs:79-85 PassiveTapSource *)
Record PassiveTapSource : Type := mkTapSource {
  pt_pending : list PendingSegment;
  pt_pending_bytes : Z;
  pt_remote_ports : gset Z }.
(* src: src/crates/client/src/capture_lane.rs:100-112 PassiveTapSource::open *)
Definition open (remote_ports : list Z) : PassiveTapSource :=
  mkTapSource [] 0 (list_to_set remote_ports).
(* src: src/crates/client/src/capture_lane.rs:176-178 segment_size *)
Definition segment_size (s : TcpSegment) : Z :=
  Z.min u64_max (Z.of_nat (length (sg_payload s)) + 64).
(** [saturating_sub], [saturating_add] of [usize]. *)
Definition sat_sub (a b : Z) : Z := Z.max 0 (a - b).
Definition sat_add (a b : Z) : Z := Z.min u64_max (a + b).
Definition set_queue (s : PassiveTapSource) (pending : list PendingSegment) (pending_bytes : Z)
    : PassiveTapSource := mkTapSource pending pending_bytes (pt_remote_ports s).
(* src: src/crates/client/src/capture_lane.rs:114-118 PassiveTapSource::is_candidate *)
Definition is_candidate (s : PassiveTapSource) (segment : TcpSegment) : bool :=
  bool_decide (pt_remote_ports s = ∅)
  || bool_decide (sg_source_port segment ∈ pt_remote_ports s)
  || bool_decide (sg_destination_port segment ∈ pt_remote_ports s).
(** The [while] loops of [push_pending] and [expire_pending], on the queue. *)
(* src: src/crates/client/src/capture_lane.rs:140-149 push_pending: loop *)
Fixpoint evict_pending (segment_bytes pending_bytes : Z) (pending : list PendingSegment)
    : list PendingSegment * Z :=
  if Nat.leb MAX_PENDING_SEGMENTS (length pending)
     || (MAX_PENDING_BYTES <? sat_add pending_bytes segment_bytes)
  then match pending with
  | [] => ([], pending_bytes)
  | dropped :: pending' =>
    evict_pending segment_bytes (sat_sub pending_bytes (segment_size (pn_segment dropped))) pending'
  end
  else (pending, pending_bytes).
(* src: src/crates/client/src/capture_lane.rs:138-157 PassiveTapSource::push_pending *)
Definition push_pending (now : Z) (segment : TcpSegment) (s : PassiveTapSource) : PassiveTapSource :=
  let segment_bytes := segment_size segment in
  let '(pending, pending_bytes) := evict_pending segment_bytes (pt_pending_bytes s) (pt_pending s) in
  if segment_bytes <=? MAX_PENDING_BYTES
  then set_queue s (pending ++ [mkPendingSegment now segment]) (sat_add pending_bytes segment_bytes)
  else set_queue s pending pending_bytes.
(** [duration_since] saturates at zero. *)
(* src: src/crates/client/src/capture_lane.rs:161-172 expire_pending: loop *)
Fixpoint expire (now pending_bytes : Z) (pending : list PendingSegment) : list PendingSegment * Z :=
  match pending with
  | [] => ([], pending_bytes)
  | expired :: pending' =>
    if PENDING_SEGMENT_TTL <=? Z.max 0 (now - pn_received_at expired)
    then expire now (sat_sub pending_bytes (segment_size (pn_segment expired))) pending'
    else (pending, pending_bytes)
  end.
(* src: src/crates/client/src/capture_lane.rs:159-173 PassiveTapSource::expire_pending *)
Definition expire_pending (now : Z) (s : PassiveTapSource) : PassiveTapSource :=
  let '(pending, pending_bytes) := expire now (pt_pending_bytes s) (pt_pending s) in
  set_queue s pending pending_bytes.

(** A read of the shared index for one packet. *)
Definition Match : Type := TcpSegment -> option (Uuid * ProcessFlowDirection).
(** [position]: the [i]-th pending packet is looked up at the [i]-th read. *)
Fixpoint first_match (idx : nat -> Match) (i : nat) (pending : list PendingSegment) : option nat :=
  match pending with
  | [] => None
  | p :: pending' =>
    if is_some (idx i (pn_segment p)) then Some i else first_match idx (S i) pending'
  end.
(** The packet found leaves the queue; it is looked up once more, and lost if the
    index has forgotten its process meanwhile. *)
(* src: src/crates/client/src/capture_lane.rs:120-136 PassiveTapSource::pop_attributed_pending *)
Definition pop_attributed_pending (now : Z) (idx : nat -> Match) (s : PassiveTapSource)
    : option CaptureInput * PassiveTapSource :=
  let s := expire_pending now s in
  match first_match idx 0 (pt_pending s) with
  | None => (None, s)
  | Some index =>
    match pt_pending s !! index with
    | None => (None, s)
    | Some pending =>
      let segment := pn_segment pending in
      let s := set_queue s (take index (pt_pending s) ++ drop (S index) (pt_pending s))
                 (sat_sub (pt_pending_bytes s) (segment_size segment)) in
      ((fun '(process_instance_id, direction) =>
          CaptureInput_AttributedTcpSegment segment process_instance_id direction)
         <$> idx (S index) segment, s)
    end
  end.

(** [recv]'s errors. *)
Inductive SourceError : Type :=
| SourceError_Frame
| SourceError_Proc (e : ProcLookupError)
| SourceError_Io (e : IoError).
(** [fuel] iterations of the loop; [reads i], [clock i] and [idx i] are what the
    [i]-th one reads. *)
(* src: src/crates/client/src/capture_lane.rs:185-207 PassiveTapSource::recv: loop *)
Fixpoint drain_tap (fuel i : nat) (reads : nat -> ReadResult) (clock : nat -> Z) (idx : nat -> Match)
    (s : PassiveTapSource) : result SourceError (option CaptureInput) * PassiveTapSource :=
  match fuel with
  | O => (Ok None, s)
  | S fuel' =>
    match tap_recv (reads i) with
    | Ok (Some segment) =>
      match idx i segment with
      | Some (process_instance_id, direction) =>
        (Ok (Some (CaptureInput_AttributedTcpSegment segment process_instance_id direction)), s)
      | None =>
        drain_tap fuel' (S i) reads clock idx
          (if is_candidate s segment then push_pending (clock i) segment s else s)
      end
    | Ok None => (Ok None, s)
    | Err (TapError_Decode _) => (Err SourceError_Frame, s)
    | Err (TapError_Proc e) => (Err (SourceError_Proc e), s)
    | Err (TapError_Io e) => (Err (SourceError_Io e), s)
    end
  end.
(* src: src/crates/client/src/capture_lane.rs:181-208 PassiveTapSource::recv *)
Definition recv (now : Z) (pending_idx : nat -> Match) (reads : nat -> ReadResult) (clock : nat -> Z)
    (idx : nat -> Match) (s : PassiveTapSource)
    : result SourceError (option CaptureInput) * PassiveTapSource :=
  match pop_attributed_pending now pending_idx s with
  | (Some input, s') => (Ok (Some input), s')
  | (None, s') => drain_tap MAX_CAPTURE_DRAIN_BATCH 0 reads clock idx s'
  end.

(** ** The scan of /proc *)
(* src: src/crates/client/src/capture_lane.rs:221-228 ObservedProcess *)
Record ObservedProcess : Type := mkObservedProcess {
  op_pid : Z;
  op_process_instance_id : Uuid;
  op_executable_sha256 : string;
  op_codex_version : option string;
  op_executable_path : string;
  op_started_at : OffsetDateTime }.
(* src: src/crates/client/src/capture_lane.rs:230-235 ProcfsProcessDiscovery *)
Record ProcfsProcessDiscovery : Type := mkProcfsDiscovery {
  pd_config : ClientConfig;
  pd_observed : gmap Z ObservedProcess;
  pd_executable_hashes : gmap string string;
  pd_shared_index : SharedProcessIndex }.
(** The machine as one scan finds it: the names in /proc, a process's [comm] and
    executable, the content of an executable, and its /proc tables. *)
Record Host : Type := mkHost {
  ho_proc_names : list string;
  ho_comm : Z -> option string;
  ho_exe : Z -> option string;
  ho_read : string -> result IoError bytes;
  ho_proc : ProcFs }.
(* src: src/crates/client/src/capture_lane.rs:239-252 ProcfsProcessDiscovery::new *)
Definition ProcfsProcessDiscovery_new (config : ClientConfig) (shared_index : SharedProcessIndex)
    (read : string -> result IoError bytes) : ProcfsProcessDiscovery :=
  let executable_hashes :=
    match cf_codex_binary_path config with
    | Some path => match read path with
                   | Ok b => {[path := sha256_hex b]}
                   | Err _ => ∅
                   end
    | None => ∅
    end in
  mkProcfsDiscovery config ∅ executable_hashes shared_index.
(* src: src/crates/client/src/capture_lane.rs:271-276 ProcfsProcessDiscovery::process_name *)
Definition process_name (host : Host) (pid : Z) : option string := trim <$> ho_comm host pid.
(* src: src/crates/client/src/capture_lane.rs:254-269 ProcfsProcessDiscovery::discover_pids *)
Definition discover_pids (host : Host) (config : ClientConfig) : list Z :=
  match cf_capture_codex_pid config with
  | Some pid => [pid]
  | None =>
    List.filter (fun pid =>
      is_some_and (fun name => String.eqb name (cf_capture_process_name config)) (process_name host pid))
      (omap (fun name => from_str_radix 10 u32_max (as_bytes name)) (ho_proc_names host))
  end.

(** [Path::file_name]: the last component, if it is a name. *)
Definition file_name (path : string) : option string :=
  match last (List.filter (fun piece => negb (bool_decide (piece = [] \/ piece = [x2e])))
                (split_on x2f [] (as_bytes path))) with
  | Some piece => if bool_decide (piece = [x2e; x2e]) then None else Some (of_bytes piece)
  | None => None
  end.
Definition is_alphanumeric (b : byte) : bool :=
  in_range 48 57 b || in_range 65 90 b || in_range 97 122 b.
(** [split] at the characters that are neither alphanumeric nor a dot. *)
Fixpoint split_version (acc l : bytes) : list bytes :=
  match l with
  | [] => [rev acc]
  | b :: l' =>
    if is_alphanumeric b || Byte.eqb b x2e then split_version (b :: acc) l'
    else rev acc :: split_version [] l'
  end.
(* src: src/crates/client/src/capture_lane.rs:1988-1997 detect_codex_version *)
Definition detect_codex_version (executable_path : string) : option string :=
  name ← file_name executable_path;
  of_bytes <$> List.find (fun part =>
    Nat.leb 2 (length (List.filter (fun b => Byte.eqb b x2e) part))) (split_version [] (as_bytes name)).

(** A gap the scan reports. *)
Definition scan_gap (flow_id : Uuid) (now : OffsetDateTime) (reason : string) : CaptureInput :=
  CaptureInput_CaptureGap flow_id None now reason None.
(** [{error}] of a [ProcLookupError]. *)
Definition show_proc_error (e : ProcLookupError) : string :=
  match e with
  | ProcLookupError_Io e => "I/O failed: " +:+ e
  | ProcLookupError_MissingInterface i => "interface index " +:+ show_Z i +:+ " was not found"
  | ProcLookupError_InvalidProcLine l => "invalid /proc table line: " +:+ l
  end.
Definition process_summary (config : ClientConfig) (o : ObservedProcess) (exited_at : option OffsetDateTime)
    : ProcessSummary :=
  mkProcessSummary (op_process_instance_id o) (cf_client_instance_id config) (op_pid o)
    (op_executable_sha256 o) (op_codex_version o) (op_started_at o) exited_at None None.
(** The hash of an executable: the one remembered, or of its content now. *)
(* src: src/crates/client/src/capture_lane.rs:307-329 poll: executable_sha256 *)
Definition executable_sha256 (host : Host) (path : string) (hashes : gmap string string)
    : result IoError (string * gmap string string) :=
  match hashes !! path with
  | Some hash => Ok (hash, hashes)
  | None =>
    b ← ho_read host path;
    let hash := sha256_hex b in
    mret (hash, <[path := hash]> hashes)
  end.
(** One process of the scan: the events and the new state, [active] being the
    processes seen; [id] and [gap_id] are the identifiers it may take. *)
(* src: src/crates/client/src/capture_lane.rs:287-378 poll: process *)
Definition poll_pid (host : Host) (now : OffsetDateTime) (id gap_id : Uuid) (pid : Z)
    (active : gset Z) (d : ProcfsProcessDiscovery)
    : list CaptureInput * gset Z * ProcfsProcessDiscovery :=
  let config := pd_config d in
  match ho_exe host pid with
  | None => ([scan_gap gap_id now ("proc_exe_unavailable:" +:+ show_Z pid)], active, d)
  | Some executable_path =>
    let existing :=
      o ← pd_observed d !! pid;
      if String.eqb (op_executable_path o) executable_path then Some o else None in
    let found :=
      match existing with
      | Some o => Ok (o, pd_executable_hashes d)
      | None =>
        '(hash, hashes) ← executable_sha256 host executable_path (pd_executable_hashes d);
        Ok (mkObservedProcess pid id hash (detect_codex_version executable_path) executable_path now, hashes)
      end in
    match found with
    | Err e =>
      ([scan_gap gap_id now ("proc_exe_read_failed:" +:+ show_Z pid +:+ ":" +:+ e)], active, d)
    | Ok (o, hashes) =>
      let d1 := mkProcfsDiscovery config (<[pid := o]> (pd_observed d)) hashes (pd_shared_index d) in
      let active := {[pid]} ∪ active in
      match from_pid (ho_proc host) pid with
      | Err e =>
        ([scan_gap gap_id now ("attribution_index_unavailable:" +:+ show_proc_error e)], active, d1)
      | Ok index =>
        let tracked := mkTrackedProcess (op_process_instance_id o) (cf_client_instance_id config)
                         (op_executable_sha256 o) (op_codex_version o) (op_started_at o) in
        let d2 := mkProcfsDiscovery config (pd_observed d1) hashes
                    (upsert pid (op_process_instance_id o) index tracked (pd_shared_index d1)) in
        (match existing with
         | None => [CaptureInput_ProcessObserved (process_summary config o None)]
         | Some _ => []
         end, active, d2)
      end
    end
  end.
(** [ids i] and [gap_ids i] are for the [i]-th process. *)
Fixpoint poll_pids (host : Host) (now : OffsetDateTime) (ids gap_ids : nat -> Uuid) (i : nat)
    (pids : list Z) (active : gset Z) (d : ProcfsProcessDiscovery)
    : list CaptureInput * gset Z * ProcfsProcessDiscovery :=
  match pids with
  | [] => ([], active, d)
  | pid :: pids' =>
    let '(events, active, d) := poll_pid host now (ids i) (gap_ids i) pid active d in
    let '(events', active, d) := poll_pids host now ids gap_ids (S i) pids' active d in
    (events ++ events', active, d)
  end.
(** A process that is gone leaves the maps. *)
(* src: src/crates/client/src/capture_lane.rs:380-404 poll: stale *)
Fixpoint reap (now : OffsetDateTime) (stale : list Z) (d : ProcfsProcessDiscovery)
    : list CaptureInput * ProcfsProcessDiscovery :=
  match stale with
  | [] => ([], d)
  | pid :: stale' =>
    match pd_observed d !! pid with
    | None => reap now stale' d
    | Some o =>
      let d' := mkProcfsDiscovery (pd_config d) (delete pid (pd_observed d)) (pd_executable_hashes d)
                  (remove pid (pd_shared_index d)) in
      let '(events, d'') := reap now stale' d' in
      (CaptureInput_ProcessExit (process_summary (pd_config d) o (Some now)) :: events, d'')
    end
  end.
(** [order] is the order in which the [HashMap] iterates over its keys. *)
(* src: src/crates/client/src/capture_lane.rs:284-406 ProcfsProcessDiscovery::poll *)
Definition poll (host : Host) (now : OffsetDateTime) (ids gap_ids : nat -> Uuid)
    (order : list Z -> list Z) (d : ProcfsProcessDiscovery)
    : list CaptureInput * ProcfsProcessDiscovery :=
  let '(events, active, d1) := poll_pids host now ids gap_ids 0 (discover_pids host (pd_config d)) ∅ d in
  let stale := List.filter (fun pid => negb (bool_decide (pid ∈ active)))
                 (order (map fst (map_to_list (pd_observed d1)))) in
  let '(exits, d2) := reap now stale d1 in
  (events ++ exits, d2).
End discovery.

(** ** The queue is bounded *)
Section queue.
Context `{TimeApi} `{EtherparseApi}.
Definition queued_bytes (pending : list PendingSegment) : Z :=
  fold_right Z.add 0 (map (fun p => segment_size (pn_segment p)) pending).
Record tap_inv (s : PassiveTapSource) : Prop := mk_tap_inv {
  tv_bytes : pt_pending_bytes s = queued_bytes (pt_pending s);
  tv_length : (length (pt_pending s) <= MAX_PENDING_SEGMENTS)%nat;
  tv_limit : pt_pending_bytes s <= MAX_PENDING_BYTES }.

Lemma segment_size_pos g : 0 < segment_size g.
Proof. unfold segment_size, u64_max. lia. Qed.
Lemma queued_bytes_nonneg l : 0 <= queued_bytes l.
Proof.
  induction l as [|p l IH]; [done|]. cbn. pose proof (segment_size_pos (pn_segment p)).
  unfold queued_bytes in IH. lia.
Qed.
Lemma queued_bytes_app l k : queued_bytes (l ++ k) = queued_bytes l + queued_bytes k.
Proof. unfold queued_bytes. induction l as [|p l IH]; [done|]. cbn in *. lia. Qed.
Lemma queued_bytes_cons p l : queued_bytes (p :: l) = segment_size (pn_segment p) + queued_bytes l.
Proof. done. Qed.
Lemma sat_sub_exact a b : b <= a -> sat_sub a b = a - b.
Proof. unfold sat_sub. lia. Qed.
Lemma expire_spec now b l l' b' : expire now b l = (l', b') -> b = queued_bytes l ->
  l' `suffix_of` l /\ b' = queued_bytes l'.
Proof.
  revert b. induction l as [|p l IH]; intros b; cbn [expire]; [by intros [= <- <-]|].
  destruct (_ <=? _); [|by intros [= <- <-]]. intros E Hb. rewrite queued_bytes_cons in Hb.
  pose proof (queued_bytes_nonneg l). rewrite sat_sub_exact in E by lia.
  destruct (IH _ E ltac:(lia)) as [Hs Hb']. split; [by apply suffix_cons_r | done].
Qed.
Lemma evict_suffix n b l l' b' : evict_pending n b l = (l', b') -> b = queued_bytes l ->
  l' `suffix_of` l /\ b' = queued_bytes l'.
Proof.
  revert b. induction l as [|p l IH]; intros b E Hb; cbn [evict_pending] in E.
  - destruct (_ || _); injection E as <- <-; by subst.
  - destruct (_ || _); [|injection E as <- <-; by subst]. rewrite queued_bytes_cons in Hb.
    pose proof (queued_bytes_nonneg l). rewrite sat_sub_exact in E by lia.
    destruct (IH _ E ltac:(lia)). split; [by apply suffix_cons_r | done].
Qed.
Lemma evict_bounds n b l l' b' : evict_pending n b l = (l', b') -> b = queued_bytes l ->
  0 < n <= MAX_PENDING_BYTES ->
  (length l' < MAX_PENDING_SEGMENTS)%nat /\ b' + n <= MAX_PENDING_BYTES.
Proof.
  revert b. induction l as [|p l IH]; intros b E Hb Hn; cbn [evict_pending] in E.
  - subst b. assert ((length (@nil PendingSegment) < MAX_PENDING_SEGMENTS)%nat) as Hl by (apply Nat.ltb_lt; by vm_compute).
    destruct (_ || _); injection E as <- <-; (split; [exact Hl | cbn; lia]).
  - rewrite queued_bytes_cons in Hb. pose proof (queued_bytes_nonneg l).
    pose proof (segment_size_pos (pn_segment p)).
    destruct (Nat.leb_spec MAX_PENDING_SEGMENTS (length (p :: l))) as [Hl|Hl]; cbn [orb] in E;
      [|destruct (Z.ltb_spec MAX_PENDING_BYTES (sat_add b n)) as [Hs|Hs]].
    1, 2: rewrite sat_sub_exact in E by lia; apply (IH _ E); lia.
    injection E as <- <-. split; [done|]. unfold sat_add, u64_max, MAX_PENDING_BYTES in *. lia.
Qed.
Lemma suffix_length {A} (l k : list A) : l `suffix_of` k -> (length l <= length k)%nat.
Proof. intros [x ->]. rewrite length_app. lia. Qed.
Lemma suffix_bytes l k : l `suffix_of` k -> queued_bytes l <= queued_bytes k.
Proof. intros [x ->]. rewrite queued_bytes_app. pose proof (queued_bytes_nonneg x). lia. Qed.

Lemma expire_inv now s : tap_inv s -> tap_inv (expire_pending now s).
Proof.
  intros [Hb Hl Hm]. unfold expire_pending. destruct (expire _ _ _) as [l b] eqn:E.
  apply expire_spec in E as [Hs Hb']; [|done]. pose proof (suffix_length _ _ Hs). pose proof (suffix_bytes _ _ Hs).
  split; cbn; [done | lia | lia].
Qed.
Lemma push_inv now g s : tap_inv s -> tap_inv (push_pending now g s).
Proof.
  intros [Hb Hl Hm]. unfold push_pending. destruct (evict_pending _ _ _) as [l b] eqn:E.
  pose proof (segment_size_pos g). destruct (evict_suffix _ _ _ _ _ E Hb) as [Hs ->].
  destruct (Z.leb_spec (segment_size g) MAX_PENDING_BYTES) as [Hg|Hg].
  - destruct (evict_bounds _ _ _ _ _ E Hb) as (Hlen & Hsum); [done|].
    assert (Hadd : sat_add (queued_bytes l) (segment_size g) = queued_bytes l + segment_size g).
    { unfold sat_add, u64_max, MAX_PENDING_BYTES in *. lia. }
    split; cbn [set_queue pt_pending pt_pending_bytes]; rewrite ?Hadd; [|rewrite length_app; cbn; lia|lia].
    rewrite queued_bytes_app. unfold queued_bytes. cbn. lia.
  - pose proof (suffix_length _ _ Hs). pose proof (suffix_bytes _ _ Hs). split; cbn; [done | lia | lia].
Qed.
Lemma first_match_lt idx i l n : first_match idx i l = Some n -> (i <= n < i + length l)%nat.
Proof.
  revert i. induction l as [|p l IH]; intros i; cbn; [done|].
  destruct (is_some _); [intros [= <-]; lia|]. intros E%IH. lia.
Qed.
Lemma pop_inv now idx s : tap_inv s -> tap_inv (pop_attributed_pending now idx s).2.
Proof.
  intros Hs%(expire_inv now). unfold pop_attributed_pending.
  destruct (first_match _ _ _) as [n|]; [|done].
  destruct (pt_pending (expire_pending now s) !! n) as [p|] eqn:E; [|done]. destruct Hs as [Hb Hl Hm].
  assert (Hq := take_drop_middle _ _ _ E). cbn [snd]. pose proof (queued_bytes_nonneg (take n (pt_pending (expire_pending now s)))).
  pose proof (queued_bytes_nonneg (drop (S n) (pt_pending (expire_pending now s)))).
  pose proof (segment_size_pos (pn_segment p)).
  rewrite <- Hq in Hb, Hl. rewrite queued_bytes_app, queued_bytes_cons in Hb. rewrite length_app in Hl. cbn in Hl.
  split; cbn [set_queue pt_pending pt_pending_bytes]; [rewrite sat_sub_exact, queued_bytes_app | rewrite length_app | rewrite sat_sub_exact]; lia.
Qed.
Lemma drain_inv fuel i reads clock idx s : tap_inv s -> tap_inv (drain_tap fuel i reads clock idx s).2.
Proof.
  revert i s. induction fuel as [|fuel IH]; intros i s Hs; [done|]. cbn [drain_tap].
  destruct (tap_recv (reads i)) as [[g|]|[]]; try done.
  destruct (idx i g) as [[]|]; [done|]. apply IH. destruct (is_candidate s g); [by apply push_inv | done].
Qed.
(** What a run of [recv]s leaves. *)
Inductive tap_step (s : PassiveTapSource) : PassiveTapSource -> Prop :=
| tap_recv_step now pending_idx reads clock idx :
    tap_step s (recv now pending_idx reads clock idx s).2.

(** Whatever packets arrive and whatever the index answers, the queue of
    packets waiting for attribution keeps its promise: its byte count is the
    sum of its packets' sizes, it holds at most 4096 packets and at most eight
    megabytes. *)
Theorem tap_bounded ports s : rtc tap_step (open ports) s -> tap_inv s.
Proof.
  intros Hr. assert (H0' : tap_inv (open ports)) by (split; cbn; [done | lia | done]).
  induction Hr as [s|s s1 s2 Hs _ IH]; [done|]. apply IH. destruct Hs. unfold recv.
  pose proof (pop_inv now pending_idx s H0') as Hp.
  destruct (pop_attributed_pending _ _ _) as [[input|] s1]; [done|]. by apply drain_inv.
Qed.
End queue.

(** ** Processes the scan misreports *)
Section misreports.
Context `{TimeApi} `{DigestApi} `{EtherparseApi}.
Definition announces (pid : Z) (input : CaptureInput) : bool :=
  match input with
  | CaptureInput_ProcessObserved p => prs_pid p =? pid
  | _ => false
  end.
(** A process whose sockets could not be read when it was first seen is recorded as
    seen, and no later scan announces it. *)
Theorem unindexed_process_never_announced host now id gap_id pid active d e path hash hashes :
  pd_observed d !! pid = None -> ho_exe host pid = Some path ->
  executable_sha256 host path (pd_executable_hashes d) = Ok (hash, hashes) ->
  from_pid (ho_proc host) pid = Err e ->
  let '(events, _, d1) := poll_pid host now id gap_id pid active d in
  existsb (announces pid) events = false
  /\ forall host' now' id' gap_id' active', ho_exe host' pid = Some path ->
       let '(events', _, _) := poll_pid host' now' id' gap_id' pid active' d1 in
       existsb (announces pid) events' = false.
Proof.
  intros Ho He Hh Hi. unfold poll_pid. rewrite He, Ho. cbn [mbind option_bind]. rewrite Hh.
  cbn [mbind result_bind]. rewrite Hi. split; [done|]. intros host' now' id' gap_id' active' He'.
  rewrite He'. cbn [pd_observed pd_executable_hashes pd_config]. rewrite lookup_insert_eq.
  cbn [mbind option_bind op_executable_path]. rewrite String.eqb_refl. by destruct (from_pid (ho_proc host') pid).
Qed.
(** A running process whose executable was replaced on disk (the kernel then shows a
    path that cannot be read) is reported as exited. *)
Theorem replaced_executable_reports_exit host now ids gap_ids d o path e pid :
  cf_capture_codex_pid (pd_config d) = Some pid -> pd_observed d = {[pid := o]} ->
  ho_exe host pid = Some path -> op_executable_path o <> path ->
  pd_executable_hashes d !! path = None -> ho_read host path = Err e ->
  (poll host now ids gap_ids (fun l => l) d).1
  = [scan_gap (gap_ids O) now ("proc_exe_read_failed:" +:+ show_Z pid +:+ ":" +:+ e);
     CaptureInput_ProcessExit (process_summary (pd_config d) o (Some now))].
Proof.
  intros Hp Ho He Hne Hh Hr. unfold poll, discover_pids. rewrite Hp. cbn [poll_pids]. unfold poll_pid. rewrite He, Ho.
  rewrite lookup_singleton_eq. cbn [mbind option_bind].
  rewrite (proj2 (String.eqb_neq _ _) Hne). unfold executable_sha256. rewrite Hh, Hr. cbn [mbind result_bind].
  rewrite Ho, map_to_list_singleton. cbn [map fst List.filter]. rewrite bool_decide_eq_false_2 by apply not_elem_of_empty.
  cbn [negb reap]. rewrite Ho, lookup_singleton_eq. done.
Qed.
End misreports.

(** ** Witness *)
Module DiscoveryFixture.
Import TimeFixture.
(** Every frame is a packet of forty bytes for a watched port. *)
#[local] Instance etherparse : EtherparseApi := {|
  from_ethernet frame := Ok (mkSlicedPacket (Some (Net_Ipv4 [10; 0; 0; 1] [10; 0; 0; 2]))
    (Some (Transport_Tcp (mkTcpSlice 1234 443 1 0 false false false frame))));
  from_ip _ := Err "no packet" |}.
Definition reads (i : nat) : ReadResult :=
  if Nat.ltb i 2 then Read_Frame (replicate 40 x61) else Read_WouldBlock.
Definition after : PassiveTapSource :=
  (recv 0 (fun _ _ => None) reads (fun _ => 5) (fun _ _ => None) (open [443])).2.
Lemma tap_bounded_witness : length (pt_pending after) = 2%nat /\ pt_pending_bytes after = 208
  /\ pt_pending_bytes after = queued_bytes (pt_pending after).
Proof.
  split; [vm_compute; reflexivity|]. split; [vm_compute; reflexivity|].
  destruct (tap_bounded [443] after) as [Hb _ _]; [|exact Hb].
  apply rtc_once. apply tap_recv_step.
Defined.
End DiscoveryFixture.
