(* ===== verification/Lane.v ===== *)
(** * The capture lane: messages and projections

    The functions of [src/crates/client/src/capture_lane.rs] that look at bytes
    and at decoded exchanges: recognising protocols, cutting HTTP/1 messages out
    of a buffer, rendering HTTP/2 and WebSocket exchanges as HTTP/1 ones, and
    turning a decoded attempt into a projection and contents.  The flows they
    are used on are in LaneFlow. *)
From Stdlib Require Import ZArith Lia Strings.Byte Strings.String.
From S2P Require Import Prelude RustStr Types Json Http1 Sse Responses Model Mapping Blob.
Local Open Scope string_scope.
Local Open Scope list_scope.
Local Open Scope Z_scope.

(** [Uri::path] of the [http] crate. *)
Class UriApi `{HttpApi} := uri_path : Uri -> string.

(** ** Recognising protocols *)
(* src: src/crates/client/src/capture_lane.rs:1634-1641 looks_like_request *)
Definition looks_like_request (b : bytes) : bool :=
  starts_with (as_bytes "GET ") b
  || starts_with (as_bytes "POST ") b
  || starts_with (as_bytes "PUT ") b
  || starts_with (as_bytes "DELETE ") b
  || starts_with (as_bytes "PATCH ") b
  || starts_with (as_bytes "PRI * HTTP/2.0") b.
(* src: src/crates/client/src/capture_lane.rs:1643-1645 looks_like_http1 *)
Definition looks_like_http1 (b : bytes) : bool := looks_like_request b.
(* src: src/crates/client/src/capture_lane.rs:1647-1649 looks_like_http1_response *)
Definition looks_like_http1_response (b : bytes) : bool := starts_with (as_bytes "HTTP/1.") b.
(* src: src/crates/client/src/capture_lane.rs:1651-1655 looks_like_websocket_handshake *)
Definition looks_like_websocket_handshake (b : bytes) : bool :=
  existsb (fun window =>
    bool_decide (map lower_byte window = map lower_byte (as_bytes "upgrade: websocket")))
    (windows 19 b).

(** ** Cutting messages out of a buffer *)
Definition HEAD_END : bytes := [x0d; x0a; x0d; x0a].
(* src: src/crates/client/src/capture_lane.rs:1778-1783 find_header_end *)
Definition find_header_end (b : bytes) : option nat := (fun index => (index + 4)%nat) <$> find_sub HEAD_END b.
Definition LAST_CHUNK : bytes := [x30; x0d; x0a; x0d; x0a].
(* src: src/crates/client/src/capture_lane.rs:1792-1797 find_chunked_end *)
Definition find_chunked_end (b : bytes) (header_end : nat) : option nat :=
  (fun offset => (header_end + offset + 5)%nat) <$> find_sub LAST_CHUNK (drop header_end b).

(** [Vec::drain(..n)]: what is taken and what is left. *)
Definition drain_front (n : nat) (b : bytes) : bytes * bytes := (take n b, drop n b).

Definition RESPONSE_PREFIX : bytes := as_bytes "HTTP/1.".
(** The longest [length] in [1..=n] with [buffer.ends_with(&PREFIX[..length])], or 0. *)
(* src: src/crates/client/src/capture_lane.rs:1739-1742 align_http1_response: suffix_len *)
Fixpoint suffix_len (buffer : bytes) (n : nat) : nat :=
  match n with
  | O => O
  | S n' => if ends_with (take n RESPONSE_PREFIX) buffer then n else suffix_len buffer n'
  end.
(* src: src/crates/client/src/capture_lane.rs:1727-1744 align_http1_response *)
Definition align_http1_response (buffer : bytes) : bytes :=
  if starts_with RESPONSE_PREFIX buffer || bool_decide (buffer = []) then buffer
  else match find_sub RESPONSE_PREFIX buffer with
  | Some offset => drop offset buffer
  | None =>
    let suffix_len := suffix_len buffer (Nat.min (length buffer) (length RESPONSE_PREFIX)) in
    drop (length buffer - suffix_len) buffer
  end.

(** ** HTTP/2 and WebSocket exchanges as HTTP/1 messages *)
(* src: src/crates/client/src/capture_lane.rs:1863-1868 header_value *)
Definition header_value (headers : list (string * string)) (name : string) : option string :=
  snd <$> List.find (fun h => eq_ignore_ascii_case h.1 name) headers.
(** The loop over the headers: pseudo-headers are skipped. *)
(* src: src/crates/client/src/capture_lane.rs:1803-1811 synthesize_h2_request: headers *)
Definition header_lines (headers : list (string * string)) : bytes :=
  concat (map (fun '(name, value) =>
    if starts_with [x3a] (as_bytes name) then []
    else as_bytes name ++ as_bytes ": " ++ as_bytes value ++ CRLF) headers).
Definition content_length_line (body : bytes) : bytes :=
  as_bytes ("Content-Length: " +:+ show_Z (Z.of_nat (length body))) ++ HEAD_END.
(* src: src/crates/client/src/capture_lane.rs:1799-1816 synthesize_h2_request *)
Definition synthesize_h2_request (headers : list (string * string)) (body : bytes) : bytes :=
  let method := unwrap_or "POST" (header_value headers ":method") in
  let path := unwrap_or "/v1/responses" (header_value headers ":path") in
  as_bytes (method +:+ " " +:+ path +:+ " HTTP/1.1") ++ CRLF ++ header_lines headers
  ++ content_length_line body ++ body.
(* src: src/crates/client/src/capture_lane.rs:1818-1834 synthesize_h2_response *)
Definition synthesize_h2_response (headers : list (string * string)) (body : bytes) : bytes :=
  let status := unwrap_or "200" (header_value headers ":status") in
  as_bytes ("HTTP/1.1 " +:+ status +:+ " OK") ++ CRLF ++ header_lines headers
  ++ content_length_line body ++ body.
(* src: src/crates/client/src/capture_lane.rs:1836-1844 synthesize_ws_request *)
Definition synthesize_ws_request (body : bytes) : bytes :=
  as_bytes "POST /v1/responses HTTP/1.1" ++ CRLF
  ++ as_bytes "Content-Type: application/json" ++ CRLF
  ++ content_length_line body ++ body.
(** The body is [ws_event_stream]. *)
(* src: src/crates/client/src/capture_lane.rs:1846-1861 synthesize_ws_response *)
Definition synthesize_ws_response (events : list string) : bytes :=
  let body := ws_event_stream events in
  as_bytes "HTTP/1.1 200 OK" ++ CRLF
  ++ as_bytes "Content-Type: text/event-stream" ++ CRLF
  ++ content_length_line body ++ body.

(** ** Merging *)
(** [Option::or], field by field. *)
(* src: src/crates/client/src/capture_lane.rs:1594-1604 merge_usage *)
Definition merge_usage (current update : option TokenUsage) : TokenUsage :=
  let merged := unwrap_or (mkTokenUsage None None None None None) current in
  match update with
  | None => merged
  | Some u =>
    mkTokenUsage (opt_or (tku_input_tokens u) (tku_input_tokens merged))
      (opt_or (tku_output_tokens u) (tku_output_tokens merged))
      (opt_or (tku_cached_input_tokens u) (tku_cached_input_tokens merged))
      (opt_or (tku_reasoning_tokens u) (tku_reasoning_tokens merged))
      (opt_or (tku_total_tokens u) (tku_total_tokens merged))
  end.
(* src: src/crates/client/src/capture_lane.rs:1606-1613 merge_unique *)
Definition merge_unique (current appended : list string) : list string :=
  fold_left (fun current value =>
    if negb (str_is_empty value) && negb (existsb (fun existing => String.eqb existing value) current)
    then current ++ [value] else current) appended current.

(** ** Projecting an attempt *)
(* src: src/crates/client/src/capture_lane.rs:1415-1425 AttemptProjection *)
Record AttemptProjection : Type := mkAttemptProjection {
  pj_attempt_status : AttemptStatus;
  pj_task_phase : TaskPhase;
  pj_task_outcome : option TaskOutcome;
  pj_completeness : Completeness;
  pj_error : option StructuredError;
  pj_response_id : option string;
  pj_tool_names : list string;
  pj_usage : TokenUsage;
  pj_cause : TransitionCause }.

(* src: src/crates/client/src/capture_lane.rs:1557-1592 structured_error_from_decoded *)
Definition structured_error_from_decoded (e : DecodedError) : StructuredError :=
  match de_http_status e with
  | Some status =>
    StructuredError_Http (mkHttpError status (Some (mkProviderError
      (unwrap_or "http_error" (de_wire_type e)) (de_code e)
      (unwrap_or ("http " +:+ show_Z status) (de_message e)) (de_param e))))
  | None =>
    match de_reason e with
    | Some reason => StructuredError_Incomplete (mkIncompleteResponse reason)
    | None =>
      StructuredError_Provider (mkProviderError
        (unwrap_or "response.failed" (de_wire_type e)) (de_code e)
        (unwrap_or "unknown error" (de_message e)) (de_param e))
    end
  end.

(** The variables of the loop over the events; [phase] and [outcome] are set
    from them at the end. *)
Record Scan : Type := mkScan {
  sn_response_id : option string;
  sn_tool_names : list string;
  sn_usage : TokenUsage;
  sn_error : option StructuredError;
  sn_end_turn : bool;
  sn_status : AttemptStatus;
  sn_phase : TaskPhase;
  sn_cause : TransitionCause;
  sn_saw_terminal : bool }.
Definition no_usage : TokenUsage := mkTokenUsage None None None None None.
Definition Scan_new : Scan :=
  mkScan None [] no_usage None true AttemptStatus_Running TaskPhase_Running
    TransitionCause_AttemptStarted false.
(** The three failures of a response differ in the status only. *)
(* src: src/crates/client/src/capture_lane.rs:1465-1510 map_attempt_projection: failures *)
Definition scan_failure (status : AttemptStatus) (response_id : option string) (e : DecodedError)
    (s : Scan) : Scan :=
  mkScan response_id (sn_tool_names s) (sn_usage s) (Some (structured_error_from_decoded e))
    (sn_end_turn s) status TaskPhase_Retrying TransitionCause_RetryScheduled true.
(* src: src/crates/client/src/capture_lane.rs:1438-1513 map_attempt_projection: loop *)
Definition scan_event (s : Scan) (event : DecodedEvent) : Scan :=
  match event with
  | DecodedEvent_ToolCall _ tool_name =>
    if existsb (fun item => String.eqb item tool_name) (sn_tool_names s) then s
    else mkScan (sn_response_id s) (sn_tool_names s ++ [tool_name]) (sn_usage s) (sn_error s)
           (sn_end_turn s) (sn_status s) (sn_phase s) (sn_cause s) (sn_saw_terminal s)
  | DecodedEvent_AttemptCompleted _ response_id end_turn usage =>
    mkScan response_id (sn_tool_names s)
      (mkTokenUsage (Some (us_input_tokens usage)) (Some (us_output_tokens usage)) None
         (Some (us_reasoning_tokens usage)) (Some (us_total_tokens usage)))
      (sn_error s) end_turn AttemptStatus_Completed TaskPhase_Running
      TransitionCause_AttemptCompleted true
  | DecodedEvent_AttemptFailed _ response_id e => scan_failure AttemptStatus_Failed response_id e s
  | DecodedEvent_AttemptIncomplete _ response_id e =>
    scan_failure AttemptStatus_Incomplete response_id e s
  | DecodedEvent_AttemptCancelled _ response_id e =>
    scan_failure AttemptStatus_Cancelled response_id e s
  | DecodedEvent_HttpError _ e => scan_failure AttemptStatus_Failed (sn_response_id s) e s
  | DecodedEvent_TaskObserved _ | DecodedEvent_AttemptStarted _ _ => s
  end.

Section lane.
Context `{HttparseApi} `{HttpApi} `{!UriApi} `{DecompressApi} `{JsonApi} `{!JsonViewApi}.

(* src: src/crates/client/src/capture_lane.rs:1515-1554 map_attempt_projection: conclusion *)
Definition conclude (request_complete response_complete : bool) (s : Scan) : AttemptProjection :=
  let project status phase outcome completeness error cause :=
    mkAttemptProjection status phase outcome completeness error (sn_response_id s)
      (sn_tool_names s) (sn_usage s) cause in
  let complete := request_complete && (response_complete || sn_saw_terminal s) in
  let completed := bool_decide (sn_status s = AttemptStatus_Completed) in
  if negb (sn_saw_terminal s) || negb complete then
    project AttemptStatus_TransportLost TaskPhase_Retrying None Completeness_Degraded
      (Some (StructuredError_CaptureLost (mkCaptureLoss
         (if negb (sn_saw_terminal s) then "stream closed before response.completed"
          else "request or response body incomplete") None)))
      TransitionCause_CaptureLost
  else if completed && (negb (bool_decide (sn_tool_names s = [])) || negb (sn_end_turn s)) then
    project (sn_status s) TaskPhase_AwaitingTool None Completeness_Complete (sn_error s)
      TransitionCause_ToolCallObserved
  else if completed && sn_end_turn s then
    project (sn_status s) TaskPhase_Terminal (Some TaskOutcome_Completed) Completeness_Complete
      (sn_error s) TransitionCause_ResponseEndTurn
  else project (sn_status s) (sn_phase s) None Completeness_Complete (sn_error s) (sn_cause s).
(* src: src/crates/client/src/capture_lane.rs:1427-1555 map_attempt_projection *)
Definition map_attempt_projection (attempt : DecodedAttempt) : AttemptProjection :=
  conclude (da_request_complete attempt) (da_response_complete attempt)
    (fold_left scan_event (da_decoded_events attempt) Scan_new).

(** ** Framing *)
Definition header_is (headers : HeaderMap) (name value : string) : bool :=
  is_some_and (fun v => eq_ignore_ascii_case v value) (header_map_get headers name ≫= to_str).
(* src: src/crates/client/src/capture_lane.rs:1657-1669 is_websocket_upgrade *)
Definition is_websocket_upgrade (request_headers response_headers : HeaderMap) : bool :=
  header_is request_headers "upgrade" "websocket" && header_is response_headers "upgrade" "websocket".
(* src: src/crates/client/src/capture_lane.rs:1671-1676 is_responses_request *)
Definition is_responses_request (request : HttpMessage) : bool :=
  is_some_and (fun uri =>
    ends_with (as_bytes "/responses") (as_bytes (trim_end_byte "/"%byte (uri_path uri))))
    (hm_uri request).
(* src: src/crates/client/src/capture_lane.rs:1785-1790 is_chunked_headers *)
Definition is_chunked_headers (headers : HeaderMap) : bool :=
  is_some_and (fun value => contains (to_ascii_lowercase value) "chunked")
    (header_map_get headers "transfer-encoding" ≫= to_str).
(* src: src/crates/client/src/capture_lane.rs:1764-1768 try_take_http1_message: content_len *)
Definition content_len (headers : HeaderMap) : Z :=
  unwrap_or 0 ((header_map_get headers "content-length" ≫= to_str)
               ≫= (fun value => from_str_radix 10 u64_max (as_bytes value))).
(** What is taken and what stays in the buffer.  The sum of two [usize]s wraps,
    as in a release build. *)
(* src: src/crates/client/src/capture_lane.rs:1746-1776 try_take_http1_message *)
Definition try_take_http1_message (buffer : bytes) (request : bool)
    : result HttpParseError (option (bytes * bytes)) :=
  match find_header_end buffer with
  | None => Ok None
  | Some header_end =>
    let parse := if request then parse_http_request else parse_http_response in
    message ← parse (take header_end buffer);
    let headers := hm_headers message in
    if is_chunked_headers headers then
      mret ((fun chunk_end => drain_front chunk_end buffer) <$> find_chunked_end buffer header_end)
    else
      let total := wrap64 (Z.of_nat header_end + content_len headers) in
      mret (if Z.of_nat (length buffer) <? total then None
            else Some (drain_front (Z.to_nat total) buffer))
  end.
(* src: src/crates/client/src/capture_lane.rs:1678-1680 try_take_http1_request *)
Definition try_take_http1_request (buffer : bytes) : result HttpParseError (option (bytes * bytes)) :=
  try_take_http1_message buffer true.
(* src: src/crates/client/src/capture_lane.rs:1682-1684 try_take_http1_response *)
Definition try_take_http1_response (buffer : bytes) : result HttpParseError (option (bytes * bytes)) :=
  try_take_http1_message buffer false.

(* src: src/crates/client/src/capture_lane.rs:1707-1725 has_terminal_sse_event *)
Definition has_terminal_sse_event (body : bytes) : bool :=
  match parse_sse_events body with
  | Err _ => false
  | Ok events =>
    existsb (fun event =>
      match from_str (se_data event) with
      | Err _ => false
      | Ok value =>
        is_some_and (fun kind =>
          bool_decide (kind ∈ ["error"; "response.completed"; "response.failed";
                               "response.incomplete"; "response.cancelled"]))
          (get_str value "type")
      end) events
  end.
(* src: src/crates/client/src/capture_lane.rs:1686-1705 try_take_http1_response_or_terminal *)
Definition try_take_http1_response_or_terminal (buffer : bytes)
    : result HttpParseError (option (bytes * bytes)) :=
  taken ← try_take_http1_response buffer;
  match taken with
  | Some taken => mret (Some taken)
  | None =>
    match find_header_end buffer with
    | None => mret None
    | Some _ =>
      response ← parse_http_response buffer;
      let is_stream :=
        is_some_and (fun value => contains (to_ascii_lowercase value) "text/event-stream")
          (header_map_get (hm_headers response) "content-type" ≫= to_str) in
      mret (if is_stream && has_terminal_sse_event (hb_decoded (hm_body response))
            then Some (buffer, []) else None)
    end
  end.

(** ** Contents beside the bodies *)
Definition has_type (value : Value) (kinds : list string) : bool :=
  is_some_and (fun kind => bool_decide (kind ∈ kinds)) (get_str value "type").
(** [(!items.is_empty()).then(|| serde_json::to_vec(&items))]. *)
Definition items_body (items : list Value) : option bytes :=
  match items with [] => None | _ => Some (values_to_vec items) end.
(* src: src/crates/client/src/capture_lane.rs:1908-1926 extract_tool_inputs *)
Definition extract_tool_inputs (attempt : DecodedAttempt) : option bytes :=
  items_body (List.filter
    (fun item => has_type item ["function_call"; "tool_search_call"; "custom_tool_call"])
    (omap (fun event => json_get event "item") (da_response_json_events attempt))).
(* src: src/crates/client/src/capture_lane.rs:1928-1945 extract_tool_outputs *)
Definition extract_tool_outputs (attempt : DecodedAttempt) : option bytes :=
  items_body (List.filter
    (fun item => has_type item ["function_call_output"; "tool_result"; "tool_output"])
    (unwrap_or [] (json_get (da_request_json attempt) "input" ≫= as_array))).
(** The texts found, in order. *)
(* src: src/crates/client/src/capture_lane.rs:1959-1977 collect_text_nodes *)
Fixpoint collect_text_nodes (value : JsonView) : list string :=
  match value with
  | Json_Object entries =>
    concat (map (fun '(key, value) =>
      match value with
      | Json_String s =>
        if bool_decide (key ∈ ["text"; "output_text"; "delta"]) then [s] else []
      | _ => collect_text_nodes value
      end) entries)
  | Json_Array items => concat (map collect_text_nodes items)
  | Json_Null | Json_Bool _ | Json_Number _ | Json_String _ => []
  end.
(* src: src/crates/client/src/capture_lane.rs:1947-1957 extract_model_text *)
Definition extract_model_text (attempt : DecodedAttempt) : option bytes :=
  let lines := concat (map (fun event => collect_text_nodes (view event))
                         (da_response_json_events attempt)) in
  match List.filter (fun line => negb (str_is_empty (trim line))) lines with
  | [] => None
  | text => Some (as_bytes (join LF text))
  end.
(* src: src/crates/client/src/capture_lane.rs:1870-1906 extract_additional_contents: parts *)
Definition additional_parts (attempt : DecodedAttempt) : list (ContentPart * string * bytes) :=
  let part p media_type body := option_list ((fun b => (p, media_type, b)) <$> body) in
  part ContentPart_ToolInput "application/json" (extract_tool_inputs attempt)
  ++ part ContentPart_ToolOutput "application/json" (extract_tool_outputs attempt)
  ++ part ContentPart_ModelText "text/plain" (extract_model_text attempt).
(** [clock i] is the reading of the clock for the [i]-th content. *)
(* src: src/crates/client/src/capture_lane.rs:1870-1906 extract_additional_contents *)
Definition extract_additional_contents `{TimeApi} (clock : nat -> OffsetDateTime) (task : TaskKey)
    (attempt : DecodedAttempt) : list StoredContentInput :=
  imap (fun i '(part, media_type, body) =>
    mkStoredContentInput task part media_type body ∅ (clock i)) (additional_parts attempt).
End lane.

(** ** Where messages are cut *)
Lemma starts_with_app_l p l x : (length p <= length l)%nat -> starts_with p (l ++ x) = starts_with p l.
Proof.
  intros Hl. pose proof (starts_with_take p (l ++ x) (length l)) as E.
  rewrite take_app_length, length_app in E. rewrite E, (proj2 (Nat.leb_le _ _)) by lia.
  by rewrite andb_true_r.
Qed.
Lemma find_sub_app p l x n : find_sub p l = Some n -> find_sub p (l ++ x) = Some n.
Proof.
  revert n. induction l as [|b l IH]; intros n Hn; pose proof (find_sub_bound _ _ _ Hn) as Hb.
  - cbn [find_sub] in Hn. destruct (starts_with p []) eqn:E; [|done]. cbn in Hb.
    destruct p; [|cbn in *; lia]. injection Hn as <-. by destruct x.
  - pose proof (starts_with_app_l p (b :: l) x ltac:(lia)) as E. cbn [find_sub app] in *. rewrite E.
    destruct (starts_with p (b :: l)); [done|].
    apply fmap_Some in Hn as (m & Hm & ->). by rewrite (IH _ Hm).
Qed.
Lemma find_header_end_app b x n : find_header_end b = Some n -> find_header_end (b ++ x) = Some n.
Proof. unfold find_header_end. intros (i & Hi & ->)%fmap_Some. by rewrite (find_sub_app _ _ x _ Hi). Qed.
Lemma find_header_end_bound b n : find_header_end b = Some n -> (4 <= n <= length b)%nat.
Proof.
  unfold find_header_end. intros (i & Hi%find_sub_bound & ->)%fmap_Some. cbn in Hi. lia.
Qed.
Lemma find_chunked_end_app b x h n :
  (h <= length b)%nat -> find_chunked_end b h = Some n ->
  find_chunked_end (b ++ x) h = Some n /\ (n <= length b)%nat.
Proof.
  unfold find_chunked_end. intros Hh (i & Hi & ->)%fmap_Some. rewrite drop_app_le by done.
  rewrite (find_sub_app _ _ x _ Hi). apply find_sub_bound in Hi. rewrite length_drop in Hi.
  cbn in Hi. split; [done | lia].
Qed.
Lemma drain_front_app n b x : (n <= length b)%nat ->
  drain_front n (b ++ x) = ((drain_front n b).1, (drain_front n b).2 ++ x).
Proof. intros Hn. unfold drain_front. cbn. by rewrite take_app_le, drop_app_le. Qed.

(** [windows] of a length other than the needle's never match. *)
Lemma windows_length n l w : w ∈ windows n l -> length w = n.
Proof.
  induction l as [|b l IH]; cbn [windows]; case_match; rewrite ?elem_of_nil; try done.
  intros [->|Hw]%elem_of_cons; [|by apply IH]. apply Nat.ltb_ge in H. rewrite length_take. lia.
Qed.
(** The needle of [looks_like_websocket_handshake] has 18 bytes and its windows
    19: the test never succeeds. *)
Theorem websocket_handshake_never b : looks_like_websocket_handshake b = false.
Proof.
  unfold looks_like_websocket_handshake. apply not_true_iff_false.
  rewrite existsb_exists. intros (w & Hw%list_elem_of_In%windows_length & E%bool_decide_eq_true).
  apply (f_equal length) in E. rewrite !length_map, Hw in E. discriminate E.
Qed.

(** ** Alignment

    [align_http1_response] drops bytes up to the first place where a response
    may begin: where the prefix occurs, or what is left is the beginning of it. *)
Definition may_begin (l : bytes) : bool := starts_with RESPONSE_PREFIX l || starts_with l RESPONSE_PREFIX.
Fixpoint aligned (l : bytes) : bytes :=
  match l with
  | [] => []
  | b :: l' => if may_begin l then l else aligned l'
  end.
Lemma starts_with_nil l : starts_with [] l = true.
Proof. by destruct l. Qed.
Lemma starts_with_refl l : starts_with l l = true.
Proof. apply starts_with_spec. exists []. by rewrite app_nil_r. Qed.
Lemma starts_with_length p l : starts_with p l = true -> (length p <= length l)%nat.
Proof. intros [r ->]%starts_with_spec. rewrite length_app. lia. Qed.
Lemma aligned_found l n : find_sub RESPONSE_PREFIX l = Some n -> aligned l = drop n l.
Proof.
  revert n. induction l as [|b l IH]; intros n Hn; [done|].
  pose proof (find_sub_bound _ _ _ Hn) as Hb. cbn [find_sub aligned] in *. unfold may_begin.
  destruct (starts_with RESPONSE_PREFIX (b :: l)) eqn:E; [by injection Hn as <-|].
  apply fmap_Some in Hn as (m & Hm & ->). cbn [orb].
  destruct (starts_with (b :: l) RESPONSE_PREFIX) eqn:E'; [|by apply IH].
  apply starts_with_length in E'. cbn in E', Hb. lia.
Qed.
Lemma ends_with_spec p l : ends_with p l = true <-> exists r, l = r ++ p.
Proof.
  unfold ends_with. rewrite starts_with_spec. split; intros [r E].
  - exists (rev r). by rewrite <- (rev_involutive l), E, rev_app_distr, rev_involutive.
  - exists (rev r). by rewrite E, rev_app_distr.
Qed.
Lemma ends_with_cons p b l : (length p <= length l)%nat -> ends_with p (b :: l) = ends_with p l.
Proof. intros Hl. unfold ends_with. cbn [rev]. apply starts_with_app_l. by rewrite !length_rev. Qed.
Lemma suffix_len_cons b l n : (n <= length l)%nat -> (n <= 7)%nat ->
  suffix_len (b :: l) n = suffix_len l n.
Proof.
  induction n as [|n IH]; intros H1 H2; [done|]. cbn [suffix_len].
  rewrite ends_with_cons by (rewrite length_take; cbn; lia). by rewrite IH by lia.
Qed.
Lemma suffix_len_le l n : (suffix_len l n <= n)%nat.
Proof. induction n as [|n IH]; cbn [suffix_len]; [done|]. case_match; lia. Qed.
Lemma aligned_none l : find_sub RESPONSE_PREFIX l = None ->
  aligned l = drop (length l - suffix_len l (Nat.min (length l) 7)) l.
Proof.
  induction l as [|b l IH]; [done|]. cbn [find_sub aligned]. unfold may_begin.
  destruct (starts_with RESPONSE_PREFIX (b :: l)) eqn:E; [done|]. cbn [orb].
  intros Hn%fmap_None. specialize (IH Hn).
  destruct (starts_with (b :: l) RESPONSE_PREFIX) eqn:E'.
  - pose proof (starts_with_length _ _ E') as Hl. apply starts_with_spec in E' as [r Er].
    rewrite Nat.min_l by exact Hl. cbn [length suffix_len]. cbn [length] in Hl.
    assert (take (S (length l)) RESPONSE_PREFIX = b :: l) as ->.
    { rewrite Er. change (S (length l)) with (length (b :: l)). apply take_app_length. }
    rewrite (proj2 (ends_with_spec _ _)) by by exists []. by rewrite Nat.sub_diag, drop_0.
  - assert (suffix_len (b :: l) (Nat.min (length (b :: l)) 7) = suffix_len l (Nat.min (length l) 7)) as ->.
    { cbn [length]. destruct (Nat.le_gt_cases 7 (length l)) as [Hl|Hl].
      - rewrite !Nat.min_r by lia. by apply suffix_len_cons.
      - rewrite !Nat.min_l by lia. cbn [suffix_len].
        destruct (ends_with _ (b :: l)) eqn:Ee; [exfalso | apply suffix_len_cons; lia].
        apply ends_with_spec in Ee as [r Er]. pose proof (f_equal length Er) as El.
        rewrite length_app, length_take in El. cbn [length] in El.
        change (length RESPONSE_PREFIX) with 7%nat in El. destruct r; [|cbn in El; lia].
        apply not_true_iff_false in E'. apply E', starts_with_spec.
        exists (drop (S (length l)) RESPONSE_PREFIX). rewrite Er. cbn [app]. by rewrite take_drop. }
    pose proof (suffix_len_le l (Nat.min (length l) 7)). rewrite IH. cbn [length].
    by rewrite Nat.sub_succ_l by lia.
Qed.
Lemma align_aligned l : align_http1_response l = aligned l.
Proof.
  unfold align_http1_response. destruct l as [|b l]; [done|]. rewrite bool_decide_eq_false_2, orb_false_r by done.
  destruct (starts_with RESPONSE_PREFIX (b :: l)) eqn:E.
  { cbn [aligned]. unfold may_begin. by rewrite E. }
  destruct (find_sub RESPONSE_PREFIX (b :: l)) as [n|] eqn:En.
  - symmetry. by apply aligned_found.
  - symmetry. by apply aligned_none.
Qed.
Lemma may_begin_app l x : may_begin (l ++ x) = true -> may_begin l = true.
Proof.
  unfold may_begin. rewrite !orb_true_iff, !starts_with_spec.
  assert (forall r, l ++ x = RESPONSE_PREFIX ++ r ->
    (exists r, l = RESPONSE_PREFIX ++ r) \/ (exists r, RESPONSE_PREFIX = l ++ r)) as Hl.
  { intros r E. apply app_eq_inv in E as [(k & -> & ->)|(k & -> & ->)]; eauto. }
  intros [[r E]|[r E]]; [by apply Hl in E|]. right. exists (x ++ r). by rewrite app_assoc.
Qed.
Lemma aligned_may_begin l : aligned l = [] \/ may_begin (aligned l) = true.
Proof. induction l as [|b l IH]; [by left|]. cbn [aligned]. destruct (may_begin (b :: l)) eqn:E; auto. Qed.
Lemma aligned_fix l : may_begin l = true -> aligned l = l.
Proof. destruct l; [done|]. cbn [aligned]. by intros ->. Qed.
Lemma aligned_app a b : aligned (aligned a ++ b) = aligned (a ++ b).
Proof.
  induction a as [|x a IH]; [done|]. cbn [aligned]. destruct (may_begin (x :: a)) eqn:E; [done|].
  rewrite IH. cbn [app aligned]. destruct (may_begin (x :: a ++ b)) eqn:E'; [|done].
  apply (may_begin_app (x :: a)) in E'. congruence.
Qed.

(** Finding the start of a response does not depend on how the server's
    bytes are cut: aligning what has come so far, and again when more is there,
    leaves what aligning once would; so only bytes in front of the first place
    where a response may begin are ever dropped. *)
Theorem align_chunking a b :
  align_http1_response (align_http1_response a ++ b) = align_http1_response (a ++ b)
  /\ exists dropped, a = dropped ++ align_http1_response a
       /\ (forall pre post, dropped = pre ++ post -> post <> [] -> may_begin (post ++ align_http1_response a) = false).
Proof.
  rewrite !align_aligned. split; [apply aligned_app|].
  induction a as [|x a (dropped & Ed & IH)]; [by exists []; split; [|intros [|] []]|].
  cbn [aligned]. destruct (may_begin (x :: a)) eqn:E.
  - exists []. split; [done|]. by intros [|] [].
  - exists (x :: dropped). split; [cbn; by rewrite <- Ed|]. intros [|y pre] post; cbn.
    + intros <- _. cbn. by rewrite <- Ed.
    + intros [= <- ->] Hp. by eapply IH.
Qed.

Section cutting.
Context `{HttparseApi} `{HttpApi} `{!UriApi} `{DecompressApi} `{JsonApi} `{!JsonViewApi}.

(** A message that can be cut out, or a head that does not parse, stays so when
    more bytes arrive. *)
Lemma take_message_app b x req :
  match try_take_http1_message b req with
  | Ok (Some (m, rest)) =>
    b = m ++ rest /\ try_take_http1_message (b ++ x) req = Ok (Some (m, rest ++ x))
  | Ok None => True
  | Err e => try_take_http1_message (b ++ x) req = Err e
  end.
Proof.
  unfold try_take_http1_message. destruct (find_header_end b) as [h|] eqn:Eh; [|done].
  rewrite (find_header_end_app _ x _ Eh). apply find_header_end_bound in Eh.
  rewrite take_app_le by lia.
  destruct ((if req then parse_http_request else parse_http_response) (take h b)) as [m|e]; [|done].
  cbn. destruct (is_chunked_headers (hm_headers m)).
  - cbn. destruct (find_chunked_end b h) as [n|] eqn:En; [|done].
    destruct (find_chunked_end_app b x h n ltac:(lia) En) as [-> Hn]. cbn.
    split; [by rewrite take_drop|]. by rewrite drain_front_app.
  - destruct (Z.of_nat (length b) <? _) eqn:El; [done|]. cbn [mret result_ret]. rewrite length_app. simpl_bools.
    assert (Z.to_nat (wrap64 (Z.of_nat h + content_len (hm_headers m))) <= length b)%nat as Hle by lia.
    rewrite (proj2 (Z.ltb_ge _ _)) by lia. split; [cbn; by rewrite take_drop|]. by rewrite drain_front_app.
Qed.
End cutting.
