(* ===== verification/LaneFlow.v ===== *)
(** * The capture lane: flows

    [LiveCaptureLane] of [src/crates/client/src/capture_lane.rs]: the flow table,
    the reassembly and decoding of each flow, the projection of exchanges, gaps
    and process exits onto records, and what the lane persists.  [LaneM] threads
    the lane through the calls; a clock reading, a fresh identifier, a title or
    the order of a hash map is an answer of the [World], numbered by a tick.
    The other tasks of the daemon share the store: before each access they may
    run any operations ([w_env]). *)
From Stdlib Require Import ZArith Lia Strings.Byte Strings.String.
From S2P Require Import Tcp H2 WebSocket Discovery.
From S2P Require Import Prelude RustStr Digest Types Codec Json Http1 Sse Responses Sql Model Mapping.
From S2P Require Import Blob Store StoreSteps Ip Attribution Config Lane.
Local Open Scope string_scope.
Local Open Scope list_scope.
Local Open Scope Z_scope.

#[export] Instance TaskKey_countable : Countable TaskKey :=
  inj_countable' (fun k => (key_client_id k, pvi_0 (key_provider k), key_session_id k, key_thread_id k,
                            key_turn_id k))
    (fun '(c, p, s, t, u) => mkTaskKey c (mkProviderId p) s t u)
    ltac:(by intros [? [?] ? ? ?]).

(** ** Flows *)
(* src: src/crates/client/src/capture_lane.rs:467-470 Endpoint *)
Record Endpoint : Type := mkEndpoint {
  ep_ip : IpAddr;
  ep_port : Z }.
#[export] Instance Endpoint_eq_dec : EqDecision Endpoint.
Proof. solve_decision. Defined.
#[export] Instance Endpoint_countable : Countable Endpoint :=
  inj_countable' (fun e => (ep_ip e, ep_port e)) (fun '(i, p) => mkEndpoint i p) ltac:(by intros []).
(* src: src/crates/client/src/capture_lane.rs:473-476 FlowKey *)
Record FlowKey : Type := mkFlowKey {
  fk_low : Endpoint;
  fk_high : Endpoint }.
#[export] Instance FlowKey_eq_dec : EqDecision FlowKey.
Proof. solve_decision. Defined.
#[export] Instance FlowKey_countable : Countable FlowKey :=
  inj_countable' (fun k => (fk_low k, fk_high k)) (fun '(a, b) => mkFlowKey a b) ltac:(by intros []).
(** The derived order. *)
Definition endpoint_le (a b : Endpoint) : bool :=
  if bool_decide (ep_ip a = ep_ip b) then ep_port a <=? ep_port b else ip_le (ep_ip a) (ep_ip b).
(* src: src/crates/client/src/capture_lane.rs:479-485 FlowKey::new *)
Definition FlowKey_new (a b : Endpoint) : FlowKey :=
  if endpoint_le a b then mkFlowKey a b else mkFlowKey b a.
(* src: src/crates/client/src/capture_lane.rs:489-492 Direction *)
Inductive Direction : Type := ClientToServer | ServerToClient.
#[export] Instance Direction_eq_dec : EqDecision Direction.
Proof. solve_decision. Defined.

(* src: src/crates/client/src/capture_lane.rs:509-513 WebSocketRequest *)
Record WebSocketRequest : Type := mkWebSocketRequest {
  wr_body : bytes;
  wr_observed_at : Z;
  wr_response_events : list string }.
(* src: src/crates/client/src/capture_lane.rs:502-506 WebSocketState *)
Record WebSocketState : Type := mkWebSocketState {
  wst_client : WebSocket.WebSocketDecoder;
  wst_server : WebSocket.WebSocketDecoder;
  wst_current_request : option WebSocketRequest }.
Definition WebSocketState_default : WebSocketState :=
  mkWebSocketState WebSocket.WebSocketDecoder_new WebSocket.WebSocketDecoder_new None.
(* src: src/crates/client/src/capture_lane.rs:516-524 H2StreamState *)
Record H2StreamState : Type := mkH2StreamState {
  hs_request_headers : list (string * string);
  hs_request_body : bytes;
  hs_request_end : bool;
  hs_response_headers : list (string * string);
  hs_response_body : bytes;
  hs_response_end : bool;
  hs_request_at_ms : Z }.
Definition H2StreamState_default : H2StreamState := mkH2StreamState [] [] false [] [] false 0.
(* src: src/crates/client/src/capture_lane.rs:544-547 RequestEnvelope *)
Record RequestEnvelope : Type := mkRequestEnvelope {
  rq_raw : bytes;
  rq_observed_at_ms : Z }.

(* src: src/crates/client/src/capture_lane.rs:1615-1625 summary_record_task *)
Definition summary_record_task `{TimeApi} (record : SummaryRecord) : option TaskKey :=
  match record with
  | SummaryRecord_Task summary => Some (tsm_task summary)
  | SummaryRecord_Attempt attempt => Some (ats_task attempt)
  | SummaryRecord_TaskTransition transition => Some (trn_task transition)
  | SummaryRecord_Session session => Some (sns_task session)
  | SummaryRecord_CaptureGap gap => cgs_task gap
  | SummaryRecord_HttpExchange exchange => Some (hxs_task exchange)
  | SummaryRecord_Process _ | SummaryRecord_Heartbeat _ => None
  end.

Section flow.
Context `{UuidApi} `{DigestApi} `{CborApi} `{ZstdApi} `{TimeApi}
  `{HttparseApi} `{HttpApi} `{!UriApi} `{DecompressApi} `{JsonApi} `{!JsonViewApi} `{H2.HpackApi}.

(* src: src/crates/client/src/capture_lane.rs:494-499 ProtocolState *)
Inductive ProtocolState : Type :=
| Protocol_Unknown
| Protocol_Http1
| Protocol_Http2 (decoder : H2.H2Decoder)
| Protocol_WebSocket (websocket : WebSocketState).
(* src: src/crates/client/src/capture_lane.rs:526-541 FlowState *)
Record FlowState : Type := mkFlowState {
  fs_flow_id : Uuid;
  fs_process_instance_id : option Uuid;
  fs_client : Endpoint;
  fs_server : Endpoint;
  fs_protocol : ProtocolState;
  fs_client_assembler : Tcp.TcpAssembler;
  fs_server_assembler : Tcp.TcpAssembler;
  fs_client_buffer : bytes;
  fs_server_buffer : bytes;
  fs_client_closed : bool;
  fs_server_closed : bool;
  fs_request_queue : list RequestEnvelope;
  fs_h2_streams : gmap Z H2StreamState;
  fs_current_task : option TaskKey }.
(** [FlowState { ... }] of a flow seen for the first time. *)
(* src: src/crates/client/src/capture_lane.rs:665-680 handle_segment: new flow *)
Definition FlowState_new (flow_id : Uuid) (process_instance_id : option Uuid) (client server : Endpoint)
    : FlowState :=
  mkFlowState flow_id process_instance_id client server Protocol_Unknown Tcp.TcpAssembler_new
    Tcp.TcpAssembler_new [] [] false false [] ∅ None.

Definition set_process (p : option Uuid) (f : FlowState) : FlowState :=
  mkFlowState (fs_flow_id f) p (fs_client f) (fs_server f) (fs_protocol f) (fs_client_assembler f)
    (fs_server_assembler f) (fs_client_buffer f) (fs_server_buffer f) (fs_client_closed f)
    (fs_server_closed f) (fs_request_queue f) (fs_h2_streams f) (fs_current_task f).
Definition set_endpoints (client server : Endpoint) (f : FlowState) : FlowState :=
  mkFlowState (fs_flow_id f) (fs_process_instance_id f) client server (fs_protocol f)
    (fs_client_assembler f) (fs_server_assembler f) (fs_client_buffer f) (fs_server_buffer f)
    (fs_client_closed f) (fs_server_closed f) (fs_request_queue f) (fs_h2_streams f) (fs_current_task f).
Definition set_protocol (p : ProtocolState) (f : FlowState) : FlowState :=
  mkFlowState (fs_flow_id f) (fs_process_instance_id f) (fs_client f) (fs_server f) p
    (fs_client_assembler f) (fs_server_assembler f) (fs_client_buffer f) (fs_server_buffer f)
    (fs_client_closed f) (fs_server_closed f) (fs_request_queue f) (fs_h2_streams f) (fs_current_task f).
Definition assembler (d : Direction) (f : FlowState) : Tcp.TcpAssembler :=
  match d with ClientToServer => fs_client_assembler f | ServerToClient => fs_server_assembler f end.
Definition set_assemblers (client server : Tcp.TcpAssembler) (f : FlowState) : FlowState :=
  mkFlowState (fs_flow_id f) (fs_process_instance_id f) (fs_client f) (fs_server f) (fs_protocol f)
    client server (fs_client_buffer f) (fs_server_buffer f) (fs_client_closed f) (fs_server_closed f)
    (fs_request_queue f) (fs_h2_streams f) (fs_current_task f).
Definition set_assembler (d : Direction) (a : Tcp.TcpAssembler) (f : FlowState) : FlowState :=
  match d with
  | ClientToServer => set_assemblers a (fs_server_assembler f) f
  | ServerToClient => set_assemblers (fs_client_assembler f) a f
  end.
Definition set_buffers (client server : bytes) (f : FlowState) : FlowState :=
  mkFlowState (fs_flow_id f) (fs_process_instance_id f) (fs_client f) (fs_server f) (fs_protocol f)
    (fs_client_assembler f) (fs_server_assembler f) client server (fs_client_closed f)
    (fs_server_closed f) (fs_request_queue f) (fs_h2_streams f) (fs_current_task f).
Definition extend_buffer (d : Direction) (b : bytes) (f : FlowState) : FlowState :=
  match d with
  | ClientToServer => set_buffers (fs_client_buffer f ++ b) (fs_server_buffer f) f
  | ServerToClient => set_buffers (fs_client_buffer f) (fs_server_buffer f ++ b) f
  end.
Definition set_closed (d : Direction) (f : FlowState) : FlowState :=
  let client := match d with ClientToServer => true | ServerToClient => fs_client_closed f end in
  let server := match d with ClientToServer => fs_server_closed f | ServerToClient => true end in
  mkFlowState (fs_flow_id f) (fs_process_instance_id f) (fs_client f) (fs_server f) (fs_protocol f)
    (fs_client_assembler f) (fs_server_assembler f) (fs_client_buffer f) (fs_server_buffer f)
    client server (fs_request_queue f) (fs_h2_streams f) (fs_current_task f).
Definition set_queue (q : list RequestEnvelope) (f : FlowState) : FlowState :=
  mkFlowState (fs_flow_id f) (fs_process_instance_id f) (fs_client f) (fs_server f) (fs_protocol f)
    (fs_client_assembler f) (fs_server_assembler f) (fs_client_buffer f) (fs_server_buffer f)
    (fs_client_closed f) (fs_server_closed f) q (fs_h2_streams f) (fs_current_task f).
Definition set_streams (m : gmap Z H2StreamState) (f : FlowState) : FlowState :=
  mkFlowState (fs_flow_id f) (fs_process_instance_id f) (fs_client f) (fs_server f) (fs_protocol f)
    (fs_client_assembler f) (fs_server_assembler f) (fs_client_buffer f) (fs_server_buffer f)
    (fs_client_closed f) (fs_server_closed f) (fs_request_queue f) m (fs_current_task f).
Definition set_current_task (t : option TaskKey) (f : FlowState) : FlowState :=
  mkFlowState (fs_flow_id f) (fs_process_instance_id f) (fs_client f) (fs_server f) (fs_protocol f)
    (fs_client_assembler f) (fs_server_assembler f) (fs_client_buffer f) (fs_server_buffer f)
    (fs_client_closed f) (fs_server_closed f) (fs_request_queue f) (fs_h2_streams f) t.

(* src: src/crates/client/src/capture_lane.rs:37-40 CaptureBatch *)
Record CaptureBatch : Type := mkCaptureBatch {
  cb_records : list SummaryRecord;
  cb_contents : list StoredContentInput }.
(* src: src/crates/client/src/capture_lane.rs:44-46 CaptureBatch::is_empty *)
Definition is_empty (b : CaptureBatch) : bool :=
  bool_decide (length (cb_records b) = 0)%nat && bool_decide (length (cb_contents b) = 0)%nat.
Definition no_batch : CaptureBatch := mkCaptureBatch [] [].
(** [batch.records.extend(..); batch.contents.extend(..)]. *)
Definition extend_batch (b more : CaptureBatch) : CaptureBatch :=
  mkCaptureBatch (cb_records b ++ cb_records more) (cb_contents b ++ cb_contents more).
(** [(!batch.is_empty()).then_some(batch)]. *)
Definition non_empty (b : CaptureBatch) : option CaptureBatch := if is_empty b then None else Some b.

(* src: src/crates/client/src/capture_lane.rs:550-557 DecodedExchange *)
Record DecodedExchange : Type := mkDecodedExchange {
  dx_attempt : DecodedAttempt;
  dx_request_raw : bytes;
  dx_response_raw : bytes;
  dx_request_headers : gmap string string;
  dx_response_headers : gmap string string;
  dx_response_status : option Z }.
(* src: src/crates/client/src/capture_lane.rs:559-565 LiveCaptureLane *)
Record LiveCaptureLane : Type := mkLane {
  ln_config : ClientConfig;
  ln_store : ClientStore;
  ln_flows : gmap FlowKey FlowState;
  ln_process_tasks : gmap Uuid (gset TaskKey) }.
(** The index of titles is shared: what it answers is part of the [World]. *)
(* src: src/crates/client/src/capture_lane.rs:576-588 LiveCaptureLane::with_conversation_titles *)
Definition LiveCaptureLane_new (config : ClientConfig) (store : ClientStore) : LiveCaptureLane :=
  mkLane config store ∅ ∅.
Definition set_store (s : ClientStore) (l : LiveCaptureLane) : LiveCaptureLane :=
  mkLane (ln_config l) s (ln_flows l) (ln_process_tasks l).
Definition set_flows (m : gmap FlowKey FlowState) (l : LiveCaptureLane) : LiveCaptureLane :=
  mkLane (ln_config l) (ln_store l) m (ln_process_tasks l).
Definition set_tasks (m : gmap Uuid (gset TaskKey)) (l : LiveCaptureLane) : LiveCaptureLane :=
  mkLane (ln_config l) (ln_store l) (ln_flows l) m.

(** ** The monad *)
(** What [?] passes on; a panic; a loop that does not end. *)
Inductive LaneError : Type :=
| LaneError_Address
| LaneError_Http (e : HttpParseError)
| LaneError_Capture (e : CaptureError)
| LaneError_H2 (e : H2.H2DecodeError)
| LaneError_WebSocket (e : WebSocket.WebSocketError)
| LaneError_Store (e : StoreError)
| LaneError_Panic
| LaneError_Hang.
Record World : Type := mkWorld {
  w_now : nat -> OffsetDateTime;
  w_uuid : nat -> Uuid;
  w_title : nat -> string -> option string;
  (** the order in which a [HashMap] or a [HashSet] iterates *)
  w_streams : nat -> list Z -> list Z;
  w_tasks : nat -> list TaskKey -> list TaskKey;
  (** what the other tasks did to the store since the last access *)
  w_env : nat -> list StoreOp;
  w_supply : nat -> Supply }.
Definition LaneM (A : Type) : Type :=
  World -> nat * LiveCaptureLane -> result LaneError A * (nat * LiveCaptureLane).
#[export] Instance lane_ret : MRet LaneM := fun A a w s => (Ok a, s).
#[export] Instance lane_bind : MBind LaneM := fun A B f m w s =>
  match m w s with
  | (Ok a, s') => f a w s'
  | (Err e, s') => (Err e, s')
  end.
Definition lift {A} (r : result LaneError A) : LaneM A := fun _ s => (r, s).
(** One answer of the world. *)
Definition ask {A} (f : World -> nat -> A) : LaneM A := fun w '(t, l) => (Ok (f w t), (S t, l)).
Definition now : LaneM OffsetDateTime := ask w_now.
Definition now_v7 : LaneM Uuid := ask w_uuid.
Definition get {A} (f : LiveCaptureLane -> A) : LaneM A := fun _ '(t, l) => (Ok (f l), (t, l)).
Definition modify (f : LiveCaptureLane -> LiveCaptureLane) : LaneM unit := fun _ '(t, l) => (Ok tt, (t, f l)).
(** An access to the store, after what the other tasks did. *)
Definition access {A} (m : World -> nat -> ClientStore -> result StoreError A * ClientStore) : LaneM A :=
  fun w '(t, l) =>
  let '(r, s) := m w t (fold_left (fun s op => run_op op s) (w_env w t) (ln_store l)) in
  (map_err LaneError_Store r, (S t, set_store s l)).
Definition on_db {A} (m : Transaction Row StoreError A) : LaneM A := access (fun _ _ => run_db m).
(** [.expect(..)] on a time. *)
Definition expect {A} (o : option A) : LaneM A := lift (ok_or LaneError_Panic o).

(** ** Small operations *)
(* src: src/crates/client/src/capture_lane.rs:1627-1632 parse_endpoint *)
Definition parse_endpoint (ip : string) (port : Z) : result LaneError Endpoint :=
  ip ← ok_or LaneError_Address (ip_parse ip);
  mret (mkEndpoint ip port).
(** [format!("{}:{}", endpoint.ip, endpoint.port)]. *)
Definition show_endpoint (e : Endpoint) : string :=
  ip_to_string (ep_ip e) +:+ ":" +:+ show_Z (ep_port e).
(** [ts] and [from_ms] are those of the store. *)
(* src: src/crates/client/src/capture_lane.rs:1999-2001 now_ms *)
Definition now_ms : LaneM Z := n ← now; mret (ts n).
(* src: src/crates/client/src/capture_lane.rs:1097-1104 LiveCaptureLane::associate_task *)
Definition associate_task (process_instance_id : option Uuid) (task : TaskKey) : LaneM unit :=
  match process_instance_id with
  | Some p =>
    modify (fun l => set_tasks (<[p := {[task]} ∪ default ∅ (ln_process_tasks l !! p)]> (ln_process_tasks l)) l)
  | None => mret tt
  end.
Definition title (session_id : string) : LaneM (option string) := ask (fun w t => w_title w t session_id).

(** ** Projections *)
(** The clock for the contents beside the bodies; there are three at most. *)
Definition content_clock : LaneM (nat -> OffsetDateTime) := fun w '(t, l) =>
  (Ok (fun i => w_now w (t + i)%nat), ((t + 3)%nat, l)).
Definition media_type (headers : gmap string string) (default : string) : string :=
  unwrap_or default (headers !! "content-type").
(* src: src/crates/client/src/capture_lane.rs:1114-1120 project_exchange: task *)
Definition exchange_task (client_id : string) (a : DecodedAttempt) : TaskKey :=
  mkTaskKey client_id (mkProviderId (ti_provider (da_identity a))) (ti_session_id (da_identity a))
    (ti_thread_id (da_identity a)) (ti_turn_id (da_identity a)).
(** [next] numbers of the task, [u64] and [u32]. *)
Definition next_sequence (current : option TaskCursor) : Z :=
  match current with Some cursor => wrap64 (tc_sequence cursor + 1) | None => 1 end.
Definition next_ordinal (current : option TaskCursor) : Z :=
  match current with Some cursor => wrap32 (tc_attempt_count cursor + 1) | None => 1 end.

(** The transition that goes with a summary. *)
Definition transition_of (cause : TransitionCause) (s : TaskSummary) : TaskTransition :=
  mkTaskTransition (tsm_last_event_id s) (tsm_task s) (tsm_sequence s) (tsm_updated_at s) (tsm_phase s)
    (tsm_outcome s) cause (tsm_completeness s) (tsm_last_error s).

(** The summary of the task after an exchange. *)
(* src: src/crates/client/src/capture_lane.rs:1153-1185 project_exchange: task_summary *)
Definition exchange_summary (task : TaskKey) (current : option TaskCursor) (attempt : DecodedAttempt)
    (p : AttemptProjection) (title : option string) (started_at : OffsetDateTime) (event_id : Uuid)
    (updated_at terminal_at : OffsetDateTime) : TaskSummary :=
  {| tsm_task := task;
     tsm_conversation_title := opt_or title (current ≫= tc_conversation_title);
     tsm_phase := pj_task_phase p;
     tsm_outcome := pj_task_outcome p;
     tsm_sequence := next_sequence current;
     tsm_last_event_id := event_id;
     tsm_started_at := started_at;
     tsm_updated_at := updated_at;
     tsm_terminal_at := if bool_decide (pj_task_phase p = TaskPhase_Terminal) then Some terminal_at else None;
     tsm_attempt_count := next_ordinal current;
     tsm_model := opt_or (da_model attempt) (current ≫= tc_model);
     tsm_tool_names := Lane.merge_unique (unwrap_or [] (tc_tool_names <$> current)) (pj_tool_names p);
     tsm_response_ids := Lane.merge_unique (unwrap_or [] (tc_response_ids <$> current))
                           (option_list (pj_response_id p));
     tsm_usage := merge_usage (tc_usage <$> current) (Some (pj_usage p));
     tsm_completeness := pj_completeness p;
     tsm_last_error := pj_error p |}.
(* src: src/crates/client/src/capture_lane.rs:1197-1210 project_exchange: attempt *)
Definition exchange_attempt (task : TaskKey) (ordinal : Z) (attempt : DecodedAttempt)
    (p : AttemptProjection) (started_at finished_at : OffsetDateTime) : AttemptSummary :=
  {| ats_attempt_id := da_attempt_id attempt;
     ats_task := task;
     ats_ordinal := ordinal;
     ats_status := pj_attempt_status p;
     ats_started_at := started_at;
     ats_finished_at := Some finished_at;
     ats_response_id := pj_response_id p;
     ats_model := da_model attempt;
     ats_tool_names := pj_tool_names p;
     ats_usage := pj_usage p;
     ats_completeness := pj_completeness p;
     ats_error := pj_error p |}.
(** Everything after the reads of the store: [current] is the cursor found. *)
(* src: src/crates/client/src/capture_lane.rs:1131-1272 project_exchange: batch *)
Definition exchange_batch (task : TaskKey) (current : option TaskCursor) (exchange : DecodedExchange)
    : LaneM CaptureBatch :=
  let a := dx_attempt exchange in
  let p := map_attempt_projection a in
  request_at ← expect (Mapping.from_ms (da_request_at_ms a));
  let started_at := unwrap_or request_at (tc_started_at <$> current) in
  name ← title (key_session_id task);
  event_id ← now_v7;
  updated_at ← now;
  terminal_at ← now;
  let summary := exchange_summary task current a p name started_at event_id updated_at terminal_at in
  finished_at ← now;
  let attempt := exchange_attempt task (next_ordinal current) a p request_at finished_at in
  request_msg ← lift (map_err LaneError_Http (parse_http_request (dx_request_raw exchange)));
  response_msg ← lift (map_err LaneError_Http (parse_http_response (dx_response_raw exchange)));
  let request_body := hb_decoded (hm_body request_msg) in
  let response_body := hb_decoded (hm_body response_msg) in
  request_created_at ← now;
  response_created_at ← now;
  clock ← content_clock;
  exchange_id ← now_v7;
  observed_at ← now;
  mret (mkCaptureBatch
    [SummaryRecord_Session (mkSessionSummary task (cm_parent_turn_id (da_codex a))
       (cm_root_turn_id (da_codex a)) started_at);
     SummaryRecord_Attempt attempt;
     SummaryRecord_HttpExchange
       {| hxs_exchange_id := exchange_id;
          hxs_task := task;
          hxs_attempt_id := da_attempt_id a;
          hxs_observed_at := observed_at;
          hxs_method := "POST";
          hxs_path := "/v1/responses";
          hxs_status := dx_response_status exchange;
          hxs_request_bytes := Z.of_nat (length request_body);
          hxs_response_bytes := Z.of_nat (length response_body);
          hxs_request_sha256 := Some (sha256_hex request_body);
          hxs_response_sha256 := Some (sha256_hex response_body);
          hxs_completeness := pj_completeness p |};
     SummaryRecord_Task summary;
     SummaryRecord_TaskTransition (transition_of (pj_cause p) summary)]
    ([mkStoredContentInput task ContentPart_Request
        (media_type (dx_request_headers exchange) "application/json") request_body
        (dx_request_headers exchange) request_created_at;
      mkStoredContentInput task ContentPart_Response
        (media_type (dx_response_headers exchange) "text/event-stream") response_body
        (dx_response_headers exchange) response_created_at]
     ++ extract_additional_contents clock task a)).
(* src: src/crates/client/src/capture_lane.rs:1106-1273 LiveCaptureLane::project_exchange *)
Definition project_exchange (exchange : DecodedExchange) : LaneM CaptureBatch :=
  let a := dx_attempt exchange in
  if negb (String.eqb (cm_request_kind (da_codex a)) "turn") then mret no_batch
  else
    config ← get ln_config;
    let task := exchange_task (cf_client_id config) a in
    known ← match pj_response_id (map_attempt_projection a) with
            | Some response_id =>
              access (fun _ _ s => (Ok (has_attempt_response task response_id (cs_db s)), s))
            | None => mret false
            end;
    if known : bool then mret no_batch
    else
      current ← on_db (load_task_cursor task);
      exchange_batch task current exchange.

(** The summary of a task that is moved on by a gap or an exit. *)
Definition cursor_summary (task : TaskKey) (cursor : TaskCursor) (title : option string) (phase : TaskPhase)
    (outcome : option TaskOutcome) (event_id : Uuid) (updated_at : OffsetDateTime)
    (terminal_at : option OffsetDateTime) (completeness : Completeness) (error : StructuredError)
    : TaskSummary :=
  {| tsm_task := task;
     tsm_conversation_title := opt_or title (tc_conversation_title cursor);
     tsm_phase := phase;
     tsm_outcome := outcome;
     tsm_sequence := wrap64 (tc_sequence cursor + 1);
     tsm_last_event_id := event_id;
     tsm_started_at := tc_started_at cursor;
     tsm_updated_at := updated_at;
     tsm_terminal_at := terminal_at;
     tsm_attempt_count := tc_attempt_count cursor;
     tsm_model := tc_model cursor;
     tsm_tool_names := tc_tool_names cursor;
     tsm_response_ids := tc_response_ids cursor;
     tsm_usage := tc_usage cursor;
     tsm_completeness := completeness;
     tsm_last_error := Some error |}.
(* src: src/crates/client/src/capture_lane.rs:1275-1339 LiveCaptureLane::project_gap *)
Definition project_gap (flow_id : Uuid) (task : option TaskKey) (observed_at : OffsetDateTime)
    (reason : string) (lost_bytes : option Z) : LaneM CaptureBatch :=
  gap_id ← now_v7;
  config ← get ln_config;
  let gap := SummaryRecord_CaptureGap (mkCaptureGapSummary gap_id (cf_client_instance_id config) task
                                         observed_at reason lost_bytes (Some flow_id)) in
  match task with
  | None => mret (mkCaptureBatch [gap] [])
  | Some task =>
    cursor ← on_db (load_task_cursor task);
    match cursor with
    | None => mret (mkCaptureBatch [gap] [])
    | Some cursor =>
      if bool_decide (tc_phase cursor = TaskPhase_Terminal) then mret (mkCaptureBatch [gap] [])
      else
        name ← title (key_session_id task);
        event_id ← now_v7;
        let summary := cursor_summary task cursor name (tc_phase cursor) (tc_outcome cursor) event_id
          observed_at None Completeness_Degraded
          (StructuredError_CaptureLost (mkCaptureLoss reason lost_bytes)) in
        mret (mkCaptureBatch
          [gap; SummaryRecord_Task summary;
           SummaryRecord_TaskTransition (transition_of TransitionCause_CaptureLost summary)] [])
    end
  end.

(** How the exit of a process ends a task. *)
(* src: src/crates/client/src/capture_lane.rs:1355-1371 project_process_exit: outcome *)
Definition exit_outcome (process : ProcessSummary) : TaskOutcome * StructuredError :=
  if is_some (prs_signal process) || is_some_and (fun code => negb (code =? 0)) (prs_exit_code process)
  then (TaskOutcome_Terminated,
        StructuredError_ProcessTerminated
          (mkProcessTermination (prs_exit_code process) (prs_signal process)))
  else (TaskOutcome_Lost,
        StructuredError_CaptureLost
          (mkCaptureLoss "process exited without validated terminal turn event" None)).
(* src: src/crates/client/src/capture_lane.rs:1348-1406 project_process_exit: loop *)
Fixpoint exit_tasks (process : ProcessSummary) (observed_at : OffsetDateTime) (tasks : list TaskKey)
    : LaneM (list SummaryRecord) :=
  match tasks with
  | [] => mret []
  | task :: tasks' =>
    cursor ← on_db (load_task_cursor task);
    records ←
      match cursor with
      | None => mret []
      | Some cursor =>
        if bool_decide (tc_phase cursor = TaskPhase_Terminal) then mret []
        else
          let '(outcome, error) := exit_outcome process in
          name ← title (key_session_id task);
          event_id ← now_v7;
          let summary := cursor_summary task cursor name TaskPhase_Terminal (Some outcome) event_id
            observed_at (Some observed_at) (tc_completeness cursor) error in
          mret [SummaryRecord_Task summary;
                SummaryRecord_TaskTransition (transition_of TransitionCause_ProcessExited summary)]
      end;
    more ← exit_tasks process observed_at tasks';
    mret (records ++ more)
  end.
(* src: src/crates/client/src/capture_lane.rs:1341-1411 LiveCaptureLane::project_process_exit *)
Definition project_process_exit (process : ProcessSummary) (tasks : list TaskKey) : LaneM CaptureBatch :=
  observed_at ← match prs_exited_at process with Some t => mret t | None => now end;
  records ← exit_tasks process observed_at tasks;
  mret (mkCaptureBatch (SummaryRecord_Process process :: records) []).

(** ** Consuming bytes *)
(** [project_exchange] and what every caller does with the batch: the first task
    of the records becomes the flow's. *)
(* src: src/crates/client/src/capture_lane.rs:909-915 consume_http1: projected *)
Definition project_into (exchange : DecodedExchange) (state : FlowState) (batch : CaptureBatch)
    : LaneM (FlowState * CaptureBatch) :=
  projected ← project_exchange exchange;
  match find_map summary_record_task (cb_records projected) with
  | Some task =>
    _ ← associate_task (fs_process_instance_id state) task;
    mret (set_current_task (Some task) state, extend_batch batch projected)
  | None => mret (state, extend_batch batch projected)
  end.
Definition http {A} (r : result HttpParseError A) : LaneM A := lift (map_err LaneError_Http r).
(** The attempt gets a fresh identifier, [decode_http_exchange] makes it. *)
(* src: src/crates/client/src/capture_lane.rs:901-908 consume_http1: exchange *)
Definition decode_exchange (request_raw response_raw : bytes) (request_msg response_msg : HttpMessage)
    (observed_at_ms : Z) : LaneM DecodedExchange :=
  attempt_id ← now_v7;
  attempt ← lift (map_err LaneError_Capture
                    (decode_http_exchange attempt_id request_raw response_raw observed_at_ms));
  mret (mkDecodedExchange attempt request_raw response_raw (headers_to_map (hm_headers request_msg))
          (headers_to_map (hm_headers response_msg)) (as_u16 <$> hm_status response_msg)).

(** [while let Some(request_raw) = try_take_http1_request(..)?].  Every message
    but an empty one shortens the buffer, and an empty one is taken again and
    again, so the length of the buffer is enough fuel. *)
(* src: src/crates/client/src/capture_lane.rs:874-879 consume_http1: requests *)
Fixpoint take_requests (fuel : nat) (observed_at_ms : Z) (buffer : bytes) (queue : list RequestEnvelope)
    : result LaneError (bytes * list RequestEnvelope) :=
  match fuel with
  | O => Err LaneError_Hang
  | S fuel' =>
    taken ← map_err LaneError_Http (try_take_http1_request buffer);
    match taken with
    | Some (request_raw, rest) =>
      take_requests fuel' observed_at_ms rest (queue ++ [mkRequestEnvelope request_raw observed_at_ms])
    | None => mret (buffer, queue)
    end
  end.
(** [status == SWITCHING_PROTOCOLS]. *)
Definition is_switching (response : HttpMessage) : bool :=
  is_some_and (fun status => as_u16 status =? 101) (hm_status response).
(** One iteration of the loop over the queue, once a response is there; the
    upgrade leaves the loop running. *)
(* src: src/crates/client/src/capture_lane.rs:888-915 consume_http1: pairing *)
Definition pair_response (request : RequestEnvelope) (response_raw : bytes) (state : FlowState)
    (batch : CaptureBatch) : LaneM (FlowState * CaptureBatch) :=
  request_msg ← http (parse_http_request (rq_raw request));
  response_msg ← http (parse_http_response response_raw);
  if is_switching response_msg && is_websocket_upgrade (hm_headers request_msg) (hm_headers response_msg)
  then mret (set_protocol (Protocol_WebSocket WebSocketState_default) state, batch)
  else if negb (is_responses_request request_msg) then mret (state, batch)
  else
    exchange ← decode_exchange (rq_raw request) response_raw request_msg response_msg
                 (rq_observed_at_ms request);
    project_into exchange state batch.
(* src: src/crates/client/src/capture_lane.rs:881-916 consume_http1: responses *)
Fixpoint take_responses (queue : list RequestEnvelope) (state : FlowState) (batch : CaptureBatch)
    : LaneM (FlowState * CaptureBatch) :=
  match queue with
  | [] => mret (set_queue [] state, batch)
  | request :: queue' =>
    let server_buffer := align_http1_response (fs_server_buffer state) in
    taken ← http (try_take_http1_response_or_terminal server_buffer);
    match taken with
    | None =>
      mret (set_queue queue (set_buffers (fs_client_buffer state) server_buffer state), batch)
    | Some (response_raw, rest) =>
      '(state, batch) ← pair_response request response_raw
                          (set_buffers (fs_client_buffer state) rest state) batch;
      take_responses queue' state batch
    end
  end.
(* src: src/crates/client/src/capture_lane.rs:868-918 LiveCaptureLane::consume_http1 *)
Definition consume_http1 (state : FlowState) (at_ : OffsetDateTime) (batch : CaptureBatch)
    : LaneM (FlowState * CaptureBatch) :=
  '(client_buffer, queue) ←
    lift (take_requests (S (length (fs_client_buffer state))) (ts at_) (fs_client_buffer state)
            (fs_request_queue state));
  take_responses queue (set_buffers client_buffer (fs_server_buffer state) state) batch.

(** [if stream.request_at_ms == 0 { stream.request_at_ms = now_ms(); }]. *)
Definition observe_request (s : H2StreamState) : LaneM Z :=
  if hs_request_at_ms s =? 0 then now_ms else mret (hs_request_at_ms s).
(** A HEADERS block assigns the end of the stream, a DATA frame only sets it. *)
(* src: src/crates/client/src/capture_lane.rs:933-971 consume_h2: event *)
Definition stream_event (d : Direction) (event : H2.H2Event) (streams : gmap Z H2StreamState)
    : LaneM (gmap Z H2StreamState) :=
  let entry id := unwrap_or H2StreamState_default (streams !! id) in
  match event with
  | H2.H2Event_Headers block =>
    let s := entry (H2.hk_stream_id block) in
    s' ← match d with
         | ClientToServer =>
           at_ms ← observe_request s;
           mret (mkH2StreamState (hs_request_headers s ++ H2.hk_headers block) (hs_request_body s)
                   (H2.hk_end_stream block) (hs_response_headers s) (hs_response_body s)
                   (hs_response_end s) at_ms)
         | ServerToClient =>
           mret (mkH2StreamState (hs_request_headers s) (hs_request_body s) (hs_request_end s)
                   (hs_response_headers s ++ H2.hk_headers block) (hs_response_body s)
                   (H2.hk_end_stream block) (hs_request_at_ms s))
         end;
    mret (<[H2.hk_stream_id block := s']> streams)
  | H2.H2Event_Data stream_id payload end_stream =>
    let s := entry stream_id in
    s' ← match d with
         | ClientToServer =>
           at_ms ← observe_request s;
           mret (mkH2StreamState (hs_request_headers s) (hs_request_body s ++ payload)
                   (hs_request_end s || end_stream) (hs_response_headers s) (hs_response_body s)
                   (hs_response_end s) at_ms)
         | ServerToClient =>
           mret (mkH2StreamState (hs_request_headers s) (hs_request_body s) (hs_request_end s)
                   (hs_response_headers s) (hs_response_body s ++ payload)
                   (hs_response_end s || end_stream) (hs_request_at_ms s))
         end;
    mret (<[stream_id := s']> streams)
  | H2.H2Event_Priority _ | H2.H2Event_RstStream _ _ | H2.H2Event_GoAway _ _ _ => mret streams
  end.
Fixpoint stream_events (d : Direction) (events : list H2.H2Event) (streams : gmap Z H2StreamState)
    : LaneM (gmap Z H2StreamState) :=
  match events with
  | [] => mret streams
  | event :: events' =>
    streams ← stream_event d event streams;
    stream_events d events' streams
  end.
(* src: src/crates/client/src/capture_lane.rs:974-984 consume_h2: complete *)
Definition stream_complete (s : H2StreamState) : bool :=
  hs_request_end s && hs_response_end s
  && negb (bool_decide (hs_request_headers s = [])) && negb (bool_decide (hs_response_headers s = [])).
Definition complete_streams (streams : gmap Z H2StreamState) : list Z :=
  map fst (List.filter (fun p => stream_complete p.2) (map_to_list streams)).
(* src: src/crates/client/src/capture_lane.rs:986-1013 consume_h2: streams *)
Fixpoint take_streams (ids : list Z) (state : FlowState) (batch : CaptureBatch)
    : LaneM (FlowState * CaptureBatch) :=
  match ids with
  | [] => mret (state, batch)
  | stream_id :: ids' =>
    match fs_h2_streams state !! stream_id with
    | None => take_streams ids' state batch
    | Some stream =>
      let state := set_streams (delete stream_id (fs_h2_streams state)) state in
      let request_raw := synthesize_h2_request (hs_request_headers stream) (hs_request_body stream) in
      let response_raw := synthesize_h2_response (hs_response_headers stream) (hs_response_body stream) in
      request_msg ← http (parse_http_request request_raw);
      response_msg ← http (parse_http_response response_raw);
      '(state, batch) ←
        (if negb (is_responses_request request_msg) then mret (state, batch)
         else
           exchange ← decode_exchange request_raw response_raw request_msg response_msg
                        (hs_request_at_ms stream);
           project_into exchange state batch);
      take_streams ids' state batch
    end
  end.
(** The result carries the decoder. *)
(* src: src/crates/client/src/capture_lane.rs:920-1015 LiveCaptureLane::consume_h2 *)
Definition consume_h2 (state : FlowState) (decoder : H2.H2Decoder) (d : Direction) (b : bytes)
    (batch : CaptureBatch) : LaneM (H2.H2Decoder * FlowState * CaptureBatch) :=
  let '(decoder, r) := H2.push decoder b (bool_decide (d = ClientToServer)) in
  events ← lift (map_err LaneError_H2 r);
  streams ← stream_events d events (fs_h2_streams state);
  ids ← ask (fun w t => w_streams w t (complete_streams streams));
  '(state, batch) ← take_streams ids (set_streams streams state) batch;
  mret (decoder, state, batch).

(* src: src/crates/client/src/capture_lane.rs:1048-1061 consume_websocket: terminal *)
Definition ws_terminal (text : string) : bool :=
  match from_str text with
  | Err _ => false
  | Ok value =>
    is_some_and (fun kind =>
      bool_decide (kind ∈ ["response.completed"; "response.failed"; "response.incomplete";
                           "response.cancelled"])) (get_str value "type")
  end.
(** A terminal event: the request and the events so far are an exchange. *)
(* src: src/crates/client/src/capture_lane.rs:1063-1088 consume_websocket: exchange *)
Definition ws_exchange (request : WebSocketRequest) (state : FlowState) (batch : CaptureBatch)
    : LaneM (FlowState * CaptureBatch) :=
  let request_raw := synthesize_ws_request (wr_body request) in
  let response_raw := synthesize_ws_response (wr_response_events request) in
  request_msg ← http (parse_http_request request_raw);
  response_msg ← http (parse_http_response response_raw);
  exchange ← decode_exchange request_raw response_raw request_msg response_msg (wr_observed_at request);
  project_into exchange state batch.
(** One frame, given and returning [current_request]. *)
(* src: src/crates/client/src/capture_lane.rs:1029-1093 consume_websocket: frame *)
Definition ws_frame (d : Direction) (frame : WebSocket.WebSocketFrame) (current : option WebSocketRequest)
    (state : FlowState) (batch : CaptureBatch)
    : LaneM (option WebSocketRequest * FlowState * CaptureBatch) :=
  if negb (WebSocket.wf_opcode frame =? 1) then mret (current, state, batch)
  else match d, current with
  | ClientToServer, _ =>
    observed_at ← now_ms;
    mret (Some (mkWebSocketRequest (WebSocket.wf_payload frame) observed_at []), state, batch)
  | ServerToClient, None => mret (None, state, batch)
  | ServerToClient, Some request =>
    let text := from_utf8_lossy (WebSocket.wf_payload frame) in
    if negb (starts_with [x7b] (as_bytes (trim_start text))) then mret (current, state, batch)
    else
      let request := mkWebSocketRequest (wr_body request) (wr_observed_at request)
                       (wr_response_events request ++ [text]) in
      if ws_terminal text then
        '(state, batch) ← ws_exchange request state batch;
        mret (None, state, batch)
      else mret (Some request, state, batch)
  end.
Fixpoint ws_frames (d : Direction) (frames : list WebSocket.WebSocketFrame)
    (current : option WebSocketRequest) (state : FlowState) (batch : CaptureBatch)
    : LaneM (option WebSocketRequest * FlowState * CaptureBatch) :=
  match frames with
  | [] => mret (current, state, batch)
  | frame :: frames' =>
    '(current, state, batch) ← ws_frame d frame current state batch;
    ws_frames d frames' current state batch
  end.
Definition ws_failure (e : WebSocket.WsFailure) : LaneError :=
  match e with
  | WebSocket.WsError e => LaneError_WebSocket e
  | WebSocket.WsPanic => LaneError_Panic
  end.
(* src: src/crates/client/src/capture_lane.rs:1017-1095 LiveCaptureLane::consume_websocket *)
Definition consume_websocket (state : FlowState) (ws : WebSocketState) (d : Direction) (b : bytes)
    (batch : CaptureBatch) : LaneM (WebSocketState * FlowState * CaptureBatch) :=
  let '(client, server, r) :=
    match d with
    | ClientToServer => let '(c, r) := WebSocket.push (wst_client ws) b in (c, wst_server ws, r)
    | ServerToClient => let '(s, r) := WebSocket.push (wst_server ws) b in (wst_client ws, s, r)
    end in
  frames ← lift (map_err ws_failure r);
  '(current, state, batch) ← ws_frames d frames (wst_current_request ws) state batch;
  mret (mkWebSocketState client server current, state, batch).

(** The transitions of [Unknown] that [continue] the loop of [process_bytes]. *)
(* src: src/crates/client/src/capture_lane.rs:826-840 process_bytes: detection *)
Definition detect (state : FlowState) : FlowState :=
  match fs_protocol state with
  | Protocol_Unknown =>
    if starts_with (as_bytes "PRI * HTTP/2.0") (fs_client_buffer state)
    then set_protocol (Protocol_Http2 H2.H2Decoder_new) state
    else if looks_like_websocket_handshake (fs_client_buffer state)
            || looks_like_http1 (fs_client_buffer state)
            || looks_like_http1_response (fs_server_buffer state)
    then set_protocol Protocol_Http1 state
    else state
  | _ => state
  end.
(** A decoder is taken out of the flow while it is used; an error then drops the
    flow with it. *)
(* src: src/crates/client/src/capture_lane.rs:811-866 LiveCaptureLane::process_bytes *)
Definition process_bytes (state : FlowState) (d : Direction) (b : bytes) (at_ : OffsetDateTime)
    (batch : CaptureBatch) : LaneM (FlowState * CaptureBatch) :=
  let state := detect (extend_buffer d b state) in
  match fs_protocol state with
  | Protocol_Unknown => mret (state, batch)
  | Protocol_Http1 => consume_http1 state at_ batch
  | Protocol_Http2 decoder =>
    '(decoder, state, batch) ← consume_h2 (set_protocol Protocol_Unknown state) decoder d b batch;
    mret (set_protocol (Protocol_Http2 decoder) state, batch)
  | Protocol_WebSocket ws =>
    '(ws, state, batch) ← consume_websocket (set_protocol Protocol_Unknown state) ws d b batch;
    mret (set_protocol (Protocol_WebSocket ws) state, batch)
  end.

(** ** Segments *)
(* src: src/crates/client/src/capture_lane.rs:695-718 handle_segment: direction *)
Definition segment_direction (attributed : option ProcessFlowDirection) (source destination : Endpoint)
    (segment : TcpSegment) (state : FlowState) : Direction * FlowState :=
  match attributed with
  | Some LocalToRemote => (ClientToServer, set_endpoints source destination state)
  | Some RemoteToLocal => (ServerToClient, set_endpoints destination source state)
  | None =>
    if bool_decide (source = fs_client state) && bool_decide (destination = fs_server state)
    then (ClientToServer, state)
    else if bool_decide (source = fs_server state) && bool_decide (destination = fs_client state)
    then (ServerToClient, state)
    else if looks_like_request (sg_payload segment) || sg_syn segment
    then (ClientToServer, set_endpoints source destination state)
    else (ServerToClient, state)
  end.
(** Reassembly and what becomes of its result. *)
(* src: src/crates/client/src/capture_lane.rs:720-755 handle_segment: reassembly *)
Definition reassemble (segment : TcpSegment) (d : Direction) (at_ : OffsetDateTime) (state : FlowState)
    : LaneM (FlowState * CaptureBatch) :=
  '(a, r) ← expect (Tcp.push_segment (assembler d state)
                      (wrap32 (sg_sequence segment + (if sg_syn segment then 1 else 0)))
                      (sg_payload segment) (sg_fin segment) (sg_rst segment));
  let state := set_assembler d a state in
  match r with
  | Tcp.Advanced chunk => process_bytes state d (Tcp.ac_bytes chunk) at_ no_batch
  | Tcp.GapDetected | Tcp.ConflictDetected =>
    gap ← project_gap (fs_flow_id state) (fs_current_task state) at_ "tcp_reassembly_gap"
            (Some (Z.of_nat (length (sg_payload segment))));
    mret (state, extend_batch no_batch gap)
  | Tcp.Pending => mret (state, no_batch)
  end.
Definition finish_reason (d : Direction) : string :=
  match d with
  | ClientToServer => "client_stream_finish_with_gap"
  | ServerToClient => "server_stream_finish_with_gap"
  end.
(** The two branches differ in the side only. *)
(* src: src/crates/client/src/capture_lane.rs:757-800 handle_segment: closing *)
Definition close_side (segment : TcpSegment) (d : Direction) (at_ : OffsetDateTime) (state : FlowState)
    (batch : CaptureBatch) : LaneM (FlowState * CaptureBatch) :=
  if negb (sg_fin segment || sg_rst segment) then mret (state, batch)
  else
    let state := set_closed d state in
    let '(a, r) := Tcp.finish (assembler d state) in
    let state := set_assembler d a state in
    match r with
    | Tcp.GapDetected | Tcp.ConflictDetected =>
      gap ← project_gap (fs_flow_id state) (fs_current_task state) at_ (finish_reason d) None;
      mret (state, extend_batch batch gap)
    | Tcp.Advanced _ | Tcp.Pending => mret (state, batch)
    end.
(** The flow is out of the table while it is worked on: an error drops it. *)
(* src: src/crates/client/src/capture_lane.rs:651-809 LiveCaptureLane::handle_segment *)
Definition handle_segment (segment : TcpSegment) (process_instance_id : option Uuid)
    (attributed : option ProcessFlowDirection) : LaneM (option CaptureBatch) :=
  source ← lift (parse_endpoint (sg_source_ip segment) (sg_source_port segment));
  destination ← lift (parse_endpoint (sg_destination_ip segment) (sg_destination_port segment));
  let key := FlowKey_new source destination in
  at_ ← now;
  let '(initial_client, initial_server) :=
    match attributed with
    | Some RemoteToLocal => (destination, source)
    | Some LocalToRemote | None => (source, destination)
    end in
  known ← get (fun l => ln_flows l !! key);
  _ ← modify (fun l => set_flows (delete key (ln_flows l)) l);
  state ← match known with
          | Some state => mret state
          | None =>
            flow_id ← now_v7;
            mret (FlowState_new flow_id process_instance_id initial_client initial_server)
          end;
  let state := set_process (opt_or (fs_process_instance_id state) process_instance_id) state in
  _ ← access (fun _ _ s => run_db
        (note_flow_open (cs_client s) (fs_flow_id state) (fs_process_instance_id state)
           (show_endpoint (fs_client state)) (show_endpoint (fs_server state)) "tcp" at_) s);
  let '(d, state) := segment_direction attributed source destination segment state in
  '(state, batch) ← reassemble segment d at_ state;
  '(state, batch) ← close_side segment d at_ state batch;
  _ ← (if fs_client_closed state && fs_server_closed state
       then on_db (note_flow_closed (fs_flow_id state) at_)
       else modify (fun l => set_flows (<[key := state]> (ln_flows l)) l));
  mret (non_empty batch).

(** ** Inputs *)
(** The tasks of a process: those associated with it and those of its flows. *)
(* src: src/crates/client/src/capture_lane.rs:631-641 handle_input: tasks *)
Definition tasks_of (process_instance_id : Uuid) (l : LiveCaptureLane) : gset TaskKey :=
  default ∅ (ln_process_tasks l !! process_instance_id)
  ∪ list_to_set (omap (fun flow =>
      if bool_decide (fs_process_instance_id flow = Some process_instance_id)
      then fs_current_task flow else None) (map snd (map_to_list (ln_flows l)))).
(* src: src/crates/client/src/capture_lane.rs:603-649 LiveCaptureLane::handle_input *)
Definition handle_input (input : Discovery.CaptureInput) : LaneM (option CaptureBatch) :=
  match input with
  | Discovery.CaptureInput_TcpSegment segment => handle_segment segment None None
  | Discovery.CaptureInput_AttributedTcpSegment segment process_instance_id direction =>
    handle_segment segment (Some process_instance_id) (Some direction)
  | Discovery.CaptureInput_CaptureGap flow_id task observed_at reason lost_bytes =>
    batch ← project_gap flow_id task observed_at reason lost_bytes;
    mret (non_empty batch)
  | Discovery.CaptureInput_ProcessObserved process =>
    mret (Some (mkCaptureBatch [SummaryRecord_Process process] []))
  | Discovery.CaptureInput_ProcessExit process =>
    let id := prs_process_instance_id process in
    tasks ← get (tasks_of id);
    _ ← modify (fun l => set_tasks (delete id (ln_process_tasks l)) l);
    order ← ask (fun w t => w_tasks w t (elements tasks));
    batch ← project_process_exit process order;
    mret (non_empty batch)
  end.
(* src: src/crates/client/src/capture_lane.rs:590-601 LiveCaptureLane::ingest_input *)
Definition ingest_input (input : Discovery.CaptureInput) : LaneM (option PersistOutcome) :=
  batch ← handle_input input;
  match batch with
  | None => mret None
  | Some batch =>
    if is_empty batch then mret None
    else
      outcome ← access (fun w t => persist_ingress (w_supply w t) (cb_records batch) (cb_contents batch));
      mret (Some outcome)
  end.
(** The loop over what the sources send; the first error ends it, and with it
    the daemon. *)
(* src: src/crates/client/src/service.rs:546-554 run_capture_ingest_loop *)
Fixpoint run_capture_ingest_loop (inputs : list Discovery.CaptureInput) : LaneM unit :=
  match inputs with
  | [] => mret tt
  | input :: inputs' =>
    _ ← ingest_input input;
    run_capture_ingest_loop inputs'
  end.
End flow.
