(* ===== verification/LaneSteps.v ===== *)
(** * The capture lane as a state machine

    What every call of the lane preserves.  [lane_rel R m] says that [m], however
    it ends, takes a lane to an [R]-related one; the store only makes steps of
    [StoreSteps], and a segment only touches its own flow. *)
From Stdlib Require Import ZArith Lia Strings.Byte Strings.String.
From S2P Require Import Tcp H2 WebSocket Discovery.
From S2P Require Import Prelude RustStr Digest Types Codec Json Http1 Sse Responses Sql Model Mapping.
From S2P Require Import Blob Store StoreSteps Ip Attribution Config Lane LaneFlow.
Local Open Scope string_scope.
Local Open Scope list_scope.
Local Open Scope Z_scope.

Section steps.
Context `{UuidApi} `{DigestApi} `{CborApi} `{ZstdApi} `{TimeApi}
  `{HttparseApi} `{HttpApi} `{!UriApi} `{DecompressApi} `{JsonApi} `{!JsonViewApi} `{H2.HpackApi}.

(** ** Relations a call stays inside *)
Section rel.
Context (R : LiveCaptureLane -> LiveCaptureLane -> Prop) `{!PreOrder R}.
Definition lane_rel {A} (m : LaneM A) : Prop :=
  forall w t l, R l (m w (t, l)).2.2.

Lemma lane_rel_ret {A} (a : A) : lane_rel (mret a).
Proof. by intros w t l. Qed.
Lemma lane_rel_lift {A} (r : result LaneError A) : lane_rel (lift r).
Proof. by intros w t l. Qed.
Lemma lane_rel_ask {A} (f : World -> nat -> A) : lane_rel (ask f).
Proof. by intros w t l. Qed.
Lemma lane_rel_get {A} (f : LiveCaptureLane -> A) : lane_rel (get f).
Proof. by intros w t l. Qed.
Lemma lane_rel_clock : lane_rel content_clock.
Proof. by intros w t l. Qed.
Lemma lane_rel_modify f : (forall l, R l (f l)) -> lane_rel (modify f).
Proof. intros Hf w t l. apply Hf. Qed.
Lemma lane_rel_bind {A B} (m : LaneM A) (f : A -> LaneM B) :
  lane_rel m -> (forall a, lane_rel (f a)) -> lane_rel (m ≫= f).
Proof.
  intros Hm Hf w t l. unfold mbind, lane_bind. specialize (Hm w t l).
  destruct (m w (t, l)) as [[a|e] [t1 l1]]; cbn in *; [|done]. etrans; [done | apply Hf].
Qed.
Lemma lane_rel_access {A} (m : World -> nat -> ClientStore -> result StoreError A * ClientStore) :
  (forall w t l, R l (set_store (m w t (fold_left (fun s op => run_op op s) (w_env w t) (ln_store l))).2 l)) ->
  lane_rel (access m).
Proof.
  intros Hm w t l. unfold access. specialize (Hm w t l). by destruct (m w t _) as [r s].
Qed.
End rel.

Lemma lane_rel_mono (R R' : LiveCaptureLane -> LiveCaptureLane -> Prop) {A} (m : LaneM A) :
  (forall l l', R l l' -> R' l l') -> lane_rel R m -> lane_rel R' m.
Proof. intros Hr Hm w t l. apply Hr, Hm. Qed.

(** ** What only accesses the store, reads the world and notes tasks

    [quiet_mono R]: the primitives of the projections and the decoders are inside
    [R].  Everything they are built of is, then. *)
Class Quiet (R : LiveCaptureLane -> LiveCaptureLane -> Prop) : Prop := {
  #[global] quiet_preorder :: PreOrder R;
  quiet_read {A} (m : Transaction Row StoreError A) :
    (forall db a db', m db = Ok (a, db') -> db' = db) -> lane_rel R (on_db m);
  quiet_known task id :
    lane_rel R (access (fun _ _ s => (Ok (has_attempt_response task id (cs_db s)), s)));
  quiet_associate p task : lane_rel R (associate_task p task) }.

Lemma load_task_cursor_reads task db a db' : load_task_cursor task db = Ok (a, db') -> db' = db.
Proof.
  unfold load_task_cursor. rewrite tx_bind_Ok. intros (row & db1 & [= _ <-] & E).
  destruct row as [row|]; [|by injection E as _ <-].
  apply tx_bind_Ok in E as (s & db2 & [_ ->]%some_or_Ok & E).
  by apply tx_bind_Ok in E as (u & db3 & [_ ->]%some_or_Ok & [_ ->]%tx_ret_Ok).
Qed.
End steps.


Create HintDb lane discriminated.
#[export] Hint Resolve lane_rel_ret lane_rel_lift lane_rel_ask lane_rel_get lane_rel_clock quiet_known
  quiet_associate : lane.
#[export] Hint Extern 1 (lane_rel _ (on_db (load_task_cursor _))) =>
  apply quiet_read, load_task_cursor_reads : lane.
#[export] Hint Unfold now now_v7 title now_ms observe_request http expect : lane.
(** Walks over the structure of a call. *)
Ltac lane_walk :=
  repeat first
    [ progress intros
    | solve [eauto 5 with lane typeclass_instances]
    | apply lane_rel_bind; [typeclasses eauto | |]
    | case_match_goal ].

Section quiet.
Context `{UuidApi} `{DigestApi} `{CborApi} `{ZstdApi} `{TimeApi}
  `{HttparseApi} `{HttpApi} `{!UriApi} `{DecompressApi} `{JsonApi} `{!JsonViewApi} `{H2.HpackApi}.
Context (R : LiveCaptureLane -> LiveCaptureLane -> Prop) `{!Quiet R}.

Lemma quiet_exchange_batch task current x : lane_rel R (exchange_batch task current x).
Proof. unfold exchange_batch, expect, title, now, now_v7. lane_walk. Qed.
Hint Resolve quiet_exchange_batch : lane.
Lemma quiet_project_exchange x : lane_rel R (project_exchange x).
Proof. unfold project_exchange. lane_walk. Qed.
Lemma quiet_project_gap flow task t reason lost : lane_rel R (project_gap flow task t reason lost).
Proof. unfold project_gap, title, now_v7. lane_walk. Qed.
Lemma quiet_exit_tasks process t tasks : lane_rel R (exit_tasks process t tasks).
Proof.
  induction tasks as [|task tasks IH]; cbn [exit_tasks]; [lane_walk|].
  unfold title, now_v7. lane_walk.
Qed.
Hint Resolve quiet_project_exchange quiet_project_gap quiet_exit_tasks : lane.
Lemma quiet_process_exit process tasks : lane_rel R (project_process_exit process tasks).
Proof. unfold project_process_exit, now. lane_walk. Qed.
Lemma quiet_project_into x state batch : lane_rel R (project_into x state batch).
Proof. unfold project_into. lane_walk. Qed.
Hint Resolve quiet_project_into : lane.
Lemma quiet_decode a b c d t : lane_rel R (decode_exchange a b c d t).
Proof. unfold decode_exchange, now_v7. lane_walk. Qed.
Hint Resolve quiet_decode : lane.
Lemma quiet_pair request raw state batch : lane_rel R (pair_response request raw state batch).
Proof. unfold pair_response, http. lane_walk. Qed.
Hint Resolve quiet_pair : lane.
Lemma quiet_take_responses queue state batch : lane_rel R (take_responses queue state batch).
Proof.
  revert state batch. induction queue as [|request queue IH]; intros state batch; cbn [take_responses];
    unfold http; lane_walk; apply IH.
Qed.
Hint Resolve quiet_take_responses : lane.
Lemma quiet_http1 state t batch : lane_rel R (consume_http1 state t batch).
Proof. unfold consume_http1. lane_walk. Qed.
Lemma quiet_stream_event d e streams : lane_rel R (stream_event d e streams).
Proof. unfold stream_event, observe_request, now_ms, now. lane_walk. Qed.
Hint Resolve quiet_stream_event : lane.
Lemma quiet_stream_events d es streams : lane_rel R (stream_events d es streams).
Proof. revert streams. induction es as [|e es IH]; intros streams; cbn [stream_events]; lane_walk. Qed.
Hint Resolve quiet_stream_events : lane.
Lemma quiet_take_streams ids state batch : lane_rel R (take_streams ids state batch).
Proof.
  revert state batch. induction ids as [|id ids IH]; intros state batch; cbn [take_streams];
    unfold http; lane_walk.
Qed.
Hint Resolve quiet_take_streams : lane.
Lemma quiet_h2 state decoder d b batch : lane_rel R (consume_h2 state decoder d b batch).
Proof. unfold consume_h2. lane_walk. Qed.
Lemma quiet_ws_exchange request state batch : lane_rel R (ws_exchange request state batch).
Proof. unfold ws_exchange, http. lane_walk. Qed.
Hint Resolve quiet_ws_exchange : lane.
Lemma quiet_ws_frame d f c state batch : lane_rel R (ws_frame d f c state batch).
Proof. unfold ws_frame, now_ms, now. lane_walk. Qed.
Hint Resolve quiet_ws_frame : lane.
Lemma quiet_ws_frames d fs c state batch : lane_rel R (ws_frames d fs c state batch).
Proof.
  revert c state batch. induction fs as [|f fs IH]; intros c state batch; cbn [ws_frames]; lane_walk.
Qed.
Hint Resolve quiet_ws_frames : lane.
Lemma quiet_websocket state ws d b batch : lane_rel R (consume_websocket state ws d b batch).
Proof. unfold consume_websocket. lane_walk. Qed.
Hint Resolve quiet_http1 quiet_h2 quiet_websocket : lane.
Lemma quiet_process_bytes state d b t batch : lane_rel R (process_bytes state d b t batch).
Proof. unfold process_bytes. lane_walk. Qed.
Hint Resolve quiet_process_bytes : lane.
Lemma quiet_reassemble segment d t state : lane_rel R (reassemble segment d t state).
Proof. unfold reassemble, expect. lane_walk. Qed.
Lemma quiet_close_side segment d t state batch : lane_rel R (close_side segment d t state batch).
Proof. unfold close_side. lane_walk. Qed.
End quiet.

(** ** The store only makes its own steps *)
Section store_steps.
Context `{UuidApi} `{DigestApi} `{CborApi} `{ZstdApi} `{TimeApi}
  `{HttparseApi} `{HttpApi} `{!UriApi} `{DecompressApi} `{JsonApi} `{!JsonViewApi} `{H2.HpackApi}.

Definition store_runs (l l' : LiveCaptureLane) : Prop := rtc store_step (ln_store l) (ln_store l').
#[export] Instance store_runs_preorder : PreOrder store_runs.
Proof. split; [intros l; apply rtc_refl | intros l1 l2 l3; unfold store_runs; by etrans]. Qed.

Lemma env_runs ops s : rtc store_step s (fold_left (fun s op => run_op op s) ops s).
Proof.
  revert s. induction ops as [|op ops IH]; intros s; cbn [fold_left]; [done|].
  eapply rtc_l; [by constructor | apply IH].
Qed.
Lemma access_runs {A} (m : World -> nat -> ClientStore -> result StoreError A * ClientStore) :
  (forall w t s, rtc store_step s (m w t s).2) -> lane_rel store_runs (access m).
Proof.
  intros Hm. apply lane_rel_access. intros w t l. unfold store_runs. cbn.
  etrans; [apply env_runs | apply Hm].
Qed.
Lemma op_runs {A} (m : World -> nat -> ClientStore -> result StoreError A * ClientStore) op :
  (forall w t s, (m w t s).2 = run_op (op w t s) s) -> lane_rel store_runs (access m).
Proof. intros Hm. apply access_runs. intros w t s. rewrite Hm. apply rtc_once. constructor. Qed.
Lemma set_db_same s : set_db s (cs_db s) = s.
Proof. by destruct s. Qed.
Lemma run_read {A} (m : Transaction Row StoreError A) s :
  (forall db a db', m db = Ok (a, db') -> db' = db) -> (run_db m s).2 = s.
Proof.
  intros Hm. rewrite run_db_snd. unfold run_tx. destruct (m (cs_db s)) as [[a db]|e] eqn:E; cbn.
  - by rewrite (Hm _ _ _ E), set_db_same.
  - apply set_db_same.
Qed.
#[export] Instance store_runs_quiet : Quiet store_runs.
Proof.
  split.
  - apply _.
  - intros A m Hm. apply access_runs. intros w t s. by rewrite run_read.
  - intros task id. by apply access_runs.
  - intros [p|] task; [|apply lane_rel_ret, _]. apply lane_rel_modify. intros l. apply rtc_refl.
Qed.

Lemma runs_flow_open f p a b tr t :
  lane_rel store_runs (access (fun _ _ s => run_db (note_flow_open (cs_client s) f p a b tr t) s)).
Proof. apply (op_runs _ (fun _ _ _ => OpFlowOpen f p a b tr t)). done. Qed.
Lemma runs_flow_closed f t : lane_rel store_runs (on_db (note_flow_closed f t)).
Proof. apply (op_runs _ (fun _ _ _ => OpFlowClosed f t)). done. Qed.
Lemma runs_persist records contents :
  lane_rel store_runs (access (fun w t => persist_ingress (w_supply w t) records contents)).
Proof. apply (op_runs _ (fun w t _ => OpPersist (w_supply w t) records contents)). done. Qed.
Lemma runs_modify f : (forall l, ln_store (f l) = ln_store l) -> lane_rel store_runs (modify f).
Proof. intros Hf. apply lane_rel_modify. intros l. unfold store_runs. by rewrite Hf. Qed.
#[local] Hint Resolve runs_flow_open runs_flow_closed runs_persist quiet_reassemble quiet_close_side
  quiet_project_gap quiet_process_exit : lane.
#[local] Hint Extern 1 (lane_rel store_runs (modify _)) => by apply runs_modify : lane.

Lemma runs_handle_segment segment p a : lane_rel store_runs (handle_segment segment p a).
Proof. unfold handle_segment, now, now_v7. lane_walk. Qed.
#[local] Hint Resolve runs_handle_segment : lane.
Lemma runs_ingest input : lane_rel store_runs (ingest_input input).
Proof. unfold ingest_input, handle_input. lane_walk. Qed.
Lemma runs_loop inputs : lane_rel store_runs (run_capture_ingest_loop inputs).
Proof.
  induction inputs as [|input inputs IH]; cbn [run_capture_ingest_loop]; [apply lane_rel_ret, _|].
  apply lane_rel_bind; [apply _ | apply runs_ingest | done].
Qed.

(** The lane as a client of the store.  Whatever segments, gaps and process
    events come in, however the other tasks of the daemon use the store in
    between, and wherever the loop stops, what the lane does to the store is a
    run of the store's own steps: so the invariant of the store and the budget
    of the outbox hold, every task the store knew is still there, and no task
    went back to an older state. *)
Theorem lane_refines_store `{!DigestLaws} `{!BlobLaws} inputs w t l :
  store_reachable (ln_store l) ->
  let s' := ln_store (run_capture_ingest_loop inputs w (t, l)).2.2 in
  rtc store_step (ln_store l) s' /\ store_reachable s' /\ store_inv s'
  /\ tasks_advance (cs_db (ln_store l)) (cs_db s').
Proof.
  intros (root & client & Hr) s'.
  assert (rtc store_step (ln_store l) s') as Hs by apply runs_loop.
  assert (store_reachable s') as Hs' by (exists root, client; by etrans).
  split; [done|]. split; [done|]. split; [by apply reachable_store_inv | by apply run_advance].
Qed.
End store_steps.

(** ** Keys *)
Lemma lex_le_total a b : lex_le a b = true \/ lex_le b a = true.
Proof.
  revert b. induction a as [|x a IH]; intros [|y b]; cbn; [by left..|by right|].
  simpl_bools. destruct (Z.lt_trichotomy x y) as [?|[->|?]]; [lia| |lia].
  destruct (IH b); [left | right]; right; by split.
Qed.
Lemma lex_le_antisym a b : lex_le a b = true -> lex_le b a = true -> a = b.
Proof.
  revert b. induction a as [|x a IH]; intros [|y b]; cbn; try done. simpl_bools.
  intros [?|[-> H1]] [?|[? H2]]; try lia. f_equal. by apply IH.
Qed.
Lemma ip_le_total a b : ip_le a b = true \/ ip_le b a = true.
Proof. destruct a, b; cbn; auto using lex_le_total. Qed.
Lemma ip_le_antisym a b : ip_le a b = true -> ip_le b a = true -> a = b.
Proof. destruct a, b; cbn; intros; try done; f_equal; by apply lex_le_antisym. Qed.
Lemma endpoint_le_total a b : endpoint_le a b = true \/ endpoint_le b a = true.
Proof.
  unfold endpoint_le. repeat case_bool_decide; try congruence; [simpl_bools; lia | apply ip_le_total].
Qed.
Lemma endpoint_le_antisym a b : endpoint_le a b = true -> endpoint_le b a = true -> a = b.
Proof.
  unfold endpoint_le. destruct a as [i p], b as [j q]; cbn. repeat case_bool_decide; try congruence.
  - simpl_bools. intros. f_equal; [done | lia].
  - intros. by destruct (ip_le_antisym i j).
Qed.
(** Both directions of a connection have one key. *)
Lemma FlowKey_new_comm a b : FlowKey_new a b = FlowKey_new b a.
Proof.
  unfold FlowKey_new. destruct (endpoint_le a b) eqn:E1, (endpoint_le b a) eqn:E2; try done.
  - by rewrite (endpoint_le_antisym a b).
  - destruct (endpoint_le_total a b); congruence.
Qed.
Lemma FlowKey_new_inj a b c d :
  FlowKey_new a b = FlowKey_new c d -> (a = c /\ b = d) \/ (a = d /\ b = c).
Proof. unfold FlowKey_new. repeat case_match; intros [= -> ->]; auto. Qed.
