(* ===== verification/LaneHttp.v ===== *)
(** * The capture lane: HTTP/1 requests and projections

    How [take_requests] cuts the client's bytes into requests, whatever the
    segments, and what an exchange may claim about its task. *)
From Stdlib Require Import ZArith Lia Strings.Byte Strings.String.
From S2P Require Import Prelude RustStr Types Codec Json Http1 Sse Responses Model Mapping Blob Lane LaneFlow.
Local Open Scope string_scope.
Local Open Scope list_scope.
Local Open Scope Z_scope.

Section requests.
Context `{CborApi} `{ZstdApi} `{HttparseApi} `{HttpApi} `{!UriApi} `{DecompressApi} `{JsonApi} `{!JsonViewApi}.

(** The loop with the fuel [consume_http1] gives it. *)
Definition take_all (at_ms : Z) (b : bytes) (q : list RequestEnvelope)
    : result LaneError (bytes * list RequestEnvelope) := take_requests (S (length b)) at_ms b q.
#[local] Arguments take_all : simpl never.
Lemma take_split b m rest : try_take_http1_request b = Ok (Some (m, rest)) -> b = m ++ rest.
Proof. intros E. pose proof (take_message_app b [] true) as Hm. unfold try_take_http1_request in E. rewrite E in Hm. by destruct Hm. Qed.
(** An empty message is taken for ever. *)
Lemma take_stuck n at_ms b q :
  try_take_http1_request b = Ok (Some ([], b)) -> take_requests n at_ms b q = Err LaneError_Hang.
Proof. intros E. revert q. induction n as [|n IH]; intros q; cbn [take_requests]; [done|]. rewrite E. apply IH. Qed.
Lemma take_all_stuck at_ms b q :
  try_take_http1_request b = Ok (Some ([], b)) -> take_all at_ms b q = Err LaneError_Hang.
Proof. apply take_stuck. Qed.
(** The length of the buffer is enough fuel. *)
Lemma take_fuel n m at_ms b q : (length b < n)%nat -> (length b < m)%nat ->
  take_requests n at_ms b q = take_requests m at_ms b q.
Proof.
  revert m b q. induction n as [|n IH]; intros [|m] b q Hn Hm; [lia..|]. cbn [take_requests].
  destruct (try_take_http1_request b) as [[[msg rest]|]|e] eqn:E; [|done..]. cbn.
  apply take_split in E as Eb. destruct msg as [|x msg].
  - cbn in Eb. subst rest. by rewrite !take_stuck.
  - subst b. cbn in Hn, Hm. rewrite length_app in Hn, Hm. apply IH; lia.
Qed.
Lemma take_all_unfold at_ms b q :
  take_all at_ms b q =
    taken ← map_err LaneError_Http (try_take_http1_request b);
    match taken with
    | Some (raw, rest) => take_all at_ms rest (q ++ [mkRequestEnvelope raw at_ms])
    | None => mret (b, q)
    end.
Proof.
  unfold take_all at 1. cbn [take_requests].
  destruct (try_take_http1_request b) as [[[msg rest]|]|e] eqn:E; [|done..]. cbn [map_err mbind result_bind].
  apply take_split in E as Eb. destruct msg as [|x msg].
  - cbn in Eb. subst rest. by rewrite take_stuck, take_all_stuck.
  - unfold take_all. apply take_fuel; [|lia]. subst b. cbn. rewrite length_app. lia.
Qed.
(** The arrival of more bytes only adds requests. *)
Lemma take_all_app at_ms a b q :
  take_all at_ms (a ++ b) q = '(rest, q') ← take_all at_ms a q; take_all at_ms (rest ++ b) q'.
Proof.
  revert a q. enough (forall n a q, (length a < n)%nat -> take_all at_ms (a ++ b) q
    = '(rest, q') ← take_all at_ms a q; take_all at_ms (rest ++ b) q') as Hn by (intros; eapply Hn; eauto).
  induction n as [|n IH]; intros a q Hl; [lia|].
  rewrite (take_all_unfold _ (a ++ b)), (take_all_unfold _ a).
  pose proof (take_message_app a b true) as Ha. unfold try_take_http1_request in *.
  destruct (try_take_http1_message a true) as [[[msg rest]|]|e] eqn:E; cbn in *.
  - destruct Ha as [Ea ->]. cbn. destruct msg as [|x msg].
    + cbn in Ea. subst rest. rewrite (take_all_stuck _ a) by done. rewrite take_all_stuck; [done|].
      pose proof (take_message_app a b true) as Ha. rewrite E in Ha. apply Ha.
    + apply IH. subst a. cbn in Hl. rewrite length_app in Hl. lia.
  - by rewrite <- take_all_unfold.
  - by rewrite Ha.
Qed.

(** The bytes left and the requests cut, without the times they were seen at. *)
Definition raws (s : result LaneError (bytes * list RequestEnvelope)) : result LaneError (bytes * list bytes) :=
  '(buffer, queue) ← s;
  Ok (buffer, map rq_raw queue).
Lemma take_all_raws t t' b q q' :
  map rq_raw q = map rq_raw q' -> raws (take_all t b q) = raws (take_all t' b q').
Proof.
  revert b q q'. enough (forall n b q q', (length b < n)%nat -> map rq_raw q = map rq_raw q' ->
    raws (take_all t b q) = raws (take_all t' b q')) as Hn by (intros; eapply Hn; eauto).
  induction n as [|n IH]; intros b q q' Hl Hq; [lia|]. rewrite !take_all_unfold.
  destruct (try_take_http1_request b) as [[[msg r]|]|e] eqn:E; cbn; [| by rewrite Hq | done].
  apply take_split in E as Eb. destruct msg as [|x msg].
  - cbn in Eb. subst r. by rewrite !take_all_stuck.
  - subst b. cbn in Hl. rewrite length_app in Hl. apply IH; [lia|]. by rewrite !map_app, Hq.
Qed.

(** The client's side of a flow: a segment's bytes join the buffer at some time,
    and what can be cut is queued. *)
Definition receive (s : result LaneError (bytes * list RequestEnvelope)) (segment : Z * bytes)
    : result LaneError (bytes * list RequestEnvelope) :=
  '(buffer, queue) ← s;
  take_requests (S (length (buffer ++ segment.2))) segment.1 (buffer ++ segment.2) queue.
Lemma receive_err e segments : fold_left receive segments (Err e) = Err e.
Proof. by induction segments. Qed.
Lemma receive_take t b x q : receive (Ok (b, q)) (t, x) = take_all t (b ++ x) q.
Proof. done. Qed.
Lemma take_all_split at_ms b q rest q' :
  take_all at_ms b q = Ok (rest, q') ->
  exists new, q' = q ++ map (fun raw => mkRequestEnvelope raw at_ms) new /\ b = concat new ++ rest
    /\ Forall (fun raw => raw <> []) new /\ try_take_http1_request rest = Ok None.
Proof.
  revert b q. enough (forall n b q, (length b < n)%nat -> take_all at_ms b q = Ok (rest, q') ->
    exists new, q' = q ++ map (fun raw => mkRequestEnvelope raw at_ms) new /\ b = concat new ++ rest
      /\ Forall (fun raw => raw <> []) new /\ try_take_http1_request rest = Ok None)
    as Hn by (intros; eapply Hn; eauto).
  induction n as [|n IH]; intros b q Hl; [lia|]. rewrite take_all_unfold.
  destruct (try_take_http1_request b) as [[[msg r]|]|e] eqn:E; cbn.
  - apply take_split in E as Eb. destruct msg as [|x msg].
    { cbn in Eb. subst r. by rewrite take_all_stuck. }
    intros Er. subst b. cbn in Hl. rewrite length_app in Hl.
    destruct (IH r _ ltac:(lia) Er) as (new & -> & -> & Hne & Hr).
    exists ((x :: msg) :: new). cbn. rewrite <- !app_assoc. repeat split; [|done].
    by constructor.
  - intros [= <- <-]. exists []. by rewrite app_nil_r.
  - done.
Qed.

(** [C14] Requests do not depend on how the client's bytes are cut into segments nor
    on when these arrive: the lane has cut the same requests, or met the same
    error, as if all bytes had come at once; the requests and what is left in
    the buffer are exactly the bytes, in order, and nothing that could be cut
    is left. *)
Theorem requests_chunking t segments :
  raws (fold_left receive segments (Ok ([], []))) = raws (receive (Ok ([], [])) (t, concat (map snd segments)))
  /\ forall rest requests, raws (fold_left receive segments (Ok ([], []))) = Ok (rest, requests) ->
       concat (map snd segments) = concat requests ++ rest
       /\ Forall (fun raw => raw <> []) requests
       /\ try_take_http1_request rest = Ok None.
Proof.
  assert (forall b q, (forall t, take_all t b q = Ok (b, q)) ->
    raws (fold_left receive segments (Ok (b, q))) = raws (take_all t (b ++ concat (map snd segments)) q)) as Hf.
  { induction segments as [|[u s] segments IH]; intros b q Hb; cbn [fold_left concat map].
    - by rewrite app_nil_r, Hb.
    - rewrite receive_take, (app_assoc b), (take_all_app t (b ++ s)).
      pose proof (take_all_raws u t (b ++ s) q q eq_refl) as Hut.
      destruct (take_all u (b ++ s) q) as [[r q']|e] eqn:E;
        destruct (take_all t (b ++ s) q) as [[r2 q2]|e2]; cbn in Hut; try discriminate Hut.
      + injection Hut as <- Hq. cbn [mbind result_bind].
        rewrite (take_all_raws t t _ q2 q') by done. apply IH. intros v.
        destruct (take_all_split _ _ _ _ _ E) as (_ & _ & _ & _ & Hr).
        by rewrite take_all_unfold, Hr.
      + injection Hut as <-. by rewrite receive_err. }
  rewrite Hf by done. split; [done|]. intros rest requests.
  rewrite app_nil_l. destruct (take_all t _ []) as [[r q]|e] eqn:E; [|done]. intros [= <- <-].
  destruct (take_all_split _ _ _ _ _ E) as (new & -> & Eb & Hne & Hr). cbn in *.
  rewrite map_map, map_id. auto.
Qed.
End requests.

(** ** What a projection claims *)
Definition verdict (e : DecodedEvent) : bool :=
  match e with
  | DecodedEvent_AttemptCompleted _ _ _ _ | DecodedEvent_AttemptFailed _ _ _
  | DecodedEvent_AttemptIncomplete _ _ _ | DecodedEvent_AttemptCancelled _ _ _
  | DecodedEvent_HttpError _ _ => true
  | _ => false
  end.
Definition completes (e : DecodedEvent) : bool :=
  match e with DecodedEvent_AttemptCompleted _ _ _ _ => true | _ => false end.
Definition calls_tool (e : DecodedEvent) : bool :=
  match e with DecodedEvent_ToolCall _ _ => true | _ => false end.
(** The last event that ends the attempt. *)
Definition last_verdict (evs : list DecodedEvent) : option DecodedEvent := last (List.filter verdict evs).

(** What the scan has found after [evs]. *)
Record scanned (evs : list DecodedEvent) (s : Scan) : Prop := mk_scanned {
  sc_tools : sn_tool_names s = [] <-> forallb (fun e => negb (calls_tool e)) evs = true;
  sc_error : sn_error s = None <-> forallb (fun e => completes e || negb (verdict e)) evs = true;
  sc_verdict :
    match last_verdict evs with
    | None => sn_saw_terminal s = false
    | Some (DecodedEvent_AttemptCompleted _ rid end_turn _) =>
      sn_saw_terminal s = true /\ sn_status s = AttemptStatus_Completed /\ sn_end_turn s = end_turn
      /\ sn_response_id s = rid
    | Some _ =>
      sn_saw_terminal s = true /\ sn_status s <> AttemptStatus_Completed
      /\ sn_phase s = TaskPhase_Retrying /\ sn_cause s = TransitionCause_RetryScheduled
    end }.
Lemma last_verdict_snoc evs e :
  last_verdict (evs ++ [e]) = if verdict e then Some e else last_verdict evs.
Proof.
  unfold last_verdict. rewrite List.filter_app. cbn. destruct (verdict e); [by rewrite last_snoc|].
  by rewrite app_nil_r.
Qed.
Lemma scan_scanned evs : scanned evs (fold_left scan_event evs Scan_new).
Proof.
  induction evs as [|e evs [Ht He Hv]] using rev_ind; [by split|].
  rewrite fold_left_app. cbn [fold_left]. set (s := fold_left scan_event evs Scan_new) in *.
  assert (forall names name, (names ++ [name] : list string) = [] <-> False) as Hsnoc
    by (intros names name; split; [intros E; by destruct names | done]).
  assert (forall b, b && false = true <-> False) as Hfalse by by intros [].
  split; rewrite ?forallb_app, ?last_verdict_snoc.
  - destruct e; cbn; rewrite ?andb_true_r; try done.
    destruct (existsb _ _) eqn:Ex; cbn; rewrite Hfalse, ?Hsnoc; [|done].
    split; [intros E; by rewrite E in Ex | done].
  - destruct e; cbn; rewrite ?andb_true_r, ?Hfalse; try done. by destruct (existsb _ _).
  - destruct e; cbn; try done; by destruct (existsb _ _).
Qed.

Lemma legal_end_turn_iff e :
  legal_transition TransitionCause_ResponseEndTurn TaskPhase_Terminal (Some TaskOutcome_Completed) e
  <-> e = None.
Proof.
  split; [|intros ->; constructor; by_decide].
  intros Hl. inversion Hl; subst; try done; set_solver.
Qed.
(** The conclusion of a scan that saw how the attempt ended. *)
Lemma conclude_spec request_complete response_complete s :
  (sn_saw_terminal s = true -> sn_status s <> AttemptStatus_Completed ->
     sn_phase s = TaskPhase_Retrying /\ sn_cause s = TransitionCause_RetryScheduled) ->
  let p := conclude request_complete response_complete s in
  (pj_task_phase p = TaskPhase_Terminal <->
     request_complete = true /\ sn_tool_names s = []
     /\ (sn_saw_terminal s = true /\ sn_status s = AttemptStatus_Completed /\ sn_end_turn s = true))
  /\ (pj_task_outcome p = if bool_decide (pj_task_phase p = TaskPhase_Terminal)
                          then Some TaskOutcome_Completed else None)
  /\ (legal_transition (pj_cause p) (pj_task_phase p) (pj_task_outcome p) (pj_error p) <->
      (pj_task_phase p = TaskPhase_Terminal -> sn_error s = None)).
Proof.
  intros Hs. cbv zeta. unfold conclude.
  assert (forall e, legal_transition TransitionCause_CaptureLost TaskPhase_Retrying None e) as Hgap
    by (intros e; by constructor).
  assert (forall e, legal_transition TransitionCause_ToolCallObserved TaskPhase_AwaitingTool None e) as Htool
    by (intros e; constructor; by_decide).
  assert (forall e, legal_transition TransitionCause_RetryScheduled TaskPhase_Retrying None e) as Hretry
    by (intros e; constructor; by_decide).
  destruct (sn_saw_terminal s) eqn:Esaw; cbn; [|by repeat split; intros; destruct_and?].
  destruct request_complete; cbn; [rewrite orb_true_r|by repeat split; intros; destruct_and?]. cbn.
  destruct (decide (sn_status s = AttemptStatus_Completed)) as [Est|Est].
  - rewrite bool_decide_eq_true_2 by done. cbn. destruct (decide (sn_tool_names s = [])) as [En|En].
    + rewrite bool_decide_eq_true_2 by done. cbn. destruct (sn_end_turn s); cbn.
      * rewrite legal_end_turn_iff. by repeat split; auto.
      * by repeat split; intros; destruct_and?.
    + rewrite bool_decide_eq_false_2 by done. cbn. by repeat split; intros; destruct_and?.
  - rewrite bool_decide_eq_false_2 by done. cbn. destruct Hs as [-> ->]; [done..|]. cbn.
    by repeat split; intros; destruct_and?.
Qed.

Section projection.
Context `{JsonApi}.
(** [C13] What the lane claims of a task after an exchange.  The task is reported
    terminal exactly when the request was complete, no tool call was seen and
    the last event that ends the attempt is a [response.completed] that ends
    the turn; it is then reported completed, and in no other case has it an
    outcome.  The transition is one the protocol accepts, except that a task
    reported completed may keep the error of an earlier event of the response.
    This is the code's rule.  docs/TECH_SPEC.md has another: there a
    response ends an attempt only, and a task's outcome comes from a terminal event
    of Codex or from the end of the process. *)
Theorem projection_sound (a : DecodedAttempt) :
  let evs := da_decoded_events a in
  let p := map_attempt_projection a in
  (pj_task_phase p = TaskPhase_Terminal <->
     da_request_complete a = true
     /\ forallb (fun e => negb (calls_tool e)) evs = true
     /\ exists id rid usage, last_verdict evs = Some (DecodedEvent_AttemptCompleted id rid true usage))
  /\ (pj_task_outcome p = if bool_decide (pj_task_phase p = TaskPhase_Terminal)
                          then Some TaskOutcome_Completed else None)
  /\ (legal_transition (pj_cause p) (pj_task_phase p) (pj_task_outcome p) (pj_error p) <->
      (pj_task_phase p = TaskPhase_Terminal ->
       forallb (fun e => completes e || negb (verdict e)) evs = true)).
Proof.
  intros evs p. destruct (scan_scanned evs) as [Ht He Hv]. rewrite <- Ht, <- He. subst p.
  change (map_attempt_projection a) with (conclude (da_request_complete a) (da_response_complete a) (fold_left scan_event evs Scan_new)).
  set (s := fold_left scan_event evs Scan_new) in *.
  destruct (conclude_spec (da_request_complete a) (da_response_complete a) s) as (Hp & Ho & Hl).
  { destruct (last_verdict evs) as [[]|]; intros Hsaw Hst; destruct_and?; first [congruence | by split]. }
  split; [|done]. rewrite Hp. do 2 apply and_iff_compat_l. split.
  - intros (Hsaw & Hst & Hend). destruct (last_verdict evs) as [[]|]; destruct_and?; try congruence.
    subst end_turn. rewrite Hend. eauto.
  - intros (id & rid & u & E). rewrite E in Hv. by destruct_and?.
Qed.
End projection.
