(* ===== verification/LaneInv.v ===== *)
(** * The capture lane: the flow table

    The invariant of the flows the lane keeps: where they are stored, and that
    whatever could be taken out of their buffers has been.  [lane_post] states
    what a call that succeeds returns. *)
From Stdlib Require Import ZArith Lia Strings.Byte Strings.String.
From S2P Require Import Tcp H2 WebSocket Discovery.
From S2P Require Import Prelude RustStr Digest Types Codec Json Http1 Sse Responses Sql Model Mapping.
From S2P Require Import Blob Store StoreSteps Ip Attribution Config Lane LaneFlow LaneSteps LaneHttp.
Local Open Scope string_scope.
Local Open Scope list_scope.
Local Open Scope Z_scope.

Section inv.
Context `{UuidApi} `{DigestApi} `{CborApi} `{ZstdApi} `{TimeApi}
  `{HttparseApi} `{HttpApi} `{!UriApi} `{DecompressApi} `{JsonApi} `{!JsonViewApi} `{H2.HpackApi}.

(** A hash map iterates over each of its entries once. *)
Definition world_ok (w : World) : Prop :=
  (forall t l, w_streams w t l ≡ₚ l) /\ (forall t l, w_tasks w t l ≡ₚ l).

(** ** Results *)
Definition lane_post {A} (P : A -> Prop) (m : LaneM A) : Prop :=
  forall w, world_ok w -> forall s a s', m w s = (Ok a, s') -> P a.
Lemma post_ret {A} (P : A -> Prop) a : P a -> lane_post P (mret a).
Proof. by intros ? w ? s b s' [= <- _]. Qed.
Lemma post_bind {A B} (Q : A -> Prop) (P : B -> Prop) (m : LaneM A) (f : A -> LaneM B) :
  lane_post Q m -> (forall a, Q a -> lane_post P (f a)) -> lane_post P (m ≫= f).
Proof.
  intros Hm Hf w Hw s b s'. unfold mbind, lane_bind. destruct (m w s) as [[a|e] s1] eqn:E; [|done].
  intros E'. exact (Hf a (Hm w Hw _ _ _ E) w Hw _ _ _ E').
Qed.
Lemma post_true {A} (m : LaneM A) : lane_post (fun _ => True) m.
Proof. by intros w ? s a s'. Qed.
Lemma post_any {A B} (P : B -> Prop) (m : LaneM A) (f : A -> LaneM B) :
  (forall a, lane_post P (f a)) -> lane_post P (m ≫= f).
Proof. intros Hf. by apply (post_bind (fun _ => True)); [apply post_true|]. Qed.
Lemma post_lift {A} (P : A -> Prop) (r : result LaneError A) : (forall a, r = Ok a -> P a) -> lane_post P (lift r).
Proof. intros Hr w _ s a s' [= E _]. by apply Hr. Qed.
Lemma post_mono {A} (P Q : A -> Prop) (m : LaneM A) :
  (forall a, P a -> Q a) -> lane_post P m -> lane_post Q m.
Proof. intros Hpq Hm w Hw s a s' E. by eapply Hpq, Hm. Qed.

(** ** A flow *)
(** What has been consumed, by the protocol.  For HTTP/1: no request is left in the
    client's buffer, and while requests wait for their responses no response is
    left in the server's. *)
Definition recognized (client server : bytes) : bool :=
  starts_with (as_bytes "PRI * HTTP/2.0") client || looks_like_http1 client || looks_like_http1_response server.
Definition consumed (f : FlowState) : Prop :=
  match fs_protocol f with
  | Protocol_Unknown =>
    fs_request_queue f = [] /\ fs_h2_streams f = ∅
    /\ recognized (fs_client_buffer f) (fs_server_buffer f) = false
  | Protocol_Http1 =>
    fs_h2_streams f = ∅ /\ try_take_http1_request (fs_client_buffer f) = Ok None
    /\ (fs_request_queue f = [] \/ try_take_http1_response_or_terminal (fs_server_buffer f) = Ok None)
  | Protocol_Http2 _ => fs_request_queue f = [] /\ map_Forall (fun _ s => stream_complete s = false) (fs_h2_streams f)
  | Protocol_WebSocket _ => fs_h2_streams f = ∅
  end.
(** What the decoders do not touch. *)
Definition same_flow (f f' : FlowState) : Prop :=
  fs_flow_id f' = fs_flow_id f /\ fs_process_instance_id f' = fs_process_instance_id f
  /\ fs_client f' = fs_client f /\ fs_server f' = fs_server f
  /\ fs_client_assembler f' = fs_client_assembler f /\ fs_server_assembler f' = fs_server_assembler f
  /\ fs_client_closed f' = fs_client_closed f /\ fs_server_closed f' = fs_server_closed f.
#[export] Instance same_flow_preorder : PreOrder same_flow.
Proof. split; [by intros f | unfold same_flow; intros f g h ??; destruct_and!; repeat split; congruence]. Qed.
Definition keeps_flow (f : FlowState) (r : FlowState * CaptureBatch) : Prop := same_flow f r.1.

Lemma consumed_ext f f' :
  fs_protocol f' = fs_protocol f -> fs_client_buffer f' = fs_client_buffer f ->
  fs_server_buffer f' = fs_server_buffer f -> fs_request_queue f' = fs_request_queue f ->
  fs_h2_streams f' = fs_h2_streams f -> consumed f -> consumed f'.
Proof. unfold consumed. by intros -> -> -> -> ->. Qed.

(** Every step of the decoders is described by the fields it may change. *)
Lemma project_into_post x f batch :
  lane_post (fun r => r.1 = set_current_task (fs_current_task r.1) f) (project_into x f batch).
Proof.
  unfold project_into. apply post_any. intros projected.
  destruct (find_map _ _); [apply post_any; intros []|]; apply post_ret; by destruct f.
Qed.
Definition paired (f f' : FlowState) : Prop :=
  same_flow f f' /\ fs_client_buffer f' = fs_client_buffer f /\ fs_server_buffer f' = fs_server_buffer f
  /\ fs_h2_streams f' = fs_h2_streams f
  /\ (fs_protocol f' = fs_protocol f \/ exists ws, fs_protocol f' = Protocol_WebSocket ws).
Lemma pair_response_post request raw f batch :
  lane_post (fun r => paired f r.1) (pair_response request raw f batch).
Proof.
  unfold pair_response. apply post_any. intros request_msg. apply post_any. intros response_msg.
  case_match; [|case_match].
  - apply post_ret. split; [done|]. repeat split. right. by eexists.
  - apply post_ret. split; [done|]. auto.
  - apply post_any. intros x. eapply post_mono; [|apply project_into_post].
    intros [f' b] E. cbn in *. rewrite E. split; [done|]. auto.
Qed.
Definition answered (f f' : FlowState) : Prop :=
  same_flow f f' /\ fs_client_buffer f' = fs_client_buffer f /\ fs_h2_streams f' = fs_h2_streams f
  /\ (fs_protocol f' = fs_protocol f \/ exists ws, fs_protocol f' = Protocol_WebSocket ws)
  /\ (fs_request_queue f' = [] \/ try_take_http1_response_or_terminal (fs_server_buffer f') = Ok None).
Lemma take_responses_post queue f batch : lane_post (fun r => answered f r.1) (take_responses queue f batch).
Proof.
  revert f batch. induction queue as [|request queue IH]; intros f batch; cbn [take_responses].
  { apply post_ret. split; [done|]. cbn. auto 6. }
  eapply (post_bind (fun taken => try_take_http1_response_or_terminal
    (align_http1_response (fs_server_buffer f)) = Ok taken)).
  { apply post_lift. intros a E%map_err_Ok. exact E. }
  intros [[raw rest]|] Et.
  - eapply post_bind; [apply pair_response_post|]. intros [f1 b1] (Hs & Hc & _ & Hh & Hp).
    eapply post_mono; [|apply IH]. intros [f2 b2] (Hs2 & Hc2 & Hh2 & Hp2 & Hq2). cbn in *.
    split; [etrans; [|done]; exact Hs|]. split; [congruence|]. split; [congruence|]. split; [|done].
    destruct Hp2 as [->|]; auto.
  - apply post_ret. split; [done|]. cbn. auto 6.
Qed.
Lemma consume_http1_post f at_ batch :
  fs_protocol f = Protocol_Http1 -> fs_h2_streams f = ∅ ->
  lane_post (fun r => same_flow f r.1 /\ consumed r.1) (consume_http1 f at_ batch).
Proof.
  intros Hp Hh. unfold consume_http1.
  eapply (post_bind (fun r => try_take_http1_request r.1 = Ok None)).
  { apply post_lift. intros [rest q] E. by apply take_all_split in E as (_ & _ & _ & _ & E). }
  intros [rest q] Hr. eapply post_mono; [|apply take_responses_post].
  intros [f' b] (Hs & Hc & Hh' & Hp' & Hq). cbn in *. split; [done|]. unfold consumed. cbn.
  destruct Hp' as [->|[ws ->]]; rewrite ?Hp, Hh'; [|done]. rewrite Hc. auto.
Qed.

Lemma take_streams_post ids f batch :
  lane_post (fun r => same_flow f r.1 /\ fs_request_queue r.1 = fs_request_queue f
    /\ forall k s, fs_h2_streams r.1 !! k = Some s -> fs_h2_streams f !! k = Some s /\ k ∉ ids)
    (take_streams ids f batch).
Proof.
  revert f batch. induction ids as [|id ids IH]; intros f batch; cbn [take_streams].
  { apply post_ret. split; [done|]. split; [done|]. intros k s ?. split; [done | apply not_elem_of_nil]. }
  destruct (fs_h2_streams f !! id) as [stream|] eqn:Ei.
  - apply post_any. intros request_msg. apply post_any. intros response_msg.
    set (f1 := set_streams (delete id (fs_h2_streams f)) f).
    eapply (post_bind (fun r => r.1 = set_current_task (fs_current_task r.1) f1)).
    { case_match; [by apply post_ret|]. apply post_any. intros x. apply project_into_post. }
    intros [f2 b2] E2. cbn in E2. eapply post_mono; [|apply IH]. intros [f3 b3] (Hs & Hq & Hk).
    cbn in *. rewrite E2 in *. subst f1. cbn in *. split; [done|]. split; [done|].
    intros k s Hks. apply Hk in Hks as [Hd Hn]. apply lookup_delete_Some in Hd as [? ?].
    split; [done|]. apply not_elem_of_cons. auto.
  - eapply post_mono; [|apply IH]. intros [f3 b3] (Hs & Hq & Hk). cbn in *.
    split; [done|]. split; [done|]. intros k s Hks. apply Hk in Hks as [Hd Hn]. split; [done|].
    apply not_elem_of_cons. split; [|done]. intros ->. by rewrite Ei in Hd.
Qed.
Lemma consume_h2_post f decoder d b batch :
  lane_post (fun r => same_flow f r.1.2 /\ fs_request_queue r.1.2 = fs_request_queue f
    /\ map_Forall (fun _ s => stream_complete s = false) (fs_h2_streams r.1.2))
    (consume_h2 f decoder d b batch).
Proof.
  unfold consume_h2. destruct (H2.push _ _ _) as [decoder' r]. apply post_any. intros events.
  apply post_any. intros streams.
  eapply (post_bind (fun ids => ids ≡ₚ complete_streams streams)).
  { intros w [Hw _] [t l] ids s' [= <- _]. apply Hw. }
  intros ids Hids. eapply post_bind; [apply take_streams_post|].
  intros [f' b'] (Hs & Hq & Hk). cbn in *. apply post_ret. cbn. split; [done|]. split; [done|].
  intros k s [Hks Hn]%Hk. apply not_true_iff_false. intros Hc. apply Hn. rewrite Hids.
  unfold complete_streams. rewrite list_elem_of_In, in_map_iff. exists (k, s). split; [done|].
  apply filter_In. split; [|done]. apply list_elem_of_In. by apply elem_of_map_to_list.
Qed.
Lemma ws_frames_post d frames c f batch :
  lane_post (fun r => same_flow f r.1.2 /\ fs_h2_streams r.1.2 = fs_h2_streams f)
    (ws_frames d frames c f batch).
Proof.
  revert c f batch. induction frames as [|frame frames IH]; intros c f batch; cbn [ws_frames].
  { by apply post_ret. }
  eapply (post_bind (fun r => r.1.2 = set_current_task (fs_current_task r.1.2) f)).
  { unfold ws_frame. case_match; [by destruct f; apply post_ret|].
    destruct d; [apply post_any; intros; by destruct f; apply post_ret|].
    destruct c as [request|]; [|by destruct f; apply post_ret].
    case_match; [by destruct f; apply post_ret|]. case_match; [|by destruct f; apply post_ret].
    eapply post_bind.
    - unfold ws_exchange. do 3 (apply post_any; intros ?). apply project_into_post.
    - intros [f1 b1] E. by apply post_ret. }
  intros [[c1 f1] b1] E. cbn in E. eapply post_mono; [|apply IH]. intros [[c2 f2] b2] [Hs Hh]. cbn in *.
  rewrite E in *. cbn in *. by split.
Qed.
Lemma consume_websocket_post f ws d b batch :
  lane_post (fun r => same_flow f r.1.2 /\ fs_h2_streams r.1.2 = fs_h2_streams f)
    (consume_websocket f ws d b batch).
Proof.
  unfold consume_websocket. destruct (match d with ClientToServer => _ | _ => _ end) as [[cl sv] r].
  apply post_any. intros frames. eapply post_bind; [apply ws_frames_post|].
  intros [[c f'] b'] Hf. by apply post_ret.
Qed.

Lemma recognized_detect f :
  fs_protocol f = Protocol_Unknown ->
  detect f = f /\ recognized (fs_client_buffer f) (fs_server_buffer f) = false
  \/ exists p, detect f = set_protocol p f /\ (p = Protocol_Http1 \/ p = Protocol_Http2 H2.H2Decoder_new).
Proof.
  intros Hp. unfold detect, recognized. rewrite Hp, websocket_handshake_never. cbn [orb].
  case_match; [eauto|]. case_match; [eauto | auto].
Qed.
Lemma process_bytes_post f d b at_ batch :
  consumed f -> lane_post (fun r => same_flow f r.1 /\ consumed r.1) (process_bytes f d b at_ batch).
Proof.
  intros Hf. unfold process_bytes. set (f1 := extend_buffer d b f).
  assert (same_flow f f1) as Hs1 by by destruct d.
  assert (fs_protocol f1 = fs_protocol f) as Ep by by destruct d.
  assert (fs_request_queue f1 = fs_request_queue f) as Eq by by destruct d.
  assert (fs_h2_streams f1 = fs_h2_streams f) as Eh by by destruct d.
  assert (forall decoder f2, same_flow f f2 -> fs_request_queue f2 = [] ->
    lane_post (fun r => same_flow f r.1 /\ consumed r.1)
      ('(decoder, state, batch) ← consume_h2 f2 decoder d b batch;
       mret (set_protocol (Protocol_Http2 decoder) state, batch))) as Hh2.
  { intros decoder f2 Hs Hq. eapply post_bind; [apply consume_h2_post|].
    intros [[decoder' f3] b3] (Hs3 & Hq3 & Hk). cbn in *. apply post_ret.
    split; [etrans; [exact Hs | exact Hs3]|]. unfold consumed. cbn. by rewrite Hq3. }
  unfold consumed in Hf. destruct (fs_protocol f) as [| |decoder|ws] eqn:Epf.
  - destruct Hf as (Hq & Hs & _).
    destruct (recognized_detect f1 Ep) as [[-> Hr]|(p & -> & [-> | ->])]; cbn [fs_protocol set_protocol].
    + rewrite Ep. apply post_ret. split; [done|]. unfold consumed. cbn [fst]. rewrite Ep.
      by rewrite Eq, Eh.
    + eapply post_mono; [|apply consume_http1_post; [done | cbn; by rewrite Eh]].
      intros r [Hsame Hc]. split; [etrans; [exact Hs1 | exact Hsame] | done].
    + apply Hh2; [exact Hs1 | cbn; by rewrite Eq].
  - assert (detect f1 = f1) as -> by by (unfold detect; rewrite Ep). rewrite Ep.
    destruct Hf as (Hh & _). eapply post_mono; [|apply consume_http1_post; [done | by rewrite Eh]].
    intros r [Hsame Hc]. split; [by etrans | done].
  - assert (detect f1 = f1) as -> by by (unfold detect; rewrite Ep). rewrite Ep.
    destruct Hf as [Hq _]. apply Hh2; [exact Hs1 | cbn; by rewrite Eq].
  - assert (detect f1 = f1) as -> by by (unfold detect; rewrite Ep). rewrite Ep.
    eapply post_bind; [apply consume_websocket_post|]. intros [[ws' f3] b3] [Hs Hh]. cbn in *.
    apply post_ret. split; [etrans; [exact Hs1 | exact Hs]|]. unfold consumed. cbn. by rewrite Hh, Eh.
Qed.

(** ** The table *)
(** A flow that is being worked on, and one that is kept. *)
Definition flow_of (key : FlowKey) (f : FlowState) : Prop :=
  FlowKey_new (fs_client f) (fs_server f) = key /\ consumed f.
Definition kept (key : FlowKey) (f : FlowState) : Prop :=
  flow_of key f /\ fs_client_closed f && fs_server_closed f = false.
Definition lane_inv (l : LiveCaptureLane) : Prop := map_Forall kept (ln_flows l).

Lemma flow_of_same key f f' : same_flow f f' -> consumed f' -> flow_of key f -> flow_of key f'.
Proof. intros (_ & _ & Hc & Hs & _) Hf' [Hk _]. split; [|done]. by rewrite Hc, Hs. Qed.
Lemma flow_of_assembler key f d a : flow_of key f -> flow_of key (set_assembler d a f).
Proof. intros [Hk Hc]. split; [by destruct d|]. eapply consumed_ext, Hc; by destruct d. Qed.
Lemma flow_of_endpoints key f a b : FlowKey_new a b = key -> flow_of key f -> flow_of key (set_endpoints a b f).
Proof. intros Hk [_ Hc]. split; [done|]. by eapply consumed_ext, Hc. Qed.

Lemma direction_post a source destination segment f d f' :
  flow_of (FlowKey_new source destination) f ->
  segment_direction a source destination segment f = (d, f') -> flow_of (FlowKey_new source destination) f'.
Proof.
  intros Hf. unfold segment_direction.
  assert (flow_of (FlowKey_new source destination) (set_endpoints source destination f))
    by by apply flow_of_endpoints.
  assert (flow_of (FlowKey_new source destination) (set_endpoints destination source f))
    by by apply flow_of_endpoints; [apply FlowKey_new_comm|].
  repeat case_match; intros [= <- <-]; done.
Qed.
Lemma reassemble_post key segment d at_ f :
  flow_of key f -> lane_post (fun r => flow_of key r.1) (reassemble segment d at_ f).
Proof.
  intros Hf. unfold reassemble. apply post_any. intros [a r].
  apply (flow_of_assembler _ _ d a) in Hf as Hfa.
  destruct r as [|c| |].
  - by apply post_ret.
  - eapply post_mono; [|apply process_bytes_post, Hfa].
    intros r [Hs Hc]. by eapply flow_of_same.
  - apply post_any. intros gap. by apply post_ret.
  - apply post_any. intros gap. by apply post_ret.
Qed.
Lemma close_side_post key segment d at_ f batch :
  flow_of key f -> lane_post (fun r => flow_of key r.1) (close_side segment d at_ f batch).
Proof.
  intros Hf. unfold close_side. case_match; [by apply post_ret|].
  destruct (Tcp.finish _) as [a r].
  assert (flow_of key (set_closed d f)) as Hc.
  { destruct Hf as [Hk Hc]. split; [done|]. by eapply consumed_ext, Hc. }
  apply (flow_of_assembler _ _ d a) in Hc.
  destruct r; [by apply post_ret..| |]; apply post_any; intros gap; by apply post_ret.
Qed.
Lemma flow_of_new id p a b : flow_of (FlowKey_new a b) (FlowState_new id p a b).
Proof. split; [done|]. by vm_compute. Qed.

(** [m] preserves the invariant of the lane, and a result satisfies [P]. *)
Definition lane_keeps {A} (P : A -> Prop) (m : LaneM A) : Prop :=
  forall w, world_ok w -> forall t l, lane_inv l ->
    lane_inv (m w (t, l)).2.2 /\ forall a, (m w (t, l)).1 = Ok a -> P a.
Lemma keeps_bind {A B} (Q : A -> Prop) (P : B -> Prop) (m : LaneM A) (f : A -> LaneM B) :
  lane_keeps Q m -> (forall a, Q a -> lane_keeps P (f a)) -> lane_keeps P (m ≫= f).
Proof.
  intros Hm Hf w Hw t l Hl. destruct (Hm w Hw t l Hl) as [Hl1 Hq].
  unfold mbind, lane_bind. destruct (m w (t, l)) as [[a|e] [t1 l1]]; cbn in *; [|done].
  by apply Hf; [apply Hq|..].
Qed.
Lemma keeps_modify f : (forall l, lane_inv l -> lane_inv (f l)) -> lane_keeps (fun _ => True) (modify f).
Proof. intros Hf w _ t l Hl. split; [by apply Hf | done]. Qed.
Lemma keeps_get {A} (P : A -> Prop) (f : LiveCaptureLane -> A) :
  (forall l, lane_inv l -> P (f l)) -> lane_keeps P (get f).
Proof. intros Hf w _ t l Hl. split; [done|]. intros a [= <-]. by apply Hf. Qed.

(** Calls that leave the table alone. *)
Definition same_flows (l l' : LiveCaptureLane) : Prop := ln_flows l' = ln_flows l.
#[export] Instance same_flows_preorder : PreOrder same_flows.
Proof. split; [by intros l | intros ???; unfold same_flows; congruence]. Qed.
#[export] Instance same_flows_quiet : Quiet same_flows.
Proof.
  split; [apply _|..].
  - intros A m _. by apply lane_rel_access.
  - intros task id. by apply lane_rel_access.
  - intros [p|] task; [|apply lane_rel_ret, _]. by apply lane_rel_modify.
Qed.
Lemma keeps_quiet {A} (P : A -> Prop) (m : LaneM A) :
  lane_rel same_flows m -> lane_post P m -> lane_keeps P m.
Proof.
  intros Hr Hp w Hw t l Hl. split.
  - unfold lane_inv. by rewrite (Hr w t l).
  - intros a E. destruct (m w (t, l)) as [r s] eqn:Em. cbn in E. subst r. by eapply Hp.
Qed.
Lemma keeps_any {A} (m : LaneM A) : lane_rel same_flows m -> lane_keeps (fun _ => True) m.
Proof. intros Hr. apply keeps_quiet; [done | apply post_true]. Qed.
Lemma same_flows_access {A} (m : World -> nat -> ClientStore -> result StoreError A * ClientStore) :
  lane_rel same_flows (access m).
Proof. by apply lane_rel_access. Qed.
Hint Resolve same_flows_access quiet_reassemble quiet_close_side quiet_project_gap quiet_process_exit : lane.

Lemma handle_segment_keeps segment p a : lane_keeps (fun _ => True) (handle_segment segment p a).
Proof.
  unfold handle_segment.
  eapply keeps_bind; [apply keeps_any, lane_rel_lift, _|]. intros source _.
  eapply keeps_bind; [apply keeps_any, lane_rel_lift, _|]. intros destination _.
  eapply keeps_bind; [apply keeps_any, lane_rel_ask, _|]. intros at_ _. cbv zeta.
  set (key := FlowKey_new source destination).
  assert (exists client server, match a with Some RemoteToLocal => (destination, source)
    | _ => (source, destination) end = (client, server) /\ FlowKey_new client server = key)
    as (client & server & E & Hkey).
  { destruct a as [[]|]; do 2 eexists; split; try done. apply FlowKey_new_comm. }
  replace (match a with Some RemoteToLocal => (destination, source)
    | Some LocalToRemote | None => (source, destination) end) with (client, server)
    by (rewrite <- E; by destruct a as [[]|]). cbn beta iota.
  eapply keeps_bind; [apply (keeps_get (fun known => forall f, known = Some f -> kept key f));
    by intros l Hl f Hf; apply Hl|]. intros known Hknown.
  eapply keeps_bind; [apply keeps_modify; intros l Hl; by apply map_Forall_delete|]. intros _ _.
  eapply (keeps_bind (flow_of key)).
  { destruct known as [f|].
    - apply keeps_quiet; [apply lane_rel_ret, _|]. apply post_ret. by apply (Hknown f).
    - apply keeps_quiet; [unfold now_v7; lane_walk|]. apply post_any. intros id. apply post_ret.
      rewrite <- Hkey. apply flow_of_new. }
  intros f Hf. eapply keeps_bind; [apply keeps_any, same_flows_access|]. intros _ _.
  destruct (segment_direction _ _ _ _ _) as [d f1] eqn:Ed.
  assert (flow_of key f1) as Hf1.
  { eapply direction_post, Ed. destruct Hf as [? Hc]. split; [done|]. by eapply consumed_ext, Hc. }
  eapply keeps_bind; [apply keeps_quiet; [apply quiet_reassemble, _ | apply reassemble_post, Hf1]|].
  intros [f2 b2] Hf2. cbn in Hf2.
  eapply keeps_bind; [apply keeps_quiet; [apply quiet_close_side, _ | apply close_side_post, Hf2]|].
  intros [f3 b3] Hf3. cbn in Hf3.
  eapply keeps_bind; [|intros _ _; apply keeps_any, lane_rel_ret, _].
  destruct (fs_client_closed f3 && fs_server_closed f3) eqn:Ec.
  - apply keeps_any, same_flows_access.
  - apply keeps_modify. intros l Hl. by apply map_Forall_insert_2.
Qed.

Lemma ingest_keeps input : lane_keeps (fun _ => True) (ingest_input input).
Proof.
  unfold ingest_input. eapply (keeps_bind (fun _ => True)).
  - unfold handle_input. destruct input.
    + apply handle_segment_keeps.
    + apply handle_segment_keeps.
    + apply keeps_any. lane_walk.
    + apply keeps_any. lane_walk.
    + apply (keeps_bind (fun _ => True)); [by apply keeps_get|]. intros tasks _.
      eapply keeps_bind; [by apply keeps_modify|]. intros _ _. apply keeps_any. lane_walk.
  - intros [batch|] _; [|apply keeps_any, lane_rel_ret, _].
    case_match; [apply keeps_any, lane_rel_ret, _|]. apply keeps_any. lane_walk.
Qed.

(** The lanes of a daemon: any inputs, whatever the world answers. *)
Inductive lane_step (l : LiveCaptureLane) : LiveCaptureLane -> Prop :=
| lane_ingest input w t : world_ok w -> lane_step l (ingest_input input w (t, l)).2.2.
Definition lane_reachable (l : LiveCaptureLane) : Prop :=
  exists config store, rtc lane_step (LiveCaptureLane_new config store) l.
Lemma lane_step_inv l l' : lane_step l l' -> lane_inv l -> lane_inv l'.
Proof. intros [input w t Hw] Hl. by apply ingest_keeps. Qed.
Lemma lane_reachable_kept l : lane_reachable l -> lane_inv l.
Proof.
  intros (config & store & Hr). assert (lane_inv (LiveCaptureLane_new config store)) as H0i
    by apply map_Forall_empty.
  induction Hr as [|l1 l2 l3 Hs _ IH]; [done|]. apply IH. by eapply lane_step_inv.
Qed.

(** The ingest loop of the daemon, wherever it stops, is a run of these steps. *)
Lemma loop_reachable inputs w t l : world_ok w -> lane_reachable l ->
  lane_reachable (run_capture_ingest_loop inputs w (t, l)).2.2.
Proof.
  intros Hw. revert t l. induction inputs as [|i inputs IH]; intros t l (config & store & Hr); cbn.
  { by exists config, store. }
  assert (lane_reachable (ingest_input i w (t, l)).2.2) as Hs
    by (exists config, store; eapply rtc_r; [exact Hr | by constructor]).
  unfold mbind, lane_bind. destruct (ingest_input i w (t, l)) as [[o|e] [t' l']]; [by apply IH | exact Hs].
Qed.

(** [C11] The flow table.  However the inputs come, every flow is stored under the
    key of its own two ends, which both directions of the connection share; a
    flow closed on both sides is not kept; and between inputs everything that
    could be consumed has been: an unrecognised flow has queued nothing and its
    buffers begin like no known protocol, an HTTP/1 flow has no whole request
    left and, while requests wait, no whole response; an HTTP/2 flow has no
    complete stream left.  A segment of a known flow always goes from one of the
    recorded ends to the other: an attributed one first records its two ends as
    client and server by its direction, whatever they were before; an
    unattributed one changes nothing of the flow. *)
Theorem lane_reachable_inv l : lane_reachable l ->
  lane_inv l
  /\ forall a source destination segment f d f',
       ln_flows l !! FlowKey_new source destination = Some f ->
       segment_direction a source destination segment f = (d, f') ->
       (fs_client f', fs_server f') = match d with
                                      | ClientToServer => (source, destination)
                                      | ServerToClient => (destination, source)
                                      end
       /\ match a with
          | Some LocalToRemote => d = ClientToServer
          | Some RemoteToLocal => d = ServerToClient
          | None => f' = f
          end.
Proof.
  intros Hl%lane_reachable_kept. split; [done|]. intros a source destination segment f d f' Hf.
  apply Hl in Hf as [[Hk _] _]. unfold segment_direction.
  destruct a as [[|]|]; [by intros [= <- <-] | by intros [= <- <-] |].
  destruct (decide (source = fs_client f /\ destination = fs_server f)) as [[Hs Hd]|Hn].
  - rewrite !bool_decide_eq_true_2 by done. intros [= <- <-]. by rewrite Hs, Hd.
  - assert (bool_decide (source = fs_client f) && bool_decide (destination = fs_server f) = false) as ->.
    { apply not_true_iff_false. rewrite andb_true_iff, !bool_decide_eq_true. done. }
    apply FlowKey_new_inj in Hk as [[? ?]|[? ?]]; [by destruct Hn|].
    rewrite !bool_decide_eq_true_2 by done. intros [= <- <-]. by subst.
Qed.

(** ** Isolation *)
(** [m] changes no flow but that of [key], and a failing [m] not even that. *)
Definition framed {A} (key : FlowKey) (m : LaneM A) : Prop :=
  forall w t l,
    (forall k, k <> key -> ln_flows (m w (t, l)).2.2 !! k = ln_flows l !! k)
    /\ (is_ok (m w (t, l)).1 = false -> ln_flows (m w (t, l)).2.2 = ln_flows l).
Lemma framed_quiet {A} key (m : LaneM A) : lane_rel same_flows m -> framed key m.
Proof. intros Hr w t l. by rewrite (Hr w t l). Qed.
Lemma framed_bind {A B} key (m : LaneM A) (f : A -> LaneM B) :
  lane_rel same_flows m -> (forall a, framed key (f a)) -> framed key (m ≫= f).
Proof.
  intros Hm Hf w t l. unfold mbind, lane_bind. pose proof (Hm w t l) as Hl.
  destruct (m w (t, l)) as [[a|e] [t1 l1]]; unfold same_flows in Hl; cbn in *; rewrite <- Hl; [apply Hf | done].
Qed.
Lemma framed_insert {B} key f (r : B) :
  framed key (_ ← modify (fun l => set_flows (<[key := f]> (ln_flows l)) l); mret r).
Proof.
  intros w t l. split; [|done]. intros k Hk.
  change (<[key:=f]> (ln_flows l) !! k = ln_flows l !! k). by rewrite lookup_insert_ne.
Qed.

(** [C12] A segment concerns its own flow only: every other flow of the table is
    left as it was; and when the handling of the segment fails, for a malformed
    message, a protocol violation or an error of the store, its flow is gone. *)
Theorem segment_isolation segment p a w t l source destination :
  parse_endpoint (sg_source_ip segment) (sg_source_port segment) = Ok source ->
  parse_endpoint (sg_destination_ip segment) (sg_destination_port segment) = Ok destination ->
  let key := FlowKey_new source destination in
  let r := handle_segment segment p a w (t, l) in
  (forall k, k <> key -> ln_flows r.2.2 !! k = ln_flows l !! k)
  /\ (is_ok r.1 = false -> ln_flows r.2.2 !! key = None).
Proof.
  intros Hs Hd key. unfold handle_segment. rewrite Hs, Hd. fold key.
  enough (forall known at_ client server, framed key
    (state ← match known with
             | Some state => mret state
             | None => flow_id ← now_v7; mret (FlowState_new flow_id p client server)
             end;
     let state := set_process (opt_or (fs_process_instance_id state) p) state in
     _ ← access (fun _ _ s => run_db
           (note_flow_open (cs_client s) (fs_flow_id state) (fs_process_instance_id state)
              (show_endpoint (fs_client state)) (show_endpoint (fs_server state)) "tcp" at_) s);
     let '(d, state) := segment_direction a source destination segment state in
     '(state, batch) ← reassemble segment d at_ state;
     '(state, batch) ← close_side segment d at_ state batch;
     _ ← (if fs_client_closed state && fs_server_closed state
          then on_db (note_flow_closed (fs_flow_id state) at_)
          else modify (fun l => set_flows (<[key := state]> (ln_flows l)) l));
     mret (non_empty batch))) as Hf.
  { set (ends := match a with
      | Some RemoteToLocal => (destination, source)
      | Some LocalToRemote | None => (source, destination)
      end) in *.
    assert (forall A B (m : LaneM A) (f : A -> LaneM B) a s s', m w s = (Ok a, s') -> (m ≫= f) w s = f a w s')
      as Hstep by (intros A B m f x s s' E; unfold mbind, lane_bind; by rewrite E).
    do 3 (erewrite Hstep by reflexivity; cbv beta zeta). fold key ends.
    destruct ends as [client server]. do 2 (erewrite Hstep by reflexivity; cbv beta zeta).
    specialize (Hf (ln_flows l !! key) (w_now w t) client server w (S t)
      (set_flows (delete key (ln_flows l)) l)).
    destruct Hf as [H1f H2f]. split.
    - intros k Hk. etrans; [exact (H1f k Hk)|]. by apply lookup_delete_ne.
    - intros Hr. etrans; [exact (f_equal (fun m => m !! key) (H2f Hr))|]. apply lookup_delete_eq. }
  intros known at_ client server.
  apply framed_bind; [unfold now_v7; lane_walk|]. intros f. cbv zeta.
  apply framed_bind; [apply same_flows_access|]. intros _.
  destruct (segment_direction _ _ _ _ _) as [d f1].
  apply framed_bind; [apply quiet_reassemble, _|]. intros [f2 b2].
  apply framed_bind; [apply quiet_close_side, _|]. intros [f3 b3].
  case_match; [|apply framed_insert]. apply framed_quiet. lane_walk.
Qed.
End inv.
