(* ===== verification/LaneStore.v ===== *)
(** * The capture lane and the store

    What a persisted batch does to the row of a task, record by record
    ([persist_applied]), and with it what an exchange and the exit of a process
    leave in the store when no other task of the daemon runs in between. *)
From Stdlib Require Import ZArith Lia Strings.Byte Strings.String.
From S2P Require Import Discovery.
From S2P Require Import Prelude RustStr Digest Types Codec Json Http1 Sse Responses Table Sql Model.
From S2P Require Import Mapping Blob Store StoreSteps Ip Attribution Config Lane LaneFlow LaneSteps.
From S2P Require Import LaneInv.
Local Open Scope string_scope.
Local Open Scope list_scope.
Local Open Scope Z_scope.

Section rows.
Context `{UuidApi} `{DigestApi} `{CborApi} `{ZstdApi} `{TimeApi}.
#[local] Abbreviation StoreTx := (Transaction Row StoreError).

(** The row of a task. *)
Definition task_at (tref : string) (db : Database Row) : option ActiveTaskRow :=
  find_key (row_key active_tasks) tref (db active_tasks).
(** What a record makes of the row; [fresh] says that an attempt is new. *)
Definition apply_to (fresh : bool) (tref : string) (record : SummaryRecord) (row : option ActiveTaskRow)
    : option ActiveTaskRow :=
  match record with
  | SummaryRecord_Task s =>
    if String.eqb (task_ref (tsm_task s)) tref
       && negb (is_some_and (fun r => stale r (tsm_sequence s) (tsm_last_event_id s)) row)
    then Some (match row with Some old => merge_summary s old | None => summary_row s end)
    else row
  | SummaryRecord_TaskTransition t =>
    if String.eqb (task_ref (trn_task t)) tref
       && negb (is_some_and (fun r => stale r (trn_sequence t) (trn_event_id t)) row)
    then Some (match row with Some old => merge_transition t old | None => transition_row t None end)
    else row
  | SummaryRecord_Attempt a =>
    if String.eqb (task_ref (ats_task a)) tref && fresh then count_attempt a <$> row else row
  | SummaryRecord_Session s =>
    if String.eqb (task_ref (sns_task s)) tref then merge_session s <$> row else row
  | _ => row
  end.
Inductive applied (tref : string)
    : list SummaryRecord -> option ActiveTaskRow -> option ActiveTaskRow -> Prop :=
| applied_nil row : applied tref [] row row
| applied_cons fresh r rs row row' :
    applied tref rs (apply_to fresh tref r row) row' -> applied tref (r :: rs) row row'.

Lemma applied_inv tref r rs row row' :
  applied tref (r :: rs) row row' -> exists fresh, applied tref rs (apply_to fresh tref r row) row'.
Proof. inversion 1; eauto. Qed.
Lemma applied_nil_inv tref row row' : applied tref [] row row' -> row' = row.
Proof. by inversion 1. Qed.

#[local] Abbreviation task_fetch_Ok := (@Sql.fetch_optional_Ok Tab StoreError Row active_tasks).
Lemma task_at_frame ts (m : Database Row -> Prop) db db' tref :
  active_tasks ∉ ts -> frame ts db db' -> task_at tref db' = task_at tref db.
Proof. intros Ht Hf. unfold task_at. by rewrite (Hf _ Ht). Qed.
Lemma task_at_upsert tref r merge (db : Database Row) :
  (forall old, at_task_ref (merge old) = at_task_ref old) ->
  task_at tref (set_table (Row := Row) active_tasks (upsert (row_key active_tasks) r merge (db active_tasks)) db)
  = if String.eqb (at_task_ref r) tref
    then Some (match task_at tref db with Some old => merge old | None => r end) else task_at tref db.
Proof.
  intros Hm. unfold task_at. tab_simpl. destruct (String.eqb_spec (at_task_ref r) tref) as [<-|Hne].
  - apply (upsert_find (row_key active_tasks)). intros old E. by cbn; rewrite Hm.
  - apply (upsert_find_ne (row_key active_tasks)); [|by cbn]. intros old E. by cbn; rewrite Hm.
Qed.
Lemma task_at_update tref tref' f (db : Database Row) :
  (forall old, at_task_ref (f old) = at_task_ref old) ->
  task_at tref (set_table (Row := Row) active_tasks
    (update_where (fun r => String.eqb (at_task_ref r) tref') f (db active_tasks)) db)
  = if String.eqb tref' tref then f <$> task_at tref db else task_at tref db.
Proof.
  intros Hf. unfold task_at. tab_simpl. rewrite (update_find (row_key active_tasks)) by done.
  destruct (find_key (row_key active_tasks) tref (db active_tasks)) as [r|] eqn:E; cbn; [|by destruct (String.eqb _ _)].
  apply find_key_Some in E as [_ E]. cbn in E. rewrite E, String.eqb_sym. by destruct (String.eqb _ _).
Qed.

Lemma summary_row_at s db b db' tref :
  upsert_task_summary_tx s db = Ok (b, db') ->
  task_at tref db' = apply_to true tref (SummaryRecord_Task s) (task_at tref db).
Proof.
  cbn [apply_to]. intros E. unfold upsert_task_summary_tx in E. cbv zeta in E.
  apply tx_bind_Ok in E as (row & ? & [-> ->]%task_fetch_Ok & E). cbn [Row] in E.
  rewrite find_task in E. fold (task_at (task_ref (tsm_task s)) db) in E.
  destruct (String.eqb_spec (task_ref (tsm_task s)) tref) as [<-|Hne]; cbn [andb].
  + destruct (is_some_and _ _); [by apply tx_ret_Ok in E as [_ ->]|].
    apply tx_bind_Ok in E as ([] & ? & ->%insert_or_update_Ok & [_ ->]%tx_ret_Ok).
    rewrite task_at_upsert by done. cbn [at_task_ref summary_row]. by rewrite String.eqb_refl.
  + destruct (is_some_and _ _); [by apply tx_ret_Ok in E as [_ ->]|].
    apply tx_bind_Ok in E as ([] & ? & ->%insert_or_update_Ok & [_ ->]%tx_ret_Ok).
    rewrite task_at_upsert by done. cbn [at_task_ref summary_row].
    by rewrite (proj2 (String.eqb_neq _ _) Hne).
Qed.

Lemma transition_row_at t db b db' tref :
  upsert_transition_tx t db = Ok (b, db') ->
  task_at tref db' = apply_to true tref (SummaryRecord_TaskTransition t) (task_at tref db).
Proof.
  cbn [apply_to]. intros E. unfold upsert_transition_tx in E. cbv zeta in E.
  apply tx_bind_Ok in E as (row & ? & [-> ->]%task_fetch_Ok & E). cbn [Row] in E.
  rewrite find_task in E. fold (task_at (task_ref (trn_task t)) db) in E.
  destruct (String.eqb_spec (task_ref (trn_task t)) tref) as [<-|Hne]; cbn [andb].
  + destruct (is_some_and _ _); [by apply tx_ret_Ok in E as [_ ->]|].
    apply tx_bind_Ok in E as ([] & ? & ->%insert_or_update_Ok & [_ ->]%tx_ret_Ok).
    rewrite task_at_upsert by done. rewrite transition_row_ref, String.eqb_refl. cbn.
    by destruct (task_at _ db).
  + destruct (is_some_and _ _); [by apply tx_ret_Ok in E as [_ ->]|].
    apply tx_bind_Ok in E as ([] & ? & ->%insert_or_update_Ok & [_ ->]%tx_ret_Ok).
    rewrite task_at_upsert by done. rewrite transition_row_ref.
    by rewrite (proj2 (String.eqb_neq _ _) Hne).
Qed.

Lemma attempt_row_at a db b db' tref :
  upsert_attempt_tx a db = Ok (b, db') ->
  exists fresh, task_at tref db' = apply_to fresh tref (SummaryRecord_Attempt a) (task_at tref db).
Proof.
  cbn [apply_to]. intros E. unfold upsert_attempt_tx in E. cbv zeta in E.
  apply tx_bind_Ok in E as (ex & ? & [_ ->]%fetch_optional_Ok & E).
  apply tx_bind_Ok in E as ([] & db1 & ->%insert_or_update_Ok & E).
  match type of E with context [set_table attempts ?rows db] => set (db1 := set_table attempts rows db) in * end.
  assert (forall k, task_at k db1 = task_at k db) as Hdb1 by (intros k; unfold task_at, db1; by tab_simpl).
  destruct (is_none ex).
  + apply tx_bind_Ok in E as (row & ? & [-> ->]%task_fetch_Ok & E). cbn [Row] in E.
    rewrite find_task in E. fold (task_at (task_ref (ats_task a)) db1) in E.
    destruct (task_at (task_ref (ats_task a)) db1) as [row|] eqn:Er.
    * apply tx_bind_Ok in E as ([] & ? & ->%update_Ok & [_ ->]%tx_ret_Ok). exists true.
      rewrite task_at_update, andb_true_r by done. by rewrite Hdb1.
    * apply tx_ret_Ok in E as [_ ->]. exists false. by rewrite andb_false_r, Hdb1.
  + apply tx_ret_Ok in E as [_ ->]. exists false. by rewrite andb_false_r, Hdb1.
Qed.

Lemma apply_record_row r db b db' tref :
  apply_record_tx r db = Ok (b, db') ->
  exists fresh, task_at tref db' = apply_to fresh tref r (task_at tref db).
Proof.
  assert (forall ts A (m : StoreTx A) a, active_tasks ∉ ts -> tx_rel (frame ts) m -> m db = Ok (a, db') ->
    task_at tref db' = task_at tref db) as Hframe.
  { intros ts A m a Ht Hm E. eapply (task_at_frame ts (fun _ => True)); [done | by eapply Hm]. }
  destruct r as [s|s|t|a|g|h|pr|e]; cbn [apply_record_tx apply_to]; intros E.
  - exists true. unfold merge_session_tx in E. cbv zeta in E.
    apply tx_bind_Ok in E as (rows & ? & [_ ->]%fetch_all_Ok & E).
    apply tx_bind_Ok in E as ([] & ? & ->%update_Ok & [_ ->]%tx_ret_Ok).
    by apply task_at_update.
  - exists true. by eapply summary_row_at.
  - exists true. apply tx_bind_Ok in E as (bb & db1 & E & [_ ->]%tx_ret_Ok). by eapply transition_row_at.
  - by eapply attempt_row_at.
  - exists true. by apply tx_ret_Ok in E as [_ ->].
  - exists true. eapply (Hframe [capture_gaps]); [set_solver| |exact E]. unfold upsert_gap_tx. tx_walk.
  - exists true. eapply (Hframe [processes]); [set_solver| |exact E]. unfold upsert_process_tx. tx_walk.
  - exists true. by apply tx_ret_Ok in E as [_ ->].
Qed.
Lemma apply_records_rows rs db r db' tref :
  apply_records rs db = Ok (r, db') -> applied tref rs (task_at tref db) (task_at tref db').
Proof.
  revert db r. induction rs as [|rec rs IH]; intros db r; cbn [apply_records].
  - intros [_ ->]%tx_ret_Ok. constructor.
  - intros (b & db1 & [fresh E1]%(apply_record_row _ _ _ _ tref) & E)%tx_bind_Ok.
    apply tx_bind_Ok in E as (rest & db2 & E2 & [_ ->]%tx_ret_Ok).
    apply (applied_cons _ fresh). rewrite <- E1. by eapply IH.
Qed.
Lemma enqueue_task_at client sp rs db n db' tref :
  enqueue_records_tx client sp rs db = Ok (n, db') -> task_at tref db' = task_at tref db.
Proof.
  intros E. eapply (task_at_frame [outbox] (fun _ => True)); [set_solver|].
  eapply (part_frame client _ _ (part_enqueue client sp rs)). exact E.
Qed.
(** A persisted batch acts on the row of every task record by record; the contents
    and the outbox have no part in it. *)
Lemma persist_applied sp records contents s o s' tref :
  persist_ingress sp records contents s = (Ok o, s') ->
  applied tref (map normalize_record records) (task_at tref (cs_db s)) (task_at tref (cs_db s')).
Proof.
  unfold persist_ingress. destruct (apply_records _ (cs_db s)) as [[[acc dup] db1]|e] eqn:E1; [|done].
  destruct (store_contents _ _ _ db1) as [fs' [db2|e]] eqn:E2; [|done].
  destruct (enqueue_records_tx _ _ _ db2) as [[n db3]|e] eqn:E3; [|done]. intros [= _ <-]. cbn [cs_db set_fs set_db].
  apply enqueue_task_at with (tref := tref) in E3. rewrite E3.
  assert (task_at tref db2 = task_at tref db1) as ->.
  { eapply (task_at_frame [raw_objects] (fun _ => True)); [set_solver|].
    eapply (store_contents_rel (frame [raw_objects])); [|exact E2].
    intros b Hb. exact (part_frame (cs_client s) _ _ (part_object (cs_client s) b Hb)). }
  by eapply apply_records_rows.
Qed.
End rows.

(** ** Reads of a lane that is alone *)
Section alone.
Context `{UuidApi} `{DigestApi} `{CborApi} `{ZstdApi} `{TimeApi}
  `{HttparseApi} `{HttpApi} `{!UriApi} `{DecompressApi} `{JsonApi} `{!JsonViewApi} `{H2.HpackApi}.

#[local] Abbreviation task_fetch_Ok := (@Sql.fetch_optional_Ok Tab StoreError Row active_tasks).
(** No other task uses the store between the lane's accesses. *)
Definition alone (w : World) : Prop := forall t, w_env w t = [].

Lemma lane_bind_Ok {A B} (m : LaneM A) (f : A -> LaneM B) w s b s' :
  (m ≫= f) w s = (Ok b, s') <-> exists a s1, m w s = (Ok a, s1) /\ f a w s1 = (Ok b, s').
Proof.
  unfold mbind, lane_bind. destruct (m w s) as [[a|e] s1]; split.
  - eauto.
  - by intros (? & ? & [= -> ->] & ?).
  - done.
  - by intros (? & ? & ? & ?).
Qed.
Definition task_row (task : TaskKey) (l : LiveCaptureLane) : option ActiveTaskRow :=
  task_at (task_ref task) (cs_db (ln_store l)).

(** The cursor of a row. *)
Definition cursor_of (row : ActiveTaskRow) (c : TaskCursor) : Prop :=
  exists started_at updated_at,
    c = mkTaskCursor (at_sequence row) (at_conversation_title row) (at_attempt_count row)
      (at_phase row) (at_outcome row) started_at updated_at (at_completeness row) (at_model row)
      (at_tool_names row) (at_response_ids row) (at_usage row).
Definition read_as (row : option ActiveTaskRow) (c : option TaskCursor) : Prop :=
  match row, c with
  | Some row, Some c => cursor_of row c
  | None, None => True
  | _, _ => False
  end.
Lemma cursor_read w t l task c t' l' : alone w ->
  on_db (load_task_cursor task) w (t, l) = (Ok c, (t', l')) -> l' = l /\ read_as (task_row task l) c.
Proof.
  intros Hw. unfold on_db, access. rewrite Hw. cbn [fold_left]. unfold run_db, run_tx.
  destruct (load_task_cursor task (cs_db (ln_store l))) as [[c' db]|e] eqn:E; [|done].
  apply load_task_cursor_reads in E as Edb. subst db. cbn [map_err].
  intros [= -> _ <-]. rewrite set_db_same. split; [by destruct l|].
  unfold load_task_cursor in E. apply tx_bind_Ok in E as (row & ? & [-> ->]%task_fetch_Ok & E).
  cbn [Row] in E. rewrite find_task in E. fold (task_at (task_ref task) (cs_db (ln_store l))) in E.
  unfold task_row. destruct (task_at _ _) as [row|]; cbn.
  - apply tx_bind_Ok in E as (st & ? & [_ ->]%some_or_Ok & E).
    apply tx_bind_Ok in E as (up & ? & [_ ->]%some_or_Ok & [-> _]%tx_ret_Ok). by exists st, up.
  - by apply tx_ret_Ok in E as [-> _].
Qed.

(** ** The exit of a process *)
(** A record of the task [tref] has sequence number [q] and a projection in [P]. *)
Definition ends (P : TaskPhase -> option TaskOutcome -> Prop) (tref : string) (q : Z) (r : SummaryRecord)
    : Prop :=
  match r with
  | SummaryRecord_Task s =>
    task_ref (tsm_task s) = tref -> P (tsm_phase s) (tsm_outcome s) /\ tsm_sequence s = q
  | SummaryRecord_TaskTransition t =>
    task_ref (trn_task t) = tref -> P (trn_phase t) (trn_outcome t) /\ trn_sequence t = q
  | SummaryRecord_Attempt a => False
  | SummaryRecord_Session _ => False
  | _ => True
  end.
Definition summarises (tref : string) (r : SummaryRecord) : Prop :=
  match r with SummaryRecord_Task s => task_ref (tsm_task s) = tref | _ => False end.
Lemma ends_normalize P tref q r : ends P tref q r -> ends P tref q (normalize_record r).
Proof. by destruct r. Qed.
Lemma summarises_normalize tref r : summarises tref r -> summarises tref (normalize_record r).
Proof. by destruct r. Qed.

Lemma applied_ends P tref q rs row row' :
  Forall (ends P tref q) rs -> applied tref rs (Some row) row' ->
  (P (at_phase row) (at_outcome row) \/ at_sequence row < q /\ Exists (summarises tref) rs) ->
  exists r', row' = Some r' /\ P (at_phase r') (at_outcome r').
Proof.
  intros Hrs Ha. remember (Some row) as o eqn:Eo. revert row Eo.
  induction Ha as [o|fresh r rs o row' Ha IH]; intros row ->.
  - intros [?|[_ Hex]]; [eauto | by apply Exists_nil in Hex].
  - apply Forall_cons in Hrs as [Hr Hrs]. intros Hrow.
    destruct r as [s|s|t|a|g|h|p|e]; cbn [ends] in Hr; try done; cbn [apply_to is_some_and] in IH.
    + destruct (String.eqb_spec (task_ref (tsm_task s)) tref) as [Et|Et]; cbn [andb] in IH.
      * destruct (Hr Et) as [Hp Hq]. destruct (stale row _ _) eqn:Est; cbn [negb] in IH.
        -- apply (IH Hrs _ eq_refl). destruct Hrow as [?|[Hlt _]]; [by left|].
           unfold stale in Est. simpl_bools. lia.
        -- apply (IH Hrs _ eq_refl). by left.
      * apply (IH Hrs _ eq_refl). destruct Hrow as [?|[Hlt [|]%Exists_cons]]; [by left|done|by right].
    + destruct (String.eqb_spec (task_ref (trn_task t)) tref) as [Et|Et]; cbn [andb] in IH.
      * destruct (Hr Et) as [Hp Hq]. destruct (stale row _ _) eqn:Est; cbn [negb] in IH.
        -- apply (IH Hrs _ eq_refl). destruct Hrow as [?|[Hlt _]]; [by left|].
           unfold stale in Est. simpl_bools. lia.
        -- apply (IH Hrs _ eq_refl). by left.
      * apply (IH Hrs _ eq_refl). destruct Hrow as [?|[Hlt [|]%Exists_cons]]; [by left|done|by right].
    + apply (IH Hrs _ eq_refl). destruct Hrow as [?|[Hlt [|]%Exists_cons]]; [by left|done|by right].
    + apply (IH Hrs _ eq_refl). destruct Hrow as [?|[Hlt [|]%Exists_cons]]; [by left|done|by right].
    + apply (IH Hrs _ eq_refl). destruct Hrow as [?|[Hlt [|]%Exists_cons]]; [by left|done|by right].
    + apply (IH Hrs _ eq_refl). destruct Hrow as [?|[Hlt [|]%Exists_cons]]; [by left|done|by right].
Qed.

(** What the exit of [process] makes of a task. *)
Definition exited (process : ProcessSummary) (phase : TaskPhase) (outcome : option TaskOutcome) : Prop :=
  phase = TaskPhase_Terminal /\ outcome = Some (exit_outcome process).1.
Lemma exit_tasks_records process at_ tasks w t l recs t' l' : alone w ->
  exit_tasks process at_ tasks w (t, l) = (Ok recs, (t', l')) ->
  l' = l
  /\ (forall tref row, task_at tref (cs_db (ln_store l)) = Some row ->
       Forall (ends (exited process) tref (wrap64 (at_sequence row + 1))) recs)
  /\ (forall task row, task ∈ tasks -> task_row task l = Some row -> at_phase row <> TaskPhase_Terminal ->
       Exists (summarises (task_ref task)) recs).
Proof.
  intros Hw. revert t recs t'. induction tasks as [|task tasks IH]; intros t recs t'; cbn [exit_tasks].
  { intros [= <- <- <-]. split; [done|]. split; [by constructor|]. intros ? ? []%elem_of_nil. }
  intros E. apply lane_bind_Ok in E as (c & [t1 l1] & Ec & E).
  apply cursor_read in Ec as [-> Hc]; [|done].
  apply lane_bind_Ok in E as (here & [t2 l2] & Eh & E).
  apply lane_bind_Ok in E as (more & [t3 l3] & Em & [= <- _ <-]).
  assert (l2 = l /\ (forall tref row, task_at tref (cs_db (ln_store l)) = Some row ->
       Forall (ends (exited process) tref (wrap64 (at_sequence row + 1))) here)
    /\ (forall row, task_row task l = Some row -> at_phase row <> TaskPhase_Terminal ->
       Exists (summarises (task_ref task)) here)) as (-> & Hends & Hsum).
  { destruct c as [c|], (task_row task l) as [row|] eqn:Erow; try done; cbn in Hc.
    - destruct Hc as (st & up & ->). cbn [tc_phase] in Eh. case_bool_decide as Hp.
      + injection Eh as <- _ <-. split; [done|]. split; [by constructor|]. by intros ? [= ->].
      + destruct (exit_outcome process) as [outcome error] eqn:Eo.
        apply lane_bind_Ok in Eh as (name & ? & [= <- <-] & Eh).
        apply lane_bind_Ok in Eh as (id & ? & [= <- <-] & Eh). injection Eh as <- _ <-.
        split; [done|]. split.
        * intros tref r Hr. unfold task_row in Erow.
          assert (task_ref task = tref -> row = r) as Heq by (intros <-; congruence).
          apply Forall_cons; split; [|apply Forall_cons; split; [|constructor]]; cbn;
            intros Et; (split; [unfold exited; by rewrite Eo|]); by rewrite (Heq Et).
        * intros r _ _. by left.
    - injection Eh as <- _ <-. split; [done|]. by split; [constructor|]. }
  destruct (IH _ _ _ Em) as (-> & Hends' & Hsum'). split; [done|]. split.
  - intros tref row Hr. apply Forall_app. auto.
  - intros k row [->|Hk]%elem_of_cons Hr Hp; apply Exists_app; [left | right]; eauto.
Qed.

(** What an exit stores: the records of the tasks of the process, in one batch. *)
Lemma exit_stored process w t l o t' l' :
  alone w -> world_ok w ->
  ingest_input (Discovery.CaptureInput_ProcessExit process) w (t, l) = (Ok o, (t', l')) ->
  let id := prs_process_instance_id process in
  ln_process_tasks l' = delete id (ln_process_tasks l)
  /\ exists recs,
       (forall task, applied (task_ref task) (map normalize_record (SummaryRecord_Process process :: recs))
          (task_row task l) (task_row task l'))
       /\ (forall task row, task_row task l = Some row ->
            Forall (ends (exited process) (task_ref task) (wrap64 (at_sequence row + 1))) recs)
       /\ (forall task row, task ∈ tasks_of id l -> task_row task l = Some row ->
            at_phase row <> TaskPhase_Terminal -> Exists (summarises (task_ref task)) recs).
Proof.
  intros Hw Hok E id. unfold ingest_input, handle_input in E.
  apply lane_bind_Ok in E as (batch & [t1 l1] & E & Ep).
  apply lane_bind_Ok in E as (tasks & ? & [= <- <-] & E).
  apply lane_bind_Ok in E as ([] & ? & [= <-] & E).
  apply lane_bind_Ok in E as (order & ? & [= <- <-] & E). fold id in E.
  apply lane_bind_Ok in E as (b & [t2 l2] & E & [= <- <- <-]).
  unfold project_process_exit in E. apply lane_bind_Ok in E as (at_ & [t3 l3] & Ea & E).
  apply lane_bind_Ok in E as (recs & [t4 l4] & E & [= <- <- <-]).
  set (l0 := set_tasks (delete id (ln_process_tasks l)) l) in *.
  assert (l3 = l0) as -> by (destruct (prs_exited_at process); by injection Ea).
  apply exit_tasks_records in E as (-> & Hends & Hsum); [|done].
  cbn [non_empty is_empty cb_records length bool_decide andb] in Ep.
  apply lane_bind_Ok in Ep as (outcome & [t5 l5] & Ep & [= _ <- <-]).
  unfold access in Ep. rewrite Hw in Ep. cbn [fold_left cb_records cb_contents] in Ep.
  destruct (persist_ingress _ _ _ _) as [r s'] eqn:Es in Ep. destruct r as [r|e]; [|done].
  cbn [map_err] in Ep. injection Ep as _ _ <-. cbn [ln_process_tasks set_store].
  split; [done|]. exists recs. split; [|split].
  - intros task. by apply (persist_applied _ _ _ _ _ _ (task_ref task)) in Es.
  - intros task row Hrow. by apply Hends.
  - intros task row Ht Hrow Hp. apply (Hsum task row); [|done|done].
    destruct Hok as [_ Hok]. rewrite (Hok _ _). by apply elem_of_elements.
Qed.

(** [C10] When the exit of a process has been ingested, none of its tasks is left
    running: every task the lane knew of it, through a flow or an earlier
    exchange, is terminal in the store; one that was not terminal before is
    terminated if the process failed or was killed, and lost otherwise; and the
    lane has forgotten the process. *)
Theorem exit_terminates process w t l o t' l' :
  alone w -> world_ok w ->
  ingest_input (Discovery.CaptureInput_ProcessExit process) w (t, l) = (Ok o, (t', l')) ->
  let id := prs_process_instance_id process in
  (forall task row, task ∈ tasks_of id l -> task_row task l = Some row -> 0 <= at_sequence row < u64_max) ->
  ln_process_tasks l' !! id = None
  /\ forall task row, task ∈ tasks_of id l -> task_row task l = Some row ->
       exists row', task_row task l' = Some row' /\ at_phase row' = TaskPhase_Terminal
       /\ (at_phase row <> TaskPhase_Terminal -> at_outcome row' = Some (exit_outcome process).1).
Proof.
  intros Hw Hok E id Hseq.
  destruct (exit_stored _ _ _ _ _ _ _ Hw Hok E) as (Htasks & recs & Es & Hends & Hsum). fold id in Htasks, Hsum.
  split; [rewrite Htasks; apply lookup_delete_eq|]. intros task row Ht Hrow.
  specialize (Hseq _ _ Ht Hrow). specialize (Es task). rewrite Hrow in Es. specialize (Hends task row Hrow).
  assert (wrap64 (at_sequence row + 1) = at_sequence row + 1) as Hq
    by (apply wrap_small; unfold u64_max in *; lia).
  rewrite Hq in Hends.
  assert (forall P : TaskPhase -> option TaskOutcome -> Prop,
    (forall p o, exited process p o -> P p o) ->
    Forall (ends P (task_ref task) (at_sequence row + 1))
      (map normalize_record (SummaryRecord_Process process :: recs))) as Hall.
  { intros P HP. cbn [map]. apply Forall_cons. split; [done|]. apply Forall_map.
    eapply Forall_impl; [exact Hends|]. intros x Hx. apply ends_normalize.
    destruct x; cbn in *; try done; intros Et; destruct (Hx Et); auto. }
  destruct (decide (at_phase row = TaskPhase_Terminal)) as [Hp|Hp].
  - destruct (applied_ends (fun p _ => p = TaskPhase_Terminal) _ _ _ _ _
      (Hall _ (fun p o Hx => proj1 Hx)) Es) as (r' & Hr' & Hph); [by left|].
    exists r'. split; [exact Hr'|]. by split.
  - destruct (applied_ends _ _ _ _ _ _ (Hall _ (fun p o Hx => Hx)) Es) as (r' & Hr' & Hph & Hout).
    + right. split; [lia|]. cbn [map]. apply Exists_cons. right.
      destruct (proj1 (Exists_exists _ _) (Hsum task row Ht Hrow Hp)) as (x & Hx & Hs).
      apply Exists_exists. exists (normalize_record x). split; [by apply list_elem_of_fmap_2|].
      by apply summarises_normalize.
    + exists r'. split; [exact Hr'|]. by split.
Qed.

(** ** An exchange *)
Definition lane_task (l : LiveCaptureLane) (x : DecodedExchange) : TaskKey :=
  exchange_task (cf_client_id (ln_config l)) (dx_attempt x).
Lemma exchange_records x w t l batch t' l' : alone w ->
  project_exchange x w (t, l) = (Ok batch, (t', l')) ->
  l' = l
  /\ (batch = no_batch
      \/ exists current name started_at event_id updated_at terminal_at finished_at http,
          let task := lane_task l x in
          let a := dx_attempt x in
          let p := map_attempt_projection a in
          let s := exchange_summary task current a p name started_at event_id updated_at terminal_at in
          read_as (task_row task l) current
          /\ cb_records batch =
               [SummaryRecord_Session (mkSessionSummary task (cm_parent_turn_id (da_codex a))
                  (cm_root_turn_id (da_codex a)) started_at);
                SummaryRecord_Attempt (exchange_attempt task (next_ordinal current) a p finished_at.1 finished_at.2);
                SummaryRecord_HttpExchange http; SummaryRecord_Task s;
                SummaryRecord_TaskTransition (transition_of (pj_cause p) s)]).
Proof.
  intros Hw E. unfold project_exchange in E. destruct (negb _); [injection E as <- _ <-; eauto|].
  apply lane_bind_Ok in E as (config & ? & [= <- <-] & E).
  apply lane_bind_Ok in E as (known & [t1 l1] & Ek & E).
  assert (l1 = l) as ->.
  { destruct (pj_response_id _); [|by injection Ek]. unfold access in Ek. rewrite Hw in Ek.
    injection Ek as _ _ <-. by destruct l. }
  destruct known; [injection E as <- _ <-; eauto|].
  apply lane_bind_Ok in E as (current & [t2 l2] & Ec & E). apply cursor_read in Ec as [-> Hc]; [|done].
  unfold exchange_batch, expect, title, now, now_v7, content_clock in E.
  apply lane_bind_Ok in E as (request_at & ? & [= _ <-] & E).
  repeat (apply lane_bind_Ok in E as (? & ? & [= _ <-] & E)).
  injection E as <- _ <-. split; [done|]. right. do 6 eexists. eexists (_, _). eexists. split; [exact Hc|].
  cbn [cb_records fst snd]. reflexivity.
Qed.

(** A newer summary replaces the row; the transition that goes with it is then stale. *)
Lemma apply_newer fresh s row :
  (forall r, row = Some r -> at_sequence r < tsm_sequence s) ->
  apply_to fresh (task_ref (tsm_task s)) (SummaryRecord_Task s) row
  = Some (match row with Some r => merge_summary s r | None => summary_row s end).
Proof.
  intros Hlt. cbn [apply_to]. rewrite String.eqb_refl. destruct row as [r|]; [|done].
  specialize (Hlt r eq_refl). cbn [is_some_and]. unfold stale.
  by rewrite (proj2 (Z.ltb_ge _ _)), (proj2 (Z.eqb_neq _ _)) by lia.
Qed.
Lemma apply_transition_stale fresh tref t row :
  at_sequence row = trn_sequence t -> at_last_event_id row = trn_event_id t ->
  apply_to fresh tref (SummaryRecord_TaskTransition t) (Some row) = Some row.
Proof.
  intros Hq He. cbn [apply_to is_some_and]. unfold stale.
  by rewrite <- Hq, <- He, Z.eqb_refl, bool_decide_eq_true_2, orb_true_r, andb_false_r by done.
Qed.

(** The five records on the row: the summary wins, over what the session record
    set if there was a row. *)
Lemma applied_exchange tref ses att http s cause old row' :
  task_ref (sns_task ses) = tref -> task_ref (ats_task att) = tref -> task_ref (tsm_task s) = tref ->
  (forall r, old = Some r -> at_sequence r < tsm_sequence s) ->
  applied tref (map normalize_record
    [SummaryRecord_Session ses; SummaryRecord_Attempt att; SummaryRecord_HttpExchange http;
     SummaryRecord_Task s; SummaryRecord_TaskTransition (transition_of cause s)]) old row' ->
  exists row, row' = Some row
    /\ at_sequence row = tsm_sequence s /\ at_attempt_count row = tsm_attempt_count s
    /\ at_phase row = tsm_phase s /\ at_outcome row = tsm_outcome s
    /\ at_completeness row = tsm_completeness s
    /\ at_last_error row = normalize_error_opt (tsm_last_error s)
    /\ at_tool_names row = tsm_tool_names s /\ at_response_ids row = tsm_response_ids s
    /\ at_usage row = tsm_usage s
    /\ at_parent_turn_id row = from_option (fun r => opt_or (sns_parent_turn_id ses) (at_parent_turn_id r)) None old
    /\ at_root_turn_id row = from_option (fun r => opt_or (sns_root_turn_id ses) (at_root_turn_id r)) None old.
Proof.
  intros Es Ea <- Hseq Happ. cbn [map normalize_record normalize_record_error] in Happ.
  apply applied_inv in Happ as [? Happ]. cbn [apply_to] in Happ. rewrite Es, String.eqb_refl in Happ.
  apply applied_inv in Happ as [f Happ]. cbn [apply_to ats_task] in Happ.
  rewrite Ea, String.eqb_refl in Happ. cbn [andb] in Happ.
  apply applied_inv in Happ as [? Happ]. cbn [apply_to] in Happ.
  apply applied_inv in Happ as [? Happ].
  match type of Happ with context [apply_to _ _ (SummaryRecord_Task ?s') ?mid] =>
    change (tsm_task s) with (tsm_task s') in Happ;
    rewrite (apply_newer _ s' mid) in Happ by (destruct f, old; cbn; intros ? [= <-]; by apply (Hseq _ eq_refl))
  end.
  apply applied_inv in Happ as [? Happ].
  rewrite apply_transition_stale in Happ by (destruct f, old; done).
  apply applied_nil_inv in Happ as ->. eexists. split; [done|]. by destruct f, old.
Qed.

(** What the projection of an exchange takes from the cursor, in terms of the row. *)
Lemma read_as_row old cur : read_as old cur ->
  (forall r, old = Some r -> 0 <= at_sequence r < u64_max /\ 0 <= at_attempt_count r < u32_max) ->
  next_sequence cur = from_option (fun r => at_sequence r + 1) 1 old
  /\ next_ordinal cur = from_option (fun r => at_attempt_count r + 1) 1 old
  /\ unwrap_or [] (tc_tool_names <$> cur) = from_option at_tool_names [] old
  /\ unwrap_or [] (tc_response_ids <$> cur) = from_option at_response_ids [] old
  /\ tc_usage <$> cur = at_usage <$> old.
Proof.
  destruct old as [r|], cur as [c|]; try done; cbn [read_as].
  intros (st & up & ->) Hb. destruct (Hb r eq_refl) as [Hs Hn].
  unfold next_sequence, next_ordinal, u64_max, u32_max in *. cbn.
  by rewrite !wrap_small by lia.
Qed.

(** An exchange in the store.  When a turn's exchange that was not known yet
    has been projected and its batch persisted, the row of its task has moved
    on by exactly one sequence number and one attempt, and holds the projection
    of the exchange; its tools and response identifiers are those it had and
    the new ones, each once, and its usage is updated where the exchange gives
    a number.  The parent and the root turn reach the row only if it existed
    before: the session record is applied first, so those of the first exchange
    of a task are lost. *)
Theorem exchange_recorded x w t l batch t' l' sp o s' :
  alone w -> project_exchange x w (t, l) = (Ok batch, (t', l')) -> is_empty batch = false ->
  persist_ingress sp (cb_records batch) (cb_contents batch) (ln_store l') = (Ok o, s') ->
  let task := lane_task l x in
  let a := dx_attempt x in
  let p := map_attempt_projection a in
  let old := task_row task l in
  (forall r, old = Some r -> 0 <= at_sequence r < u64_max /\ 0 <= at_attempt_count r < u32_max) ->
  exists row, task_at (task_ref task) (cs_db s') = Some row
    /\ at_sequence row = from_option (fun r => at_sequence r + 1) 1 old
    /\ at_attempt_count row = from_option (fun r => at_attempt_count r + 1) 1 old
    /\ at_phase row = pj_task_phase p /\ at_outcome row = pj_task_outcome p
    /\ at_completeness row = pj_completeness p
    /\ at_last_error row = normalize_error_opt (pj_error p)
    /\ at_tool_names row = Lane.merge_unique (from_option at_tool_names [] old) (pj_tool_names p)
    /\ at_response_ids row
       = Lane.merge_unique (from_option at_response_ids [] old) (option_list (pj_response_id p))
    /\ at_usage row = merge_usage (at_usage <$> old) (Some (pj_usage p))
    /\ at_parent_turn_id row
       = from_option (fun r => opt_or (cm_parent_turn_id (da_codex a)) (at_parent_turn_id r)) None old
    /\ at_root_turn_id row
       = from_option (fun r => opt_or (cm_root_turn_id (da_codex a)) (at_root_turn_id r)) None old.
Proof.
  intros Hw E Hne Es task a p old Hold.
  destruct (exchange_records _ _ _ _ _ _ _ Hw E) as [-> [->|(cur & name & st & id & up & te & fin & h & Hc & Er)]];
    [done|].
  fold task a p in Hc, Er. fold old in Hc.
  destruct (read_as_row _ _ Hc Hold) as (Hcs & Hcn & Hct & Hcr & Hcu).
  apply (persist_applied _ _ _ _ _ _ (task_ref task)) in Es. rewrite Er in Es.
  change (task_at (task_ref task) (cs_db (ln_store l))) with old in Es.
  eapply applied_exchange in Es as (row & -> & Hs & Hn & Hp & Ho & Hcm & He & Htn & Hr & Hu & Hpt & Hrt);
    [|done..|].
  - exists row. cbn [exchange_summary tsm_sequence tsm_attempt_count tsm_tool_names tsm_response_ids tsm_usage]
      in Hs, Hn, Htn, Hr, Hu.
    rewrite Hcs in Hs. rewrite Hcn in Hn. rewrite Hct in Htn. rewrite Hcr in Hr. rewrite Hcu in Hu. done.
  - intros r Ho. cbn [exchange_summary tsm_sequence]. rewrite Hcs, Ho. cbn. lia.
Qed.
End alone.
