(* ===== verification/LaneFixture.v ===== *)
(** * A concrete capture lane

    The parameters of the lane instantiated with small concrete functions, a
    recorded exchange and the exit of its process, and the witnesses of the
    theorems about the lane on them.  Nothing here models code. *)
From Stdlib Require Import ZArith Lia Strings.Byte Strings.String.
From S2P Require Import H2 Discovery.
From S2P Require Import Prelude RustStr Digest Types Fixtures Codec Json Http1 Sse Responses Table Sql.
From S2P Require Import Model Mapping Blob Store StoreSteps Ip Attribution Config Lane LaneFlow.
From S2P Require Import LaneSteps LaneHttp LaneInv LaneStore.
Local Open Scope string_scope.
Local Open Scope list_scope.
Local Open Scope Z_scope.

Module LaneFixture.
Import TimeFixture CodecFixture BlobFixture HttpFixture.
Import ResponsesFixture.
(** The documents of the fixture, and an event with a tool call. *)
Definition call : json :=
  JObj [("type", JStr "response.output_item.done");
        ("item", JObj [("type", JStr "function_call"); ("name", JStr "shell")])].
Definition last : json :=
  JObj [("type", JStr "response.completed");
        ("response", JObj [("id", JStr "r2"); ("usage", JObj [("output_tokens", JNum 4)])])].
Definition parse (s : string) : result string json :=
  ok_or "expected value" (field (("CALL", call) :: ("LAST", last) :: documents) s).
#[export] Instance json_fixture : JsonApi := {|
  Value := json;
  from_slice b := parse (of_bytes b);
  from_str := parse;
  json_get v k := match v with JObj f => field f k | _ => None end;
  as_str v := match v with JStr s => Some s | _ => None end;
  as_bool v := match v with JBool b => Some b | _ => None end;
  as_u64 v := match v with JNum z => Some z | _ => None end;
  as_array _ := None;
  is_object v := match v with JObj _ => true | _ => false end;
  value_to_string _ := "" |}.
#[export] Instance json_view : JsonViewApi := {| view _ := Json_Null; values_to_vec _ := [] |}.
#[export] Instance decompress : DecompressApi := ResponsesFixture.decompress_fixture.
#[export] Instance uri : UriApi := fun u => u.
#[export] Instance hpack : H2.HpackApi := H2.H2Fixture.hpack.
(** A writer that loses everything: the lane's theorems do not need the reader. *)
#[export] Instance cbor : CborApi := {|
  ser_error := unit; de_error := unit; into_writer _ := Ok [x2a]; from_reader _ := Err tt |}.

(** Heads of lines ended by CR LF; a header's name and value are separated by
    [": "]. *)
Fixpoint lines (fuel : nat) (b : bytes) : list bytes :=
  match fuel, find_sub CRLF b with
  | S fuel', Some n => take n b :: lines fuel' (drop (n + 2) b)
  | _, _ => [b]
  end.
Definition split_at (sep b : bytes) : option (bytes * bytes) :=
  (fun n => (take n b, drop (n + length sep) b)) <$> find_sub sep b.
Definition header (l : bytes) : option (string * bytes) :=
  (fun p => (of_bytes p.1, p.2)) <$> split_at (as_bytes ": ") l.
Definition head (b : bytes) : option (nat * (list bytes * list (string * bytes))) :=
  match find_sub HEAD_END b with
  | None => None
  | Some n =>
    match lines n (take n b) with
    | first :: rest =>
      match split_at [x20] first with
      | Some (x, rest1) =>
        match split_at [x20] rest1 with
        | Some (y, _) => Some ((n + 4)%nat, ([x; y], omap header rest))
        | None => None
        end
      | None => None
      end
    | [] => None
    end
  end.
#[export] Instance httparse : HttparseApi := {|
  request_parse b :=
    match head b with
    | Some (n, ([method; path], headers)) =>
      Some (Complete n, mkHpRequest (Some (of_bytes method)) (Some (of_bytes path)) (Some 1) headers)
    | _ => None
    end;
  response_parse b :=
    match head b with
    | Some (n, ([_; code], headers)) =>
      Some (Complete n, mkHpResponse (match from_str_radix 10 65535 code with Some c => Some c | None => None end)
                          (Some 1) headers)
    | _ => None
    end |}.

Definition text (ls : list string) : bytes := concat (map (fun l => as_bytes l ++ CRLF) ls).
Definition request : bytes :=
  text ["POST /v1/responses HTTP/1.1"; "x-codex-turn-metadata: META"; "content-length: 3"; ""] ++ as_bytes "REQ".
(** An event stream of documents with names of four letters. *)
Definition stream (length : string) (names : list string) : bytes :=
  text ["HTTP/1.1 200 OK"; "content-type: text/event-stream"; "content-length: " +:+ length; ""]
  ++ concat (map (fun name => as_bytes ("data: " +:+ name) ++ [x0a; x0a]) names).
(** A tool is called before the end. *)
Definition response : bytes := stream "24" ["CALL"; "DONE"].

Definition process_id : Uuid := uuid7 7.
Definition segment (from_client : bool) (sequence : Z) (payload : bytes) : TcpSegment :=
  if from_client
  then mkTcpSegment "10.0.0.1" 4000 "10.0.0.2" 443 sequence 0 false false false payload
  else mkTcpSegment "10.0.0.2" 443 "10.0.0.1" 4000 sequence 0 false false false payload.
Definition input (from_client : bool) (sequence : Z) (payload : bytes) : Discovery.CaptureInput :=
  Discovery.CaptureInput_AttributedTcpSegment (segment from_client sequence payload) process_id
    (if from_client then LocalToRemote else RemoteToLocal).

(** The clock ticks once a second; identifiers are numbered. *)
Definition world : World := {|
  w_now t := (1000 + Z.of_nat t) * 10 ^ 9;
  w_uuid t := uuid7 (5000 + N.of_nat t);
  w_title _ _ := Some "title";
  w_streams _ l := l;
  w_tasks _ l := l;
  w_env _ := [];
  w_supply t := mkSupply (fun b => uuid7 (100000 * N.of_nat (S t) + N.of_nat b))
    (fun b i => uuid7 (1000000 * N.of_nat (S t) + 1000 * N.of_nat b + N.of_nat i))
    (fun b i => uuid7 (2000000 * N.of_nat (S t) + 1000 * N.of_nat b + N.of_nat i))
    (fun _ => 5000) (fun _ => 5000) (fun _ => 5000) |}.
Definition config : ClientConfig :=
  mkClientConfig "client" (uuid7 2) "/data" "/data/db" "/blobs" "https://server" "token" 25 60 1000 30 5 100
    None None "codex" [443] None None None "0.1".
Definition client : ClientInstance := mkClientInstance "client" (uuid7 2) "host" "linux" "0.1" 900.
Definition lane0 : LiveCaptureLane := LiveCaptureLane_new config (open_empty "/blobs" client).
Definition inputs : list Discovery.CaptureInput :=
  [input true 1 (take 20 request); input true 21 (drop 20 request); input false 1 response].
Definition run (inputs : list Discovery.CaptureInput) : result LaneError unit * (nat * LiveCaptureLane) :=
  run_capture_ingest_loop inputs world (0%nat, lane0).

Lemma alone_world : alone world.
Proof. done. Qed.
Lemma world_fine : world_ok world.
Proof. by split. Qed.
Lemma store0_reachable : store_reachable (ln_store lane0).
Proof. exists "/blobs", client. constructor. Qed.

(** The request arrives in two segments, the response in one. *)
Lemma lane_refines_store_witness :
  store_reachable (ln_store lane0)
  /\ rtc store_step (ln_store lane0) (ln_store (run inputs).2.2)
  /\ (at_phase <$> task_at "s:t:u" (cs_db (ln_store (run inputs).2.2))) = Some TaskPhase_AwaitingTool.
Proof.
  split; [exact store0_reachable|].
  destruct (lane_refines_store inputs world 0%nat lane0 store0_reachable) as (Hs & _).
  split; [exact Hs|]. vm_compute. reflexivity.
Defined.

(** The lane after the exchange. *)
Definition lane1 : LiveCaptureLane := (run inputs).2.2.
Lemma lane1_reachable : lane_reachable lane1.
Proof. apply (loop_reachable inputs world 0%nat lane0 world_fine). exists config, (ln_store lane0). constructor. Qed.

Definition end1 : Endpoint := mkEndpoint (V4 [10; 0; 0; 1]) 4000.
Definition end2 : Endpoint := mkEndpoint (V4 [10; 0; 0; 2]) 443.
Lemma lane_reachable_inv_witness :
  lane_reachable lane1 /\ lane_inv lane1
  /\ exists f, ln_flows lane1 !! FlowKey_new end1 end2 = Some f /\ fs_client f = end1
     /\ (segment_direction None end2 end1 (segment false 26 []) f).2 = f
     /\ fs_client (segment_direction (Some LocalToRemote) end2 end1 (segment false 26 []) f).2 = end2.
Proof.
  split; [exact lane1_reachable|].
  destruct (lane_reachable_inv lane1 lane1_reachable) as [Hi Hd]. split; [exact Hi|].
  assert (fs_client <$> ln_flows lane1 !! FlowKey_new end1 end2 = Some end1) as E by (vm_compute; reflexivity).
  destruct (ln_flows lane1 !! FlowKey_new end1 end2) as [f|] eqn:Ef; [|discriminate E].
  exists f. split; [reflexivity|]. split; [by injection E|]. rewrite FlowKey_new_comm in Ef.
  destruct (segment_direction None end2 end1 (segment false 26 []) f) as [d g] eqn:E1.
  destruct (segment_direction (Some LocalToRemote) end2 end1 (segment false 26 []) f) as [d' g'] eqn:E2.
  destruct (Hd _ _ _ _ _ _ _ Ef E1) as [_ Hg]. split; [exact Hg|].
  destruct (Hd _ _ _ _ _ _ _ Ef E2) as [Hg' Hd']. cbn in Hd'. rewrite Hd' in Hg'. by injection Hg'.
Defined.

(** A head without a version ends the flow; the flow of another port stays. *)
Definition other : TcpSegment :=
  mkTcpSegment "10.0.0.1" 4001 "10.0.0.2" 443 1 0 false false false (as_bytes "POST /" ++ HEAD_END).
Lemma segment_isolation_witness :
  let r := handle_segment other None None world (99%nat, lane1) in
  is_ok r.1 = false
  /\ ln_flows r.2.2 !! FlowKey_new (mkEndpoint (V4 [10; 0; 0; 1]) 4001) end2 = None
  /\ ln_flows r.2.2 !! FlowKey_new end1 end2 = ln_flows lane1 !! FlowKey_new end1 end2.
Proof.
  assert (is_ok (handle_segment other None None world (99%nat, lane1)).1 = false) as E by (vm_compute; reflexivity).
  destruct (segment_isolation other None None world 99%nat lane1 (mkEndpoint (V4 [10; 0; 0; 1]) 4001) end2)
    as [Ho Hf]; [reflexivity | reflexivity |].
  split; [exact E|]. split; [exact (Hf E)|]. apply Ho. by_decide.
Defined.

(** The process fails while its turn waits for the tool. *)
Definition process : ProcessSummary :=
  mkProcessSummary process_id (uuid7 2) 100 "sha" None (900 * 10 ^ 9) (Some (2000 * 10 ^ 9)) (Some 1) None.
Definition exit : result LaneError (option PersistOutcome) * (nat * LiveCaptureLane) :=
  ingest_input (Discovery.CaptureInput_ProcessExit process) world (200%nat, lane1).
Definition task : TaskKey := mkTaskKey "client" (mkProviderId "codex") "s" "t" "u".
Lemma exit_terminates_witness : exists row',
  task_row task exit.2.2 = Some row' /\ at_phase row' = TaskPhase_Terminal
  /\ at_outcome row' = Some TaskOutcome_Terminated.
Proof.
  assert (is_ok exit.1 = true) as Hok by (vm_compute; reflexivity).
  assert ((fun r => (at_phase r, at_sequence r)) <$> task_row task lane1 = Some (TaskPhase_AwaitingTool, 1)) as Er
    by (vm_compute; reflexivity).
  assert (bool_decide (task ∈ tasks_of process_id lane1) = true) as Ht%bool_decide_eq_true by (vm_compute; reflexivity).
  assert (bool_decide (tasks_of process_id lane1 = {[task]}) = true) as Hts%bool_decide_eq_true by (vm_compute; reflexivity).
  unfold exit in *. destruct (ingest_input _ world _) as [[o|e] [t' l']] eqn:E; [|discriminate Hok].
  destruct (exit_terminates process world 200%nat lane1 o t' l' alone_world world_fine E) as [_ Hx].
  - intros k row Hk Hrow. change (prs_process_instance_id process) with process_id in Hk.
    rewrite Hts in Hk. apply elem_of_singleton in Hk as ->. rewrite Hrow in Er.
    injection Er as _ ->. split; [discriminate | reflexivity].
  - destruct (task_row task lane1) as [row|] eqn:Erow; [|discriminate Er]. injection Er as Hp _.
    destruct (Hx task row Ht Erow) as (row' & Hr & Hph & Hout). exists row'. split; [exact Hr|]. split; [exact Hph|].
    rewrite Hout by (rewrite Hp; discriminate). reflexivity.
Defined.

(** The turn goes on, with an answer that ends it. *)
Definition response2 : bytes := stream "12" ["LAST"].
Definition exchange2 : LaneM DecodedExchange :=
  request_msg ← http (parse_http_request request);
  response_msg ← http (parse_http_response response2);
  decode_exchange request response2 request_msg response_msg 5000.
Lemma exchange2_lane w t l x t' l' : exchange2 w (t, l) = (Ok x, (t', l')) -> l' = l.
Proof.
  intros E. unfold exchange2, decode_exchange, http, lift in E.
  do 4 (apply lane_bind_Ok in E as (? & ? & [= _ <-] & E)). by injection E as _ _ <-.
Qed.
Definition projected2 : result LaneError (DecodedExchange * CaptureBatch) * (nat * LiveCaptureLane) :=
  (x ← exchange2; b ← project_exchange x; mret (x, b)) world (200%nat, lane1).
Lemma exchange_recorded_witness : exists x batch o s' row,
  projected2.1 = Ok (x, batch)
  /\ persist_ingress (w_supply world 300) (cb_records batch) (cb_contents batch) (ln_store lane1) = (Ok o, s')
  /\ task_at "s:t:u" (cs_db s') = Some row
  /\ at_sequence row = 2 /\ at_attempt_count row = 2
  /\ at_tool_names row = ["shell"] /\ at_response_ids row = ["r1"; "r2"].
Proof.
  assert ((fun r => (at_sequence r, at_attempt_count r, at_tool_names r, at_response_ids r)) <$> task_row task lane1
          = Some (1, 1, ["shell"], ["r1"])) as Er by (vm_compute; reflexivity).
  assert (match projected2.1 with
          | Ok (x, b) =>
            bool_decide (task_ref (lane_task lane1 x) = "s:t:u" /\ lane_task lane1 x = task) && negb (is_empty b)
            && bool_decide (pj_tool_names (map_attempt_projection (dx_attempt x)) = []
                            /\ pj_response_id (map_attempt_projection (dx_attempt x)) = Some "r2")
            && is_ok (persist_ingress (w_supply world 300) (cb_records b) (cb_contents b) (ln_store lane1)).1
          | Err _ => false
          end = true) as Hok by (vm_compute; reflexivity).
  unfold projected2 in *. destruct ((x ← exchange2; _) world _) as [[[x b]|e] [t l]] eqn:E; [|discriminate Hok].
  cbn [fst] in Hok. apply andb_true_iff in Hok as [Hok Hs]. apply andb_true_iff in Hok as [Hok [Hn Hr]%bool_decide_eq_true].
  apply andb_true_iff in Hok as [[Href Ht]%bool_decide_eq_true He%negb_true_iff].
  apply lane_bind_Ok in E as (x' & [t1 l1] & E1 & E). apply lane_bind_Ok in E as (b' & [t2 l2] & E2 & E3).
  injection E3 as -> -> -> ->.
  apply exchange2_lane in E1 as ->.
  destruct (exchange_records _ _ _ _ _ _ _ alone_world E2) as [-> _].
  destruct (persist_ingress _ _ _ _) as [[o|e] s'] eqn:Es in Hs; [|discriminate Hs].
  destruct (exchange_recorded x world t1 lane1 b t lane1 (w_supply world 300) o s' alone_world E2 He Es)
    as (row & Hrow & Hq & Hc & _ & _ & _ & _ & Htn & Hri & _).
  - intros r. rewrite Ht. intros Hr'. rewrite Hr' in Er. injection Er as -> -> _ _.
    split; (split; [discriminate | reflexivity]).
  - rewrite Href in Hrow. rewrite Ht in Hq, Hc, Htn, Hri. rewrite Hn in Htn. rewrite Hr in Hri.
    destruct (task_row task lane1) as [old|]; [|discriminate Er]. injection Er as E1' E2' E3' E4'.
    cbn [from_option] in Hq, Hc, Htn, Hri. rewrite E1' in Hq. rewrite E2' in Hc. rewrite E3' in Htn. rewrite E4' in Hri.
    exists x, b, o, s', row. split; [reflexivity|]. split; [exact Es|]. split; [exact Hrow|].
    split; [exact Hq|]. split; [exact Hc|]. split; [exact Htn | exact Hri].
Defined.

Lemma requests_chunking_witness : exists rest requests,
  raws (fold_left receive [(5, take 20 request); (6, drop 20 request ++ take 3 request)] (Ok ([], [])))
    = Ok (rest, requests)
  /\ requests = [request] /\ rest = take 3 request
  /\ Forall (fun raw => raw <> []) requests.
Proof.
  destruct (requests_chunking 7 [(5, take 20 request); (6, drop 20 request ++ take 3 request)]) as [_ H].
  exists (take 3 request), [request].
  assert (raws (fold_left receive [(5, take 20 request); (6, drop 20 request ++ take 3 request)] (Ok ([], [])))
    = Ok (take 3 request, [request])) as E by (vm_compute; reflexivity).
  destruct (H _ _ E) as (_ & Hne & _). by repeat split.
Defined.
End LaneFixture.
