(* ===== verification/Loops.v ===== *)
(** * The loops over any source

    [run_capture_loop] and [run_process_discovery_loop] of
    [src/crates/client/src/capture_lane.rs] drive a lane from a source they know
    only by its trait.  The traits [LiveCaptureSource] and [ProcessDiscovery] are
    the classes of the same names, [SourceSends] and [DiscoverySends] what an
    implementation promises about its inputs; the passive source and the scan of
    /proc implement both. *)
From Stdlib Require Import ZArith Lia Strings.Byte Strings.String.
From S2P Require Import Tcp H2 WebSocket Discovery.
From S2P Require Import Prelude RustStr Digest Types Codec Json Http1 Sse Responses Sql Model Mapping.
From S2P Require Import Blob Store StoreSteps Ip Attribution Config Lane LaneFlow LaneSteps LaneHttp LaneInv.
Local Open Scope string_scope.
Local Open Scope list_scope.
Local Open Scope Z_scope.

Section loops.
Context `{UuidApi} `{DigestApi} `{CborApi} `{ZstdApi} `{TimeApi}
  `{HttparseApi} `{HttpApi} `{!UriApi} `{DecompressApi} `{JsonApi} `{!JsonViewApi} `{H2.HpackApi}.

(** ** The traits *)
(* src: src/crates/client/src/capture_lane.rs:71-73 LiveCaptureSource *)
Class LiveCaptureSource (A : Type) : Type :=
  live_recv : A -> result SourceError (option CaptureInput) * A.
(* src: src/crates/client/src/capture_lane.rs:75-77 ProcessDiscovery *)
Class ProcessDiscovery (A : Type) : Type :=
  discovery_poll : A -> result SourceError (list CaptureInput) * A.
(** What the clients of a source may rely on. *)
Class SourceSends A `{LiveCaptureSource A} (P : CaptureInput -> Prop) : Prop :=
  sends_only s input s' : live_recv s = (Ok (Some input), s') -> P input.
Class DiscoverySends A `{ProcessDiscovery A} (P : CaptureInput -> Prop) : Prop :=
  reports_only d events d' : discovery_poll d = (Ok events, d') -> Forall P events.

(** ** The loops *)
Inductive LoopError : Type :=
| LoopError_Source (e : SourceError)
| LoopError_Lane (e : LaneError).
(** The loops end only by an error; [Ok] is a loop that still runs after [turns]
    turns.  A turn without input sleeps. *)
Definition LoopRun (A : Type) : Type := result LoopError A * (nat * LiveCaptureLane).
(* src: src/crates/client/src/capture_lane.rs:2003-2017 run_capture_loop *)
Fixpoint run_capture_loop `{LiveCaptureSource A} (turns : nat) (source : A) (w : World)
    (s : nat * LiveCaptureLane) : LoopRun A :=
  match turns with
  | O => (Ok source, s)
  | S turns' =>
    match live_recv source with
    | (Err e, _) => (Err (LoopError_Source e), s)
    | (Ok None, source) => run_capture_loop turns' source w s
    | (Ok (Some input), source) =>
      match ingest_input input w s with
      | (Err e, s) => (Err (LoopError_Lane e), s)
      | (Ok _, s) => run_capture_loop turns' source w s
      end
    end
  end.
(* src: src/crates/client/src/capture_lane.rs:2019-2030 run_process_discovery_loop *)
Fixpoint run_process_discovery_loop `{ProcessDiscovery A} (turns : nat) (discovery : A) (w : World)
    (s : nat * LiveCaptureLane) : LoopRun A :=
  match turns with
  | O => (Ok discovery, s)
  | S turns' =>
    match discovery_poll discovery with
    | (Err e, _) => (Err (LoopError_Source e), s)
    | (Ok events, discovery) =>
      match run_capture_ingest_loop events w s with
      | (Err e, s) => (Err (LoopError_Lane e), s)
      | (Ok _, s) => run_process_discovery_loop turns' discovery w s
      end
    end
  end.

(** ** What a source hands out in [turns] turns *)
Fixpoint received `{LiveCaptureSource A} (turns : nat) (source : A) : list CaptureInput :=
  match turns with
  | O => []
  | S turns' =>
    match live_recv source with
    | (Err _, _) => []
    | (Ok None, source) => received turns' source
    | (Ok (Some input), source) => input :: received turns' source
    end
  end.
Fixpoint reported `{ProcessDiscovery A} (turns : nat) (discovery : A) : list CaptureInput :=
  match turns with
  | O => []
  | S turns' =>
    match discovery_poll discovery with
    | (Err _, _) => []
    | (Ok events, discovery) => events ++ reported turns' discovery
    end
  end.
Lemma received_sends `{SourceSends A P} turns source : Forall P (received turns source).
Proof.
  revert source. induction turns as [|turns IH]; intros source; cbn [received]; [done|].
  destruct (live_recv source) as [[[input|]|e] source'] eqn:E; [|apply IH|done].
  constructor; [by eapply sends_only | apply IH].
Qed.
Lemma reported_sends `{DiscoverySends A P} turns discovery : Forall P (reported turns discovery).
Proof.
  revert discovery. induction turns as [|turns IH]; intros discovery; cbn [reported]; [done|].
  destruct (discovery_poll discovery) as [[events|e] discovery'] eqn:E; [|done].
  apply Forall_app. split; [by eapply reports_only | apply IH].
Qed.

Lemma ingest_loop_app i j w s :
  run_capture_ingest_loop (i ++ j) w s =
    match run_capture_ingest_loop i w s with
    | (Ok _, s) => run_capture_ingest_loop j w s
    | (Err e, s) => (Err e, s)
    end.
Proof.
  revert s. induction i as [|x i IH]; intros s; [done|]. cbn. unfold mbind, lane_bind.
  destruct (ingest_input x w s) as [[o|e] s']; [apply IH | done].
Qed.

(** ** Both loops are the ingest loop of the daemon on what their source hands out

    The lane a loop leaves is the one the ingest loop leaves; it fails on the
    lane exactly when the ingest loop does, whatever the source does later. *)
Definition lane_part {A} (r : LoopRun A) : option LaneError * (nat * LiveCaptureLane) :=
  (match r.1 with Err (LoopError_Lane e) => Some e | _ => None end, r.2).
Definition ingest_part (r : result LaneError unit * (nat * LiveCaptureLane))
    : option LaneError * (nat * LiveCaptureLane) :=
  (match r.1 with Err e => Some e | Ok _ => None end, r.2).

Lemma capture_loop_ingests `{LiveCaptureSource A} turns source w s :
  lane_part (run_capture_loop turns source w s)
  = ingest_part (run_capture_ingest_loop (received turns source) w s).
Proof.
  revert source s. induction turns as [|turns IH]; intros source s; cbn [run_capture_loop received]; [done|].
  destruct (live_recv source) as [[[input|]|e] source']; [|apply IH|done].
  cbn [run_capture_ingest_loop]. unfold mbind, lane_bind.
  destruct (ingest_input input w s) as [[o|e] s']; [apply IH | done].
Qed.
Lemma discovery_loop_ingests `{ProcessDiscovery A} turns discovery w s :
  lane_part (run_process_discovery_loop turns discovery w s)
  = ingest_part (run_capture_ingest_loop (reported turns discovery) w s).
Proof.
  revert discovery s.
  induction turns as [|turns IH]; intros discovery s; cbn [run_process_discovery_loop reported]; [done|].
  destruct (discovery_poll discovery) as [[events|e] discovery']; [|done].
  rewrite ingest_loop_app. destruct (run_capture_ingest_loop events w s) as [[[]|e] s']; [apply IH | done].
Qed.

(** A lane that one of these loops drives is one the daemon may have. *)
Lemma loops_reachable `{LiveCaptureSource A} `{ProcessDiscovery B} turns (source : A) (discovery : B) w t l :
  world_ok w -> lane_reachable l ->
  lane_reachable (run_capture_loop turns source w (t, l)).2.2
  /\ lane_reachable (run_process_discovery_loop turns discovery w (t, l)).2.2.
Proof.
  intros Hw Hl. pose proof (f_equal snd (capture_loop_ingests turns source w (t, l))) as E1.
  pose proof (f_equal snd (discovery_loop_ingests turns discovery w (t, l))) as E2.
  cbn in E1, E2. rewrite E1, E2.
  split; by apply loop_reachable.
Qed.

(** ** The sources of the client *)
(** What the passive source meets from turn to turn. *)
Record TapTurn : Type := mkTapTurn {
  tt_now : Z;
  tt_pending_index : nat -> Match;
  tt_reads : nat -> ReadResult;
  tt_clock : nat -> Z;
  tt_index : nat -> Match }.
Record LiveTap : Type := mkLiveTap { lt_turn : nat; lt_turns : nat -> TapTurn; lt_tap : PassiveTapSource }.
#[export] Instance tap_source `{EtherparseApi} : LiveCaptureSource LiveTap := fun s =>
  let turn := lt_turns s (lt_turn s) in
  let '(r, tap) := recv (tt_now turn) (tt_pending_index turn) (tt_reads turn) (tt_clock turn)
                     (tt_index turn) (lt_tap s) in
  (r, mkLiveTap (S (lt_turn s)) (lt_turns s) tap).
Definition is_attributed (input : CaptureInput) : Prop :=
  match input with CaptureInput_AttributedTcpSegment _ _ _ => True | _ => False end.
Lemma drain_attributed `{EtherparseApi} fuel i reads clock idx s input s' :
  drain_tap fuel i reads clock idx s = (Ok (Some input), s') -> is_attributed input.
Proof.
  revert i s. induction fuel as [|fuel IH]; intros i s; cbn [drain_tap]; [done|].
  destruct (tap_recv (reads i)) as [[g|]|[]]; try done.
  destruct (idx i g) as [[id direction]|]; [by intros [= <- _] | apply IH].
Qed.
(** The passive source hands out nothing but packets with their process. *)
#[export] Instance tap_sends `{EtherparseApi} : SourceSends LiveTap is_attributed.
Proof.
  intros s input s'. unfold live_recv, tap_source, recv.
  destruct (pop_attributed_pending _ _ _) as [[i|] s1] eqn:E.
  - intros [= -> <-]. revert E. unfold pop_attributed_pending.
    destruct (first_match _ _ _) as [index|]; [|done]. destruct (_ !! index) as [pending|]; [|done].
    destruct (tt_pending_index _ _ _) as [[id direction]|]; cbn; intros; by simplify_eq.
  - destruct (drain_tap _ _ _ _ _ _) as [r tap] eqn:Ed. intros [= -> <-]. by eapply drain_attributed.
Qed.

(** What the scan meets from turn to turn. *)
Record ScanTurn : Type := mkScanTurn {
  st_host : Host;
  st_now : OffsetDateTime;
  st_ids : nat -> Uuid;
  st_gap_ids : nat -> Uuid;
  st_order : list Z -> list Z }.
Record LiveScan : Type := mkLiveScan {
  ls_turn : nat; ls_turns : nat -> ScanTurn; ls_discovery : ProcfsProcessDiscovery }.
#[export] Instance procfs_discovery : ProcessDiscovery LiveScan := fun s =>
  let turn := ls_turns s (ls_turn s) in
  let '(events, discovery) := poll (st_host turn) (st_now turn) (st_ids turn) (st_gap_ids turn)
                                (st_order turn) (ls_discovery s) in
  (Ok events, mkLiveScan (S (ls_turn s)) (ls_turns s) discovery).
Definition is_scan_event (input : CaptureInput) : Prop :=
  match input with
  | CaptureInput_ProcessObserved p => prs_exited_at p = None
  | CaptureInput_ProcessExit p => is_Some (prs_exited_at p)
  | CaptureInput_CaptureGap _ task _ _ lost_bytes => task = None /\ lost_bytes = None
  | CaptureInput_TcpSegment _ | CaptureInput_AttributedTcpSegment _ _ _ => False
  end.
Lemma poll_pid_events host now id gap_id pid active d :
  Forall is_scan_event (poll_pid host now id gap_id pid active d).1.1.
Proof. unfold poll_pid. repeat case_match; cbn; repeat constructor. Qed.
Lemma poll_pids_events host now ids gap_ids i pids active d :
  Forall is_scan_event (poll_pids host now ids gap_ids i pids active d).1.1.
Proof.
  revert i active d. induction pids as [|pid pids IH]; intros i active d; cbn [poll_pids]; [by constructor|].
  pose proof (poll_pid_events host now (ids i) (gap_ids i) pid active d) as Hp.
  destruct (poll_pid _ _ _ _ _ _ _) as [[events a] d1]. specialize (IH (S i) a d1).
  destruct (poll_pids _ _ _ _ _ _ _ _) as [[events' a'] d2]. by apply Forall_app.
Qed.
Lemma reap_events now stale d : Forall is_scan_event (reap now stale d).1.
Proof.
  revert d. induction stale as [|pid stale IH]; intros d; cbn [reap]; [by constructor|].
  destruct (pd_observed d !! pid) as [o|]; [|apply IH].
  match goal with |- context [reap now stale ?d'] => specialize (IH d'); destruct (reap now stale d') end.
  cbn in *. constructor; [by eexists | done].
Qed.
(** The scan reports processes, exits and gaps without a task, never a packet. *)
#[export] Instance scan_reports : DiscoverySends LiveScan is_scan_event.
Proof.
  intros d events d'. unfold discovery_poll, procfs_discovery, poll.
  match goal with |- context [poll_pids ?h ?n ?i ?g ?k ?p ?a ?s] =>
    pose proof (poll_pids_events h n i g k p a s) as Hp; destruct (poll_pids h n i g k p a s) as [[e1 a1] d1] end.
  match goal with |- context [reap ?n ?st ?s] =>
    pose proof (reap_events n st s) as Hr; destruct (reap n st s) as [e2 d2] end.
  intros [= <- _]. by apply Forall_app.
Qed.
End loops.
