(* ===== verification/Profile.v ===== *)
(** * Probe profiles

    [src/crates/profile/src/lib.rs] and [src/crates/capture-ebpf/src/profile.rs]:
    what a profile says of one build of the monitored program, the check of its
    masked signatures against the program's bytes ([resolve_attach_plan]) and
    the choice of a profile by fingerprint.  Reading a profile from JSON is
    [serde_json]'s and a parameter. *)
From Stdlib Require Import ZArith Lia Strings.Byte Strings.String.
From S2P Require Import Prelude RustStr Digest Ip.
Local Open Scope string_scope.
Local Open Scope list_scope.
Local Open Scope Z_scope.

(* src: src/crates/profile/src/lib.rs:11-17 AttachKind *)
Inductive AttachKind : Type :=
| AttachKind_Uprobe
| AttachKind_Uretprobe
| AttachKind_Kprobe
| AttachKind_Kretprobe
| AttachKind_Tracepoint.

(* src: src/crates/profile/src/lib.rs:21-27 FieldEncoding *)
Inductive FieldEncoding : Type :=
| FieldEncoding_StringPtrLenCap
| FieldEncoding_OptionStringPtrLenCap
| FieldEncoding_OptionI64
| FieldEncoding_U8Discriminant
| FieldEncoding_CodexErrorInfoOption.

(* src: src/crates/profile/src/lib.rs:31-35 ReturnEncoding *)
Inductive ReturnEncoding : Type :=
| ReturnEncoding_None
| ReturnEncoding_ResultUsizeRaxRdx
| ReturnEncoding_RustSretOutPointer.

(* src: src/crates/profile/src/lib.rs:38-42 ProbeSignature *)
Record ProbeSignature : Type := mkProbeSignature {
  ps_file_offset : Z;
  ps_mask_hex : string;
  ps_bytes_hex : string }.

(* src: src/crates/profile/src/lib.rs:45-49 FieldOffset *)
Record FieldOffset : Type := mkFieldOffset {
  fo_name : string;
  fo_offset : Z;
  fo_encoding : FieldEncoding }.

(* src: src/crates/profile/src/lib.rs:52-69 ProbeLayout *)
Record ProbeLayout : Type := mkProbeLayout {
  prl_fields : list FieldOffset;
  prl_self_argument : option Z;
  prl_buf_argument : option Z;
  prl_len_argument : option Z;
  prl_out_pointer_argument : option Z;
  prl_return_tag_register : option string;
  prl_return_len_register : option string;
  prl_return_encoding : option ReturnEncoding }.

(* src: src/crates/profile/src/lib.rs:72-81 ProbeDefinition *)
Record ProbeDefinition : Type := mkProbeDefinition {
  prd_program : string;
  prd_attach_kind : AttachKind;
  prd_symbol : string;
  prd_file_offset : Z;
  prd_signature : ProbeSignature;
  prd_argument_abi : string;
  prd_layout : ProbeLayout }.

(* src: src/crates/profile/src/lib.rs:84-90 KernelHook *)
Record KernelHook : Type := mkKernelHook {
  kh_program : string;
  kh_attach_kind : AttachKind;
  kh_target : string;
  kh_target_detail : option string }.

(** [probes] is a [BTreeMap]: its entries in the order of their keys. *)
(* src: src/crates/profile/src/lib.rs:93-106 ProbeProfile *)
Record ProbeProfile : Type := mkProbeProfile {
  pp_profile_id : string;
  pp_codex_version : string;
  pp_elf_sha256 : string;
  pp_architecture : string;
  pp_debuglink_name : string;
  pp_debuglink_crc32 : Z;
  pp_validated : bool;
  pp_kernel_hooks : list KernelHook;
  pp_probes : list (string * list ProbeDefinition);
  pp_evidence : list string }.

(* src: src/crates/profile/src/lib.rs:109-113 AttachPlan *)
Record AttachPlan : Type := mkAttachPlan {
  ap_profile_id : string;
  ap_kernel_hooks : list KernelHook;
  ap_probes : list (string * ProbeDefinition) }.

(* src: src/crates/profile/src/lib.rs:116-125 ProfileError *)
Inductive ProfileError : Type :=
| Profile_UnsupportedCodexBuild
| Profile_HashMismatch
| Profile_ZeroOffset (logical_name : string)
| Profile_SignatureMismatch (site : string).

(** ** Signatures *)
(** [chunks(2)]. *)
Fixpoint chunks2 (b : bytes) : list bytes :=
  match b with
  | x :: y :: b' => [x; y] :: chunks2 b'
  | [x] => [[x]]
  | [] => []
  end.
(** A pair of digits that is none is left out. *)
(* src: src/crates/profile/src/lib.rs:187-194 decode_hex *)
Definition decode_hex (value : string) : bytes :=
  omap (fun chunk => to_u8 <$> (from_utf8 chunk ≫= (fun s => from_str_radix 16 255 (as_bytes s))))
    (chunks2 (as_bytes value)).
(** [slice.get(start..end)]. *)
Definition get_slice (b : bytes) (start stop : Z) : option bytes :=
  if (start <=? stop) && (stop <=? Z.of_nat (length b))
  then Some (take (Z.to_nat (stop - start)) (drop (Z.to_nat start) b)) else None.
(* src: src/crates/profile/src/lib.rs:166-185 matches_signature *)
Definition matches_signature (elf_bytes : bytes) (signature : ProbeSignature) : bool :=
  let expected := decode_hex (ps_bytes_hex signature) in
  let mask := decode_hex (ps_mask_hex signature) in
  if negb (Nat.eqb (length expected) (length mask)) then false
  else
    let start := ps_file_offset signature in
    let stop := Z.min u64_max (start + Z.of_nat (length expected)) in
    match get_slice elf_bytes start stop with
    | None => false
    | Some actual =>
      forallb (fun '(actual, (expected, mask)) =>
        Z.land (u8 actual) (u8 mask) =? Z.land (u8 expected) (u8 mask))
        (zip actual (zip expected mask))
    end.
(** [format!("{:x}", n)] of a [u64]. *)
Definition lower_hex (n : Z) : string := of_bytes (show_hex_fuel 16 n []).

Section profile.
Context `{DigestApi}.
(* src: src/crates/profile/src/lib.rs:196-198 hex_sha256 *)
Definition hex_sha256 (b : bytes) : string := hex_encode (sha256_digest b).
(* src: src/crates/profile/src/lib.rs:144-155 resolve_attach_plan: site *)
Definition check_site (elf_bytes : bytes) (logical_name : string) (site : ProbeDefinition)
    : result ProfileError unit :=
  if (prd_file_offset site =? 0) || (ps_file_offset (prd_signature site) =? 0)
  then Err (Profile_ZeroOffset logical_name)
  else if negb (matches_signature elf_bytes (prd_signature site))
  then Err (Profile_SignatureMismatch (logical_name +:+ "@0x" +:+ lower_hex (prd_file_offset site)))
  else Ok tt.
(** The two loops; [sites] are those of the name at hand. *)
(* src: src/crates/profile/src/lib.rs:143-157 resolve_attach_plan: sites *)
Fixpoint check_sites (elf_bytes : bytes) (logical_name : string) (sites : list ProbeDefinition)
    (probes : list (string * ProbeDefinition)) : result ProfileError (list (string * ProbeDefinition)) :=
  match sites with
  | [] => Ok probes
  | site :: sites' =>
    _ ← check_site elf_bytes logical_name site;
    check_sites elf_bytes logical_name sites' (probes ++ [(logical_name, site)])
  end.
(* src: src/crates/profile/src/lib.rs:142-157 resolve_attach_plan: names *)
Fixpoint check_names (elf_bytes : bytes) (names : list (string * list ProbeDefinition))
    (probes : list (string * ProbeDefinition)) : result ProfileError (list (string * ProbeDefinition)) :=
  match names with
  | [] => Ok probes
  | (logical_name, sites) :: names' =>
    probes ← check_sites elf_bytes logical_name sites probes;
    check_names elf_bytes names' probes
  end.
(* src: src/crates/profile/src/lib.rs:131-164 resolve_attach_plan *)
Definition resolve_attach_plan (profile : ProbeProfile) (elf_bytes : bytes) : result ProfileError AttachPlan :=
  if negb (pp_validated profile) then Err Profile_UnsupportedCodexBuild
  else if negb (String.eqb (hex_sha256 elf_bytes) (pp_elf_sha256 profile)) then Err Profile_HashMismatch
  else
    probes ← check_names elf_bytes (pp_probes profile) [];
    mret (mkAttachPlan (pp_profile_id profile) (pp_kernel_hooks profile) probes).
End profile.

(** ** The registry *)
(* src: src/crates/capture-ebpf/src/profile.rs:5-9 BuildFingerprint *)
Record BuildFingerprint : Type := mkBuildFingerprint {
  bf_executable_sha256 : string;
  bf_architecture : string;
  bf_codex_version_hint : option string }.

(* src: src/crates/capture-ebpf/src/profile.rs:12-15 LoadedProfile *)
Record LoadedProfile : Type := mkLoadedProfile {
  lp_profile : ProbeProfile;
  lp_verified : bool }.

(* src: src/crates/capture-ebpf/src/profile.rs:18-21 AttachmentDecision *)
Inductive AttachmentDecision : Type :=
| AttachmentDecision_Attach (x : LoadedProfile)
| AttachmentDecision_UnsupportedBuild (x : BuildFingerprint).

(* src: src/crates/capture-ebpf/src/profile.rs:24-26 ProfileRegistry *)
Record ProfileRegistry : Type := mkProfileRegistry {
  prg_profiles : list ProbeProfile }.

(** [load_profile], whose result on the built-in text must be a profile. *)
Class ProfileJsonApi := load_profile : string -> result string ProbeProfile.
(** [None] is the panic of [expect]. *)
(* src: src/crates/capture-ebpf/src/profile.rs:30-37 ProfileRegistry::with_builtin_profiles *)
Definition with_builtin_profiles `{ProfileJsonApi} (builtin : string) : option ProfileRegistry :=
  match load_profile builtin with
  | Ok parsed => Some (mkProfileRegistry [parsed])
  | Err _ => None
  end.
(* src: src/crates/capture-ebpf/src/profile.rs:40-42 ProfileRegistry::all *)
Definition all (r : ProfileRegistry) : list ProbeProfile := prg_profiles r.
(* src: src/crates/capture-ebpf/src/profile.rs:45-57 ProfileRegistry::resolve *)
Definition resolve (r : ProfileRegistry) (fingerprint : BuildFingerprint) : AttachmentDecision :=
  match List.find (fun profile =>
          String.eqb (pp_elf_sha256 profile) (bf_executable_sha256 fingerprint)
          && String.eqb (pp_architecture profile) (bf_architecture fingerprint)) (prg_profiles r) with
  | None => AttachmentDecision_UnsupportedBuild fingerprint
  | Some profile => AttachmentDecision_Attach (mkLoadedProfile profile (pp_validated profile))
  end.

(** ** What a signature says *)
(** Two digits for every byte. *)
Definition nibble (n : Z) : byte := to_u8 (if n <? 10 then 48 + n else 87 + n).
Definition hex_text (b : bytes) : string :=
  of_bytes (concat (map (fun x => [nibble (u8 x / 16); nibble (u8 x mod 16)]) b)).

Lemma decode_hex_text b : decode_hex (hex_text b) = b.
Proof.
  unfold decode_hex, hex_text. rewrite as_of_bytes. induction b as [|x b IH]; [done|].
  cbn [map concat app chunks2 omap list_omap]. fold (@omap list _ bytes byte).
  assert (to_u8 <$> (from_utf8 [nibble (u8 x / 16); nibble (u8 x mod 16)]
    ≫= (fun s => from_str_radix 16 255 (as_bytes s))) = Some x) as -> by (destruct x; reflexivity).
  by f_equal.
Qed.
Lemma get_slice_Some b start n : 0 <= start -> 0 <= n ->
  get_slice b start (start + n) =
    if start + n <=? Z.of_nat (length b) then Some (take (Z.to_nat n) (drop (Z.to_nat start) b)) else None.
Proof.
  intros Hs Hn. unfold get_slice. rewrite (proj2 (Z.leb_le _ _)) by lia. cbn [andb].
  by replace (start + n - start) with n by lia.
Qed.

Definition masked (actual expected mask : bytes) : Prop :=
  forall i a x y, actual !! i = Some a -> expected !! i = Some x -> mask !! i = Some y ->
    Z.land (u8 a) (u8 y) = Z.land (u8 x) (u8 y).
Lemma masked_forallb a e m : length a = length e -> length e = length m ->
  forallb (fun '(actual, (expected, mask)) =>
    Z.land (u8 actual) (u8 mask) =? Z.land (u8 expected) (u8 mask)) (zip a (zip e m)) = true
  <-> masked a e m.
Proof.
  revert e m. induction a as [|x a IH]; intros [|y e] [|z m]; try done.
  cbn [length zip zip_with forallb]. intros [= Ha] [= He]. rewrite andb_true_iff, Z.eqb_eq, (IH e m Ha He). split.
  - intros [H1 H2] [|i]; cbn; [by intros ? ? ? [= <-] [= <-] [= <-] | apply H2].
  - intros Hm. split; [by apply (Hm 0%nat) | by intros i; apply (Hm (S i))].
Qed.

(** A signature of well-formed digits matches the bytes of a program exactly
    when they hold, at its offset, as many bytes as it gives, equal to its own
    under its mask; a mask of another length than the bytes never matches. *)
Theorem signature_exact elf offset e m :
  Z.of_nat (length elf) <= i64_max -> 0 <= offset <= u64_max -> Z.of_nat (length e) <= i64_max ->
  matches_signature elf (mkProbeSignature offset (hex_text m) (hex_text e)) = true
  <-> length e = length m
      /\ exists before actual after, elf = before ++ actual ++ after
         /\ Z.of_nat (length before) = offset /\ length actual = length e /\ masked actual e m.
Proof.
  intros Helf Ho He. unfold matches_signature. cbn [ps_bytes_hex ps_mask_hex ps_file_offset].
  rewrite !decode_hex_text. destruct (Nat.eqb_spec (length e) (length m)) as [Hl|Hl]; cbn [negb]; [|split; [done | by intros [? _]]].
  unfold i64_max, u64_max in *.
  assert (get_slice elf offset (Z.min 18446744073709551615 (offset + Z.of_nat (length e)))
          = get_slice elf offset (offset + Z.of_nat (length e))) as ->.
  { destruct (Z.min_spec 18446744073709551615 (offset + Z.of_nat (length e))) as [[Hm ->]|[_ ->]]; [|done].
    unfold get_slice. rewrite !(proj2 (Z.leb_gt _ (Z.of_nat (length elf)))) by lia. by rewrite !andb_false_r. }
  rewrite get_slice_Some by lia. rewrite Nat2Z.id.
  destruct (Z.leb_spec (offset + Z.of_nat (length e)) (Z.of_nat (length elf))) as [Hin|Hin].
  - set (a := take (length e) (drop (Z.to_nat offset) elf)).
    assert (length a = length e) as Ha by (unfold a; rewrite length_take, length_drop; lia).
    rewrite (masked_forallb a e m Ha Hl). split.
    + intros Hm. split; [done|]. exists (take (Z.to_nat offset) elf), a, (drop (length e) (drop (Z.to_nat offset) elf)).
      unfold a at 1. rewrite !take_drop, length_take. repeat split; [lia | done..].
    + intros (_ & before & actual & after & E & Hb & Hla & Hm). replace a with actual; [done|].
      unfold a. rewrite E, <- Hb, Nat2Z.id, drop_app_length, <- Hla. by rewrite take_app_length.
  - split; [done|]. intros (_ & before & actual & after & -> & Hb & Hla & _).
    rewrite !length_app in Hin. lia.
Qed.

(** Digits that are none are dropped, and so are the bytes they stand for: a
    signature of such digits alone constrains nothing. *)
Lemma malformed_signature_matches (elf : bytes) offset :
  0 <= offset <= Z.of_nat (length elf) /\ Z.of_nat (length elf) <= i64_max ->
  matches_signature elf (mkProbeSignature offset "zzzz" "zzzz") = true.
Proof.
  intros [Ho He]. unfold matches_signature.
  change (decode_hex (ps_bytes_hex (mkProbeSignature offset "zzzz" "zzzz"))) with (@nil byte).
  change (decode_hex (ps_mask_hex (mkProbeSignature offset "zzzz" "zzzz"))) with (@nil byte). cbn [length Nat.eqb negb ps_file_offset].
  unfold i64_max, u64_max in *. rewrite Z.min_r by lia. rewrite get_slice_Some by lia.
  by rewrite (proj2 (Z.leb_le _ _)) by lia.
Qed.

(** ** The plan *)
Section plan.
Context `{DigestApi}.
(** The sites of a profile in the order they are checked. *)
Definition all_sites (profile : ProbeProfile) : list (string * ProbeDefinition) :=
  concat (map (fun p => map (pair p.1) p.2) (pp_probes profile)).
Definition zero_offset (site : ProbeDefinition) : Prop :=
  prd_file_offset site = 0 \/ ps_file_offset (prd_signature site) = 0.
Definition site_fits (elf : bytes) (site : string * ProbeDefinition) : Prop :=
  ~ zero_offset site.2 /\ matches_signature elf (prd_signature site.2) = true.
(** [site] is the first one that does not fit. *)
Definition first_misfit (elf : bytes) (sites : list (string * ProbeDefinition))
    (site : string * ProbeDefinition) : Prop :=
  exists before after, sites = before ++ site :: after /\ Forall (site_fits elf) before.
Definition misfit (elf : bytes) (sites : list (string * ProbeDefinition)) (e : ProfileError) : Prop :=
  exists name site, first_misfit elf sites (name, site)
    /\ (zero_offset site /\ e = Profile_ZeroOffset name
        \/ ~ zero_offset site /\ matches_signature elf (prd_signature site) = false
           /\ e = Profile_SignatureMismatch (name +:+ "@0x" +:+ lower_hex (prd_file_offset site))).
(** Checking [sites] appends them, or stops at the first misfit. *)
Definition checks (elf : bytes) (sites probes : list (string * ProbeDefinition))
    (r : result ProfileError (list (string * ProbeDefinition))) : Prop :=
  match r with
  | Ok probes' => probes' = probes ++ sites /\ Forall (site_fits elf) sites
  | Err e => misfit elf sites e
  end.
Lemma check_site_spec elf name site :
  match check_site elf name site with
  | Ok _ => site_fits elf (name, site)
  | Err e => forall after, misfit elf ((name, site) :: after) e
  end.
Proof.
  unfold check_site, site_fits, misfit, first_misfit. cbn [snd].
  destruct (_ || _) eqn:Ez; [|destruct (matches_signature _ _) eqn:Em; cbn [negb]].
  - intros after. exists name, site. split; [by exists [], after|]. left.
    apply orb_true_iff in Ez as [?%Z.eqb_eq|?%Z.eqb_eq]; (split; [unfold zero_offset; tauto | done]).
  - apply orb_false_iff in Ez as [?%Z.eqb_neq ?%Z.eqb_neq]. split; [by intros [?|?] | done].
  - apply orb_false_iff in Ez as [?%Z.eqb_neq ?%Z.eqb_neq]. intros after. exists name, site.
    split; [by exists [], after|]. right. split; [by intros [?|?] | done].
Qed.
Lemma misfit_app elf before after e : Forall (site_fits elf) before -> misfit elf after e ->
  misfit elf (before ++ after) e.
Proof.
  intros Hb (name & site & (b & a & -> & Hf) & He). exists name, site. split; [|done].
  exists (before ++ b), a. rewrite <- app_assoc. split; [done | by apply Forall_app].
Qed.
Lemma misfit_more elf sites more e : misfit elf sites e -> misfit elf (sites ++ more) e.
Proof.
  intros (name & site & (b & a & -> & Hf) & He). exists name, site. split; [|done].
  exists b, (a ++ more). by rewrite <- app_assoc.
Qed.
Lemma check_sites_spec elf name sites probes :
  checks elf (map (pair name) sites) probes (check_sites elf name sites probes).
Proof.
  revert probes. induction sites as [|site sites IH]; intros probes; cbn [check_sites map].
  { cbn. by rewrite app_nil_r. }
  pose proof (check_site_spec elf name site) as Hs.
  destruct (check_site elf name site) as [[]|e]; cbn [mbind result_bind]; [|apply Hs].
  specialize (IH (probes ++ [(name, site)])).
  destruct (check_sites _ _ _ _) as [ps|e]; cbn [checks] in *.
  - destruct IH as [-> IH]. rewrite <- app_assoc. split; [done | by constructor].
  - apply (misfit_app elf [(name, site)]); [by constructor | done].
Qed.
Lemma check_names_spec elf names probes :
  checks elf (concat (map (fun p => map (pair p.1) p.2) names)) probes (check_names elf names probes).
Proof.
  revert probes. induction names as [|[name sites] names IH]; intros probes; cbn [check_names map concat fst snd].
  { cbn. by rewrite app_nil_r. }
  pose proof (check_sites_spec elf name sites probes) as Hs.
  destruct (check_sites _ _ _ _) as [ps|e]; cbn [mbind result_bind checks] in *; [|by apply misfit_more].
  destruct Hs as [-> Hs]. specialize (IH (probes ++ map (pair name) sites)).
  destruct (check_names _ _ _) as [ps|e]; cbn [checks] in *.
  - destruct IH as [-> IH]. rewrite <- app_assoc. split; [done | by apply Forall_app].
  - by apply misfit_app.
Qed.

(** What [resolve_attach_plan] says, as [attach_plan_exact] states it. *)
Lemma attach_plan_ok profile elf plan : resolve_attach_plan profile elf = Ok plan ->
  pp_validated profile = true /\ hex_sha256 elf = pp_elf_sha256 profile
  /\ Forall (site_fits elf) (all_sites profile)
  /\ plan = mkAttachPlan (pp_profile_id profile) (pp_kernel_hooks profile) (all_sites profile).
Proof.
  unfold resolve_attach_plan. destruct (pp_validated profile); cbn [negb]; [|done].
  destruct (String.eqb_spec (hex_sha256 elf) (pp_elf_sha256 profile)) as [Eh|Eh]; cbn [negb]; [|done].
  intros E. apply bind_Ok in E as (ps & Ep & [= <-]).
  pose proof (check_names_spec elf (pp_probes profile) []) as Hc. rewrite Ep in Hc.
  by destruct Hc as [-> Hc].
Qed.

(** A plan is made exactly for a validated profile of this very program all of
    whose sites have offsets and match: it lists every site, in order.
    Otherwise the error is the first thing wrong, in the order of the checks,
    and of the sites the first that does not fit. *)
Theorem attach_plan_exact profile elf :
  match resolve_attach_plan profile elf with
  | Ok plan =>
    pp_validated profile = true /\ hex_sha256 elf = pp_elf_sha256 profile
    /\ Forall (site_fits elf) (all_sites profile)
    /\ plan = mkAttachPlan (pp_profile_id profile) (pp_kernel_hooks profile) (all_sites profile)
  | Err Profile_UnsupportedCodexBuild => pp_validated profile = false
  | Err Profile_HashMismatch => pp_validated profile = true /\ hex_sha256 elf <> pp_elf_sha256 profile
  | Err e =>
    pp_validated profile = true /\ hex_sha256 elf = pp_elf_sha256 profile /\ misfit elf (all_sites profile) e
  end.
Proof.
  destruct (resolve_attach_plan profile elf) as [plan|e] eqn:E; [by apply attach_plan_ok|]. revert E.
  unfold resolve_attach_plan. destruct (pp_validated profile); cbn [negb]; [|by intros [= <-]].
  destruct (String.eqb_spec (hex_sha256 elf) (pp_elf_sha256 profile)) as [Eh|Eh]; cbn [negb]; [|by intros [= <-]].
  pose proof (check_names_spec elf (pp_probes profile) []) as Hc. fold (all_sites profile) in Hc.
  destruct (check_names _ _ _) as [ps|e']; cbn [mbind result_bind checks] in *; [done|]. intros [= ->].
  destruct e; try done; destruct Hc as (? & ? & _ & [[_ ?]|(_ & _ & ?)]); done.
Qed.

(** Only a profile of exactly this build is chosen, and it counts as verified
    exactly when it is validated. *)
Lemma resolve_spec r fingerprint :
  match resolve r fingerprint with
  | AttachmentDecision_Attach p =>
    lp_profile p ∈ prg_profiles r
    /\ pp_elf_sha256 (lp_profile p) = bf_executable_sha256 fingerprint
    /\ pp_architecture (lp_profile p) = bf_architecture fingerprint
    /\ lp_verified p = pp_validated (lp_profile p)
  | AttachmentDecision_UnsupportedBuild f =>
    f = fingerprint
    /\ forall p, p ∈ prg_profiles r ->
         ~ (pp_elf_sha256 p = bf_executable_sha256 fingerprint /\ pp_architecture p = bf_architecture fingerprint)
  end.
Proof.
  unfold resolve. destruct (List.find _ _) as [p|] eqn:E; cbn.
  - apply List.find_some in E as [Hin [?%String.eqb_eq ?%String.eqb_eq]%andb_true_iff].
    by rewrite list_elem_of_In.
  - split; [done|]. intros p Hp [E1 E2]. apply list_elem_of_In in Hp.
    apply (List.find_none _ _ E) in Hp. by rewrite E1, E2, !String.eqb_refl in Hp.
Qed.
End plan.

Module ProfileFixture.
Lemma signature_exact_witness :
  matches_signature [x90; x90; xcc; xcd; xdd] (mkProbeSignature 1 (hex_text [xff; xff; xf0]) (hex_text [x90; xcc; xc0]))
  = true.
Proof.
  apply (signature_exact [x90; x90; xcc; xcd; xdd] 1 [x90; xcc; xc0] [xff; xff; xf0]);
    [vm_compute; discriminate | split; vm_compute; discriminate | vm_compute; discriminate |].
  split; [reflexivity|]. exists [x90], [x90; xcc; xcd], [xdd]. repeat split.
  intros [|[|[|i]]] ? ? ?; cbn; intros; simplify_eq; reflexivity.
Defined.
End ProfileFixture.
