(* ===== verification/Abi.v ===== *)
(** * The records of the kernel programs

    [src/crates/capture-ebpf/src/abi.rs] and the decoder of
    [src/crates/capture-ebpf/src/loader.rs]: the record the kernel programs fill
    in, the bytes it has in memory ([record_bytes], the layout of [repr(C)] on a
    little-endian machine), and what [decode_capture_record] reads from bytes.
    The decoder expects the fields without padding ([packed_bytes]). *)
From Stdlib Require Import ZArith Lia Strings.Byte Strings.String.
From S2P Require Import Prelude RustStr.
Local Open Scope string_scope.
Local Open Scope list_scope.
Local Open Scope Z_scope.

(* src: src/crates/capture-ebpf/src/abi.rs:1-1 ABI_VERSION *)
Definition ABI_VERSION : Z := 1.
(* src: src/crates/capture-ebpf/src/abi.rs:2-2 MAX_CAPTURE_BYTES *)
Definition MAX_CAPTURE_BYTES : nat := Z.to_nat 256.
(* src: src/crates/capture-ebpf/src/abi.rs:6-10 ProbeDirection *)
Inductive ProbeDirection : Type :=
| ProbeDirection_None
| ProbeDirection_Read
| ProbeDirection_Write.

(* src: src/crates/capture-ebpf/src/abi.rs:14-25 ProbeKind *)
Inductive ProbeKind : Type :=
| ProbeKind_ProcessExec
| ProbeKind_ProcessExit
| ProbeKind_TcpStateChange
| ProbeKind_ConnectionCreate
| ProbeKind_ConnectionDrop
| ProbeKind_PlaintextWrite
| ProbeKind_PlaintextRead
| ProbeKind_TurnComplete
| ProbeKind_TurnAbort
| ProbeKind_TerminalError.

(* src: src/crates/capture-ebpf/src/abi.rs:29-37 ConnectionIdentity *)
Record ConnectionIdentity : Type := mkConnectionIdentity {
  ci_boot_id : bytes;
  ci_tgid : Z;
  ci_pid : Z;
  ci_start_ticks : Z;
  ci_connection_ptr : Z;
  ci_epoch : Z;
  ci_call_sequence : Z }.

(* src: src/crates/capture-ebpf/src/abi.rs:41-54 CaptureRecordHeader *)
Record CaptureRecordHeader : Type := mkCaptureRecordHeader {
  crh_abi_version : Z;
  crh_header_len : Z;
  crh_kind : ProbeKind;
  crh_direction : ProbeDirection;
  crh_cpu : Z;
  crh_pad0 : Z;
  crh_connection : ConnectionIdentity;
  crh_file_offset : Z;
  crh_data_offset : Z;
  crh_data_length : Z;
  crh_aux_value : Z;
  crh_aux_value2 : Z }.

(* src: src/crates/capture-ebpf/src/abi.rs:58-61 CaptureRecord *)
Record CaptureRecord : Type := mkCaptureRecord {
  cr_header : CaptureRecordHeader;
  cr_payload : bytes }.

#[export] Instance ProbeKind_eq_dec : EqDecision ProbeKind.
Proof. solve_decision. Defined.
(** [size_of::<CaptureRecordHeader>()], the padding included. *)
Definition header_size : nat := 104.
Definition no_identity : ConnectionIdentity := mkConnectionIdentity (replicate 16 x00) 0 0 0 0 0 0.
(* src: src/crates/capture-ebpf/src/abi.rs:65-91 CaptureRecord::empty *)
Definition CaptureRecord_empty (kind : ProbeKind) (direction : ProbeDirection) : CaptureRecord :=
  mkCaptureRecord
    (mkCaptureRecordHeader ABI_VERSION (wrap 16 (Z.of_nat header_size)) kind direction 0 0 no_identity 0 0 0 0 0)
    (replicate MAX_CAPTURE_BYTES x00).

(** ** The record in memory *)
(* src: src/crates/capture-ebpf/src/abi.rs:14-25 ProbeKind: discriminants *)
Definition kind_byte (k : ProbeKind) : byte :=
  match k with
  | ProbeKind_ProcessExec => x00
  | ProbeKind_ProcessExit => x01
  | ProbeKind_TcpStateChange => x02
  | ProbeKind_ConnectionCreate => x03
  | ProbeKind_ConnectionDrop => x04
  | ProbeKind_PlaintextWrite => x05
  | ProbeKind_PlaintextRead => x06
  | ProbeKind_TurnComplete => x07
  | ProbeKind_TurnAbort => x08
  | ProbeKind_TerminalError => x09
  end.
(* src: src/crates/capture-ebpf/src/abi.rs:6-10 ProbeDirection: discriminants *)
Definition direction_byte (d : ProbeDirection) : byte :=
  match d with
  | ProbeDirection_None => x00
  | ProbeDirection_Read => x01
  | ProbeDirection_Write => x02
  end.
Definition identity_bytes (c : ConnectionIdentity) : bytes :=
  ci_boot_id c ++ le_bytes 4 (ci_tgid c) ++ le_bytes 4 (ci_pid c) ++ le_bytes 8 (ci_start_ticks c)
  ++ le_bytes 8 (ci_connection_ptr c) ++ le_bytes 8 (ci_epoch c) ++ le_bytes 8 (ci_call_sequence c).
(** The fields before the identity, and those after it. *)
Definition head_bytes (h : CaptureRecordHeader) : bytes :=
  le_bytes 2 (crh_abi_version h) ++ le_bytes 2 (crh_header_len h) ++ [kind_byte (crh_kind h)]
  ++ [direction_byte (crh_direction h)] ++ le_bytes 2 (crh_cpu h) ++ le_bytes 2 (crh_pad0 h).
Definition tail_bytes (h : CaptureRecordHeader) : bytes :=
  le_bytes 8 (crh_file_offset h) ++ le_bytes 8 (crh_data_offset h) ++ le_bytes 4 (crh_data_length h)
  ++ le_bytes 4 (crh_aux_value h) ++ le_bytes 8 (crh_aux_value2 h).
(** [repr(C)]: the identity holds 64-bit integers, so it begins at a multiple of
    eight; the six bytes before it are padding, of no particular value. *)
Definition record_bytes (padding : bytes) (r : CaptureRecord) : bytes :=
  let h := cr_header r in
  head_bytes h ++ padding ++ identity_bytes (crh_connection h) ++ tail_bytes h ++ cr_payload r.
(** The same without padding. *)
Definition packed_bytes (r : CaptureRecord) : bytes := record_bytes [] r.

(** ** The decoder *)
(* src: src/crates/capture-ebpf/src/loader.rs:20-23 OwnedCaptureRecord *)
Record OwnedCaptureRecord : Type := mkOwnedCaptureRecord {
  ocr_header : CaptureRecordHeader;
  ocr_payload : bytes }.
(** [&mut offset] is passed along; [None] leaves the function. *)
Definition Read (A : Type) : Type := bytes -> nat -> option (A * nat).
#[export] Instance read_ret : MRet Read := fun A a b offset => Some (a, offset).
#[export] Instance read_bind : MBind Read := fun A B f m b offset =>
  match m b offset with
  | Some (a, offset) => f a b offset
  | None => None
  end.
Definition some_or_none {A} (o : option A) : Read A := fun b offset => (fun a => (a, offset)) <$> o.
(* src: src/crates/capture-ebpf/src/loader.rs:289-294 read_bytes *)
Definition read_bytes (len : nat) : Read bytes := fun b offset =>
  let stop := (offset + len)%nat in
  if Nat.leb stop (length b) then Some (take len (drop offset b), stop) else None.
(* src: src/crates/capture-ebpf/src/loader.rs:296-298 read_u8 *)
Definition read_u8 : Read byte := b ← read_bytes 1; some_or_none (head b).
(* src: src/crates/capture-ebpf/src/loader.rs:300-304 read_u16 *)
Definition read_u16 : Read Z := b ← read_bytes 2; mret (le_val b).
(* src: src/crates/capture-ebpf/src/loader.rs:306-310 read_u32 *)
Definition read_u32 : Read Z := b ← read_bytes 4; mret (le_val b).
(* src: src/crates/capture-ebpf/src/loader.rs:312-316 read_u64 *)
Definition read_u64 : Read Z := b ← read_bytes 8; mret (le_val b).
(* src: src/crates/capture-ebpf/src/loader.rs:318-332 decode_probe_kind *)
Definition decode_probe_kind (value : byte) : option ProbeKind :=
  match value with
  | x00 => Some ProbeKind_ProcessExec
  | x01 => Some ProbeKind_ProcessExit
  | x02 => Some ProbeKind_TcpStateChange
  | x03 => Some ProbeKind_ConnectionCreate
  | x04 => Some ProbeKind_ConnectionDrop
  | x05 => Some ProbeKind_PlaintextWrite
  | x06 => Some ProbeKind_PlaintextRead
  | x07 => Some ProbeKind_TurnComplete
  | x08 => Some ProbeKind_TurnAbort
  | x09 => Some ProbeKind_TerminalError
  | _ => None
  end.
(* src: src/crates/capture-ebpf/src/loader.rs:334-341 decode_probe_direction *)
Definition decode_probe_direction (value : byte) : option ProbeDirection :=
  match value with
  | x00 => Some ProbeDirection_None
  | x01 => Some ProbeDirection_Read
  | x02 => Some ProbeDirection_Write
  | _ => None
  end.
(* src: src/crates/capture-ebpf/src/loader.rs:245-251 decode_capture_record: identity *)
Definition read_identity : Read ConnectionIdentity :=
  boot_id ← read_bytes 16;
  tgid ← read_u32;
  pid ← read_u32;
  start_ticks ← read_u64;
  connection_ptr ← read_u64;
  epoch ← read_u64;
  call_sequence ← read_u64;
  mret (mkConnectionIdentity boot_id tgid pid start_ticks connection_ptr epoch call_sequence).
(* src: src/crates/capture-ebpf/src/loader.rs:237-287 decode_capture_record: fields *)
Definition read_record : Read OwnedCaptureRecord :=
  abi_version ← read_u16;
  header_size ← read_u16;
  kind ← (b ← read_u8; some_or_none (decode_probe_kind b));
  direction ← (b ← read_u8; some_or_none (decode_probe_direction b));
  cpu ← read_u16;
  pad0 ← read_u16;
  connection ← read_identity;
  file_offset ← read_u64;
  data_offset ← read_u64;
  data_length ← read_u32;
  aux_value ← read_u32;
  aux_value2 ← read_u64;
  let payload_len := Nat.min (Z.to_nat data_length) MAX_CAPTURE_BYTES in
  payload_bytes ← read_bytes MAX_CAPTURE_BYTES;
  mret (mkOwnedCaptureRecord
    (mkCaptureRecordHeader abi_version header_size kind direction cpu pad0 connection file_offset data_offset
       data_length aux_value aux_value2)
    (take payload_len payload_bytes)).
(* src: src/crates/capture-ebpf/src/loader.rs:231-287 decode_capture_record *)
Definition decode_capture_record (b : bytes) : option OwnedCaptureRecord :=
  if Nat.ltb (length b) header_size then None else fst <$> read_record b 0%nat.

(** ** Reading what was written *)
(** [m] reads exactly [x], wherever it stands, and gives [a]. *)
Definition reads {A} (m : Read A) (x : bytes) (a : A) : Prop :=
  forall pre post, m (pre ++ x ++ post) (length pre) = Some (a, length (pre ++ x)).
Lemma reads_ret {A} (a : A) : reads (mret a) [] a.
Proof. intros pre post. by rewrite app_nil_r. Qed.
Lemma reads_bind {A B} (m : Read A) (f : A -> Read B) x y a b :
  reads m x a -> reads (f a) y b -> reads (m ≫= f) (x ++ y) b.
Proof.
  intros Hm Hf pre post. unfold mbind, read_bind. rewrite <- app_assoc, Hm, (app_assoc pre).
  rewrite Hf. by rewrite <- !app_assoc.
Qed.
Lemma reads_last {A B} (m : Read A) (f : A -> Read B) x a b :
  reads m x a -> reads (f a) [] b -> reads (m ≫= f) x b.
Proof. intros Hm Hf. rewrite <- (app_nil_r x). by eapply reads_bind. Qed.
Lemma reads_some {A} (a : A) : reads (some_or_none (Some a)) [] a.
Proof. intros pre post. cbn. by rewrite app_nil_r. Qed.
Lemma reads_bytes n x : length x = n -> reads (read_bytes n) x x.
Proof.
  intros Hn pre post. unfold read_bytes. rewrite !length_app, Hn.
  rewrite (proj2 (Nat.leb_le _ _)) by lia. by rewrite drop_app_length, <- Hn, take_app_length.
Qed.
Lemma reads_u8 x : reads read_u8 [x] x.
Proof. eapply reads_last; [by apply reads_bytes | apply reads_some]. Qed.
Lemma reads_word (m : Read Z) n x : m = (b ← read_bytes n; mret (le_val b)) -> length x = n ->
  reads m x (le_val x).
Proof. intros -> Hx. eapply reads_last; [by apply reads_bytes | apply reads_ret]. Qed.
Lemma reads_kind k : reads (b ← read_u8; some_or_none (decode_probe_kind b)) [kind_byte k] k.
Proof. eapply reads_last; [apply reads_u8 | destruct k; apply reads_some]. Qed.
Lemma reads_direction d : reads (b ← read_u8; some_or_none (decode_probe_direction b)) [direction_byte d] d.
Proof. eapply reads_last; [apply reads_u8 | destruct d; apply reads_some]. Qed.
Ltac reads_step :=
  first [ apply reads_kind | apply reads_direction | by apply reads_bytes
        | apply (reads_word _ 2); [reflexivity | first [done | apply length_le_bytes]]
        | apply (reads_word _ 4); [reflexivity | first [done | apply length_le_bytes]]
        | apply (reads_word _ 8); [reflexivity | first [done | apply length_le_bytes]]
        | apply reads_ret ].

(** The values of a header that its fields can hold. *)
Definition word (w : Z) (z : Z) : Prop := 0 <= z < 256 ^ w.
Definition identity_ok (c : ConnectionIdentity) : Prop :=
  length (ci_boot_id c) = 16%nat /\ word 4 (ci_tgid c) /\ word 4 (ci_pid c) /\ word 8 (ci_start_ticks c)
  /\ word 8 (ci_connection_ptr c) /\ word 8 (ci_epoch c) /\ word 8 (ci_call_sequence c).
Definition record_ok (r : CaptureRecord) : Prop :=
  let h := cr_header r in
  word 2 (crh_abi_version h) /\ word 2 (crh_header_len h) /\ word 2 (crh_cpu h) /\ word 2 (crh_pad0 h)
  /\ identity_ok (crh_connection h) /\ word 8 (crh_file_offset h) /\ word 8 (crh_data_offset h)
  /\ word 4 (crh_data_length h) /\ word 4 (crh_aux_value h) /\ word 8 (crh_aux_value2 h)
  /\ length (cr_payload r) = MAX_CAPTURE_BYTES.
Lemma le_val_word n w z : Z.of_nat n = w -> word w z -> le_val (le_bytes n z) = z.
Proof. intros <- Hz. rewrite le_val_le_bytes. by apply Z.mod_small. Qed.
Lemma reads_identity c : identity_ok c -> reads read_identity (identity_bytes c) c.
Proof.
  intros (Hb & Ht & Hp & Hs & Hc & He & Hq). unfold read_identity, identity_bytes.
  do 6 (eapply reads_bind; [reads_step|]).
  eapply reads_last; [reads_step|].
  rewrite !(le_val_word 4 4), !(le_val_word 8 8) by done. destruct c. apply reads_ret.
Qed.
(** The whole record, whatever stands for its identity and the words after it. *)
Lemma reads_record h idb c fo d n x y pl : reads read_identity idb c ->
  word 2 (crh_abi_version h) -> word 2 (crh_header_len h) -> word 2 (crh_cpu h) -> word 2 (crh_pad0 h) ->
  length fo = 8%nat -> length d = 8%nat -> length n = 4%nat -> length x = 4%nat -> length y = 8%nat ->
  length pl = MAX_CAPTURE_BYTES ->
  reads read_record (head_bytes h ++ idb ++ fo ++ d ++ n ++ x ++ y ++ pl)
    (mkOwnedCaptureRecord
      (mkCaptureRecordHeader (crh_abi_version h) (crh_header_len h) (crh_kind h) (crh_direction h) (crh_cpu h)
        (crh_pad0 h) c (le_val fo) (le_val d) (le_val n) (le_val x) (le_val y))
      (take (Nat.min (Z.to_nat (le_val n)) MAX_CAPTURE_BYTES) pl)).
Proof.
  intros Hid Ha Hl Hc Hp ? ? ? ? ? ?. unfold read_record, head_bytes. rewrite <- !app_assoc.
  do 2 (eapply reads_bind; [reads_step|]). eapply reads_bind; [apply reads_kind|].
  eapply reads_bind; [apply reads_direction|].
  do 2 (eapply reads_bind; [reads_step|]). eapply reads_bind; [exact Hid|].
  do 5 (eapply reads_bind; [reads_step|]). eapply reads_last; [by apply reads_bytes|].
  rewrite !(le_val_word 2 2) by done. apply reads_ret.
Qed.
Lemma length_packed r : record_ok r -> length (packed_bytes r) = 354%nat.
Proof.
  intros (_ & _ & _ & _ & (Hb & _) & _ & _ & _ & _ & _ & Hp).
  unfold packed_bytes, record_bytes, head_bytes, identity_bytes, tail_bytes.
  rewrite !length_app, !length_le_bytes, Hb, Hp. reflexivity.
Qed.

(** The decoder is right about records without padding: it reads back the
    header as it was, and of the payload as many bytes as the header says, but
    never more than a record holds. *)
Theorem packed_roundtrip r : record_ok r ->
  decode_capture_record (packed_bytes r)
  = Some (mkOwnedCaptureRecord (cr_header r)
            (take (Nat.min (Z.to_nat (crh_data_length (cr_header r))) MAX_CAPTURE_BYTES) (cr_payload r))).
Proof.
  intros Hr. unfold decode_capture_record. rewrite length_packed by done.
  change (Nat.ltb 354 header_size) with false. cbn [negb].
  destruct Hr as (Ha & Hl & Hc & Hp & Hi & Hf & Hd & Hn & Hx & Hy & Hpl).
  pose proof (reads_record (cr_header r) _ _ (le_bytes 8 (crh_file_offset (cr_header r)))
    (le_bytes 8 (crh_data_offset (cr_header r))) (le_bytes 4 (crh_data_length (cr_header r)))
    (le_bytes 4 (crh_aux_value (cr_header r))) (le_bytes 8 (crh_aux_value2 (cr_header r))) _
    (reads_identity _ Hi) Ha Hl Hc Hp
    (length_le_bytes _ _) (length_le_bytes _ _) (length_le_bytes _ _) (length_le_bytes _ _) (length_le_bytes _ _)
    Hpl [] []) as Hread.
  rewrite !(le_val_word 4 4), !(le_val_word 8 8) in Hread by done. cbn [length] in Hread.
  rewrite app_nil_l, app_nil_r in Hread. unfold packed_bytes, record_bytes, tail_bytes.
  rewrite <- !app_assoc, app_nil_l, Hread. by destruct r as [[] ?].
Qed.

(** What the decoder makes of the fields of the head and any bytes after it. *)
Lemma cut_bytes n (z : bytes) : (n <= length z)%nat ->
  exists x y, z = x ++ y /\ length x = n /\ length y = (length z - n)%nat.
Proof. intros Hz. exists (take n z), (drop n z). by rewrite take_drop, length_take, length_drop, Nat.min_l. Qed.
Lemma reads_identity_any b t p s c e q :
  length b = 16%nat -> length t = 4%nat -> length p = 4%nat -> length s = 8%nat -> length c = 8%nat ->
  length e = 8%nat -> length q = 8%nat ->
  reads read_identity (b ++ t ++ p ++ s ++ c ++ e ++ q)
    (mkConnectionIdentity b (le_val t) (le_val p) (le_val s) (le_val c) (le_val e) (le_val q)).
Proof.
  intros. unfold read_identity. do 6 (eapply reads_bind; [reads_step|]).
  eapply reads_last; [reads_step|]. apply reads_ret.
Qed.
Lemma decode_any h z : word 2 (crh_abi_version h) -> word 2 (crh_header_len h) ->
  word 2 (crh_cpu h) -> word 2 (crh_pad0 h) -> (344 <= length z)%nat ->
  exists r, decode_capture_record (head_bytes h ++ z) = Some r
    /\ crh_kind (ocr_header r) = crh_kind h
    /\ ci_boot_id (crh_connection (ocr_header r)) = take 16 z
    /\ ci_tgid (crh_connection (ocr_header r)) = le_val (take 4 (drop 16 z)).
Proof.
  intros Ha Hl Hc Hp Hz. unfold decode_capture_record.
  rewrite (proj2 (Nat.ltb_ge _ _)) by (unfold header_size; rewrite length_app; lia). cbn [negb].
  destruct (cut_bytes 16 z ltac:(lia)) as (b & z1 & Ez & Hb & H1).
  destruct (cut_bytes 4 z1 ltac:(lia)) as (t & z2 & E1 & Ht & H2).
  destruct (cut_bytes 4 z2 ltac:(lia)) as (p & z3 & E2 & Hpp & H3).
  destruct (cut_bytes 8 z3 ltac:(lia)) as (s & z4 & E3 & Hs & H4).
  destruct (cut_bytes 8 z4 ltac:(lia)) as (c & z5 & E4 & Hcc & H5).
  destruct (cut_bytes 8 z5 ltac:(lia)) as (e & z6 & E5 & He & H6).
  destruct (cut_bytes 8 z6 ltac:(lia)) as (q & z7 & E6 & Hq & H7).
  destruct (cut_bytes 8 z7 ltac:(lia)) as (fo & z8 & E7 & Hfo & H8).
  destruct (cut_bytes 8 z8 ltac:(lia)) as (d & z9 & E8 & Hd & H9).
  destruct (cut_bytes 4 z9 ltac:(lia)) as (n & z10 & E9 & Hn & H10).
  destruct (cut_bytes 4 z10 ltac:(lia)) as (x & z11 & E10 & Hx & H11).
  destruct (cut_bytes 8 z11 ltac:(lia)) as (y & z12 & E11 & Hy & H12).
  destruct (cut_bytes MAX_CAPTURE_BYTES z12 ltac:(unfold MAX_CAPTURE_BYTES; lia)) as (pl & post & E12 & Hpl & _).
  pose proof (reads_record h _ _ fo d n x y pl (reads_identity_any b t p s c e q Hb Ht Hpp Hs Hcc He Hq)
    Ha Hl Hc Hp Hfo Hd Hn Hx Hy Hpl [] post) as Hr.
  clear H1 H2 H3 H4 H5 H6 H7 H8 H9 H10 H11 H12 Hz. subst.
  rewrite take_app_length', drop_app_length', take_app_length' by done.
  cbn [length] in Hr. rewrite !app_nil_l, <- !app_assoc in Hr. rewrite Hr. eexists. by repeat split.
Qed.

(** The decoder is wrong about the records as they are in memory: it has no
    place for the six bytes of padding before the identity.  Whatever a record
    says, the boot identifier it reads begins with the padding and the process
    identifier is made of four bytes of the boot identifier: every record of a
    machine names the same process, whoever wrote it. *)
Theorem padded_record_misread padding r : record_ok r -> length padding = 6%nat ->
  exists r', decode_capture_record (record_bytes padding r) = Some r'
    /\ crh_kind (ocr_header r') = crh_kind (cr_header r)
    /\ ci_boot_id (crh_connection (ocr_header r')) = padding ++ take 10 (ci_boot_id (crh_connection (cr_header r)))
    /\ ci_tgid (crh_connection (ocr_header r'))
       = le_val (take 4 (drop 10 (ci_boot_id (crh_connection (cr_header r))))).
Proof.
  intros (Ha & Hl & Hc & Hp & (Hb & _) & _ & _ & _ & _ & _ & Hpl) Hpad. unfold record_bytes, identity_bytes.
  destruct (cut_bytes 10 (ci_boot_id (crh_connection (cr_header r))) ltac:(lia)) as (b1 & rest & Eb & H1 & Hrest).
  destruct (cut_bytes 4 rest ltac:(lia)) as (b2 & b3 & -> & H2 & H3). rewrite Eb.
  rewrite (take_app_length' b1), (drop_app_length' b1), (take_app_length' b2) by done.
  match goal with |- context [head_bytes _ ++ ?z] =>
    destruct (decode_any (cr_header r) z Ha Hl Hc Hp) as (r' & -> & Hk & Hbo & Ht) end.
  { unfold tail_bytes, MAX_CAPTURE_BYTES in *. rewrite !length_app, !length_le_bytes. lia. }
  exists r'. split; [done|]. split; [done|]. rewrite <- !app_assoc, (app_assoc padding) in Hbo, Ht.
  rewrite take_app_length' in Hbo by (rewrite length_app; lia).
  rewrite drop_app_length', take_app_length' in Ht by (rewrite ?length_app; lia). done.
Qed.

Module AbiFixture.
Definition record : CaptureRecord :=
  mkCaptureRecord (mkCaptureRecordHeader ABI_VERSION 104 ProbeKind_PlaintextWrite ProbeDirection_Write 0 0
      (mkConnectionIdentity (map to_u8 (seqZ 1 16)) 77 78 1000 3 1 1) 41890992 0 3 0 3)
    ([x61; x62; x63] ++ replicate 253 x00).
Lemma packed_roundtrip_witness :
  decode_capture_record (packed_bytes record)
  = Some (mkOwnedCaptureRecord (cr_header record) [x61; x62; x63]).
Proof.
  rewrite (packed_roundtrip record); [reflexivity|].
  unfold record_ok, identity_ok, word. repeat split; vm_compute; first [reflexivity | discriminate].
Defined.
End AbiFixture.
