(* ===== verification/Probes.v ===== *)
(** * The kernel programs

    [src/crates/capture-ebpf/ebpf/src/lib.rs]: the programs attached to the
    kernel and to the monitored process, with the maps they share.  Several run
    at once, on several processors, and nothing locks the maps: a program is a
    tree of atomic accesses ([Bpf]), which [exec] runs without interruption and
    [kernel_step] interleaves with those of the others.  The kernel's answers to
    a program (who runs, the time, the arguments, memory of the process, whether
    the ring buffer has room) are the [Ctx] of its event.  A map refuses a new
    key when it is full; a refusal is ignored, as in the code. *)
From Stdlib Require Import ZArith Lia Strings.Byte Strings.String.
From S2P Require Import Prelude RustStr Abi.
Local Open Scope string_scope.
Local Open Scope list_scope.
Local Open Scope Z_scope.

(* src: src/crates/capture-ebpf/ebpf/src/lib.rs:26-36 InflightIo *)
Record InflightIo : Type := mkInflightIo {
  ii_connection_ptr : Z;
  ii_buf_ptr : Z;
  ii_requested_len : Z;
  ii_file_offset : Z;
  ii_epoch : Z;
  ii_call_sequence : Z;
  ii_tgid : Z;
  ii_pid : Z;
  ii_start_ticks : Z }.

(** The maps; a scratch record for every processor, and what was put in the ring
    buffer. *)
(* src: src/crates/capture-ebpf/ebpf/src/lib.rs:38-60 BOOT_ID, PROCESS_START, .. *)
Record Maps : Type := mkMaps {
  BOOT_ID : bytes;
  PROCESS_START : gmap Z Z;
  CONNECTION_EPOCH : gmap Z Z;
  CONNECTION_SEQUENCE : gmap Z Z;
  INFLIGHT_WRITES : gmap Z InflightIo;
  INFLIGHT_READS : gmap Z InflightIo;
  EVENTS : list bytes;
  SCRATCH_RECORDS : gmap Z CaptureRecord }.
Record Ctx : Type := mkCtx {
  cx_cpu : Z;
  cx_pid_tgid : Z;
  cx_ktime : Z;
  (** [bpf_get_current_comm] *)
  cx_comm : result Z bytes;
  cx_arg : nat -> option Z;
  (** [regs.ret()] and the register rdx *)
  cx_ret : option Z;
  cx_rdx : Z;
  (** what [bpf_probe_read_user_buf] leaves in a buffer of this length *)
  cx_user : Z -> nat -> bytes;
  (** the address of this processor's scratch record *)
  cx_scratch : option Z;
  (** whether the ring buffer takes what is put into it *)
  cx_ring : result Z unit }.

(** ** Programs *)
(** An access reads and writes the maps at once; what follows depends on what it
    found there. *)
Inductive Bpf (A : Type) : Type :=
| Ret (a : A)
| Fail (e : Z)
| Atomic (write : Ctx -> Maps -> Maps) (rest : Ctx -> Maps -> Bpf A).
Arguments Ret {A} a.
Arguments Fail {A} e.
Arguments Atomic {A} write rest.
#[export] Instance bpf_ret : MRet Bpf := fun A => Ret.
#[export] Instance bpf_bind : MBind Bpf := fun A B f =>
  fix go (x : Bpf A) : Bpf B :=
  match x with
  | Ret a => f a
  | Fail e => Fail e
  | Atomic write rest => Atomic write (fun c m => go (rest c m))
  end.
(** What the kernel answers, and an answer that may be an error. *)
Definition ask {A} (f : Ctx -> A) : Bpf A := Atomic (fun _ m => m) (fun c _ => Ret (f c)).
Definition answer {A} (f : Ctx -> result Z A) : Bpf A :=
  Atomic (fun _ m => m) (fun c _ => match f c with Ok a => Ret a | Err e => Fail e end).
Definition get {A} (f : Maps -> A) : Bpf A := Atomic (fun _ m => m) (fun _ m => Ret (f m)).
Definition modify (f : Maps -> Maps) : Bpf unit := Atomic (fun _ m => f m) (fun _ _ => Ret tt).
(** [ctx.arg(n).ok_or(0)?]. *)
Definition arg (n : nat) : Bpf Z := answer (fun c => ok_or 0 (cx_arg c n)).
(** [insert] into a map with this many places. *)
Definition map_insert {A} (places : nat) (k : Z) (v : A) (m : gmap Z A) : gmap Z A :=
  if bool_decide (is_Some (m !! k)) || Nat.ltb (size m) places then <[k := v]> m else m.

Definition set_process_start (f : gmap Z Z -> gmap Z Z) (m : Maps) : Maps :=
  mkMaps (BOOT_ID m) (f (PROCESS_START m)) (CONNECTION_EPOCH m) (CONNECTION_SEQUENCE m) (INFLIGHT_WRITES m)
    (INFLIGHT_READS m) (EVENTS m) (SCRATCH_RECORDS m).
Definition set_epoch (f : gmap Z Z -> gmap Z Z) (m : Maps) : Maps :=
  mkMaps (BOOT_ID m) (PROCESS_START m) (f (CONNECTION_EPOCH m)) (CONNECTION_SEQUENCE m) (INFLIGHT_WRITES m)
    (INFLIGHT_READS m) (EVENTS m) (SCRATCH_RECORDS m).
Definition set_sequence (f : gmap Z Z -> gmap Z Z) (m : Maps) : Maps :=
  mkMaps (BOOT_ID m) (PROCESS_START m) (CONNECTION_EPOCH m) (f (CONNECTION_SEQUENCE m)) (INFLIGHT_WRITES m)
    (INFLIGHT_READS m) (EVENTS m) (SCRATCH_RECORDS m).
Definition set_writes (f : gmap Z InflightIo -> gmap Z InflightIo) (m : Maps) : Maps :=
  mkMaps (BOOT_ID m) (PROCESS_START m) (CONNECTION_EPOCH m) (CONNECTION_SEQUENCE m) (f (INFLIGHT_WRITES m))
    (INFLIGHT_READS m) (EVENTS m) (SCRATCH_RECORDS m).
Definition set_reads (f : gmap Z InflightIo -> gmap Z InflightIo) (m : Maps) : Maps :=
  mkMaps (BOOT_ID m) (PROCESS_START m) (CONNECTION_EPOCH m) (CONNECTION_SEQUENCE m) (INFLIGHT_WRITES m)
    (f (INFLIGHT_READS m)) (EVENTS m) (SCRATCH_RECORDS m).
Definition set_events (f : list bytes -> list bytes) (m : Maps) : Maps :=
  mkMaps (BOOT_ID m) (PROCESS_START m) (CONNECTION_EPOCH m) (CONNECTION_SEQUENCE m) (INFLIGHT_WRITES m)
    (INFLIGHT_READS m) (f (EVENTS m)) (SCRATCH_RECORDS m).
Definition set_scratch (f : gmap Z CaptureRecord -> gmap Z CaptureRecord) (m : Maps) : Maps :=
  mkMaps (BOOT_ID m) (PROCESS_START m) (CONNECTION_EPOCH m) (CONNECTION_SEQUENCE m) (INFLIGHT_WRITES m)
    (INFLIGHT_READS m) (EVENTS m) (f (SCRATCH_RECORDS m)).

(** ** Identities *)
(* src: src/crates/capture-ebpf/ebpf/src/lib.rs:299-319 current_identity *)
Definition current_identity (connection_ptr epoch call_sequence : Z) : Bpf ConnectionIdentity :=
  pid_tgid ← ask cx_pid_tgid;
  let pid := wrap32 pid_tgid in
  let tgid := wrap32 (Z.shiftr pid_tgid 32) in
  known ← get (fun m => PROCESS_START m !! tgid);
  now ← ask cx_ktime;
  boot_id ← get BOOT_ID;
  mret (mkConnectionIdentity boot_id tgid pid (unwrap_or now known) connection_ptr epoch call_sequence).
(* src: src/crates/capture-ebpf/ebpf/src/lib.rs:321-332 connection_identity_from_inflight *)
Definition connection_identity_from_inflight (inflight : InflightIo) : Bpf ConnectionIdentity :=
  boot_id ← get BOOT_ID;
  mret (mkConnectionIdentity boot_id (ii_tgid inflight) (ii_pid inflight) (ii_start_ticks inflight)
          (ii_connection_ptr inflight) (ii_epoch inflight) (ii_call_sequence inflight)).
(* src: src/crates/capture-ebpf/ebpf/src/lib.rs:334-341 connection_epoch *)
Definition connection_epoch (connection_ptr : Z) : Bpf (Z * bool) :=
  known ← get (fun m => CONNECTION_EPOCH m !! connection_ptr);
  match known with
  | Some existing => mret (existing, false)
  | None =>
    let epoch := 1 in
    _ ← modify (set_epoch (map_insert (Z.to_nat 8192) connection_ptr epoch));
    mret (epoch, true)
  end.
(** [*existing = ( *existing).saturating_add(1); return Ok( *existing);] through the
    pointer that [get_ptr_mut] gave: a read, a write and another read, with
    nothing to keep the other processors off the element in between. *)
(* src: src/crates/capture-ebpf/ebpf/src/lib.rs:343-349 next_sequence: existing *)
Definition bump_sequence (connection_ptr : Z) : Bpf Z :=
  value ← get (fun m => unwrap_or 0 (CONNECTION_SEQUENCE m !! connection_ptr));
  _ ← modify (set_sequence (insert connection_ptr (Z.min u64_max (value + 1))));
  get (fun m => unwrap_or 0 (CONNECTION_SEQUENCE m !! connection_ptr)).
(* src: src/crates/capture-ebpf/ebpf/src/lib.rs:343-353 next_sequence *)
Definition next_sequence (connection_ptr : Z) : Bpf Z :=
  known ← get (fun m => bool_decide (is_Some (CONNECTION_SEQUENCE m !! connection_ptr)));
  if known : bool then bump_sequence connection_ptr
  else
    let initial := 1 in
    _ ← modify (set_sequence (map_insert (Z.to_nat 8192) connection_ptr initial));
    mret initial.

(** ** Records *)
Definition no_payload : bytes := replicate MAX_CAPTURE_BYTES x00.
Definition scratch_payload (cpu : Z) (records : gmap Z CaptureRecord) : bytes :=
  match records !! cpu with Some r => cr_payload r | None => no_payload end.
(** [record.header = ..]. *)
Definition write_header (header : CaptureRecordHeader) : Bpf unit :=
  Atomic (fun c => set_scratch (fun records =>
            <[cx_cpu c := mkCaptureRecord header (scratch_payload (cx_cpu c) records)]> records))
    (fun _ _ => Ret tt).
(** [record.payload[..len]] gets these bytes; the rest is what an earlier record
    left there. *)
Definition write_payload (payload : Ctx -> bytes) : Bpf unit :=
  Atomic (fun c => set_scratch (alter (fun r =>
            mkCaptureRecord (cr_header r) (payload c ++ drop (length (payload c)) (cr_payload r))) (cx_cpu c)))
    (fun _ _ => Ret tt).
(** [RingBuf::output] of a reference copies the bytes of what it refers to. *)
Definition ring_output (data : bytes) : Bpf unit :=
  Atomic (fun c m => match cx_ring c with Ok _ => set_events (fun events => events ++ [data]) m | Err _ => m end)
    (fun c _ => match cx_ring c with Ok _ => Ret tt | Err e => Fail e end).
Definition emit_header (kind : ProbeKind) (direction : ProbeDirection) (identity : ConnectionIdentity)
    (file_offset data_offset : Z) (data_length : nat) (aux_value aux_value2 : Z) : CaptureRecordHeader :=
  mkCaptureRecordHeader ABI_VERSION (wrap 16 (Z.of_nat header_size)) kind direction 0 0 identity file_offset
    data_offset (wrap32 (Z.of_nat data_length)) aux_value aux_value2.
(** The record is written where [record] points, and then [&record] is put in the
    ring buffer: [record] is itself a reference, so the bytes copied are the eight
    of the address, not those of the record. *)
(* src: src/crates/capture-ebpf/ebpf/src/lib.rs:377-412 emit_record *)
Definition emit_record (kind : ProbeKind) (direction : ProbeDirection) (identity : ConnectionIdentity)
    (file_offset data_offset aux_value aux_value2 : Z) (payload : bytes) : Bpf unit :=
  record ← answer (fun c => ok_or 0 (cx_scratch c));
  let len := Nat.min (length payload) MAX_CAPTURE_BYTES in
  _ ← write_header (emit_header kind direction identity file_offset data_offset len aux_value aux_value2);
  _ ← write_payload (fun _ => take len payload);
  ring_output (le_bytes 8 record).
(* src: src/crates/capture-ebpf/ebpf/src/lib.rs:355-375 emit_with_payload *)
Definition emit_with_payload (kind : ProbeKind) (direction : ProbeDirection) (identity : ConnectionIdentity)
    (file_offset data_offset aux_value aux_value2 : Z) (payload : bytes) : Bpf unit :=
  emit_record kind direction identity file_offset data_offset aux_value aux_value2 payload.
(* src: src/crates/capture-ebpf/ebpf/src/lib.rs:414-450 emit_record_from_user_ptr *)
Definition emit_record_from_user_ptr (kind : ProbeKind) (direction : ProbeDirection)
    (identity : ConnectionIdentity) (file_offset data_offset aux_value aux_value2 payload_ptr : Z)
    (payload_len : nat) : Bpf unit :=
  record ← answer (fun c => ok_or 0 (cx_scratch c));
  let len := Nat.min payload_len MAX_CAPTURE_BYTES in
  _ ← write_header (emit_header kind direction identity file_offset data_offset len aux_value aux_value2);
  _ ← (if negb (Nat.eqb len 0) then write_payload (fun c => cx_user c payload_ptr len) else mret tt);
  ring_output (le_bytes 8 record).

(** ** The programs *)
(* src: src/crates/capture-ebpf/ebpf/src/lib.rs:123-138 try_process_exec *)
Definition try_process_exec : Bpf unit :=
  identity ← current_identity 0 0 0;
  let now := ci_start_ticks identity in
  _ ← modify (set_process_start (map_insert (Z.to_nat 4096) (ci_tgid identity) now));
  comm ← answer cx_comm;
  emit_with_payload ProbeKind_ProcessExec ProbeDirection_None identity 0 0 0 0 comm.
(* src: src/crates/capture-ebpf/ebpf/src/lib.rs:140-154 try_process_exit *)
Definition try_process_exit : Bpf unit :=
  identity ← current_identity 0 0 0;
  _ ← modify (set_process_start (delete (ci_tgid identity)));
  comm ← answer cx_comm;
  emit_with_payload ProbeKind_ProcessExit ProbeDirection_None identity 0 0 0 0 comm.
(* src: src/crates/capture-ebpf/ebpf/src/lib.rs:156-170 try_tcp_state *)
Definition try_tcp_state : Bpf unit :=
  sock ← arg 0;
  state ← arg 1;
  identity ← current_identity sock 0 0;
  emit_with_payload ProbeKind_TcpStateChange ProbeDirection_None identity 0 0 (wrap32 state) 0 [].
(** What both kinds of call do on entry; [f] stores the call. *)
(* src: src/crates/capture-ebpf/ebpf/src/lib.rs:172-205 try_plaintext_write_enter: entry *)
Definition plaintext_enter (file_offset : Z) (f : Z -> InflightIo -> Maps -> Maps) : Bpf unit :=
  connection_ptr ← arg 0;
  buf ← arg 1;
  len ← arg 2;
  pid_tgid ← ask cx_pid_tgid;
  '(epoch, created) ← connection_epoch connection_ptr;
  sequence ← next_sequence connection_ptr;
  identity ← current_identity connection_ptr epoch sequence;
  _ ← (if created : bool
       then emit_with_payload ProbeKind_ConnectionCreate ProbeDirection_None identity file_offset 0 0 0 []
       else mret tt);
  modify (f pid_tgid
    (mkInflightIo connection_ptr buf (Z.min len u32_max) file_offset epoch sequence (ci_tgid identity)
       (ci_pid identity) (ci_start_ticks identity))).
(* src: src/crates/capture-ebpf/ebpf/src/lib.rs:172-207 try_plaintext_write_enter *)
Definition try_plaintext_write_enter (file_offset : Z) : Bpf unit :=
  plaintext_enter file_offset (fun pid_tgid inflight =>
    set_writes (map_insert (Z.to_nat 8192) pid_tgid inflight)).
(* src: src/crates/capture-ebpf/ebpf/src/lib.rs:209-238 try_plaintext_write_return *)
Definition try_plaintext_write_return : Bpf unit :=
  pid_tgid ← ask cx_pid_tgid;
  known ← get (fun m => INFLIGHT_WRITES m !! pid_tgid);
  match known with
  | None => mret tt
  | Some inflight =>
    raw_tag ← ask (fun c => unwrap_or 0 (cx_ret c));
    raw_len ← ask cx_rdx;
    let actual_len := if raw_tag =? 0 then Z.min raw_len (ii_requested_len inflight) else 0 in
    identity ← connection_identity_from_inflight inflight;
    _ ← emit_record_from_user_ptr ProbeKind_PlaintextWrite ProbeDirection_Write identity
          (ii_file_offset inflight) 0 (wrap32 raw_tag) raw_len (ii_buf_ptr inflight)
          (Nat.min (Z.to_nat actual_len) MAX_CAPTURE_BYTES);
    modify (set_writes (delete pid_tgid))
  end.
(* src: src/crates/capture-ebpf/ebpf/src/lib.rs:240-274 try_plaintext_read_enter *)
Definition try_plaintext_read_enter (file_offset : Z) : Bpf unit :=
  plaintext_enter file_offset (fun pid_tgid inflight =>
    set_reads (map_insert (Z.to_nat 8192) pid_tgid inflight)).
(** A read's bytes are never recorded. *)
(* src: src/crates/capture-ebpf/ebpf/src/lib.rs:276-297 try_plaintext_read_return *)
Definition try_plaintext_read_return : Bpf unit :=
  pid_tgid ← ask cx_pid_tgid;
  known ← get (fun m => INFLIGHT_READS m !! pid_tgid);
  match known with
  | None => mret tt
  | Some inflight =>
    raw_tag ← ask (fun c => unwrap_or 0 (cx_ret c));
    raw_len ← ask cx_rdx;
    identity ← connection_identity_from_inflight inflight;
    _ ← emit_record ProbeKind_PlaintextRead ProbeDirection_Read identity (ii_file_offset inflight) 0
          (wrap32 raw_tag) raw_len [];
    modify (set_reads (delete pid_tgid))
  end.
(** The entry points; each ignores the result and returns zero. *)
(* src: src/crates/capture-ebpf/ebpf/src/lib.rs:69-121 process_exec, .. *)
Inductive Program : Type :=
| process_exec
| process_exit
| tcp_state
| plaintext_write_enter
| plaintext_write_return
| plaintext_write_enter_alt
| plaintext_write_return_alt
| plaintext_read_enter_candidate
| plaintext_read_return_candidate.
(* src: src/crates/capture-ebpf/ebpf/src/lib.rs:69-121 process_exec, .. *)
Definition program (p : Program) : Bpf unit :=
  match p with
  | process_exec => try_process_exec
  | process_exit => try_process_exit
  | tcp_state => try_tcp_state
  | plaintext_write_enter => try_plaintext_write_enter 41890992
  | plaintext_write_return => try_plaintext_write_return
  | plaintext_write_enter_alt => try_plaintext_write_enter 41891168
  | plaintext_write_return_alt => try_plaintext_write_return
  | plaintext_read_enter_candidate => try_plaintext_read_enter 189820768
  | plaintext_read_return_candidate => try_plaintext_read_return
  end.
(** ** Runs *)
(** A program alone, from its start to its end. *)
Fixpoint exec {A} (x : Bpf A) (c : Ctx) (m : Maps) : result Z A * Maps :=
  match x with
  | Ret a => (Ok a, m)
  | Fail e => (Err e, m)
  | Atomic write rest => exec (rest c m) c (write c m)
  end.
(** The kernel: the maps, and what is left of each program that was started. *)
Definition Kernel : Type := Maps * list (Ctx * Bpf unit).
(** A program starts at any time on any event, and any of those that run makes its
    next access. *)
Inductive kernel_step : Kernel -> Kernel -> Prop :=
| kernel_start p c m running : kernel_step (m, running) (m, running ++ [(c, program p)])
| kernel_access i c write rest m running : running !! i = Some (c, Atomic write rest) ->
    kernel_step (m, running) (write c m, <[i := (c, rest c m)]> running).
(** The maps of a freshly loaded object, the boot identifier written. *)
Definition loaded (boot_id : bytes) : Maps := mkMaps boot_id ∅ ∅ ∅ ∅ ∅ [] ∅.
Definition kernel_reachable (boot_id : bytes) (k : Kernel) : Prop := rtc kernel_step (loaded boot_id, []) k.

(** ** What the ring buffer holds *)
(** Every access of [x] keeps [R]. *)
Fixpoint keeps {A} (R : Maps -> Prop) (x : Bpf A) : Prop :=
  match x with
  | Ret _ | Fail _ => True
  | Atomic write rest => (forall c m, R m -> R (write c m)) /\ forall c m, keeps R (rest c m)
  end.
Section kept.
Context (R : Maps -> Prop).
Lemma bpf_keeps_bind {A B} (x : Bpf A) (f : A -> Bpf B) :
  keeps R x -> (forall a, keeps R (f a)) -> keeps R (x ≫= f).
Proof.
  intros Hx Hf. induction x as [a|e w k IH|w k IH]; cbn; [apply Hf | done |].
  destruct Hx as [Hw Hk]. split; [exact Hw|]. intros c m. by apply IH.
Qed.
Lemma bpf_keeps_ret {A} (a : A) : keeps R (mret a).
Proof. done. Qed.
Lemma bpf_keeps_ask {A} (f : Ctx -> A) : keeps R (ask f).
Proof. by split. Qed.
Lemma bpf_keeps_answer {A} (f : Ctx -> result Z A) : keeps R (answer f).
Proof. split; [done|]. intros c m. by destruct (f c). Qed.
Lemma bpf_keeps_get {A} (f : Maps -> A) : keeps R (get f).
Proof. by split. Qed.
Lemma bpf_keeps_arg n : keeps R (arg n).
Proof. apply bpf_keeps_answer. Qed.
Lemma bpf_keeps_modify f : (forall m, R m -> R (f m)) -> keeps R (modify f).
Proof. split; [auto | done]. Qed.
(** What every program keeps holds throughout. *)
Lemma kernel_kept boot_id k : (forall p, keeps R (program p)) -> R (loaded boot_id) ->
  kernel_reachable boot_id k -> R k.1.
Proof.
  intros Hp H0 Hk. enough (R k.1 /\ Forall (fun r => keeps R r.2) k.2) as [? _] by done.
  assert (R (loaded boot_id, ([] : list (Ctx * Bpf unit))).1
          /\ Forall (fun r => keeps R r.2) (loaded boot_id, ([] : list (Ctx * Bpf unit))).2) as Hi by by split.
  revert Hi. unfold kernel_reachable in Hk. induction Hk as [|k1 k2 k3 Hs _ IH]; [done|]. intros [Hm Hl].
  apply IH. destruct Hs as [p c m l|i c w rest m l Hi]; cbn in *.
  - split; [done|]. apply Forall_app. split; [done|]. constructor; [apply Hp | done].
  - destruct (Forall_lookup_1 _ _ _ _ Hl Hi) as [Hw Hr]. split; [by apply Hw|]. apply Forall_insert; [done | apply Hr].
Qed.
End kept.
Create HintDb bpf discriminated.
#[export] Hint Resolve bpf_keeps_ret bpf_keeps_ask bpf_keeps_answer bpf_keeps_arg bpf_keeps_get : bpf.
Ltac bpf_walk :=
  repeat first
    [ solve [auto with bpf]
    | apply bpf_keeps_bind; [|intros ?]
    | apply bpf_keeps_modify; intros ? ?
    | match goal with |- keeps _ (match ?x with _ => _ end) => destruct x end ].

(** The ring buffer holds addresses. *)
Definition addresses (m : Maps) : Prop := Forall (fun item => length item = 8%nat) (EVENTS m).
Lemma keeps_addresses p : keeps addresses (program p).
Proof.
  assert (forall z, keeps addresses (ring_output (le_bytes 8 z))) as Hring.
  { intros z. split; [|by intros c m; destruct (cx_ring c)]. intros c m Hm. destruct (cx_ring c); [|done].
    apply Forall_app. split; [done|]. constructor; [apply length_le_bytes | done]. }
  assert (forall h, keeps addresses (write_header h)) as Hh by (by split).
  assert (forall f, keeps addresses (write_payload f)) as Hp by (by split).
  destruct p; cbn [program]; unfold try_process_exec, try_process_exit, try_tcp_state, try_plaintext_write_enter,
    try_plaintext_read_enter, plaintext_enter, try_plaintext_write_return, try_plaintext_read_return,
    emit_with_payload, emit_record, emit_record_from_user_ptr, current_identity,
    connection_identity_from_inflight, connection_epoch, next_sequence, bump_sequence; bpf_walk; assumption.
Qed.
Lemma ring_addresses boot_id k item : kernel_reachable boot_id k -> item ∈ EVENTS k.1 -> length item = 8%nat.
Proof.
  intros Hk Hin. pose proof (kernel_kept addresses boot_id k keeps_addresses (List.Forall_nil _) Hk) as Ha.
  unfold addresses in Ha. rewrite Forall_forall in Ha. by apply Ha.
Qed.

(** ** Two calls at once *)
Lemma bind_exec {A B} (x : Bpf A) (f : A -> Bpf B) c m :
  exec (x ≫= f) c m = match exec x c m with
                      | (Ok a, m') => exec (f a) c m'
                      | (Err e, m') => (Err e, m')
                      end.
Proof. revert m. induction x as [a|e|w k IH]; intros m; [done | done |]. exact (IH c m (w c m)). Qed.
(** A program that is not interrupted for a while. *)
Lemma advance {A} (x : Bpf A) (k : A -> Bpf unit) c m a m' i running :
  exec x c m = (Ok a, m') -> running !! i = Some (c, x ≫= k) ->
  rtc kernel_step (m, running) (m', <[i := (c, k a)]> running).
Proof.
  revert m running. induction x as [b|e|w r IH]; intros m running E Hi; [| done |].
  - injection E as -> ->. cbn in Hi. by rewrite list_insert_id.
  - eapply rtc_l; [by eapply (kernel_access i c)|]. cbn in E.
    etrans; [apply (IH c m (w c m)); [exact E|]|].
    + apply list_lookup_insert_eq. by eapply lookup_lt_Some.
    + by rewrite list_insert_insert_eq.
Qed.
Lemma finish (x : Bpf unit) c m m' i running : exec x c m = (Ok tt, m') -> running !! i = Some (c, x) ->
  rtc kernel_step (m, running) (m', <[i := (c, Ret tt)]> running).
Proof.
  revert m running. induction x as [[]|e|w r IH]; intros m running E Hi; [| done |].
  - injection E as ->. by rewrite list_insert_id.
  - eapply rtc_l; [by eapply (kernel_access i c)|]. cbn in E.
    etrans; [apply (IH c m (w c m)); [exact E|]|].
    + apply list_lookup_insert_eq. by eapply lookup_lt_Some.
    + by rewrite list_insert_insert_eq.
Qed.

(** The thread of [c] enters a write of the connection [p]. *)
Definition enters (c : Ctx) (p : Z) : Prop :=
  cx_arg c 0 = Some p /\ is_Some (cx_arg c 1) /\ is_Some (cx_arg c 2).
(** The connection is known and [n] calls have been made on it. *)
Definition numbered (m : Maps) (p n : Z) : Prop :=
  is_Some (CONNECTION_EPOCH m !! p) /\ CONNECTION_SEQUENCE m !! p = Some n.
(** The number given to the write a thread is in. *)
Definition call_number (m : Maps) (c : Ctx) : option Z :=
  ii_call_sequence <$> INFLIGHT_WRITES m !! cx_pid_tgid c.
(** There is room for [n] more writes under way. *)
Definition room (m : Maps) (n : nat) : Prop := (size (INFLIGHT_WRITES m) + n <= Z.to_nat 8192)%nat.

(** What is left of an entry that has read the number [n]. *)
Definition entry_left (fo p e n : Z) (buf len : Z) (pid_tgid : Z) : Bpf unit :=
  sequence ← (_ ← modify (set_sequence (insert p (Z.min u64_max (n + 1))));
              get (fun m => unwrap_or 0 (CONNECTION_SEQUENCE m !! p)));
  identity ← current_identity p e sequence;
  _ ← mret tt;
  modify (set_writes (map_insert (Z.to_nat 8192) pid_tgid
    (mkInflightIo p buf (Z.min len u32_max) fo e sequence (ci_tgid identity) (ci_pid identity)
       (ci_start_ticks identity)))).
(** [x] comes to [y] on the maps [m] without changing them. *)
Definition comes_to (c : Ctx) (m : Maps) (x y : Bpf unit) : Prop :=
  forall i running, running !! i = Some (c, x) -> rtc kernel_step (m, running) (m, <[i := (c, y)]> running).
Lemma comes_self c m x : comes_to c m x x.
Proof. intros i running Hi. by rewrite list_insert_id. Qed.
Lemma comes_step {A} (x : Bpf A) (k : A -> Bpf unit) c m a y :
  exec x c m = (Ok a, m) -> comes_to c m (k a) y -> comes_to c m (x ≫= k) y.
Proof.
  intros E Hy i running Hi. etrans; [by eapply advance|].
  rewrite <- (list_insert_insert_eq running i (c, y) (c, k a)). apply Hy.
  apply list_lookup_insert_eq. by eapply lookup_lt_Some.
Qed.
Lemma get_assoc {A B C} (v : Maps -> A) (f : A -> Bpf B) (g : B -> Bpf C) :
  (get v ≫= f) ≫= g = get v ≫= (fun a => f a ≫= g).
Proof. done. Qed.
Lemma epoch_known c m p e : CONNECTION_EPOCH m !! p = Some e -> exec (connection_epoch p) c m = (Ok (e, false), m).
Proof. intros He. cbn. by rewrite He. Qed.
Lemma entry_reads fo c p n m : enters c p -> numbered m p n ->
  exists e buf len, CONNECTION_EPOCH m !! p = Some e
    /\ exec (try_plaintext_write_enter fo) c m = exec (entry_left fo p e n buf len (cx_pid_tgid c)) c m
    /\ comes_to c m (try_plaintext_write_enter fo) (entry_left fo p e n buf len (cx_pid_tgid c)).
Proof.
  intros (Ha & [buf Hb] & [len Hl]) [[e He] Hn]. exists e, buf, len. split; [done|].
  assert (exec (get (fun m => bool_decide (is_Some (CONNECTION_SEQUENCE m !! p)))) c m = (Ok true, m)) as Hk
    by (cbn; by rewrite bool_decide_eq_true_2 by (by rewrite Hn)).
  assert (exec (get (fun m => unwrap_or 0 (CONNECTION_SEQUENCE m !! p))) c m = (Ok n, m)) as Hv by (cbn; by rewrite Hn).
  assert (forall i v, cx_arg c i = Some v -> exec (arg i) c m = (Ok v, m)) as Harg by (intros i v E; cbn; by rewrite E).
  unfold try_plaintext_write_enter, plaintext_enter, next_sequence, bump_sequence. split.
  - rewrite bind_exec, (Harg _ _ Ha), bind_exec, (Harg _ _ Hb), bind_exec, (Harg _ _ Hl), bind_exec.
    cbn [exec ask]. rewrite bind_exec, (epoch_known _ _ _ _ He), bind_exec, bind_exec, Hk, bind_exec, Hv.
    unfold entry_left. by rewrite bind_exec.
  - eapply comes_step; [by apply Harg|]. eapply comes_step; [by apply Harg|]. eapply comes_step; [by apply Harg|].
    eapply comes_step; [done|]. eapply comes_step; [by apply epoch_known|].
    cbv beta iota. rewrite get_assoc. eapply comes_step; [exact Hk|]. cbv beta iota. rewrite get_assoc.
    eapply comes_step; [exact Hv|]. apply comes_self.
Qed.
Lemma map_insert_room {A} places k (v : A) m k' : (size m < places)%nat ->
  map_insert places k v m !! k' = <[k := v]> m !! k'.
Proof. intros Hm. unfold map_insert. by rewrite (proj2 (Nat.ltb_lt _ _) Hm), orb_true_r. Qed.
Lemma map_insert_size {A} places k (v : A) m : (size (map_insert places k v m) <= S (size m))%nat.
Proof. unfold map_insert. destruct (_ || _); [|lia]. rewrite map_size_insert. destruct (m !! k); cbn; lia. Qed.
(** The rest of an entry: it writes the number after the one it has read, and
    takes the number it finds then. *)
Lemma entry_ends fo p e n buf len c m k : room m (S k) -> is_Some (CONNECTION_EPOCH m !! p) ->
  n + 1 <= u64_max ->
  exists m', exec (entry_left fo p e n buf len (cx_pid_tgid c)) c m = (Ok tt, m')
    /\ call_number m' c = Some (n + 1) /\ numbered m' p (n + 1) /\ room m' k
    /\ forall c', cx_pid_tgid c' <> cx_pid_tgid c -> call_number m' c' = call_number m c'.
Proof.
  intros Hr He Hn. eexists. split; [reflexivity|]. unfold call_number, numbered, room in *.
  cbn [set_writes set_sequence INFLIGHT_WRITES CONNECTION_SEQUENCE CONNECTION_EPOCH].
  rewrite (Z.min_r u64_max) by lia. rewrite lookup_insert_eq. cbn [unwrap_or]. rewrite map_insert_room by lia.
  rewrite lookup_insert_eq. split_and!; try done.
  - match goal with |- context [map_insert ?pl ?k0 ?v ?mm] => pose proof (map_insert_size pl k0 v mm) end. lia.
  - intros c' Hc'. rewrite map_insert_room, lookup_insert_ne by (done || lia). done.
Qed.

(** [C18] The calls of a connection are numbered apart only while they do not
    overlap.  Two threads enter a write of a connection on which [n] calls have
    been made: if one has entered before the other begins, the calls get the
    numbers [n+1] and [n+2]; but there is an interleaving of the two programs'
    accesses in which both end well, both calls get the number [n+1], and the
    counter stands at [n+1]. *)
Theorem sequence_race fo1 fo2 m p n c1 c2 : enters c1 p -> enters c2 p -> numbered m p n ->
  n + 2 <= u64_max -> cx_pid_tgid c1 <> cx_pid_tgid c2 -> room m 2 ->
  let enter := try_plaintext_write_enter in
  (let m2 := (exec (enter fo2) c2 (exec (enter fo1) c1 m).2).2 in
   call_number m2 c1 = Some (n + 1) /\ call_number m2 c2 = Some (n + 2))
  /\ exists m', rtc kernel_step (m, [(c1, enter fo1); (c2, enter fo2)]) (m', [(c1, Ret tt); (c2, Ret tt)])
     /\ call_number m' c1 = Some (n + 1) /\ call_number m' c2 = Some (n + 1) /\ numbered m' p (n + 1).
Proof.
  intros H1 H2 Hn Hmax Hc Hr enter.
  destruct (entry_reads fo1 c1 p n m H1 Hn) as (e1 & b1 & l1 & He1 & E1 & R1).
  destruct (entry_ends fo1 p e1 n b1 l1 c1 m 1 Hr) as (m1 & F1 & N1 & S1 & Hr1 & O1); [by eexists | lia|]. split.
  - cbv zeta. unfold enter. rewrite E1, F1. cbn [snd].
    destruct (entry_reads fo2 c2 p (n + 1) m1 H2 S1) as (e2 & b2 & l2 & He2 & E2 & _).
    destruct (entry_ends fo2 p e2 (n + 1) b2 l2 c2 m1 0 Hr1) as (m2 & F2 & N2 & _ & _ & O2); [by eexists | lia|].
    rewrite E2, F2. cbn [snd]. rewrite O2, N2 by done. split; [done|]. f_equal. lia.
  - destruct (entry_reads fo2 c2 p n m H2 Hn) as (e2 & b2 & l2 & He2 & _ & R2).
    destruct (entry_ends fo2 p e2 n b2 l2 c2 m1 0 Hr1) as (m2 & F2 & N2 & S2 & _ & O2); [apply S1 | lia|].
    exists m2. rewrite O2, N2 by done. split; [|done].
    etrans; [apply (R1 0%nat); reflexivity|].
    etrans; [apply (R2 1%nat); reflexivity|].
    etrans; [eapply (finish _ c1 m m1 0%nat); [exact F1 | reflexivity]|].
    etrans; [eapply (finish _ c2 m1 m2 1%nat); [exact F2 | reflexivity]|]. reflexivity.
Qed.

Module ProbesFixture.
Definition boot : bytes := map to_u8 (seqZ 1 16).
(** A thread of process 77 on one of two processors. *)
Definition ctx (cpu : Z) : Ctx := {|
  cx_cpu := cpu; cx_pid_tgid := 77 * 2 ^ 32 + 78 + cpu; cx_ktime := 1000; cx_comm := Ok (replicate 16 x61);
  cx_arg _ := Some 3; cx_ret := Some 0; cx_rdx := 3; cx_user p n := replicate n x62;
  cx_scratch := Some (2 ^ 63 + 4096 * cpu); cx_ring := Ok tt |}.
(** Both threads make a call on a connection, one after the other. *)
Definition start (p : Program) (c : Ctx) (k : Kernel) : Kernel := (k.1, k.2 ++ [(c, program p)]).
Definition alone (p : Program) (c : Ctx) (m : Maps) : Maps := (exec (program p) c m).2.
Definition called : Maps :=
  alone plaintext_write_return (ctx 1) (alone plaintext_write_enter (ctx 1)
    (alone plaintext_write_return (ctx 0) (alone plaintext_write_enter (ctx 0) (loaded boot)))).
Lemma sequence_race_witness : exists m',
  rtc kernel_step
    (called, [(ctx 0, program plaintext_write_enter); (ctx 1, program plaintext_write_enter_alt)])
    (m', [(ctx 0, Ret tt); (ctx 1, Ret tt)])
  /\ call_number m' (ctx 0) = Some 3 /\ call_number m' (ctx 1) = Some 3.
Proof.
  destruct (sequence_race 41890992 41891168 called 3 2 (ctx 0) (ctx 1)) as (_ & m' & Hr & H1 & H2 & _).
  - split; [reflexivity|]. split; by eexists.
  - split; [reflexivity|]. split; by eexists.
  - split; [exists 1|]; vm_compute; reflexivity.
  - unfold u64_max. lia.
  - cbn. lia.
  - unfold room. apply Nat.leb_le. vm_compute. reflexivity.
  - exists m'. split; [exact Hr | split; [exact H1 | exact H2]].
Defined.
End ProbesFixture.
