(* ===== verification/Loader.v ===== *)
(** * Loading the kernel programs

    [src/crates/capture-ebpf/src/loader.rs]: the fingerprint of the monitored
    binary, the choice of a profile, what is attached for it, and the events of
    a running capture.  The [aya] library, which loads an object and attaches
    its programs, and the files read are parameters. *)
From Stdlib Require Import ZArith Lia Strings.Byte Strings.String.
From S2P Require Import Prelude RustStr Digest Types Fixtures Profile Abi.
Local Open Scope string_scope.
Local Open Scope list_scope.
Local Open Scope Z_scope.

(** An attachment: [program_mut(name)], the conversion to its kind, [load] and
    [attach]. *)
Inductive Attachment : Type :=
| Attach_TracePoint (program category name : string)
| Attach_KProbe (program function : string)
| Attach_UProbe (program : string) (offset : Z) (binary : string).
#[export] Instance Attachment_eq_dec : EqDecision Attachment.
Proof. solve_decision. Defined.
Class AyaApi := {
  Ebpf : Type;
  load_file : string -> result string Ebpf;
  (** [take_map]: [None] without such a map, else the conversion to its kind *)
  take_boot_id : Ebpf -> option (result string Ebpf);
  set_boot_id : bytes -> Ebpf -> result string Ebpf;
  take_events : Ebpf -> option (result string Ebpf);
  attach : Attachment -> Ebpf -> result string Ebpf }.
(** [hex::decode]. *)
Class HexApi := hex_decode : string -> result string bytes.

(* src: src/crates/capture-ebpf/src/loader.rs:26-29 LoaderEvent *)
Inductive LoaderEvent : Type :=
| LoaderEvent_Capture (record : OwnedCaptureRecord)
| LoaderEvent_UnsupportedBuild (fingerprint : BuildFingerprint).
(** With the errors of the libraries as their messages, and the panic of a slice. *)
(* src: src/crates/capture-ebpf/src/loader.rs:40-47 LoaderError *)
Inductive LoaderError : Type :=
| LoaderError_UnsupportedCodexBuild
| LoaderError_MissingMap (name : string)
| LoaderError_UnsupportedAttachKind (program : string)
| LoaderError_Other (message : string)
| LoaderError_Panic.

Section loader.
Context `{DigestApi} `{AyaApi} `{HexApi}.

(** The ring buffer is what the kernel has put there and is not read yet. *)
(* src: src/crates/capture-ebpf/src/loader.rs:31-37 RunningCapture *)
Record RunningCapture : Type := mkRunningCapture {
  rc_bpf : Ebpf;
  rc_attached_profile : option LoadedProfile;
  rc_object_path : string;
  rc_ring : list bytes;
  rc_pending_event : option LoaderEvent }.
Definition other {A} (r : result string A) : result LoaderError A := map_err LoaderError_Other r.

(* src: src/crates/capture-ebpf/src/loader.rs:67-75 CaptureLoader::fingerprint *)
Definition fingerprint (arch : string) (binary : result string bytes) : result LoaderError BuildFingerprint :=
  b ← other binary;
  mret (mkBuildFingerprint (hex_encode (sha256_digest b)) arch None).
(* src: src/crates/capture-ebpf/src/loader.rs:343-351 parse_boot_id *)
Definition parse_boot_id (file : result string string) : result LoaderError bytes :=
  text ← other file;
  let compact := of_bytes (List.filter (fun b => negb (Byte.eqb b "-"%byte)) (as_bytes (trim text))) in
  b ← other (hex_decode compact);
  if Nat.ltb (length b) 16 then Err LoaderError_Panic else mret (take 16 b).
(* src: src/crates/capture-ebpf/src/loader.rs:130-140 CaptureLoader::seed_boot_id *)
Definition seed_boot_id (boot_id : result string string) (bpf : Ebpf) : result LoaderError Ebpf :=
  taken ← ok_or (LoaderError_MissingMap "BOOT_ID") (take_boot_id bpf);
  bpf ← other taken;
  b ← parse_boot_id boot_id;
  other (set_boot_id b bpf).

(** One after the other; the first failure ends it. *)
Fixpoint attach_all (l : list Attachment) (bpf : Ebpf) : result LoaderError Ebpf :=
  match l with
  | [] => mret bpf
  | a :: l' => bpf ← other (attach a bpf); attach_all l' bpf
  end.
(* src: src/crates/capture-ebpf/src/loader.rs:144-158 CaptureLoader::attach_kernel_hooks: default *)
Definition default_hooks : list Attachment :=
  [Attach_TracePoint "process_exec" "sched" "sched_process_exec";
   Attach_TracePoint "process_exit" "sched" "sched_process_exit";
   Attach_KProbe "tcp_state" "tcp_set_state"].
(** [program_mut] fails before a missing detail is noticed; either way it is an
    error. *)
(* src: src/crates/capture-ebpf/src/loader.rs:161-191 CaptureLoader::attach_kernel_hooks: loop *)
Fixpoint attach_hooks (hooks : list KernelHook) (bpf : Ebpf) : result LoaderError Ebpf :=
  match hooks with
  | [] => mret bpf
  | hook :: hooks' =>
    bpf ←
      match kh_attach_kind hook with
      | AttachKind_Tracepoint =>
        name ← ok_or (LoaderError_Other "tracepoint target_detail missing") (kh_target_detail hook);
        other (attach (Attach_TracePoint (kh_program hook) (kh_target hook) name) bpf)
      | AttachKind_Kprobe => other (attach (Attach_KProbe (kh_program hook) (kh_target hook)) bpf)
      | _ => Err (LoaderError_UnsupportedAttachKind (kh_program hook))
      end;
    attach_hooks hooks' bpf
  end.
(* src: src/crates/capture-ebpf/src/loader.rs:142-196 CaptureLoader::attach_kernel_hooks *)
Definition attach_kernel_hooks (hooks : list KernelHook) (bpf : Ebpf) : result LoaderError Ebpf :=
  match hooks with
  | [] => attach_all default_hooks bpf
  | _ => attach_hooks hooks bpf
  end.
Definition uprobe (binary : string) (p : string * ProbeDefinition) : Attachment :=
  Attach_UProbe (prd_program p.2) (prd_file_offset p.2) binary.
(* src: src/crates/capture-ebpf/src/loader.rs:198-208 CaptureLoader::attach_uprobes *)
Definition attach_uprobes (binary : string) (plan : AttachPlan) (bpf : Ebpf) : result LoaderError Ebpf :=
  attach_all (map (uprobe binary) (ap_probes plan)) bpf.

(** [read i] is the [i]-th reading of the binary: it is read again for the plan. *)
(* src: src/crates/capture-ebpf/src/loader.rs:81-128 CaptureLoader::load *)
Definition load (registry : ProfileRegistry) (arch : string) (read : nat -> result string bytes)
    (boot_id : result string string) (object_path codex_binary : string) : result LoaderError RunningCapture :=
  fp ← fingerprint arch (read 0%nat);
  let decision := resolve registry fp in
  bpf ← other (load_file object_path);
  bpf ← seed_boot_id boot_id bpf;
  taken ← ok_or (LoaderError_MissingMap "EVENTS") (take_events bpf);
  bpf ← other taken;
  match decision with
  | AttachmentDecision_UnsupportedBuild fp =>
    bpf ← attach_kernel_hooks [] bpf;
    mret (mkRunningCapture bpf None object_path [] (Some (LoaderEvent_UnsupportedBuild fp)))
  | AttachmentDecision_Attach profile =>
    bpf ← attach_kernel_hooks (pp_kernel_hooks (lp_profile profile)) bpf;
    if lp_verified profile then
      elf_bytes ← other (read 1%nat);
      plan ← map_err (fun _ => LoaderError_UnsupportedCodexBuild)
               (resolve_attach_plan (lp_profile profile) elf_bytes);
      bpf ← attach_uprobes codex_binary plan bpf;
      mret (mkRunningCapture bpf (Some profile) object_path [] None)
    else
      mret (mkRunningCapture bpf (Some profile) object_path [] (Some (LoaderEvent_UnsupportedBuild fp)))
  end.
(** A record that cannot be decoded is dropped. *)
(* src: src/crates/capture-ebpf/src/loader.rs:212-228 RunningCapture::next_event *)
Definition next_event (r : RunningCapture) : option LoaderEvent * RunningCapture :=
  match rc_pending_event r with
  | Some event =>
    (Some event, mkRunningCapture (rc_bpf r) (rc_attached_profile r) (rc_object_path r) (rc_ring r) None)
  | None =>
    match rc_ring r with
    | [] => (None, r)
    | item :: ring =>
      let r' := mkRunningCapture (rc_bpf r) (rc_attached_profile r) (rc_object_path r) ring None in
      match decode_capture_record item with
      | None => (None, r')
      | Some record => (Some (LoaderEvent_Capture record), r')
      end
    end
  end.

(** ** What is attached *)
(** A log of attachments: [bpf'] is [bpf] with [l] attached in order. *)
Inductive attached : list Attachment -> Ebpf -> Ebpf -> Prop :=
| attached_nil bpf : attached [] bpf bpf
| attached_cons a l bpf bpf1 bpf' : attach a bpf = Ok bpf1 -> attached l bpf1 bpf' -> attached (a :: l) bpf bpf'.
Lemma attached_app l l' bpf bpf1 bpf' : attached l bpf bpf1 -> attached l' bpf1 bpf' -> attached (l ++ l') bpf bpf'.
Proof. induction 1; [done|]. intros. econstructor; eauto. Qed.
Lemma attach_all_Ok l bpf bpf' : attach_all l bpf = Ok bpf' -> attached l bpf bpf'.
Proof.
  revert bpf. induction l as [|a l IH]; intros bpf; cbn; [intros [= ->]; constructor|].
  intros E. apply bind_Ok in E as (bpf1 & E1%map_err_Ok & E). econstructor; eauto.
Qed.
Definition hook_attachment (hook : KernelHook) : option Attachment :=
  match kh_attach_kind hook with
  | AttachKind_Tracepoint => Attach_TracePoint (kh_program hook) (kh_target hook) <$> kh_target_detail hook
  | AttachKind_Kprobe => Some (Attach_KProbe (kh_program hook) (kh_target hook))
  | _ => None
  end.
Lemma attach_hooks_Ok hooks bpf bpf' : attach_hooks hooks bpf = Ok bpf' ->
  exists l, Forall2 (fun hook a => hook_attachment hook = Some a) hooks l /\ attached l bpf bpf'.
Proof.
  revert bpf. induction hooks as [|hook hooks IH]; intros bpf; cbn.
  { intros [= ->]. exists []. split; constructor. }
  intros E. apply bind_Ok in E as (bpf1 & E1 & E). apply IH in E as (l & Hl & Ha).
  assert (exists a, hook_attachment hook = Some a /\ attach a bpf = Ok bpf1) as (a & Hh & Hat).
  { unfold hook_attachment. destruct (kh_attach_kind hook); try done.
    - eexists. split; [done | by apply map_err_Ok in E1].
    - apply bind_Ok in E1 as (name & En%ok_or_Ok & E1). rewrite En. eexists. split; [done | by apply map_err_Ok in E1]. }
  exists (a :: l). split; [by constructor | econstructor; eauto].
Qed.

(** The kernel hooks for a decision: its profile's, or the default ones. *)
Definition kernel_hooks (hooks : list KernelHook) (l : list Attachment) : Prop :=
  if decide (hooks = []) then l = default_hooks
  else Forall2 (fun hook a => hook_attachment hook = Some a) hooks l.
Lemma attach_kernel_hooks_Ok hooks bpf bpf' : attach_kernel_hooks hooks bpf = Ok bpf' ->
  exists l, kernel_hooks hooks l /\ attached l bpf bpf'.
Proof.
  unfold attach_kernel_hooks, kernel_hooks. destruct hooks as [|h hs].
  - intros E%attach_all_Ok. exists default_hooks. by case_decide.
  - intros E%attach_hooks_Ok. case_decide; [done | exact E].
Qed.

(** [C19] A capture that runs has attached the kernel hooks of its profile, or the
    default ones, and beyond these probes only into a binary it knows: then the
    chosen profile is validated and made for exactly the bytes read, both times,
    every signature fits them, and every site of the profile got its probe, in
    order.  In every other case nothing is attached to the binary and the first
    event says that its build is not supported. *)
Theorem uprobes_verified registry arch read boot_id object_path codex_binary running :
  load registry arch read boot_id object_path codex_binary = Ok running ->
  exists b0 fp bpf hooks kernel,
    read 0%nat = Ok b0 /\ fp = mkBuildFingerprint (hex_sha256 b0) arch None
    /\ kernel_hooks hooks kernel /\ rc_ring running = []
    /\ ((exists profile elf, rc_attached_profile running = Some profile /\ lp_verified profile = true
           /\ lp_profile profile ∈ prg_profiles registry /\ hooks = pp_kernel_hooks (lp_profile profile)
           /\ pp_architecture (lp_profile profile) = arch
           /\ read 1%nat = Ok elf /\ hex_sha256 b0 = pp_elf_sha256 (lp_profile profile)
           /\ hex_sha256 elf = pp_elf_sha256 (lp_profile profile)
           /\ Forall (site_fits elf) (all_sites (lp_profile profile))
           /\ attached (kernel ++ map (uprobe codex_binary) (all_sites (lp_profile profile))) bpf (rc_bpf running)
           /\ rc_pending_event running = None)
        \/ (is_some_and lp_verified (rc_attached_profile running) = false
            /\ attached kernel bpf (rc_bpf running)
            /\ (next_event running).1 = Some (LoaderEvent_UnsupportedBuild fp))).
Proof.
  intros E. unfold load, fingerprint in E. apply bind_Ok in E as (fp & Efp & E).
  apply bind_Ok in Efp as (b0 & Eb0%map_err_Ok & [= <-]).
  apply bind_Ok in E as (bpf1 & _ & E). apply bind_Ok in E as (bpf2 & _ & E).
  apply bind_Ok in E as (taken & _ & E). apply bind_Ok in E as (bpf & _ & E).
  pose proof (resolve_spec registry (mkBuildFingerprint (hex_encode (sha256_digest b0)) arch None)) as Hr.
  destruct (resolve _ _) as [profile|fp].
  - destruct Hr as (Hin & Hsha & Harch & Hv).
    apply bind_Ok in E as (bpf3 & (kernel & Hk & Ha)%attach_kernel_hooks_Ok & E).
    exists b0, (mkBuildFingerprint (hex_sha256 b0) arch None), bpf, (pp_kernel_hooks (lp_profile profile)), kernel.
    destruct (lp_verified profile) eqn:Ev.
    + apply bind_Ok in E as (elf & Eelf%map_err_Ok & E). apply bind_Ok in E as (plan & Eplan%map_err_Ok & E).
      apply bind_Ok in E as (bpf4 & Hu%attach_all_Ok & [= <-]).
      pose proof (attach_plan_ok _ _ _ Eplan) as (_ & Helf & Hfit & ->). cbn [ap_probes] in Hu.
      do 4 (split; [done|]). left. exists profile, elf. repeat split; try done; cbn [rc_bpf].
      by eapply attached_app.
    + injection E as <-. do 4 (split; [done|]). right. cbn. by rewrite Ev.
  - destruct Hr as [-> _]. apply bind_Ok in E as (bpf3 & (kernel & Hk & Ha)%attach_kernel_hooks_Ok & [= <-]).
    exists b0, (mkBuildFingerprint (hex_sha256 b0) arch None), bpf, [], kernel. do 4 (split; [done|]). by right.
Qed.
End loader.

Module LoaderFixture.
(** An object is the list of what is attached to it. *)
#[local] Instance aya : AyaApi := {|
  Ebpf := list Attachment; load_file _ := Ok []; take_boot_id l := Some (Ok l); set_boot_id _ l := Ok l;
  take_events l := Some (Ok l); attach a l := Ok (l ++ [a]) |}.
#[local] Instance hex : HexApi := fun s => Ok (decode_hex s).
Definition elf : bytes := [x90; x90; xcc; xcd; xdd].
Definition site : ProbeDefinition :=
  mkProbeDefinition "plaintext_write_enter" AttachKind_Uprobe "rustls::write" 1
    (mkProbeSignature 1 "fffff0" "90ccc0") "self=rdi,buf=rsi,len=rdx"
    (mkProbeLayout [] (Some 0) (Some 1) (Some 2) None None None None).
Definition profile : ProbeProfile :=
  mkProbeProfile "codex" "0.144.1" (hex_sha256 elf) "x86_64" "codex.debug" 1 true []
    [("plaintext_write", [site])] [].
Definition boot_id : string := "00010203-0405-0607-0809-0a0b0c0d0e0f".
Definition running : result LoaderError RunningCapture :=
  load (mkProfileRegistry [profile]) "x86_64" (fun _ => Ok elf) (Ok boot_id) "/object" "/codex".
Lemma uprobes_verified_witness : exists r, running = Ok r
  /\ exists elf', Forall (site_fits elf') (all_sites profile) /\ rc_pending_event r = None
  /\ rc_bpf r = default_hooks ++ [Attach_UProbe "plaintext_write_enter" 1 "/codex"].
Proof.
  assert (Hok : match running with
    | Ok r => match rc_pending_event r with None => true | _ => false end
        && bool_decide ((rc_bpf r : list Attachment)
                        = default_hooks ++ [Attach_UProbe "plaintext_write_enter" 1 "/codex"])
    | Err _ => false end = true) by (vm_compute; reflexivity).
  destruct running as [r|] eqn:Hr; [|discriminate Hok].
  apply andb_true_iff in Hok as [Hp Hl]. apply bool_decide_eq_true in Hl.
  destruct (rc_pending_event r) eqn:Hpe; [discriminate Hp|]. exists r. split; [reflexivity|].
  destruct (uprobes_verified _ _ _ _ _ _ _ Hr) as (b0 & fp & bpf & hooks & kernel & _ & _ & _ & _ & Hcase).
  destruct Hcase as [(p & elf' & _ & _ & Hin & _ & _ & _ & _ & _ & Hfit & _)|(_ & _ & Hn)].
  - exists elf'. apply list_elem_of_singleton in Hin. rewrite Hin in Hfit.
    split; [exact Hfit|]. split; [exact Hpe | exact Hl].
  - unfold next_event in Hn. rewrite Hpe in Hn. destruct (rc_ring r); [discriminate Hn|].
    destruct (decode_capture_record _); discriminate Hn.
Defined.
End LoaderFixture.
