(* ===== verification/EbpfLane.v ===== *)
(** * The eBPF lane

    [src/crates/client/src/ebpf_lane.rs]: the health of the capture the daemon's
    tasks share, what a record of the kernel programs becomes for the ingest
    loop, and the loop that starts the runtime, reads its events and starts it
    again after a failure.  The runtime is observed through its answers; the
    clock, the shared index and the channel are functions of the turn. *)
From Stdlib Require Import ZArith Lia Strings.Byte Strings.String.
From S2P Require Import Profile Abi Probes Loader.
From S2P Require Import Prelude RustStr Digest Types Model Ip Attribution Config Discovery.
Local Open Scope string_scope.
Local Open Scope list_scope.
Local Open Scope Z_scope.

(** ** Health *)
(* src: src/crates/client/src/ebpf_lane.rs:27-33 RuntimeCaptureHealth *)
Record RuntimeCaptureHealth : Type := mkRuntimeHealth {
  rh_af_packet_active : bool;
  rh_uprobe_active : bool;
  rh_profile_supported : bool;
  rh_ring_buffer_drops : Z;
  rh_last_error : option StructuredError }.
(* src: src/crates/client/src/ebpf_lane.rs:36-46 SharedCaptureHealth::default *)
Definition health_default : RuntimeCaptureHealth := mkRuntimeHealth false false true 0 None.
(* src: src/crates/client/src/ebpf_lane.rs:50-54 SharedCaptureHealth::set_af_packet_active *)
Definition set_af_packet_active (active : bool) (h : RuntimeCaptureHealth) : RuntimeCaptureHealth :=
  mkRuntimeHealth active (rh_uprobe_active h) (rh_profile_supported h) (rh_ring_buffer_drops h) (rh_last_error h).
(* src: src/crates/client/src/ebpf_lane.rs:56-68 SharedCaptureHealth::set_unsupported_build *)
Definition set_unsupported_build (fingerprint : BuildFingerprint) (h : RuntimeCaptureHealth)
    : RuntimeCaptureHealth :=
  mkRuntimeHealth (rh_af_packet_active h) false false (rh_ring_buffer_drops h)
    (Some (StructuredError_UnsupportedCodexBuild
       (mkUnsupportedCodexBuild (bf_executable_sha256 fingerprint) (bf_architecture fingerprint)
          (bf_codex_version_hint fingerprint)))).
(* src: src/crates/client/src/ebpf_lane.rs:70-81 SharedCaptureHealth::set_ebpf_runtime_state *)
Definition set_ebpf_runtime_state (uprobe_active profile_supported : bool)
    (last_error : option StructuredError) (h : RuntimeCaptureHealth) : RuntimeCaptureHealth :=
  mkRuntimeHealth (rh_af_packet_active h) uprobe_active profile_supported (rh_ring_buffer_drops h) last_error.
(* src: src/crates/client/src/ebpf_lane.rs:83-94 SharedCaptureHealth::snapshot *)
Definition snapshot (h : RuntimeCaptureHealth) (active_flows outbox_bytes : Z) : CaptureHealth :=
  mkCaptureHealth (rh_af_packet_active h) (rh_uprobe_active h) (rh_profile_supported h)
    (rh_ring_buffer_drops h) active_flows outbox_bytes (rh_last_error h).

(** ** The runtime *)
(** [EbpfRuntime], as far as it has been observed. *)
(* src: src/crates/client/src/ebpf_lane.rs:98-102 EbpfRuntime *)
Record EbpfRuntime : Type := mkRuntime {
  er_uprobe_active : bool;
  er_profile_supported : bool;
  er_events : list (result string (option LoaderEvent)) }.
Section runtime.
Context `{DigestApi} `{AyaApi} `{HexApi}.
(** [n] events of a running capture. *)
Fixpoint observe (n : nat) (running : RunningCapture) : list (option LoaderEvent) :=
  match n with
  | O => []
  | S n' => let '(event, running) := next_event running in event :: observe n' running
  end.
(* src: src/crates/client/src/ebpf_lane.rs:129-151 RealEbpfRuntime: observed *)
Definition RealEbpfRuntime (running : RunningCapture) (n : nat) : EbpfRuntime :=
  mkRuntime (is_some_and lp_verified (rc_attached_profile running))
    (is_some_and lp_verified (rc_attached_profile running))
    (map Ok (observe n running)).
End runtime.
(** The paths of the factory, if the lane is configured; [None] on the outside is
    the [unreachable!] of the two others. *)
(* src: src/crates/client/src/ebpf_lane.rs:153-163 ebpf_factory_from_config *)
Definition ebpf_factory_from_config (c : ClientConfig)
    : result ConfigError (option (option (string * string))) :=
  _ ← validate_ebpf_config c;
  match cf_ebpf_object_path c, cf_codex_binary_path c with
  | Some object_path, Some codex_binary_path => Ok (Some (Some (object_path, codex_binary_path)))
  | None, None => Ok (Some None)
  | _, _ => Ok None
  end.

(** ** Records *)
Section lane.
Context `{TimeApi}.
(* src: src/crates/client/src/ebpf_lane.rs:231-264 map_loader_record *)
Definition map_loader_record (now : OffsetDateTime) (record : OwnedCaptureRecord)
    (process_index : SharedProcessIndex) : option CaptureInput :=
  let pid := ci_tgid (crh_connection (ocr_header record)) in
  tracked ← Discovery.process pid process_index;
  let summary exited_at :=
    mkProcessSummary (tk_process_instance_id tracked) (tk_client_instance_id tracked) pid
      (tk_executable_sha256 tracked) (tk_codex_version tracked) (tk_started_at tracked) exited_at None None in
  match crh_kind (ocr_header record) with
  | ProbeKind_ProcessExec => Some (CaptureInput_ProcessObserved (summary None))
  | ProbeKind_ProcessExit => Some (CaptureInput_ProcessExit (summary (Some now)))
  | _ => None
  end.

(** ** The loop *)
(** What the loop has done: the health, the delay, what was sent, the sleeps in
    milliseconds, the turns, and whether it has returned. *)
Record LoopState : Type := mkLoop {
  lo_health : RuntimeCaptureHealth;
  lo_backoff : Z;
  lo_sent : list CaptureInput;
  lo_sleeps : list Z;
  lo_turn : nat;
  lo_returned : bool }.
Record LoopEnv : Type := mkEnv {
  le_now : nat -> OffsetDateTime;
  le_index : nat -> SharedProcessIndex;
  le_open : nat -> bool }.
Definition MAX_BACKOFF : Z := 30000.
Definition tick (s : LoopState) : LoopState :=
  mkLoop (lo_health s) (lo_backoff s) (lo_sent s) (lo_sleeps s) (S (lo_turn s)) (lo_returned s).
Definition with_health (f : RuntimeCaptureHealth -> RuntimeCaptureHealth) (s : LoopState) : LoopState :=
  mkLoop (f (lo_health s)) (lo_backoff s) (lo_sent s) (lo_sleeps s) (lo_turn s) (lo_returned s).
Definition with_backoff (backoff : Z) (s : LoopState) : LoopState :=
  mkLoop (lo_health s) backoff (lo_sent s) (lo_sleeps s) (lo_turn s) (lo_returned s).
Definition sleep (millis : Z) (s : LoopState) : LoopState :=
  mkLoop (lo_health s) (lo_backoff s) (lo_sent s) (lo_sleeps s ++ [millis]) (lo_turn s) (lo_returned s).
(** [tx.send]: the loop returns when nobody receives any more. *)
Definition send (env : LoopEnv) (input : CaptureInput) (s : LoopState) : LoopState :=
  if le_open env (lo_turn s)
  then mkLoop (lo_health s) (lo_backoff s) (lo_sent s ++ [input]) (lo_sleeps s) (lo_turn s) (lo_returned s)
  else mkLoop (lo_health s) (lo_backoff s) (lo_sent s) (lo_sleeps s) (lo_turn s) true.
(** The failure of the runtime, or of starting it. *)
(* src: src/crates/client/src/ebpf_lane.rs:196-208 run_ebpf_loop: failure *)
Definition fail (reason : string) (s : LoopState) : LoopState :=
  let s := with_health (set_ebpf_runtime_state false false
             (Some (StructuredError_CaptureLost (mkCaptureLoss reason None)))) s in
  let s := sleep (lo_backoff s) s in
  with_backoff (Z.min (lo_backoff s * 2) MAX_BACKOFF) s.
(** The inner loop on what was observed of the runtime; [true] after a [break]. *)
(* src: src/crates/client/src/ebpf_lane.rs:182-210 run_ebpf_loop: events *)
Fixpoint runtime_loop (env : LoopEnv) (events : list (result string (option LoaderEvent))) (s : LoopState)
    : bool * LoopState :=
  match events with
  | [] => (false, s)
  | event :: events' =>
    let s := tick s in
    match event with
    | Ok (Some (LoaderEvent_UnsupportedBuild fingerprint)) =>
      runtime_loop env events' (with_health (set_unsupported_build fingerprint) s)
    | Ok (Some (LoaderEvent_Capture record)) =>
      match map_loader_record (le_now env (lo_turn s)) record (le_index env (lo_turn s)) with
      | Some input =>
        let s := send env input s in
        if lo_returned s then (false, s) else runtime_loop env events' s
      | None => runtime_loop env events' s
      end
    | Ok None => runtime_loop env events' (sleep 50 s)
    | Err error => (true, fail ("ebpf_runtime_error:" +:+ error) s)
    end
  end.
(** The outer loop on the first starts of the factory; it goes on only after a
    runtime that failed. *)
(* src: src/crates/client/src/ebpf_lane.rs:165-229 run_ebpf_loop *)
Fixpoint run_ebpf_loop (env : LoopEnv) (retry_backoff : Z) (starts : list (result string EbpfRuntime))
    (s : LoopState) : LoopState :=
  match starts with
  | [] => s
  | Ok runtime :: starts' =>
    let s := with_health (set_ebpf_runtime_state (er_uprobe_active runtime) (er_profile_supported runtime) None) s in
    let s := with_backoff retry_backoff s in
    let '(broken, s) := runtime_loop env (er_events runtime) s in
    if broken : bool then run_ebpf_loop env retry_backoff starts' s else s
  | Err error :: starts' =>
    run_ebpf_loop env retry_backoff starts' (fail ("ebpf_loader_error:" +:+ error) s)
  end.
Definition loop_start (health : RuntimeCaptureHealth) (retry_backoff : Z) : LoopState :=
  mkLoop health retry_backoff [] [] 0 false.

(** ** What the loop keeps and sends *)
(** The loop never counts what the ring buffer drops, and leaves the other lane's
    flag alone. *)
Definition kept (h h' : RuntimeCaptureHealth) : Prop :=
  rh_ring_buffer_drops h' = rh_ring_buffer_drops h /\ rh_af_packet_active h' = rh_af_packet_active h.
Lemma runtime_loop_kept env events s : kept (lo_health s) (lo_health (runtime_loop env events s).2).
Proof.
  revert s. induction events as [|event events IH]; intros s; [by split|]. cbn [runtime_loop].
  destruct event as [[[record|fp]|]|error]; [| exact (IH _) | exact (IH _) | by split].
  destruct (map_loader_record _ _ _) as [input|]; [|exact (IH _)].
  unfold send. destruct (le_open _ _); cbn [lo_returned]; [|by split].
  destruct (lo_returned _); [by split | exact (IH _)].
Qed.
Lemma drops_never_counted env retry_backoff starts s :
  kept (lo_health s) (lo_health (run_ebpf_loop env retry_backoff starts s)).
Proof.
  revert s. induction starts as [|[runtime|error] starts IH]; intros s; cbn [run_ebpf_loop]; [by split| |exact (IH _)].
  match goal with |- context [runtime_loop ?e ?l ?s] => pose proof (runtime_loop_kept e l s) as Hk;
    destruct (runtime_loop e l s) as [[] s1] end; [|exact Hk].
  destruct (IH s1), Hk. split; etransitivity; eauto.
Qed.

(** An event that sends nothing, whatever the turn. *)
Definition silent (env : LoopEnv) (event : result string (option LoaderEvent)) : Prop :=
  match event with
  | Ok (Some (LoaderEvent_Capture record)) =>
    forall turn now, map_loader_record now record (le_index env turn) = None
  | _ => True
  end.
Lemma runtime_loop_silent env events s : Forall (silent env) events ->
  lo_sent (runtime_loop env events s).2 = lo_sent s.
Proof.
  intros Hall. revert s. induction Hall as [|event events He _ IH]; intros s; [done|]. cbn [runtime_loop].
  destruct event as [[[record|fp]|]|error]; [| exact (IH _) | exact (IH _) | done].
  cbn in He. rewrite He. exact (IH _).
Qed.
Lemma run_ebpf_loop_silent env retry_backoff starts s :
  Forall (fun start => match start with Ok runtime => Forall (silent env) (er_events runtime) | Err _ => True end) starts ->
  lo_sent (run_ebpf_loop env retry_backoff starts s) = lo_sent s.
Proof.
  intros Hall. revert s. induction Hall as [|start starts Hs _ IH]; intros s; [done|]. cbn [run_ebpf_loop].
  destruct start as [runtime|error]; [|exact (IH _)].
  match goal with |- context [runtime_loop ?e ?l ?s] => pose proof (runtime_loop_silent e l s Hs) as Hk;
    destruct (runtime_loop e l s) as [[] s1] end; [by rewrite IH | exact Hk].
Qed.

(** The ring buffer holds only what the kernel programs put there. *)
Definition from_programs (boot_id : bytes) (item : bytes) : Prop :=
  exists kernel, kernel_reachable boot_id kernel /\ item ∈ EVENTS kernel.1.
Lemma short_undecoded item : (length item < header_size)%nat -> decode_capture_record item = None.
Proof. intros Hl. unfold decode_capture_record. by rewrite (proj2 (Nat.ltb_lt _ _) Hl). Qed.
Section blind.
Context `{AyaApi}.
(** A capture as [load] leaves it, its ring buffer filled by the programs. *)
Definition fed (boot_id : bytes) (running : RunningCapture) : Prop :=
  Forall (from_programs boot_id) (rc_ring running)
  /\ (forall record, rc_pending_event running <> Some (LoaderEvent_Capture record)).
Lemma observe_silent env boot_id n running : fed boot_id running ->
  Forall (silent env) (map Ok (observe n running)).
Proof.
  revert running. induction n as [|n IH]; intros running [Hr Hp]; [constructor|].
  cbn [observe]. unfold next_event. destruct (rc_pending_event running) as [event|] eqn:Ep.
  { constructor; [destruct event; [by edestruct Hp|done] | apply IH]. by split. }
  destruct (rc_ring running) as [|item ring] eqn:Er.
  { constructor; [done|]. apply IH. split; rewrite ?Er, ?Ep; [constructor | done]. }
  apply Forall_cons in Hr as [(kernel & Hk & Hin) Hr].
  rewrite short_undecoded by (rewrite (ring_addresses _ _ _ Hk Hin); unfold header_size; lia).
  constructor; [done|]. apply IH. by split.
Qed.

(** [C17] The eBPF lane observes nothing.  The kernel programs put the address of
    a record in the ring buffer, not the record; the loader takes an item of eight
    bytes for too short and drops it.  So nothing is ever sent to the ingest loop:
    whatever events the programs run on and however their accesses interleave,
    however often the runtime is started and whatever becomes of the start, and
    whatever processes are known. *)
Theorem ebpf_blind env retry_backoff boot_id starts s :
  Forall (fun start => match start with
    | Ok runtime => exists running n, runtime = RealEbpfRuntime running n /\ fed boot_id running
    | Err _ => True
    end) starts ->
  lo_sent (run_ebpf_loop env retry_backoff starts s) = lo_sent s.
Proof.
  intros Hs. apply run_ebpf_loop_silent. eapply Forall_impl; [exact Hs|].
  intros [runtime|]; [|done]. intros (running & n & -> & Hfed). by eapply observe_silent.
Qed.
End blind.

(** The delays of the failures from the [i]th on. *)
Definition delays (retry_backoff : Z) (i : Z) (n : nat) : list Z :=
  map (fun k => Z.min (retry_backoff * 2 ^ k) MAX_BACKOFF) (seqZ i (Z.of_nat n)).
Lemma delays_S r i n : delays r i (S n) = Z.min (r * 2 ^ i) MAX_BACKOFF :: delays r (i + 1) n.
Proof. unfold delays. rewrite seqZ_cons by lia. cbn. do 3 f_equal; lia. Qed.
Lemma doubled r i : 0 <= i -> 0 <= r ->
  Z.min (Z.min (r * 2 ^ i) MAX_BACKOFF * 2) MAX_BACKOFF = Z.min (r * 2 ^ (i + 1)) MAX_BACKOFF.
Proof.
  intros Hi Hr. rewrite Z.pow_add_r, Z.mul_assoc by lia. unfold MAX_BACKOFF. change (2 ^ 1) with 2.
  generalize (r * 2 ^ i). lia.
Qed.
Lemma failures_sleep env r errors i s : 0 <= i -> 0 <= r -> lo_backoff s = Z.min (r * 2 ^ i) MAX_BACKOFF ->
  lo_sleeps (run_ebpf_loop env r (map Err errors) s) = lo_sleeps s ++ delays r i (length errors).
Proof.
  intros Hi Hr. revert i Hi s. induction errors as [|error errors IH]; intros i Hi s Hb; [by rewrite app_nil_r|].
  cbn [map run_ebpf_loop length]. rewrite delays_S, (IH (i + 1)) by first [lia | cbn [lo_backoff fail with_backoff sleep with_health]; rewrite Hb; by apply doubled].
  cbn. by rewrite Hb, <- app_assoc.
Qed.
(** After a runtime that could be started and then failed, the loop waits the
    configured delay, whatever it had grown to before; the failed starts that follow
    double the delay each time up to thirty seconds, and after the last of them
    the lane is reported inactive for the reason the start gave. *)
Theorem ebpf_backoff env r runtime before error errors last s : 0 <= r <= MAX_BACKOFF ->
  er_events runtime = map Ok (replicate before None) ++ [Err error] ->
  let s' := run_ebpf_loop env r (Ok runtime :: map Err (errors ++ [last])) s in
  lo_sleeps s' = lo_sleeps s ++ replicate before 50 ++ [r] ++ delays r 1 (S (length errors))
  /\ rh_uprobe_active (lo_health s') = false
  /\ rh_last_error (lo_health s')
     = Some (StructuredError_CaptureLost (mkCaptureLoss ("ebpf_loader_error:" +:+ last) None)).
Proof.
  intros Hr He. cbn zeta.
  assert (forall s1, exists s2,
    runtime_loop env (map Ok (replicate before None) ++ [Err error]) s1 = (true, s2)
    /\ lo_sleeps s2 = lo_sleeps s1 ++ replicate before 50 ++ [lo_backoff s1]
    /\ lo_backoff s2 = Z.min (lo_backoff s1 * 2) MAX_BACKOFF) as Hrun.
  { clear. induction before as [|n IH]; intros s1; [by eexists|]. cbn [replicate map app runtime_loop].
    destruct (IH (sleep 50 (tick s1))) as (s2 & -> & Hs & Hb). eexists. split; [done|].
    rewrite Hs. split; [by cbn; rewrite <- app_assoc | done]. }
  cbn [run_ebpf_loop]. rewrite He.
  match goal with |- context [runtime_loop env _ ?s] => destruct (Hrun s) as (s2 & -> & Hs & Hb) end.
  split.
  - rewrite (failures_sleep env r (errors ++ [last]) 1 s2) by (cbn in Hb; lia).
    rewrite Hs, length_app, Nat.add_comm. cbn. by rewrite <- !app_assoc.
  - rewrite map_app. clear. revert s2. induction errors as [|e errors IH]; intros s2; [done | exact (IH _)].
Qed.
End lane.

Module EbpfFixture.
Import TimeFixture.
#[local] Instance aya : AyaApi := {|
  Ebpf := unit; load_file _ := Ok tt; take_boot_id _ := Some (Ok tt); set_boot_id _ l := Ok l;
  take_events l := Some (Ok l); attach _ l := Ok l |}.
(** A process starts and one of its threads makes a write, and the index knows it. *)
Definition boot : bytes := ProbesFixture.boot.
Definition kernel : Kernel :=
  let step (k : Kernel) (p : Program) :=
    (ProbesFixture.alone p (ProbesFixture.ctx 0) k.1, k.2 ++ [(ProbesFixture.ctx 0, Ret tt)]) in
  fold_left step [process_exec; plaintext_write_enter; plaintext_write_return] (loaded boot, []).
Lemma kernel_ran : kernel_reachable boot kernel.
Proof.
  assert (forall p k, is_ok (exec (program p) (ProbesFixture.ctx 0) k.1).1 = true ->
    rtc kernel_step k (ProbesFixture.alone p (ProbesFixture.ctx 0) k.1, k.2 ++ [(ProbesFixture.ctx 0, Ret tt)])) as Hrun.
  { intros p [m l] Hok. cbn [fst snd] in *. eapply rtc_l; [by apply (kernel_start p (ProbesFixture.ctx 0))|].
    unfold ProbesFixture.alone. destruct (exec _ _ m) as [[[]|] m'] eqn:E; [|discriminate Hok].
    pose proof (finish _ _ _ _ (length l) (l ++ [(ProbesFixture.ctx 0, program p)]) E) as Hf.
    rewrite list_lookup_middle, insert_app_r_alt, Nat.sub_diag in Hf by done. by apply Hf. }
  unfold kernel_reachable, kernel. cbn [fold_left].
  etrans; [apply (Hrun process_exec); vm_compute; reflexivity|].
  etrans; [apply (Hrun plaintext_write_enter); vm_compute; reflexivity|].
  apply (Hrun plaintext_write_return). vm_compute. reflexivity.
Qed.
Definition running : RunningCapture :=
  mkRunningCapture (tt : Ebpf) None "/object" (EVENTS kernel.1)
    (Some (LoaderEvent_UnsupportedBuild (mkBuildFingerprint "sha" "x86_64" None))).
Definition index : SharedProcessIndex :=
  upsert 77 1%N (mkProcessFlowIndex 77 [])
    (mkTrackedProcess 1%N 2%N "sha" None (0 : OffsetDateTime)) (mkSharedIndex ∅).
Definition env : LoopEnv := mkEnv (fun _ => 5 : OffsetDateTime) (fun _ => index) (fun _ => true).
Definition blind_loop : LoopState :=
  run_ebpf_loop env 1000 [Ok (RealEbpfRuntime running 6)] (loop_start health_default 1000).
Lemma running_fed : fed boot running.
Proof.
  split; [|discriminate]. apply Forall_forall. intros item Hin. exists kernel. split; [exact kernel_ran | exact Hin].
Qed.
Lemma ebpf_blind_witness :
  Discovery.process 77 index <> None /\ length (rc_ring running) = 3%nat /\ lo_sent blind_loop = [].
Proof.
  split; [intros E; apply (f_equal (fun o => match o with Some _ => true | None => false end)) in E;
          vm_compute in E; discriminate E|].
  split; [vm_compute; reflexivity|].
  apply (ebpf_blind env 1000 boot [Ok (RealEbpfRuntime running 6)] (loop_start health_default 1000)).
  constructor; [|constructor]. exists running, 6%nat. split; [reflexivity | exact running_fed].
Defined.
Lemma ebpf_backoff_witness :
  lo_sleeps (run_ebpf_loop env 10000
    (Ok (mkRuntime true true (map Ok (replicate 2 None) ++ [Err "gone"])) :: map Err (["e1"; "e2"] ++ ["e3"]))
    (loop_start health_default 20000)) = [50; 50; 10000; 20000; 30000; 30000].
Proof.
  destruct (ebpf_backoff env 10000 (mkRuntime true true (map Ok (replicate 2 None) ++ [Err "gone"])) 2 "gone"
    ["e1"; "e2"] "e3" (loop_start health_default 20000)) as (E & _ & _).
  - unfold MAX_BACKOFF. lia.
  - reflexivity.
  - etransitivity; [exact E | vm_compute; reflexivity].
Defined.
End EbpfFixture.
