(* ===== verification/Notifier.v ===== *)
(** * The notifier

    [src/crates/notifier/src/main.rs]: the configuration, the requests of the
    command line, which tasks are announced and with what text, and the daemon
    that polls the server and sends each notice with the OpenClaw program.
    The effects of the daemon (reading and writing its state file, sending)
    happen or fail as the script of the world says; the process may also be
    killed at any of them. *)
From Stdlib Require Import ZArith Lia Strings.Byte Strings.String.
From S2P Require Import Model Prelude RustStr Types.
Local Open Scope string_scope.
Local Open Scope list_scope.
Local Open Scope Z_scope.

(** ** Configuration *)
(* src: src/crates/notifier/src/main.rs:23-34 Config *)
Record Config : Type := mkConfig {
  nc_server_url : string;
  nc_api_token : string;
  nc_admin_api_token : option string;
  nc_client_id : string;
  nc_poll_interval_seconds : option Z;
  nc_notify_completed : option bool;
  nc_state_path : string;
  nc_openclaw_binary : option string;
  nc_feishu_account : option string;
  nc_feishu_target : string }.
(* src: src/crates/notifier/src/main.rs:43-45 Config::poll_interval *)
Definition poll_interval (c : Config) : Z := Z.max (unwrap_or 5 (nc_poll_interval_seconds c)) 1.
(* src: src/crates/notifier/src/main.rs:47-49 Config::notify_completed *)
Definition notify_completed (c : Config) : bool := unwrap_or false (nc_notify_completed c).
(* src: src/crates/notifier/src/main.rs:51-55 Config::openclaw_binary *)
Definition openclaw_binary (c : Config) : string := unwrap_or "/usr/bin/openclaw" (nc_openclaw_binary c).
(* src: src/crates/notifier/src/main.rs:57-59 Config::feishu_account *)
Definition feishu_account (c : Config) : string := unwrap_or "main" (nc_feishu_account c).

(** ** Requests *)
(** The [url] crate; [clear_and_push] is [None] when the URL cannot be a base. *)
Class UrlApi := {
  Url : Type;
  url_parse : string -> result string Url;
  without_query : Url -> Url;
  clear_and_push : Url -> list string -> option Url;
  append_pair : Url -> string -> string -> Url }.
Section api.
Context `{UrlApi}.
Inductive Method : Type := GET | POST.
Record Request : Type := mkRequest {
  rq_method : Method;
  rq_url : Url;
  rq_bearer : string;
  rq_parts : option (list string) }.
(* src: src/crates/notifier/src/main.rs:145-151 ServerApi *)
Record ServerApi : Type := mkApi {
  na_base_url : Url;
  na_token : string;
  na_admin_token : option string;
  na_client_id : string }.
(* src: src/crates/notifier/src/main.rs:154-162 ServerApi::new *)
Definition ServerApi_new (c : Config) : result string ServerApi :=
  base_url ← url_parse (nc_server_url c);
  mret (mkApi base_url (nc_api_token c) (nc_admin_api_token c) (nc_client_id c)).
(* src: src/crates/notifier/src/main.rs:227-240 ServerApi::url *)
Definition url (api : ServerApi) (parts : list string) : result string Url :=
  ok_or "server_url cannot be a base URL" (clear_and_push (without_query (na_base_url api)) parts).
(** The request of [get]; its answer is below. *)
Definition get_request (api : ServerApi) (u : Url) : Request := mkRequest GET u (na_token api) None.
(* src: src/crates/notifier/src/main.rs:164-175 ServerApi::tasks *)
Definition tasks_request (api : ServerApi) (session_id : option string) (limit : Z) : result string Request :=
  u ← url api ["api"; "v1"; "tasks"];
  let u := append_pair u "client_id" (na_client_id api) in
  let u := append_pair u "limit" (show_Z (Z.min limit 500)) in
  let u := match session_id with Some s => append_pair u "session_id" s | None => u end in
  mret (get_request api u).
(* src: src/crates/notifier/src/main.rs:177-183 ServerApi::task *)
Definition task_request (api : ServerApi) (task_ref : string) (suffix : option string) : result string Request :=
  let parts := ["api"; "v1"; "tasks"; task_ref] ++ match suffix with Some s => [s] | None => [] end in
  u ← url api parts;
  mret (get_request api u).
(* src: src/crates/notifier/src/main.rs:185-193 ServerApi::session *)
Definition session_request (api : ServerApi) (session_id : string) (thread_id : option string)
    : result string Request :=
  u ← url api ["api"; "v1"; "sessions"; na_client_id api; session_id];
  let u := match thread_id with
           | Some t => append_pair (append_pair u "provider" "codex") "thread_id" t
           | None => u
           end in
  mret (get_request api u).
(* src: src/crates/notifier/src/main.rs:195-198 ServerApi::capture_health *)
Definition capture_health_request (api : ServerApi) : result string Request :=
  u ← url api ["api"; "v1"; "capture-health"; na_client_id api];
  mret (get_request api u).
(* src: src/crates/notifier/src/main.rs:200-217 ServerApi::request_content *)
Definition request_content_request (api : ServerApi) (task_ref : string) (parts : list string)
    : result string Request :=
  token ← ok_or "admin_api_token is required for request-content" (na_admin_token api);
  u ← url api ["api"; "v1"; "tasks"; task_ref; "content-requests"];
  mret (mkRequest POST u token (Some parts)).
(** The answer to [get]: the status, the body read as the type asked for. *)
(* src: src/crates/notifier/src/main.rs:219-225 ServerApi::get *)
Definition get_answer {A} (status : Z) (body : result string A) : result string A :=
  _ ← guard_or (status =? 200) ("server request failed: " +:+ show_Z status);
  body.
(* src: src/crates/notifier/src/main.rs:200-217 ServerApi::request_content *)
Definition request_content_answer (status : Z) : result string unit :=
  guard_or ((200 <=? status) && (status <? 300)) ("content request failed: " +:+ show_Z status).

(* src: src/crates/notifier/src/main.rs:70-108 CliCommand: with the arguments *)
Inductive CliCommand : Type :=
| CliCommand_Daemon
| CliCommand_Test
| CliCommand_Tasks (session_id : option string) (limit : Z)
| CliCommand_Task (task_ref : string)
| CliCommand_Session (session_id : string) (thread_id : option string)
| CliCommand_Attempts (task_ref : string)
| CliCommand_Events (task_ref : string)
| CliCommand_Errors (task_ref : string)
| CliCommand_CaptureHealth
| CliCommand_RequestContent (task_ref : string) (parts : list string).
(** The request a command of the command line makes; the daemon polls with the
    first one, and [Test] makes none. *)
(* src: src/crates/notifier/src/main.rs:377-410 main *)
Definition command_request (api : ServerApi) (command : option CliCommand) : result string (option Request) :=
  match unwrap_or CliCommand_Daemon command with
  | CliCommand_Daemon => Some <$> tasks_request api None 500
  | CliCommand_Test => Ok None
  | CliCommand_Tasks session_id limit => Some <$> tasks_request api session_id limit
  | CliCommand_Task task_ref => Some <$> task_request api task_ref None
  | CliCommand_Session session_id thread_id => Some <$> session_request api session_id thread_id
  | CliCommand_Attempts task_ref => Some <$> task_request api task_ref (Some "attempts")
  | CliCommand_Events task_ref => Some <$> task_request api task_ref (Some "events")
  | CliCommand_Errors task_ref => Some <$> task_request api task_ref (Some "errors")
  | CliCommand_CaptureHealth => Some <$> capture_health_request api
  | CliCommand_RequestContent task_ref parts => Some <$> request_content_request api task_ref parts
  end.
(** Only the request for content changes anything on the server, and only it
    carries the administrator's token; without that token it is not made. *)
Lemma command_privileges api command request : command_request api command = Ok (Some request) ->
  (rq_method request = GET /\ rq_bearer request = na_token api)
  \/ (exists task_ref parts, command = Some (CliCommand_RequestContent task_ref parts)
        /\ rq_method request = POST /\ na_admin_token api = Some (rq_bearer request)).
Proof.
  unfold command_request, tasks_request, task_request, session_request, capture_health_request,
    request_content_request, url, get_request.
  destruct command as [[]|]; cbn [unwrap_or]; try discriminate;
    destruct (na_admin_token api) eqn:Ha, (clear_and_push _ _); cbn; intros E; try discriminate; injection E as <-;
    first [by left; split | right; do 2 eexists; by repeat split].
Qed.
End api.

(** ** Notices *)
(* src: src/crates/notifier/src/main.rs:140-143 NoticeKind *)
Inductive NoticeKind : Type :=
| Completed
| Abnormal.
#[export] Instance NoticeKind_eq_dec : EqDecision NoticeKind.
Proof. solve_decision. Defined.
(* src: src/crates/notifier/src/main.rs:271-280 notice_kind *)
Definition notice_kind (task : TaskSnapshot) : option NoticeKind :=
  if is_some (ts_last_error task) || negb (bool_decide (ts_integrity task = IntegrityState_Complete))
  then Some Abnormal
  else match ts_terminal task with
       | Some TerminalOutcome_Completed => Some Completed
       | Some _ => Some Abnormal
       | None => None
       end.
(** [enum_name] of the two types it is used at: their names in snake case. *)
(* src: src/crates/protocol/src/types.rs:75-81 TerminalOutcome *)
Definition terminal_name (t : TerminalOutcome) : string :=
  match t with
  | TerminalOutcome_Completed => "completed"
  | TerminalOutcome_Failed => "failed"
  | TerminalOutcome_Aborted => "aborted"
  | TerminalOutcome_Terminated => "terminated"
  | TerminalOutcome_Lost => "lost"
  end.
(* src: src/crates/protocol/src/types.rs:85-90 IntegrityState *)
Definition integrity_name (i : IntegrityState) : string :=
  match i with
  | IntegrityState_Complete => "complete"
  | IntegrityState_Degraded => "degraded"
  | IntegrityState_Lost => "lost"
  | IntegrityState_UnsupportedBuild => "unsupported_build"
  end.

(** [value.format(&Rfc3339).ok()], and the text of the state file. *)
Class NotifierApi `{TimeApi} := {
  rfc3339 : OffsetDateTime -> option string;
  Doc : Type }.
(* src: src/crates/notifier/src/main.rs:111-115 NotificationState *)
Record NotificationState : Type := mkState {
  initialized : bool;
  completed_tasks : gset string;
  abnormal_tasks : gset string }.
Definition state_default : NotificationState := mkState false ∅ ∅.
(** [serde_json] on the state. *)
Class StateJson `{NotifierApi} := {
  state_to_doc : NotificationState -> Doc;
  state_of_doc : Doc -> result string NotificationState }.
Class StateJsonLaws `{StateJson} := {
  state_doc_roundtrip s : state_of_doc (state_to_doc s) = Ok s }.

Section notifier.
Context `{StateJson}.
(* src: src/crates/notifier/src/main.rs:317-322 format_timestamp *)
Definition format_timestamp (timestamp_ms : Z) : string :=
  unwrap_or (show_Z timestamp_ms) (t ← from_unix_timestamp_nanos (timestamp_ms * 1000000); rfc3339 t).
(* src: src/crates/notifier/src/main.rs:282-308 notice_message *)
Definition notice_message (task : TaskSnapshot) (kind : NoticeKind) : string :=
  let title := unwrap_or (ti_session_id (ts_identity task)) (ts_conversation_title task) in
  let observed_at := format_timestamp (ts_updated_at_ms task) in
  match kind with
  | Completed =>
    "[CodexWatch 完成]" +:+ LF +:+ "对话：" +:+ title +:+ LF +:+ "任务：" +:+ ti_turn_id (ts_identity task)
    +:+ LF +:+ "模型：" +:+ unwrap_or "未知" (ts_model task) +:+ LF +:+ "时间：" +:+ observed_at
  | Abnormal =>
    let result := match ts_terminal task with
                  | Some t => terminal_name t
                  | None => integrity_name (ts_integrity task)
                  end in
    let reason := match ts_last_error task with Some error => er_message error | None => result end in
    "[CodexWatch 异常]" +:+ LF +:+ "对话：" +:+ title +:+ LF +:+ "任务：" +:+ ti_turn_id (ts_identity task)
    +:+ LF +:+ "状态：" +:+ result +:+ LF +:+ "原因：" +:+ reason +:+ LF +:+ "时间：" +:+ observed_at
  end.

(** ** The world of the daemon *)
(** What becomes of an effect: it happens; it is reported as failed, though it may
    have happened; the process is killed, before or after it. *)
Inductive Outcome : Type :=
| Done
| Fails (happened : bool) (error : string)
| Killed (happened : bool).
(** What a notice is about: the task and the kind. *)
Definition Key : Type := NoticeKind * string.
(** The arguments of the OpenClaw program, with what the notice is about. *)
Record Notice : Type := mkNotice {
  no_about : Key;
  no_program : string;
  no_args : list string }.
Record World : Type := mkWorld {
  wd_script : list Outcome;
  wd_file : option Doc;
  wd_sent : list Notice;
  (** how many effects have not simply happened *)
  wd_faults : nat }.
Inductive Exit : Type :=
| Exit_Error (error : string)
| Exit_Killed.
Definition Notify (A : Type) : Type := World -> result Exit A * World.
#[global] Instance notify_ret : MRet Notify := fun A a w => (Ok a, w).
#[global] Instance notify_bind : MBind Notify := fun A B f x w =>
  match x w with
  | (Ok a, w) => f a w
  | (Err e, w) => (Err e, w)
  end.
Definition fault (w : World) : World :=
  mkWorld (wd_script w) (wd_file w) (wd_sent w) (S (wd_faults w)).
(** An effect; when the script is over the process is killed. *)
Definition effect (act : World -> World) : Notify unit := fun w =>
  match wd_script w with
  | [] => (Err Exit_Killed, fault w)
  | outcome :: script =>
    let w := mkWorld script (wd_file w) (wd_sent w) (wd_faults w) in
    match outcome with
    | Done => (Ok tt, act w)
    | Fails happened e => (Err (Exit_Error e), fault (if happened then act w else w))
    | Killed happened => (Err Exit_Killed, fault (if happened then act w else w))
    end
  end.
Definition write_file (doc : Doc) (w : World) : World :=
  mkWorld (wd_script w) (Some doc) (wd_sent w) (wd_faults w).
Definition add_sent (n : Notice) (w : World) : World :=
  mkWorld (wd_script w) (wd_file w) (wd_sent w ++ [n]) (wd_faults w).

(** A file that is not there is the default state. *)
Definition state_in (file : option Doc) : result string NotificationState :=
  match file with
  | Some doc => state_of_doc doc
  | None => Ok state_default
  end.
Definition parse_file : Notify NotificationState := fun w =>
  match state_in (wd_file w) with
  | Ok s => (Ok s, w)
  | Err e => (Err (Exit_Error e), w)
  end.
(* src: src/crates/notifier/src/main.rs:118-126 NotificationState::load *)
Definition load : Notify NotificationState := _ ← effect id; parse_file.
(** The new content replaces the old one at once. *)
(* src: src/crates/notifier/src/main.rs:128-136 NotificationState::save *)
Definition save (s : NotificationState) : Notify unit := effect (write_file (state_to_doc s)).
(* src: src/crates/notifier/src/main.rs:243-269 send_feishu *)
Definition send_feishu (c : Config) (about : Key) (message : string) : Notify unit :=
  effect (add_sent (mkNotice about (openclaw_binary c)
    ["message"; "send"; "--channel"; "feishu"; "--account"; feishu_account c; "--target"; nc_feishu_target c;
     "--message"; message; "--json"])).
Definition seen (s : NotificationState) (k : Key) : bool :=
  match k.1 with
  | Completed => bool_decide (k.2 ∈ completed_tasks s)
  | Abnormal => bool_decide (k.2 ∈ abnormal_tasks s)
  end.
Definition mark (k : Key) (s : NotificationState) : NotificationState :=
  match k.1 with
  | Completed => mkState (initialized s) ({[k.2]} ∪ completed_tasks s) (abnormal_tasks s)
  | Abnormal => mkState (initialized s) (completed_tasks s) ({[k.2]} ∪ abnormal_tasks s)
  end.
Definition key_of (task : TaskSnapshot) (kind : NoticeKind) : Key := (kind, ts_task_ref task).
(** One turn of the loop. *)
(* src: src/crates/notifier/src/main.rs:330-351 process_tasks: one task *)
Definition process_task (c : Config) (deliver : bool) (task : TaskSnapshot) (s : NotificationState)
    : Notify NotificationState :=
  match notice_kind task with
  | None => mret s
  | Some kind =>
    if bool_decide (kind = Abnormal) && is_none (ts_conversation_title task) then mret s
    else if seen s (key_of task kind) then mret s
    else
      _ ← (if deliver && (negb (bool_decide (kind = Completed)) || notify_completed c)
           then send_feishu c (key_of task kind) (notice_message task kind)
           else mret tt);
      let s := mark (key_of task kind) s in
      _ ← save s;
      mret s
  end.
Fixpoint process_list (c : Config) (deliver : bool) (tasks : list TaskSnapshot) (s : NotificationState)
    : Notify NotificationState :=
  match tasks with
  | [] => mret s
  | task :: tasks => s ← process_task c deliver task s; process_list c deliver tasks s
  end.
(* src: src/crates/notifier/src/main.rs:324-354 process_tasks *)
Definition process_tasks (c : Config) (s : NotificationState) (tasks : list TaskSnapshot) (deliver : bool)
    : Notify NotificationState := process_list c deliver (rev tasks) s.
(** A poll and what follows it. *)
(* src: src/crates/notifier/src/main.rs:359-367 run_daemon: loop *)
Definition poll (c : Config) (answer : result string TaskListResponse) (s : NotificationState)
    : Notify NotificationState :=
  match answer with
  | Err e => fun w => (Err (Exit_Error e), w)
  | Ok tasks =>
    let deliver := initialized s in
    s ← process_tasks c s (lr_tasks tasks) deliver;
    if initialized s then mret s
    else
      let s := mkState true (completed_tasks s) (abnormal_tasks s) in
      _ ← save s;
      mret s
  end.
Fixpoint poll_loop (c : Config) (answers : list (result string TaskListResponse)) (s : NotificationState)
    : Notify NotificationState :=
  match answers with
  | [] => mret s
  | answer :: answers => s ← poll c answer s; poll_loop c answers s
  end.
(** The daemon as far as the given answers go. *)
(* src: src/crates/notifier/src/main.rs:356-369 run_daemon *)
Definition run_daemon (c : Config) (answers : list (result string TaskListResponse)) : Notify NotificationState :=
  s ← load;
  poll_loop c answers s.
(** The daemon, started again whenever it has ended. *)
Definition lives (c : Config) (runs : list (list (result string TaskListResponse))) (w : World) : World :=
  fold_left (fun w answers => (run_daemon c answers w).2) runs w.
End notifier.

(** ** What is announced *)
(** The notice a task calls for: an abnormal task only once it has a title. *)
Definition noticed (task : TaskSnapshot) : option Key :=
  match notice_kind task with
  | None => None
  | Some kind =>
    if bool_decide (kind = Abnormal) && is_none (ts_conversation_title task) then None
    else Some (key_of task kind)
  end.
(** Completions are sent only if the configuration says so. *)
Definition loud (c : Config) (k : Key) : bool := negb (bool_decide (k.1 = Completed)) || notify_completed c.
Lemma loud_spec c k : loud c k = true <-> k.1 = Abnormal \/ notify_completed c = true.
Proof.
  unfold loud. destruct k as [[] ?]; cbn; [|by intuition].
  rewrite bool_decide_true by done. cbn. split; [by right|]. by intros [|].
Qed.

Section proofs.
Context `{StateJsonLaws}.
Implicit Types (w : World) (s : NotificationState) (k : Key).
Lemma seen_mark k k' s : seen (mark k s) k' = bool_decide (k' = k) || seen s k'.
Proof.
  apply eq_iff_eq_true. rewrite orb_true_iff, bool_decide_eq_true.
  destruct k as [[] a], k' as [[] b]; unfold seen, mark; cbn; rewrite !bool_decide_eq_true; try set_solver.
  all: rewrite ?elem_of_union, ?elem_of_singleton; split; intros [E|]; simplify_eq; auto.
Qed.
Lemma initialized_mark k s : initialized (mark k s) = initialized s.
Proof. by destruct k as [[] a]. Qed.
(** A turn of the loop by what the task calls for. *)
Definition announce (c : Config) (deliver : bool) (task : TaskSnapshot) (k : Key) (s : NotificationState)
    : Notify NotificationState :=
  _ ← (if deliver && loud c k then send_feishu c k (notice_message task k.1) else mret tt);
  _ ← save (mark k s);
  mret (mark k s).
Lemma process_task_run c deliver task s : process_task c deliver task s =
  match noticed task with
  | Some k => if seen s k then mret s else announce c deliver task k s
  | None => mret s
  end.
Proof.
  unfold process_task, noticed. destruct (notice_kind task) as [kind|]; [|done].
  by destruct (bool_decide (kind = Abnormal) && is_none (ts_conversation_title task)).
Qed.

(** [x] started where [P] holds gives a value with [Q], or ends with [E]. *)
Definition hoare {A} (P : World -> Prop) (x : Notify A) (Q : A -> World -> Prop) (E : World -> Prop) : Prop :=
  forall w, P w -> match x w with
                   | (Ok a, w') => Q a w'
                   | (Err _, w') => E w'
                   end.
Lemma hoare_ret {A} P Q E (a : A) : (forall w, P w -> Q a w) -> hoare P (mret a) Q E.
Proof. intros HPQ w Hw. by apply HPQ. Qed.
Lemma hoare_bind {A B} P R Q E (x : Notify A) (f : A -> Notify B) :
  hoare P x R E -> (forall a, hoare (R a) (f a) Q E) -> hoare P (x ≫= f) Q E.
Proof.
  intros Hx Hf w Hw. pose proof (Hx w Hw) as Hx'. unfold mbind, notify_bind.
  destruct (x w) as [[a|e] w']; [by apply Hf | done].
Qed.
Lemma hoare_effect P (act : World -> World) (Q : unit -> World -> Prop) (E : World -> Prop) :
  (forall w script happened, P w -> let w := mkWorld script (wd_file w) (wd_sent w) (wd_faults w) in
    Q tt (act w) /\ E (fault (if happened : bool then act w else w))) ->
  (forall w, P w -> E (fault w)) ->
  hoare P (effect act) Q E.
Proof.
  intros Hd He w Hw. unfold effect. destruct (wd_script w) as [|o script]; [by apply He|].
  destruct o as [|happened e|happened]; [apply (Hd w script true Hw) | |]; apply (Hd w script happened Hw).
Qed.
Lemma hoare_process c deliver (L : NotificationState -> World -> Prop) (E : World -> Prop) tasks s :
  (forall task k s, task ∈ tasks -> noticed task = Some k -> seen s k = false ->
    hoare (L s) (announce c deliver task k s) L E) ->
  hoare (L s) (process_list c deliver tasks s) L E.
Proof.
  revert s. induction tasks as [|task tasks IH]; intros s Hl; [by apply hoare_ret|]. cbn [process_list].
  apply hoare_bind with (R := L); [|intros s'; apply IH; intros; apply Hl; set_solver].
  rewrite process_task_run. destruct (noticed task) as [k|] eqn:Ek; [|by apply hoare_ret].
  destruct (seen s k) eqn:Es; [by apply hoare_ret|]. apply Hl; set_solver.
Qed.

(** ** At most one notice *)
Definition at_file s w : Prop := state_in (wd_file w) = Ok s.
Definition seen_in w k : bool :=
  match state_in (wd_file w) with
  | Ok s => seen s k
  | Err _ => false
  end.
Definition sent_count k (l : list Notice) : nat := length (filter (fun n => no_about n = k) l).
#[local] Arguments sent_count : simpl never.
Lemma sent_count_snoc k l n :
  sent_count k (l ++ [n]) = (sent_count k l + if decide (no_about n = k) then 1 else 0)%nat.
Proof. unfold sent_count. rewrite filter_app, length_app. cbn. by case_decide. Qed.
(** Every notice is sent once, and once more for each fault. *)
Definition once w : Prop :=
  forall k, (sent_count k (wd_sent w) <= wd_faults w + if seen_in w k then 1 else 0)%nat.
Definition running s w : Prop := once w /\ at_file s w.
(** [k] may have been sent though the file does not say so yet. *)
Definition sending k s w : Prop :=
  at_file s w /\ forall k', (sent_count k' (wd_sent w)
    <= wd_faults w + if bool_decide (k' = k) || seen s k' then 1 else 0)%nat.
Lemma announce_once c deliver task k s : seen s k = false ->
  hoare (running s) (announce c deliver task k s) running once.
Proof.
  intros Hk. apply hoare_bind with (R := fun _ => sending k s).
  - assert (forall w, running s w -> sending k s w) as Hrun.
    { intros w [Ho Hf]. split; [done|]. intros k'. specialize (Ho k'). unfold seen_in in Ho. rewrite Hf in Ho.
      destruct (bool_decide _), (seen s k'); cbn in *; lia. }
    destruct (deliver && loud c k); [|by apply hoare_ret].
    apply hoare_effect.
    + intros w script happened [Ho Hf]. split.
      * split; [exact Hf|]. intros k'. cbn. rewrite sent_count_snoc. cbn [no_about]. specialize (Ho k').
        unfold seen_in in Ho. rewrite Hf in Ho. destruct (decide (k = k')) as [<-|Hne].
        -- rewrite Hk, bool_decide_true in * by done. cbn. lia.
        -- rewrite bool_decide_false by congruence. cbn. lia.
      * intros k'. specialize (Ho k'). unfold seen_in in *. destruct happened; cbn; [|lia].
        rewrite sent_count_snoc. case_decide; lia.
    + intros w [Ho _] k'. specialize (Ho k'). unfold seen_in in *. cbn. lia.
  - intros _. apply hoare_bind with (R := fun _ => running (mark k s)); [|intros _; by apply hoare_ret].
    apply hoare_effect.
    + intros w script happened [Hf Ho]. assert (forall w', wd_sent w' = wd_sent w -> (wd_faults w <= wd_faults w')%nat ->
        state_in (wd_file w') = Ok (mark k s) -> once w') as Hw.
      { intros w' Es Ef Ew k'. unfold seen_in. rewrite Ew, Es, seen_mark. specialize (Ho k'). lia. }
      split; [split; [|exact (state_doc_roundtrip _)]; apply Hw; [done | done | exact (state_doc_roundtrip _)]|].
      destruct happened; [apply Hw; cbn; [done | lia | exact (state_doc_roundtrip _)]|].
      intros k'. specialize (Ho k'). cbn. destruct (bool_decide _), (seen s k'), (seen_in _ k'); cbn in *; lia.
    + intros w [Hf Ho] k'. specialize (Ho k'). cbn.
      destruct (bool_decide _), (seen s k'), (seen_in _ k'); cbn in *; lia.
Qed.
Lemma save_initialized s s' : (forall k, seen s' k = seen s k) -> hoare (running s) (save s') (fun _ => running s') once.
Proof.
  intros Hs. assert (forall w w' : World, running s w -> wd_sent w' = wd_sent w ->
    (wd_faults w <= wd_faults w')%nat -> state_in (wd_file w') = Ok s \/ state_in (wd_file w') = Ok s' -> once w') as Hw.
  { intros w w' [Ho Hf] Es Ef Ew k. specialize (Ho k). unfold seen_in in *. rewrite Hf in Ho. rewrite Es.
    destruct Ew as [-> | ->]; rewrite ?Hs; lia. }
  apply hoare_effect.
  - intros w script happened Hr. pose proof Hr as [_ Hf]. split; [split; [|exact (state_doc_roundtrip _)]|].
    + apply (Hw w); [done..|]. right. exact (state_doc_roundtrip _).
    + apply (Hw w); [done | by destruct happened | destruct happened; cbn; lia|].
      destruct happened; [right; exact (state_doc_roundtrip _) | by left].
  - intros w Hr. pose proof Hr as [_ Hf]. apply (Hw w); [done | done | cbn; lia | by left].
Qed.
Lemma poll_once c answer s : hoare (running s) (poll c answer s) running once.
Proof.
  destruct answer as [tasks|e]; [|by intros w [Ho _]]. apply hoare_bind with (R := running).
  - apply hoare_process. intros. by apply announce_once.
  - intros s'. destruct (initialized s'); [by apply hoare_ret|].
    apply hoare_bind with (R := fun _ => running (mkState true (completed_tasks s') (abnormal_tasks s'))).
    + by apply save_initialized.
    + intros _. by apply hoare_ret.
Qed.
Lemma poll_loop_once c answers s : hoare (running s) (poll_loop c answers s) running once.
Proof.
  revert s. induction answers as [|answer answers IH]; intros s; [by apply hoare_ret|].
  eapply hoare_bind; [apply poll_once | done].
Qed.
Lemma run_daemon_once c answers w : once w -> once (run_daemon c answers w).2.
Proof.
  intros Hw. assert (hoare once (run_daemon c answers) (fun s => running s) once) as Hd.
  { apply hoare_bind with (R := running); [|intros; apply poll_loop_once].
    apply hoare_bind with (R := fun _ => once).
    - apply hoare_effect; [|intros w' Ho k; specialize (Ho k); unfold seen_in in *; cbn; lia].
      intros w' script happened Ho. split; intros k; specialize (Ho k); unfold seen_in in *; destruct happened; cbn; lia.
    - intros _ w' Ho. unfold parse_file. destruct (state_in _) eqn:E; [by split | done]. }
  specialize (Hd w Hw). destruct (run_daemon c answers w) as [[s|e] w']; [apply Hd | done].
Qed.
(** [C16] The same notice is not sent twice.  Over any number of starts of the
    daemon on one state file, with any answers to its polls, a task is announced
    at most once for its completion and at most once for an abnormality, and once
    more for each effect that failed or at which the daemon was killed: a notice
    sent is marked in the file before the next task is looked at. *)
Theorem notified_once c runs script k :
  let w := lives c runs (mkWorld script None [] 0) in
  (sent_count k (wd_sent w) <= wd_faults w + if seen_in w k then 1 else 0)%nat.
Proof.
  cbn zeta. assert (forall w, once w -> once (lives c runs w)) as Hl.
  { induction runs as [|answers runs IH]; intros w Hw; [done|]. apply IH. by apply run_daemon_once. }
  apply Hl. intros k'. apply Nat.le_0_l.
Qed.

(** ** Every notice *)
(** The listed tasks call for [k]. *)
Definition called (tasks : list TaskSnapshot) k : Prop := exists task, task ∈ tasks /\ noticed task = Some k.
Lemma called_cons task tasks k : called (task :: tasks) k <-> noticed task = Some k \/ called tasks k.
Proof.
  unfold called. split.
  - intros (t & [->|Ht]%elem_of_cons & E); eauto.
  - intros [E|(t & Ht & E)]; eexists; (split; [|exact E]); set_solver.
Qed.
Lemma elem_rev {A} (x : A) l : x ∈ rev l <-> x ∈ l.
Proof. by rewrite !list_elem_of_In, <- in_rev. Qed.
Lemma called_rev tasks k : called (rev tasks) k <-> called tasks k.
Proof. unfold called. by setoid_rewrite elem_rev. Qed.
Definition notice_of (c : Config) (task : TaskSnapshot) k : Notice :=
  mkNotice k (openclaw_binary c)
    ["message"; "send"; "--channel"; "feishu"; "--account"; feishu_account c; "--target"; nc_feishu_target c;
     "--message"; notice_message task k.1; "--json"].
Lemma effect_Ok act w u w' : effect act w = (Ok u, w') ->
  exists script, w' = act (mkWorld script (wd_file w) (wd_sent w) (wd_faults w)).
Proof. unfold effect. destruct (wd_script w) as [|[] script]; try discriminate. intros [= _ <-]. eauto. Qed.
Lemma bind_run_Ok {A B} (x : Notify A) (f : A -> Notify B) w b w' : (x ≫= f) w = (Ok b, w') ->
  exists a w1, x w = (Ok a, w1) /\ f a w1 = (Ok b, w').
Proof. unfold mbind, notify_bind. destruct (x w) as [[a|e] w1]; [eauto | discriminate]. Qed.
Lemma announce_Ok c deliver task k s w s' w' : announce c deliver task k s w = (Ok s', w') ->
  s' = mark k s /\ at_file s' w'
  /\ wd_sent w' = wd_sent w ++ if deliver && loud c k then [notice_of c task k] else [].
Proof.
  intros (u & w1 & E1 & (u' & w2 & E2 & [= <- <-])%bind_run_Ok)%bind_run_Ok.
  apply effect_Ok in E2 as [script ->]. split; [done|]. split; [exact (state_doc_roundtrip _)|]. cbn.
  destruct (deliver && loud c k); [by apply effect_Ok in E1 as [script' ->]|].
  injection E1 as _ <-. by rewrite app_nil_r.
Qed.
(** What a loop over tasks has done when it is over: the notices [l]. *)
Definition announced (c : Config) (deliver : bool) (tasks : list TaskSnapshot) s s' (l : list Notice) : Prop :=
  NoDup (map no_about l)
  /\ (forall k, k ∈ map no_about l <-> deliver && loud c k = true /\ seen s k = false /\ called tasks k)
  /\ Forall (fun n => exists task, task ∈ tasks /\ noticed task = Some (no_about n)
                       /\ n = notice_of c task (no_about n)) l
  /\ (forall k, seen s' k = true <-> seen s k = true \/ called tasks k)
  /\ initialized s' = initialized s.
Lemma announced_skip c deliver task tasks s s' l : (forall k, noticed task = Some k -> seen s k = true) ->
  announced c deliver tasks s s' l -> announced c deliver (task :: tasks) s s' l.
Proof.
  intros Hk (Hnd & Hin & Hall & Hseen & Hi). split; [done|]. split; [|split; [|split; [|done]]].
  - intros k. rewrite Hin, called_cons. split; [by intuition|]. intros (? & Es & [Ek%Hk|?]); [congruence | done].
  - eapply Forall_impl; [exact Hall|]. intros n (t & ? & ? & ?). exists t. set_solver.
  - intros k. rewrite Hseen, called_cons. split; [by intuition|]. intros [?|[Ek%Hk|?]]; auto.
Qed.
Lemma announced_mark c deliver task tasks k s s' l : noticed task = Some k -> seen s k = false ->
  announced c deliver tasks (mark k s) s' l ->
  announced c deliver (task :: tasks) s s' ((if deliver && loud c k then [notice_of c task k] else []) ++ l).
Proof.
  intros Ek Hs (Hnd & Hin & Hall & Hseen & Hi).
  assert (k ∉ map no_about l) as Hnot.
  { intros (_ & Hm & _)%Hin. rewrite seen_mark, bool_decide_true in Hm by done. discriminate. }
  assert (forall k', k' ∈ map no_about l <->
    deliver && loud c k' = true /\ k' <> k /\ seen s k' = false /\ called tasks k') as Hin'.
  { intros k'. rewrite Hin, seen_mark, orb_false_iff, bool_decide_eq_false. by intuition. }
  split; [|split; [|split; [|split]]].
  - destruct (deliver && loud c k); [by constructor | done].
  - intros k'. rewrite map_app, elem_of_app, Hin', called_cons, Ek.
    destruct (deliver && loud c k) eqn:El; cbn [map no_about]; rewrite ?list_elem_of_singleton, ?elem_of_nil.
    + cbn. destruct (decide (k' = k)) as [->|Hne]; [by intuition|]. split; [by intuition|].
      intros (? & ? & [[= ->]|?]); [done | by right].
    + destruct (decide (k' = k)) as [->|Hne]; [intuition congruence|]. split; [by intuition|].
      intros (? & ? & [[= ->]|?]); [done | by right].
  - apply Forall_app. split; [|eapply Forall_impl; [exact Hall|]; intros n (t & ? & ? & ?); exists t; set_solver].
    destruct (deliver && loud c k); constructor; [|constructor]. exists task. set_solver.
  - intros k'. rewrite Hseen, seen_mark, called_cons, orb_true_iff, bool_decide_eq_true, Ek.
    split; [intros [[->|]|]; auto | intros [?|[[= ->]|?]]; auto].
  - by rewrite Hi, initialized_mark.
Qed.
Lemma process_exact c deliver tasks s w s' w' : process_list c deliver tasks s w = (Ok s', w') -> at_file s w ->
  at_file s' w' /\ exists l, wd_sent w' = wd_sent w ++ l /\ announced c deliver tasks s s' l.
Proof.
  revert s w. induction tasks as [|task tasks IH]; intros s w; cbn [process_list].
  { intros [= <- <-] Hf. split; [done|]. exists []. rewrite app_nil_r. split; [done|].
    split; [constructor|]. split; [|split; [constructor|split; [|done]]].
    - intros k. split; [intros Hn%elem_of_nil; done | intros (_ & _ & (t & Hn%elem_of_nil & _)); done].
    - intros k. split; [by left|]. intros [?|(t & Hn%elem_of_nil & _)]; done. }
  intros (s1 & w1 & E1 & E)%bind_run_Ok Hf. rewrite process_task_run in E1.
  assert ((s1 = s /\ w1 = w /\ forall k, noticed task = Some k -> seen s k = true) \/
    exists k, noticed task = Some k /\ seen s k = false /\ announce c deliver task k s w = (Ok s1, w1)) as [Hskip|Hk].
  { destruct (noticed task) as [k|]; [|by injection E1 as <- <-; left].
    destruct (seen s k) eqn:Ek; [injection E1 as <- <-; left; repeat split; by intros k' [= <-] | right; eauto]. }
  - destruct Hskip as (-> & -> & Hk). destruct (IH _ _ E Hf) as (Hf' & l & El & Ha). split; [done|].
    exists l. split; [done|]. by apply announced_skip.
  - destruct Hk as (k & Ek & Hs & (-> & Hf1 & Es)%announce_Ok). destruct (IH _ _ E Hf1) as (Hf' & l & El & Ha).
    split; [done|]. eexists. split; [|by eapply announced_mark]. by rewrite El, Es, <- app_assoc.
Qed.
(** A poll that goes well announces exactly what is due: each of the tasks
    listed that calls for a notice whose kind is sent and that the state has not
    seen, once, with the text made of that task; afterwards the state, in memory
    and in the file, has seen these and what it had seen before. *)
Theorem notices_exact c tasks s w s' w' : process_tasks c s tasks true w = (Ok s', w') -> at_file s w ->
  at_file s' w' /\ exists l, wd_sent w' = wd_sent w ++ l
    /\ NoDup (map no_about l)
    /\ (forall k, k ∈ map no_about l <-> (k.1 = Abnormal \/ notify_completed c = true) /\ seen s k = false /\ called tasks k)
    /\ Forall (fun n => exists task, task ∈ tasks /\ noticed task = Some (no_about n)
                        /\ n = notice_of c task (no_about n)) l
    /\ (forall k, seen s' k = true <-> seen s k = true \/ called tasks k).
Proof.
  intros E Hf. destruct (process_exact _ _ _ _ _ _ _ E Hf) as (Hf' & l & El & Hnd & Hin & Hall & Hseen & _).
  split; [done|]. exists l. split; [done|]. split; [done|]. split; [|split].
  - intros k. rewrite Hin, called_rev. cbn [andb]. by rewrite loud_spec.
  - eapply Forall_impl; [exact Hall|]. intros n (t & Ht & ? & ?). rewrite elem_rev in Ht. eauto.
  - intros k. by rewrite Hseen, called_rev.
Qed.

(** ** No notice lost *)
(** Nothing is marked that was neither marked at first nor sent, but for the kinds
    that are not sent. *)
Definition accounted (c : Config) s0 w : Prop :=
  exists s, at_file s w /\ initialized s = true
  /\ forall k, seen s k = true -> seen s0 k = true \/ k ∈ map no_about (wd_sent w) \/ loud c k = false.
Definition accounting (c : Config) s0 s w : Prop :=
  at_file s w /\ initialized s = true
  /\ forall k, seen s k = true -> seen s0 k = true \/ k ∈ map no_about (wd_sent w) \/ loud c k = false.
Lemma announce_accounted c s0 task k s :
  hoare (accounting c s0 s) (announce c true task k s) (accounting c s0) (accounted c s0).
Proof.
  assert (forall w n, accounting c s0 s w -> accounting c s0 s (add_sent n w)) as Hadd.
  { intros w n (Hf & Hi & Hk). split; [done|]. split; [done|]. intros k' Hs. cbn. rewrite map_app, elem_of_app.
    destruct (Hk k' Hs) as [|[|]]; auto. }
  apply hoare_bind with (R := fun _ w => accounting c s0 s w /\ (k ∈ map no_about (wd_sent w) \/ loud c k = false)).
  - cbn [andb]. destruct (loud c k) eqn:El; [|apply hoare_ret; auto]. apply hoare_effect.
    + intros w script happened Hw. split.
      * split; [by apply Hadd|]. left. cbn. rewrite map_app, elem_of_app. right. by apply list_elem_of_singleton.
      * exists s. destruct happened; [by apply (Hadd w) | exact Hw].
    + intros w Hw. by exists s.
  - intros _. apply hoare_bind with (R := fun _ => accounting c s0 (mark k s)); [|intros _; by apply hoare_ret].
    apply hoare_effect.
    + intros w script happened [(Hf & Hi & Hk) Hnew].
      assert (accounting c s0 (mark k s) (write_file (state_to_doc (mark k s)) (mkWorld script (wd_file w) (wd_sent w) (wd_faults w)))) as Hm.
      { split; [exact (state_doc_roundtrip _)|]. split; [by rewrite initialized_mark|]. intros k'.
        rewrite seen_mark, orb_true_iff, bool_decide_eq_true. intros [->|Hs]; [by right | by apply Hk]. }
      split; [exact Hm|]. destruct happened; [exists (mark k s); exact Hm | by exists s].
    + intros w [Hw _]. by exists s.
Qed.
Lemma poll_accounted c s0 answer s :
  hoare (accounting c s0 s) (poll c answer s) (accounting c s0) (accounted c s0).
Proof.
  destruct answer as [tasks|e]; [|intros w Hw; by exists s].
  intros w Hw. pose proof Hw as (_ & Hi & _). unfold poll. rewrite Hi. revert w Hw.
  apply hoare_bind with (R := accounting c s0).
  - apply hoare_process. intros. apply announce_accounted.
  - intros s' w Hw. pose proof Hw as (_ & Hi' & _). by rewrite Hi'.
Qed.
Lemma poll_loop_accounted c s0 answers s :
  hoare (accounting c s0 s) (poll_loop c answers s) (accounting c s0) (accounted c s0).
Proof.
  revert s. induction answers as [|answer answers IH]; intros s; [by apply hoare_ret|].
  eapply hoare_bind; [apply poll_accounted | done].
Qed.
Lemma run_daemon_accounted c s0 answers :
  hoare (accounted c s0) (run_daemon c answers) (accounting c s0) (accounted c s0).
Proof.
  apply hoare_bind with (R := accounting c s0); [|intros; apply poll_loop_accounted].
  apply hoare_bind with (R := fun _ => accounted c s0).
  - apply hoare_effect; [intros w script []; by split | done].
  - intros _ w (s & Hf & Hr). unfold parse_file. rewrite Hf. by split.
Qed.
Lemma lives_accounted c s0 runs w : accounted c s0 w -> accounted c s0 (lives c runs w).
Proof.
  revert w. induction runs as [|answers runs IH]; intros w Hw; [done|]. apply IH.
  pose proof (run_daemon_accounted c s0 answers w Hw) as Hd.
  destruct (run_daemon c answers w) as [[s|e] w']; [by exists s | done].
Qed.
Lemma poll_loop_app c answers answers' s :
  forall w, poll_loop c (answers ++ answers') s w = (poll_loop c answers s ≫= poll_loop c answers') w.
Proof.
  revert s. induction answers as [|answer answers IH]; intros s w; [done|]. cbn [app poll_loop].
  unfold mbind, notify_bind. destruct (poll c answer s w) as [[s'|e] w']; [apply IH | done].
Qed.
Lemma poll_called c s0 tasks s w s' w' k : accounting c s0 s w -> poll c (Ok tasks) s w = (Ok s', w') ->
  called (lr_tasks tasks) k -> seen s' k = true.
Proof.
  intros (Hf & Hi & _). unfold poll, process_tasks. rewrite Hi. intros (s1 & w1 & E1 & E)%bind_run_Ok Hc.
  destruct (process_exact _ _ _ _ _ _ _ E1 Hf) as (_ & l & _ & _ & _ & _ & Hseen & Hi').
  rewrite Hi', Hi in E. injection E as <- <-. apply Hseen. right. by apply called_rev.
Qed.
(** [C15] No notice is lost.  However often sending fails and the daemon is killed
    and started again: once a poll has gone through, every notice its tasks call
    for has been sent, by this start or an earlier one, unless it was marked in the
    file at first.  This is of a file a first poll has already written
    ([initialized]; the first poll on a fresh file marks everything it finds and
    sends nothing, [first_poll_silent]) and of the kinds that are sent: abnormal
    ends always, completions when [notify_completed] is set. *)
Theorem no_notice_lost c s0 w runs answers tasks s' w' k :
  at_file s0 w -> initialized s0 = true ->
  run_daemon c (answers ++ [Ok tasks]) (lives c runs w) = (Ok s', w') ->
  called (lr_tasks tasks) k -> k.1 = Abnormal \/ notify_completed c = true ->
  seen s0 k = true \/ k ∈ map no_about (wd_sent w').
Proof.
  intros Hf Hi E Hc Hl%loud_spec.
  pose proof (lives_accounted c s0 runs w ltac:(exists s0; auto)) as Hw.
  pose proof (run_daemon_accounted c s0 (answers ++ [Ok tasks]) _ Hw) as Hd. rewrite E in Hd.
  apply bind_run_Ok in E as (s1 & w1 & E1 & E). rewrite poll_loop_app in E.
  apply bind_run_Ok in E as (s2 & w2 & E2 & (s3 & w3 & E3 & [= <- <-])%bind_run_Ok).
  assert (accounting c s0 s1 w1) as Ha1.
  { apply bind_run_Ok in E1 as (u & w0 & (script & ->)%effect_Ok & E1). destruct Hw as (s & Hs & Hr).
    unfold parse_file in E1. cbn in E1. rewrite Hs in E1. injection E1 as <- <-. by split. }
  pose proof (poll_loop_accounted c s0 answers s1 w1 Ha1) as Ha2. rewrite E2 in Ha2.
  pose proof (poll_called c s0 tasks s2 w2 s3 w3 k Ha2 E3 Hc) as Hs.
  destruct Hd as (_ & _ & Hk). destruct (Hk k Hs) as [|[|]]; [by left | by right | congruence].
Qed.

(** ** The first poll *)
(** Until the state is initialised nothing is sent. *)
Definition waiting (l : list Notice) s w : Prop := at_file s w /\ initialized s = false /\ wd_sent w = l.
Lemma announce_silent l c task k s :
  hoare (waiting l s) (announce c false task k s) (waiting l) (fun w => exists s', waiting l s' w).
Proof.
  apply hoare_bind with (R := fun _ => waiting l s); [by apply hoare_ret|]. intros _.
  apply hoare_bind with (R := fun _ => waiting l (mark k s)); [|intros _; by apply hoare_ret].
  apply hoare_effect; [|intros w Hw; by exists s]. intros w script happened (Hf & Hi & Hl).
  assert (waiting l (mark k s) (write_file (state_to_doc (mark k s)) (mkWorld script (wd_file w) (wd_sent w) (wd_faults w)))) as Hm.
  { split; [exact (state_doc_roundtrip _)|]. by rewrite initialized_mark. }
  split; [exact Hm|]. destruct happened; [exists (mark k s); exact Hm | by exists s].
Qed.
(** What the server lists when the notifier is first installed is history.
    From a state that is not initialised, the start's first poll sends nothing,
    however it ends; and if the file says afterwards that it is initialised, it has
    seen every notice the listed tasks call for, so that no later poll sends
    them. *)
Theorem first_poll_silent c answer s w : at_file s w -> initialized s = false ->
  let w' := (run_daemon c [answer] w).2 in
  wd_sent w' = wd_sent w
  /\ exists s1, at_file s1 w' /\ (initialized s1 = true ->
       exists tasks, answer = Ok tasks /\ forall k, called (lr_tasks tasks) k -> seen s1 k = true).
Proof.
  intros Hf Hi. cbn zeta.
  set (done_with := fun w' => wd_sent w' = wd_sent w /\ exists s1, at_file s1 w' /\ (initialized s1 = true ->
       exists tasks, answer = Ok tasks /\ forall k, called (lr_tasks tasks) k -> seen s1 k = true)).
  assert (forall s' w', waiting (wd_sent w) s' w' -> done_with w') as Hwait.
  { intros s' w' (Hf' & Hi' & Hs). split; [done|]. exists s'. split; [done|]. congruence. }
  enough (hoare (waiting (wd_sent w) s) (run_daemon c [answer]) (fun _ => done_with) done_with) as Hh.
  { specialize (Hh w ltac:(by repeat split)). by destruct (run_daemon c [answer] w) as [[]]. }
  apply hoare_bind with (R := fun s1 w1 => s1 = s /\ waiting (wd_sent w) s w1).
  { apply hoare_bind with (R := fun _ => waiting (wd_sent w) s).
    - apply hoare_effect; [intros w1 script [] Hw1; split; by first [exact Hw1 | apply (Hwait s)] |].
      intros w1 Hw1. by apply (Hwait s).
    - intros _ w1 Hw1. unfold parse_file. pose proof Hw1 as [-> _]. by split. }
  intros s1 w1 [-> Hw1]. cbn [poll_loop]. revert w1 Hw1.
  enough (hoare (waiting (wd_sent w) s) (poll c answer s) (fun _ => done_with) done_with) as Hh.
  { intros w1 Hw1. specialize (Hh w1 Hw1). unfold mbind, notify_bind. by destruct (poll c answer s w1) as [[] w2]. }
  destruct answer as [tasks|e]; [|intros w1 Hw1; by apply (Hwait s)].
  unfold poll, process_tasks. rewrite Hi.
  set (R := fun s2 w2 => waiting (wd_sent w) s2 w2 /\ forall k, called (lr_tasks tasks) k -> seen s2 k = true).
  apply hoare_bind with (R := R).
  - intros w1 Hw1. pose proof (hoare_process c false (waiting (wd_sent w)) (fun w2 => exists s', waiting (wd_sent w) s' w2)
      (rev (lr_tasks tasks)) s) as Hp.
    specialize (Hp ltac:(intros; apply announce_silent) w1 Hw1).
    destruct (process_list c false (rev (lr_tasks tasks)) s w1) as [[s2|e] w2] eqn:E; [|destruct Hp; by eapply Hwait].
    split; [exact Hp|]. intros k Hk. destruct Hw1 as [Hf1 _].
    destruct (process_exact _ _ _ _ _ _ _ E Hf1) as (_ & l & _ & _ & _ & _ & Hseen & _).
    apply Hseen. right. by apply called_rev.
  - intros s2. destruct (initialized s2) eqn:Hi2; [intros w2 [(_ & Hn & _) _]; congruence|].
    apply hoare_bind with (R := fun _ => done_with); [|intros _; by apply hoare_ret].
    apply hoare_effect; [|intros w2 [Hw2 _]; by apply (Hwait s2)].
    intros w2 script happened [Hw2 Hk]. cbn zeta.
    assert (done_with (write_file (state_to_doc (mkState true (completed_tasks s2) (abnormal_tasks s2)))
      (mkWorld script (wd_file w2) (wd_sent w2) (wd_faults w2)))) as Hd.
    { split; [apply Hw2|]. eexists. split; [exact (state_doc_roundtrip _)|]. intros _. exists tasks. split; [done|].
      intros k Hc. exact (Hk k Hc). }
    split; [exact Hd|]. destruct happened; [exact Hd | by apply (Hwait s2)].
Qed.
End proofs.

Module NotifierFixture.
Import TimeFixture.
#[local] Instance notifier : NotifierApi := {| rfc3339 t := Some (show_Z t); Doc := NotificationState |}.
#[local] Instance json : StateJson := {| state_to_doc s := s; state_of_doc s := Ok s |}.
#[local] Instance json_laws : StateJsonLaws.
Proof. constructor. reflexivity. Qed.
Definition config : Config :=
  mkConfig "http://127.0.0.1:18080" "reader" None "local" None None "/tmp/state.json" None None "ou_test".
Definition task (task_ref : string) (title : option string) (integrity : IntegrityState)
    (terminal : option TerminalOutcome) : TaskSnapshot :=
  mkTaskSnapshot task_ref (mkTaskIdentity "codex" "s" "t" "u") (mkCodexTaskMetadata "turn" None None) title 1
    TaskPhase_Running terminal integrity (Some "gpt-5") 1 [] [] UsageSummary_default 1 2 None None.
Definition finished := task "a" (Some "real title") IntegrityState_Complete (Some TerminalOutcome_Completed).
Definition broken := task "b" (Some "real title") IntegrityState_Degraded None.
Definition untitled := task "c" None IntegrityState_Lost None.
Definition listed (l : list TaskSnapshot) : result string TaskListResponse := Ok (mkTaskListResponse l None).
Definition broken_key : Key := (Abnormal, "b").
(** The first poll lists history; the daemon is killed before its notice of [broken]
    is marked and sends it again after a failed attempt. *)
Definition script : list Outcome :=
  [Done; Done; Done; Done; Killed false; Done; Fails false "offline"; Done; Done; Done].
Definition world : World :=
  lives config [[listed [finished]; listed [broken; finished]]; [listed [broken]]; [listed [untitled; broken; finished]]]
    (mkWorld script None [] 0).
Lemma notified_once_witness : map no_about (wd_sent world) = [broken_key; broken_key]
  /\ wd_faults world = 2%nat /\ (sent_count broken_key (wd_sent world) <= 3)%nat.
Proof.
  split; [vm_compute; reflexivity|]. split; [vm_compute; reflexivity|].
  pose proof (notified_once config
    [[listed [finished]; listed [broken; finished]]; [listed [broken]]; [listed [untitled; broken; finished]]]
    script broken_key) as E. cbn zeta in E. fold world in E.
  assert (wd_faults world = 2%nat) as Hf by (vm_compute; reflexivity). rewrite Hf in E.
  destruct (seen_in world broken_key); lia.
Defined.
Definition known : NotificationState := mkState true {["a"]} ∅.
Definition known_doc : Doc := known.
Definition start (script : list Outcome) : World := mkWorld script (Some known_doc) [] 0.
Definition after_poll := process_tasks config known [untitled; broken; finished; broken] true
  (start [Done; Done]).
Lemma notices_exact_witness : exists s' w', after_poll = (Ok s', w') /\ map no_about (wd_sent w') = [broken_key].
Proof.
  assert (match after_poll with (Ok _, w') => bool_decide (map no_about (wd_sent w') = [broken_key])
          | _ => false end = true) as Hok by (vm_compute; reflexivity).
  destruct after_poll as [[s'|] w'] eqn:E; [|discriminate Hok]. exists s', w'. split; [reflexivity|].
  destruct (notices_exact config [untitled; broken; finished; broken] known
    (start [Done; Done]) s' w' E eq_refl) as (_ & l & _ & _ & Hl & _).
  exact (bool_decide_eq_true_1 _ Hok).
Defined.
Definition retried := run_daemon config ([] ++ [listed [broken]])
  (lives config [[listed [broken]]] (start [Done; Fails false "offline"; Done; Done; Done])).
Lemma no_notice_lost_witness : exists s' w', retried = (Ok s', w') /\ broken_key ∈ map no_about (wd_sent w').
Proof.
  assert (match retried with (Ok _, _) => true | _ => false end = true) as Hok by (vm_compute; reflexivity).
  destruct retried as [[s'|] w'] eqn:E; [|discriminate Hok]. exists s', w'. split; [reflexivity|].
  destruct (no_notice_lost config known (start [Done; Fails false "offline"; Done; Done; Done])
    [[listed [broken]]] [] (mkTaskListResponse [broken] None) s' w' broken_key) as [Hs|Hs].
  - reflexivity.
  - reflexivity.
  - exact E.
  - exists broken. split; [apply list_elem_of_singleton; reflexivity | reflexivity].
  - left. reflexivity.
  - vm_compute in Hs. discriminate Hs.
  - exact Hs.
Defined.
Lemma first_poll_silent_witness :
  wd_sent (run_daemon config [listed [broken; finished]] (mkWorld [Done; Done; Done; Done] None [] 0)).2 = [].
Proof.
  destruct (first_poll_silent config (listed [broken; finished]) state_default
    (mkWorld [Done; Done; Done; Done] None [] 0) eq_refl eq_refl) as [E _].
  exact E.
Defined.
End NotifierFixture.
