(* ===== verification/Router.v ===== *)
(** * The server's process and its routes

    The rest of [src/crates/server/src/lib.rs]: where the configuration is found,
    the commands of the command line, what starting the server does, and
    [build_router], the table from methods and paths to the handlers of
    [Server.v] and [ServerContent.v].  The theorems here join three programs: every
    request that the client's transport and the notifier build is one the router
    gives to the handler meant for it. *)
From Stdlib Require Import ZArith Lia Strings.Byte Strings.String.
From S2P Require Import Model Mapping Config Service.
From S2P Require Import Prelude RustStr Digest Types Fixtures Codec Table Sql Db Server ServerContent ServerSteps Notifier.
Local Open Scope string_scope.
Local Open Scope list_scope.
Local Open Scope Z_scope.

(** ** Configuration *)
(* src: src/crates/server/src/lib.rs:49-49 SERVER_CONFIG_FILE *)
Definition SERVER_CONFIG_FILE : string := "server.toml".
(* src: src/crates/server/src/lib.rs:53-57 ServerConfig *)
Record ServerConfig : Type := mkServerConfig {
  sc_listen : string;
  sc_database_path : string }.
(* src: src/crates/server/src/lib.rs:121-123 usable_config_root *)
Definition usable_server_root (path : option string) : option string :=
  match path with
  | Some p => if negb (str_is_empty p) && negb (is_root_path p) then Some p else None
  | None => None
  end.
(* src: src/crates/server/src/lib.rs:94-119 resolve_server_config_path *)
Definition resolve_server_config_path (effective_root : bool) (sudo_home xdg_config_home home : option string)
    : string :=
  match sudo_home with
  | Some home => path_join (path_join (path_join home ".config") "codexwatch") SERVER_CONFIG_FILE
  | None =>
    if effective_root then "/etc/codexwatch/server.toml"
    else match usable_server_root xdg_config_home with
    | Some config_home => path_join (path_join config_home "codexwatch") SERVER_CONFIG_FILE
    | None =>
      match usable_server_root home with
      | Some home => path_join (path_join (path_join home ".config") "codexwatch") SERVER_CONFIG_FILE
      | None => "/etc/codexwatch/server.toml"
      end
    end
  end.
(** The environment of the process; [en_user] is [User::from_name]. *)
Record Environment : Type := mkEnvironment {
  en_root : bool;
  en_sudo_user : option string;
  en_user : string -> result string (option string);
  en_xdg_config_home : option string;
  en_home : option string;
  en_read : string -> result string string;
  en_parse : string -> result string ServerConfig }.
(* src: src/crates/server/src/lib.rs:80-92 sudo_user_home *)
Definition server_sudo_home (env : Environment) : result string (option string) :=
  match en_sudo_user env with
  | None => Ok None
  | Some name =>
    if str_is_empty name || String.eqb name "root" then Ok None
    else
      user ← en_user env name;
      dir ← ok_or ("sudo user " +:+ name +:+ " does not exist") user;
      mret (Some dir)
  end.
(* src: src/crates/server/src/lib.rs:68-78 default_server_config_path *)
Definition default_server_config_path (env : Environment) : result string string :=
  sudo_home ← server_sudo_home env;
  mret (resolve_server_config_path (en_root env) sudo_home (en_xdg_config_home env) (en_home env)).
(* src: src/crates/server/src/lib.rs:60-65 ServerConfig::load *)
Definition server_config_load (env : Environment) : result string ServerConfig :=
  path ← default_server_config_path env;
  source ← en_read env path;
  en_parse env source.
(* src: src/crates/server/src/lib.rs:125-127 configured_database_path *)
Definition configured_database_path (env : Environment) (explicit : option string) : result string string :=
  match explicit with
  | Some path => Ok path
  | None => sc_database_path <$> server_config_load env
  end.
Section process.
Context `{UuidApi} `{DigestApi} `{CborApi} `{ZstdApi}.
(** What [serve] listens on and opens; the configuration is read only when one of
    the two is not given. *)
(* src: src/crates/server/src/lib.rs:371-379 serve: arguments *)
Definition serve_arguments (env : Environment) (listen db : option string) : result string (string * string) :=
  match listen, db with
  | Some listen, Some database_path => Ok (listen, database_path)
  | listen, database_path =>
    config ← server_config_load env;
    mret (unwrap_or (sc_listen config) listen, unwrap_or (sc_database_path config) database_path)
  end.
(* src: src/crates/server/src/lib.rs:137-251 Command: with the arguments *)
Inductive Command : Type :=
| Command_Serve (listen db : option string)
| Command_IssueToken (db : option string) (client_id token : string) (role : option TokenRoleArg) (admin : bool)
| Command_RevokeToken (db : option string) (token : string)
| Command_Tasks (db client_id provider session_id : option string) (limit : option Z)
| Command_Session (db : option string) (client_id session_id : string) (provider thread_id : option string)
| Command_Task (db : option string) (task_ref : string)
| Command_Attempts (db : option string) (task_ref : string)
| Command_Events (db : option string) (task_ref : string)
| Command_Errors (db : option string) (task_ref : string)
| Command_CaptureHealth (db : option string) (client_id : string)
| Command_RequestContent (db : option string) (task_ref : string) (parts : list string) (expires_at_ms : option Z)
| Command_Cleanup (db : option string) (now_ms : option Z).
(** The clock and the identifiers of one command. *)
Record Fresh : Type := mkFresh {
  fr_now : Z;
  fr_next : Z;
  fr_request_id : Uuid;
  fr_command_id : Uuid }.
(** The database a command opens and what it runs there; for [serve], what it runs
    before it listens (the task it spawns runs the same every six hours). *)
(* src: src/crates/server/src/lib.rs:346-391 run, serve *)
Definition run (env : Environment) (fr : Fresh) (command : option Command) : result string (string * Reads unit) :=
  let on db (m : Reads unit) := (fun path => (path, m)) <$> configured_database_path env db in
  match unwrap_or (Command_Serve None None) command with
  | Command_Serve listen db =>
    arguments ← serve_arguments env listen db;
    mret (arguments.2, statement (cleanup_retention (fr_now fr)))
  | Command_IssueToken db client_id token role admin =>
    on db (statement (issue_token client_id token role admin (fr_now fr) (fr_next fr)))
  | Command_RevokeToken db token => on db (statement (revoke_token token (fr_now fr)))
  | Command_Tasks db client_id provider session_id limit =>
    on db (statement (discard (list_tasks_cli client_id provider session_id limit)))
  | Command_Session db client_id session_id provider thread_id =>
    on db (statement (discard (session_cli client_id session_id provider thread_id)))
  | Command_Task db task_ref => on db (_ ← task_cli task_ref; mret tt)
  | Command_Attempts db task_ref => on db (_ ← attempts_cli task_ref; mret tt)
  | Command_Events db task_ref => on db (_ ← events_cli task_ref; mret tt)
  | Command_Errors db task_ref => on db (_ ← errors_cli task_ref; mret tt)
  | Command_CaptureHealth db client_id => on db (statement (discard (capture_health_cli client_id)))
  | Command_RequestContent db task_ref parts expires_at_ms =>
    path ← configured_database_path env db;
    tx ← ok_or "unsupported content part"
           (request_content_cli (fr_now fr) (fr_request_id fr) (fr_command_id fr) task_ref parts expires_at_ms);
    mret (path, statement (discard tx))
  | Command_Cleanup db now_ms => on db (statement (cleanup_cli now_ms (fr_now fr)))
  end.
End process.

(** ** Routes *)
Inductive Segment : Type :=
| Lit (s : string)
| Param (name : string).
Inductive Endpoint : Type :=
| healthz | ingest_ | next_command | upload_manifests_ | upload_chunk_ | upload_result_ | list_tasks_
| task_detail_ | task_attempts_ | task_events_ | task_errors_ | session_detail_ | create_content_request_
| capture_health_.
#[export] Instance Segment_eq_dec : EqDecision Segment.
Proof. solve_decision. Defined.
#[export] Instance Method_eq_dec : EqDecision Method.
Proof. solve_decision. Defined.
Definition client_command (last : list string) : list Segment :=
  map Lit ["api"; "v1"; "client"; "commands"] ++ [Param "command_id"] ++ map Lit last.
Definition below_task (last : list string) : list Segment :=
  map Lit ["api"; "v1"; "tasks"] ++ [Param "task_ref"] ++ map Lit last.
(* src: src/crates/server/src/lib.rs:393-425 build_router *)
Definition build_router : list (list Segment * Method * Endpoint) :=
  [(map Lit ["healthz"], GET, healthz);
   (map Lit ["api"; "v1"; "ingest"], POST, ingest_);
   (map Lit ["api"; "v1"; "client"; "commands"; "next"], GET, next_command);
   (client_command ["content"; "manifests"], POST, upload_manifests_);
   (client_command ["content"; "chunks"], POST, upload_chunk_);
   (client_command ["result"], POST, upload_result_);
   (map Lit ["api"; "v1"; "tasks"], GET, list_tasks_);
   (below_task [], GET, task_detail_);
   (below_task ["attempts"], GET, task_attempts_);
   (below_task ["events"], GET, task_events_);
   (below_task ["errors"], GET, task_errors_);
   (map Lit ["api"; "v1"; "sessions"] ++ [Param "client_id"; Param "session_id"], GET, session_detail_);
   (below_task ["content-requests"], POST, create_content_request_);
   (map Lit ["api"; "v1"; "capture-health"] ++ [Param "client_id"], GET, capture_health_)].

(** The [axum] crate: the decoded segments of a path, and what a pattern captures
    of them.  Documented: a literal matches itself, a parameter any segment that is
    not empty. *)
Class AxumApi := {
  path_segments : string -> list string;
  path_params : list Segment -> list string -> option (list string) }.
Fixpoint capture (pattern : list Segment) (segments : list string) : option (list string) :=
  match pattern, segments with
  | [], [] => Some []
  | Lit s :: pattern, t :: segments => if String.eqb t s then capture pattern segments else None
  | Param _ :: pattern, t :: segments => if str_is_empty t then None else cons t <$> capture pattern segments
  | _, _ => None
  end.
Definition render (segments : list string) : string :=
  foldr (fun s rest => "/" +:+ s +:+ rest) "" segments.
(** A segment that stands for itself in a path. *)
Definition plain (s : string) : Prop :=
  s <> "" /\ forall b, b ∈ as_bytes s -> b <> x2f /\ b <> x25 /\ b <> x3f /\ b <> x23.
Class AxumLaws `{AxumApi} := {
  path_segments_render l : Forall plain l -> path_segments (render l) = l;
  path_params_capture pattern segments : path_params pattern segments = capture pattern segments }.
(** 404 for a path no pattern matches, 405 for another method. *)
Definition route `{AxumApi} (m : Method) (segments : list string) : result Z (Endpoint * list string) :=
  match List.find (fun r => is_some (path_params r.1.1 segments)) build_router with
  | None => Err 404
  | Some (pattern, method, endpoint) =>
    if decide (method = m) then Ok (endpoint, unwrap_or [] (path_params pattern segments)) else Err 405
  end.

Section routed.
Context `{AxumLaws}.
Lemma route_capture m segments : route m segments =
  match List.find (fun r => is_some (capture r.1.1 segments)) build_router with
  | None => Err 404
  | Some (pattern, method, endpoint) =>
    if decide (method = m) then Ok (endpoint, unwrap_or [] (capture pattern segments)) else Err 405
  end.
Proof.
  unfold route. replace (List.find (fun r => is_some (path_params r.1.1 segments)) build_router)
    with (List.find (fun r => is_some (capture r.1.1 segments)) build_router).
  - destruct (List.find _ _) as [[[pattern method] endpoint]|]; [|done]. by rewrite path_params_capture.
  - induction build_router as [|r l IH]; cbn [List.find]; [done|]. by rewrite path_params_capture, IH.
Qed.
End routed.

#[local] Arguments str_is_empty : simpl never.

(** ** The client's requests *)
Section client.
Context `{AxumLaws} `{UuidApi} `{DigestApi} `{CborApi} `{ZstdApi} `{TimeApi} `{ReqwestApi}.
(** The request is for the path of these segments below the base URL, with any
    query. *)
Definition client_target (api : Service.ServerApi) (r : HttpRequest) (segments : list string) : Prop :=
  exists query, hq_url r = sv_base_url api +:+ render segments +:+ query /\ (query = "" \/ exists q, query = "?" +:+ q).
Definition method_name (m : Method) : string :=
  match m with GET => "GET" | POST => "POST" end.
(** The router gives the request to [endpoint] with these parameters. *)
Definition reaches (api : Service.ServerApi) (r : HttpRequest) (endpoint : Endpoint) (params : list string) : Prop :=
  exists m segments, hq_method r = method_name m /\ client_target api r segments
    /\ route m (path_segments (render segments)) = Ok (endpoint, params).
Lemma reaches_intro api r m segments endpoint params query :
  hq_method r = method_name m -> Forall plain segments ->
  hq_url r = sv_base_url api +:+ render segments +:+ query -> query = "" \/ (exists q, query = "?" +:+ q) ->
  route m segments = Ok (endpoint, params) -> reaches api r endpoint params.
Proof.
  intros Hm Hp Hu Hq Hr. exists m, segments. split; [done|]. split; [by exists query|].
  by rewrite path_segments_render.
Qed.
Lemma append_empty (s : string) : s +:+ "" = s.
Proof. induction s as [|c s IH]; [done | exact (f_equal (String c) IH)]. Qed.
Lemma plain_nonempty s : plain s -> str_is_empty s = false.
Proof. by intros [Hs _]; destruct s. Qed.
Definition plainb (s : string) : bool :=
  negb (str_is_empty s) && forallb (fun b => bool_decide (b <> x2f /\ b <> x25 /\ b <> x3f /\ b <> x23)) (as_bytes s).
Lemma plainb_plain s : plainb s = true -> plain s.
Proof.
  unfold plainb. intros [Hs Hb]%andb_true_iff. split; [by intros ->|].
  intros b Hin%list_elem_of_In. rewrite forallb_forall in Hb.
  exact (bool_decide_eq_true_1 _ (Hb b Hin)).
Qed.
(** The path of a request below a command. *)
Lemma command_reaches api id suffix last endpoint body : plain (uuid_to_string id) ->
  suffix = render last -> forallb plainb last = true ->
  route POST (["api"; "v1"; "client"; "commands"; uuid_to_string id] ++ last) = Ok (endpoint, [uuid_to_string id]) ->
  reaches api (Service.command_request api id suffix body) endpoint [uuid_to_string id].
Proof.
  intros Hid -> Hl Hr. apply (reaches_intro _ _ POST (["api"; "v1"; "client"; "commands"; uuid_to_string id] ++ last)
    _ _ ""); [done | | | by left | done].
  - apply Forall_app. split; [|apply Forall_forall; intros s Hs%list_elem_of_In; rewrite forallb_forall in Hl;
      by apply plainb_plain, Hl].
    repeat (apply Forall_cons; split; [first [exact Hid | by apply plainb_plain]|]). constructor.
  - cbn [Service.command_request hq_url]. unfold render. rewrite foldr_app. fold (render last).
    cbn [foldr]. by rewrite append_empty.
Qed.
Lemma plain_literals l : forallb plainb l = true -> Forall plain l.
Proof. intros Hl. rewrite forallb_forall in Hl. apply Forall_forall. intros s Hs%list_elem_of_In. by apply plainb_plain, Hl. Qed.
(** [C33] The client's transport and the server's router agree: each of its five
    calls is a request that the router gives to the handler written for it, with
    the identifier of the command where the path has one. *)
Theorem client_requests_routed api id manifests chunk r sha body wait_seconds : plain (uuid_to_string id) ->
  reaches api (ingest_request api sha body) ingest_ []
  /\ reaches api (poll_request api wait_seconds) next_command []
  /\ reaches api (Service.command_request api id "/content/manifests" (json_of_manifests manifests))
       upload_manifests_ [uuid_to_string id]
  /\ reaches api (Service.command_request api id "/content/chunks" (json_of_chunk chunk)) upload_chunk_ [uuid_to_string id]
  /\ reaches api (Service.command_request api id "/result" (json_of_result r)) upload_result_ [uuid_to_string id].
Proof.
  intros Hid. pose proof (plain_nonempty _ Hid) as Hne.
  assert (forall last endpoint, List.find (fun r => is_some (capture r.1.1 (["api"; "v1"; "client"; "commands"; uuid_to_string id] ++ last)))
      build_router = Some (client_command last, POST, endpoint) ->
    capture (client_command last) (["api"; "v1"; "client"; "commands"; uuid_to_string id] ++ last) = Some [uuid_to_string id] ->
    route POST (["api"; "v1"; "client"; "commands"; uuid_to_string id] ++ last) = Ok (endpoint, [uuid_to_string id])) as Hroute.
  { intros last endpoint Hf Hc. rewrite route_capture, Hf, Hc. done. }
  split; [|split; [|split; [|split]]].
  - apply (reaches_intro _ _ POST ["api"; "v1"; "ingest"] _ _ ""); [done | by apply plain_literals | | by left |].
    + by rewrite append_empty.
    + by rewrite route_capture.
  - apply (reaches_intro _ _ GET ["api"; "v1"; "client"; "commands"; "next"] _ _ ("?wait=" +:+ show_Z wait_seconds));
      [done | by apply plain_literals | done | right; by eexists | by rewrite route_capture].
  - apply (command_reaches api id _ ["content"; "manifests"]); [done..|]. apply Hroute; cbn; rewrite ?Hne; cbn; try (by destruct (String.eqb _ _)); done.
  - apply (command_reaches api id _ ["content"; "chunks"]); [done..|]. apply Hroute; cbn; rewrite ?Hne; cbn; try (by destruct (String.eqb _ _)); done.
  - apply (command_reaches api id _ ["result"]); [done..|]. apply Hroute; cbn; rewrite ?Hne; cbn; try (by destruct (String.eqb _ _)); done.
Qed.
End client.

(** ** The notifier's requests *)
(** What the [url] crate keeps of a URL: the decoded segments of its path. *)
Class UrlLaws `{UrlApi} := {
  url_segments : Url -> list string;
  clear_and_push_segments u parts u' : clear_and_push u parts = Some u' -> url_segments u' = parts;
  append_pair_segments u k v : url_segments (append_pair u k v) = url_segments u }.
Section notifier.
Context `{AxumLaws} `{UrlLaws}.
(** The handler a command of the command line is for, and what it is told. *)
Definition expected (client_id : string) (command : option CliCommand) : option (Endpoint * list string) :=
  match unwrap_or CliCommand_Daemon command with
  | CliCommand_Daemon | CliCommand_Tasks _ _ => Some (list_tasks_, [])
  | CliCommand_Test => None
  | CliCommand_Task task_ref => Some (task_detail_, [task_ref])
  | CliCommand_Session session_id _ => Some (session_detail_, [client_id; session_id])
  | CliCommand_Attempts task_ref => Some (task_attempts_, [task_ref])
  | CliCommand_Events task_ref => Some (task_events_, [task_ref])
  | CliCommand_Errors task_ref => Some (task_errors_, [task_ref])
  | CliCommand_CaptureHealth => Some (capture_health_, [client_id])
  | CliCommand_RequestContent task_ref _ => Some (create_content_request_, [task_ref])
  end.
(** The command names what it asks about. *)
Definition named (command : option CliCommand) : bool :=
  match unwrap_or CliCommand_Daemon command with
  | CliCommand_Task s | CliCommand_Session s _ | CliCommand_Attempts s | CliCommand_Events s | CliCommand_Errors s
  | CliCommand_RequestContent s _ => negb (str_is_empty s)
  | _ => true
  end.
(** The notifier and the server's router agree: whatever the command line asks
    for, the request made is given to the handler meant for it, with the task, the
    session or the client asked about, provided these are not empty. *)
Theorem notifier_requests_routed api command request :
  command_request api command = Ok (Some request) -> named command = true -> str_is_empty (na_client_id api) = false ->
  exists endpoint params, expected (na_client_id api) command = Some (endpoint, params)
    /\ route (rq_method request) (url_segments (rq_url request)) = Ok (endpoint, params).
Proof.
  assert (forall parts u, Notifier.url api parts = Ok u -> url_segments u = parts) as Hurl.
  { intros parts u Hu%ok_or_Ok. by eapply clear_and_push_segments. }
  unfold command_request, named, expected, tasks_request, task_request, session_request, capture_health_request,
    request_content_request, get_request.
  destruct command as [[]|]; cbn [unwrap_or]; try discriminate;
    destruct (na_admin_token api); cbn; try discriminate;
    (match goal with |- context [Notifier.url api ?parts] =>
       destruct (Notifier.url api parts) as [u|e] eqn:Eu; [apply Hurl in Eu | discriminate] end);
    cbn; intros [= <-] Hn Hc; cbn [rq_method rq_url]; repeat case_match;
    rewrite ?append_pair_segments, Eu, route_capture; simpl_bools; do 2 eexists; (split; [reflexivity|]);
    do 2 (cbn; rewrite ?Hn, ?Hc); reflexivity.
Qed.
End notifier.

Module RouterFixture.
Import TimeFixture CodecFixture.
(** Paths are cut at the slashes, and patterns match as documented. *)
#[local] Instance axum : AxumApi := {|
  path_segments p := map of_bytes (tl (Http1.split_on x2f [] (as_bytes p)));
  path_params := capture |}.
Lemma split_segment s acc rest : (forall b, b ∈ s -> b <> x2f) ->
  Http1.split_on x2f acc (s ++ rest)
  = match rest with
    | [] => [rev acc ++ s]
    | b :: rest' => if Byte.eqb b x2f then (rev acc ++ s) :: Http1.split_on x2f [] rest'
                    else Http1.split_on x2f (rev s ++ acc) rest
    end.
Proof.
  revert acc. induction s as [|b s IH]; intros acc Hs; cbn [app].
  { rewrite app_nil_r. destruct rest as [|b rest]; [reflexivity|]. cbn [Http1.split_on rev app]. by destruct (Byte.eqb b x2f). }
  cbn [Http1.split_on]. destruct (byte_eqb_spec b x2f) as [Eb|_].
  { destruct (Hs b); [set_solver | exact Eb]. }
  rewrite IH by set_solver. cbn [rev]. rewrite <- !app_assoc. destruct rest; [reflexivity|].
  by destruct (Byte.eqb _ _).
Qed.
#[local] Instance axum_laws : AxumLaws.
Proof.
  split; [|reflexivity]. intros l Hl. cbn [path_segments axum].
  enough (tl (Http1.split_on x2f [] (as_bytes (render l))) = map as_bytes l) as ->.
  { rewrite map_map. clear. induction l as [|s l IH]; [reflexivity|]. cbn. by rewrite of_as_bytes, IH. }
  induction Hl as [|s l [_ Hs] _ IH]; [reflexivity|]. unfold render in *. cbn [foldr].
  rewrite !as_bytes_app. change (as_bytes "/") with [x2f]. cbn [app Http1.split_on Byte.eqb tl map].
  rewrite split_segment by (intros b Hb; by destruct (Hs b Hb)).
  destruct l as [|t l]; [reflexivity|]. cbn [foldr] in *. rewrite as_bytes_app in *. change (as_bytes "/") with [x2f] in *.
  cbn [app Byte.eqb]. cbn in IH. cbn. by rewrite <- IH.
Qed.
#[local] Instance url_api : UrlApi := {|
  Url := list string * list (string * string);
  url_parse _ := Ok ([], []);
  without_query u := (u.1, []);
  clear_and_push u parts := Some (parts, u.2);
  append_pair u k v := (u.1, u.2 ++ [(k, v)]) |}.
#[local] Instance url_laws : UrlLaws.
Proof.
  apply (Build_UrlLaws url_api fst).
  - intros u parts u' [= <-]. reflexivity.
  - reflexivity.
Defined.
#[local] Instance reqwest : ReqwestApi := {|
  reqwest_error := Z; error_text := show_Z; status_error z := z;
  json_of_manifests _ := []; json_of_chunk _ := []; json_of_result _ := [];
  ack_of_json _ := Err 0; poll_of_json _ := Err 0 |}.
Definition server_api : Service.ServerApi := Service.ServerApi_new "https://watch.example/" "secret".
Lemma client_requests_routed_witness :
  hq_url (Service.command_request server_api (5%N : Uuid) "/result" []) = "https://watch.example/api/v1/client/commands/5/result"
  /\ reaches server_api (Service.command_request server_api (5%N : Uuid) "/result" []) upload_result_ ["5"].
Proof.
  split; [vm_compute; reflexivity|].
  assert (plain (uuid_to_string (5%N : Uuid))) as Hp by (apply plainb_plain; vm_compute; reflexivity).
  destruct (client_requests_routed server_api (5%N : Uuid) [] (mkContentUploadChunk 0%N 0 1 "" "" [] true)
    (mkContentUploadResult 0%N ContentUploadStatus_Stored None) "sha" [] 25 Hp) as (_ & _ & _ & _ & Hr).
  exact Hr.
Defined.
Definition notifier_api : Notifier.ServerApi := mkApi ([], []) "reader" (Some "admin") "local".
Lemma notifier_requests_routed_witness : exists request,
  command_request notifier_api (Some (CliCommand_RequestContent "s:t:u" ["request"])) = Ok (Some request)
  /\ route (rq_method request) (url_segments (rq_url request)) = Ok (create_content_request_, ["s:t:u"]).
Proof.
  eexists. split; [reflexivity|].
  destruct (notifier_requests_routed notifier_api (Some (CliCommand_RequestContent "s:t:u" ["request"])) _
    eq_refl eq_refl eq_refl) as (endpoint & params & [= <- <-] & Hr).
  exact Hr.
Defined.
End RouterFixture.
