(* ===== verification/Daemon.v ===== *)
(** * The daemon of the client

    [run_daemon_with_components] of [src/crates/client/src/service.rs]: the tasks
    the daemon spawns and what they share, the store, the channel of 512 inputs,
    the index of processes and the health of the capture.  A [Move] is a turn of
    one task with the answers it gets from the machine, the network and the
    clock; [move] is its effect.  A task that waits for room in the channel holds
    its inputs.  Inside an ingested input the other tasks may use the store
    between any two accesses (the [World] of the lane); a round of another loop
    is one move. *)
From Stdlib Require Import ZArith Lia Strings.Byte Strings.String.
From S2P Require Import Profile Abi Probes Loader.
From S2P Require Import Tcp H2 WebSocket Discovery EbpfLane.
From S2P Require Import Prelude RustStr Digest Types Fixtures Codec Json Http1 Sse Responses Table Sql Model Mapping.
From S2P Require Import Blob Store StoreSteps Service Ip Attribution Config Lane LaneFlow LaneSteps LaneFixture.
Local Open Scope string_scope.
Local Open Scope list_scope.
Local Open Scope Z_scope.

Section daemon.
Context `{UuidApi} `{DigestApi} `{CborApi} `{ZstdApi} `{TimeApi}
  `{HttparseApi} `{HttpApi} `{!UriApi} `{DecompressApi} `{JsonApi} `{!JsonViewApi} `{H2.HpackApi}
  `{ReqwestApi} `{EtherparseApi}.

(** ** The rounds of the loops *)
(** A round answers whether the delay of its loop starts over. *)
Definition round_of (r : result ClientError unit * ClientStore) : bool * ClientStore := (is_ok r.1, r.2).
(* src: src/crates/client/src/service.rs:339-358 run_daemon_with_components: flush loop *)
Definition flush_round (api : ServerApi) (net : Network) (ck : Clock) (s : ClientStore) : bool * ClientStore :=
  round_of (flush_outbox_once api net ck s).
(** The delay of the command loop is for the poll alone. *)
(* src: src/crates/client/src/service.rs:360-380 run_daemon_with_components: command loop *)
Definition command_round (api : ServerApi) (net : Network) (wait_seconds : Z) (now : nat -> Z) (ck : Clock)
    (s : ClientStore) : bool * ClientStore :=
  let '(polled, s) := poll_command_once api net wait_seconds now s in
  if is_ok polled then (true, (execute_due_command_once api net ck s).2) else (false, s).
(* src: src/crates/client/src/service.rs:382-401 run_daemon_with_components: cleanup loop *)
Definition cleanup_round (now : OffsetDateTime) (s : ClientStore) : bool * ClientStore :=
  round_of (cleanup_once now s).
(* src: src/crates/client/src/service.rs:403-426 run_daemon_with_components: heartbeat loop *)
Definition heartbeat_round (config : ClientConfig) (health : RuntimeCaptureHealth) (sp : Supply)
    (now : OffsetDateTime) (s : ClientStore) : bool * ClientStore :=
  round_of (emit_heartbeat_once sp (snapshot health) (cf_client_instance_id config)
              (cf_client_version config) now s).
Inductive Loop : Type := FlushLoop | CommandLoop | CleanupLoop | HeartbeatLoop.
#[global] Instance Loop_eq_dec : EqDecision Loop.
Proof. solve_decision. Defined.

(** ** The state *)
Inductive DaemonError : Type :=
| DaemonError_Source (e : SourceError)
| DaemonError_Lane (e : LaneError)
| DaemonError_Store (e : StoreError).
Definition CHANNEL_CAPACITY : nat := Z.to_nat 512.
(** The channel; what went in and what the ingest loop took out, for the theorems. *)
Record Channel : Type := mkChannel {
  ch_queue : list CaptureInput;
  ch_sent : list CaptureInput;
  ch_taken : list CaptureInput }.
(** The tasks that send, with what they have not sent yet. *)
Record Sources : Type := mkSources {
  sr_capture : option PassiveTapSource;
  sr_captured : list CaptureInput;
  sr_discovery : option ProcfsProcessDiscovery;
  sr_scanned : list CaptureInput;
  sr_ebpf_backoff : Z;
  sr_observed : list CaptureInput }.
Record Daemon : Type := mkDaemon {
  dm_tick : nat;
  dm_lane : LiveCaptureLane;
  dm_channel : Channel;
  dm_sources : Sources;
  dm_health : RuntimeCaptureHealth;
  dm_backoff : Loop -> Z;
  dm_ended : option DaemonError }.
Definition dm_store (d : Daemon) : ClientStore := ln_store (dm_lane d).
Definition dm_config (d : Daemon) : ClientConfig := ln_config (dm_lane d).
(** The discovery keeps the index for all; without it the index stays empty. *)
Definition dm_index (d : Daemon) : SharedProcessIndex :=
  match sr_discovery (dm_sources d) with
  | Some discovery => pd_shared_index discovery
  | None => mkSharedIndex ∅
  end.

(** The tasks [run_daemon] starts, on an opened store. *)
(* src: src/crates/client/src/service.rs:215-247 ClientService::run_daemon *)
Definition daemon_start (config : ClientConfig) (store : ClientStore) (read : string -> result IoError bytes)
    : result ConfigError Daemon :=
  _ ← validate_ebpf_config config;
  let capture := match cf_capture_interface_index config with
                 | Some _ => Some (Discovery.open (cf_capture_remote_ports config))
                 | None => None
                 end in
  let health := set_af_packet_active (is_some (cf_capture_interface_index config)) health_default in
  let discovery :=
    if capture_enabled config || is_some (cf_capture_codex_pid config)
    then Some (ProcfsProcessDiscovery_new config (mkSharedIndex ∅) read) else None in
  mret (mkDaemon 0 (LiveCaptureLane_new config store) (mkChannel [] [] [])
          (mkSources capture [] discovery [] 1000 []) health (fun _ => 1) None).
(** The titles known at the start, before any task runs. *)
(* src: src/crates/client/src/service.rs:280-284 run_daemon_with_components: titles *)
Fixpoint sync_titles (sp : nat -> Supply) (i : nat) (titles : list (string * string)) (s : ClientStore)
    : result StoreError unit * ClientStore :=
  match titles with
  | [] => (Ok tt, s)
  | (session_id, title) :: titles' =>
    match sync_conversation_title (sp i) session_id title s with
    | (Ok _, s) => sync_titles sp (S i) titles' s
    | (Err e, s) => (Err e, s)
    end
  end.

(** ** The command line *)
(* src: src/crates/client/src/service.rs:444-457 CliCommand *)
Inductive CliCommand : Type :=
| CliCommand_Daemon (once : bool)
| CliCommand_FixtureIngest (input : option string) (flush : bool)
| CliCommand_Health
| CliCommand_Cleanup.
(** The clocks and identifiers of one command. *)
Record Readings : Type := mkReadings {
  rd_supply : Supply;
  rd_flush : Clock;
  rd_command : Clock;
  rd_save : nat -> Z;
  rd_now : OffsetDateTime }.
(** What a command that ends does to the store; [fixture] is what [read_fixture]
    gives, and the daemon without [once] is [move] below. *)
(* src: src/crates/client/src/service.rs:459-490 run_cli *)
Definition run_cli (api : ServerApi) (net : Network) (config : ClientConfig) (rd : Readings)
    (fixture : option string -> result ClientError FixtureBundle) (command : option CliCommand) (s : ClientStore)
    : result ClientError unit * ClientStore :=
  match unwrap_or (CliCommand_Daemon false) command with
  | CliCommand_Daemon true =>
    run_once api net (cf_poll_wait_seconds config) (rd_flush rd) (rd_command rd) (rd_save rd) (rd_now rd) s
  | CliCommand_Daemon false | CliCommand_Health => (Ok tt, s)
  | CliCommand_FixtureIngest input flush =>
    match fixture input with
    | Err e => (Err e, s)
    | Ok bundle =>
      and_then (ingest_fixture (rd_supply rd) bundle s) (fun _ s =>
      if flush : bool then flush_outbox_once api net (rd_flush rd) s else (Ok tt, s))
    end
  | CliCommand_Cleanup => cleanup_once (rd_now rd) s
  end.

(** ** The moves *)
Definition with_sources (f : Sources -> Sources) (d : Daemon) : Daemon :=
  mkDaemon (dm_tick d) (dm_lane d) (dm_channel d) (f (dm_sources d)) (dm_health d) (dm_backoff d) (dm_ended d).
Definition with_store (s : ClientStore) (d : Daemon) : Daemon :=
  mkDaemon (dm_tick d) (set_store s (dm_lane d)) (dm_channel d) (dm_sources d) (dm_health d) (dm_backoff d)
    (dm_ended d).
Definition with_health (h : RuntimeCaptureHealth) (d : Daemon) : Daemon :=
  mkDaemon (dm_tick d) (dm_lane d) (dm_channel d) (dm_sources d) h (dm_backoff d) (dm_ended d).
(** An error that a task returns ends the daemon and every other task. *)
(* src: src/crates/client/src/service.rs:428-431 run_daemon_with_components: join *)
Definition ended (e : DaemonError) (d : Daemon) : Daemon :=
  mkDaemon (dm_tick d) (dm_lane d) (dm_channel d) (dm_sources d) (dm_health d) (dm_backoff d) (Some e).
Definition after_round (l : Loop) (r : bool * ClientStore) (d : Daemon) : Daemon :=
  let next := if r.1 then 1 else Z.min (dm_backoff d l * 2) 30 in
  mkDaemon (dm_tick d) (set_store r.2 (dm_lane d)) (dm_channel d) (dm_sources d) (dm_health d)
    (fun l' => if decide (l' = l) then next else dm_backoff d l') (dm_ended d).
Definition set_captured (capture : option PassiveTapSource) (captured : list CaptureInput) (s : Sources) : Sources :=
  mkSources capture captured (sr_discovery s) (sr_scanned s) (sr_ebpf_backoff s) (sr_observed s).
Definition set_scanned (discovery : option ProcfsProcessDiscovery) (scanned : list CaptureInput) (s : Sources) : Sources :=
  mkSources (sr_capture s) (sr_captured s) discovery scanned (sr_ebpf_backoff s) (sr_observed s).
Definition set_observed (backoff : Z) (observed : list CaptureInput) (s : Sources) : Sources :=
  mkSources (sr_capture s) (sr_captured s) (sr_discovery s) (sr_scanned s) backoff observed.
(** [tx.send] of the first of what a task holds, when there is room. *)
Definition send_from (held : list CaptureInput) (rest : list CaptureInput -> Sources -> Sources) (d : Daemon)
    : option Daemon :=
  match held with
  | [] => None
  | input :: held' =>
    if Nat.ltb (length (ch_queue (dm_channel d))) CHANNEL_CAPACITY
    then Some (mkDaemon (dm_tick d) (dm_lane d)
           (mkChannel (ch_queue (dm_channel d) ++ [input]) (ch_sent (dm_channel d) ++ [input]) (ch_taken (dm_channel d)))
           (rest held' (dm_sources d)) (dm_health d) (dm_backoff d) (dm_ended d))
    else None
  end.

Inductive Task : Type := CaptureTask | DiscoveryTask | EbpfTask.
Inductive Move : Type :=
| Move_Recv (now : Z) (reads : nat -> ReadResult) (clock : nat -> Z)
    (pending_order order : nat -> list IndexedProcess -> list IndexedProcess)
| Move_Scan (host : Host) (now : OffsetDateTime) (ids gap_ids : nat -> Uuid) (order : list Z -> list Z)
| Move_Ebpf (now : OffsetDateTime) (event : result string (option LoaderEvent))
| Move_EbpfStart (now : OffsetDateTime) (start : result string EbpfRuntime)
| Move_Send (task : Task)
| Move_Ingest (w : World)
| Move_Flush (api : ServerApi) (net : Network) (ck : Clock)
| Move_Command (api : ServerApi) (net : Network) (wait_seconds : Z) (now : nat -> Z) (ck : Clock)
| Move_Cleanup (now : OffsetDateTime)
| Move_Heartbeat (sp : Supply) (now : OffsetDateTime)
| Move_Title (sp : Supply) (session_id title : string).

(** A turn of the capture source. *)
(* src: src/crates/client/src/service.rs:556-573 run_capture_source_loop *)
Definition run_capture_source_loop (now : Z) (reads : nat -> ReadResult) (clock : nat -> Z)
    (pending_order order : nat -> list IndexedProcess -> list IndexedProcess) (d : Daemon) : option Daemon :=
  match sr_capture (dm_sources d), sr_captured (dm_sources d) with
  | Some source, [] =>
    let idx o i := match_segment (o i) (dm_index d) in
    match recv now (idx pending_order) reads clock (idx order) source with
    | (Ok (Some input), source) => Some (with_sources (set_captured (Some source) [input]) d)
    | (Ok None, source) => Some (with_sources (set_captured (Some source) []) d)
    | (Err e, source) => Some (ended (DaemonError_Source e) (with_sources (set_captured (Some source) []) d))
    end
  | _, _ => None
  end.
(** A turn of the scan of processes, when the events of the last one are sent. *)
(* src: src/crates/client/src/service.rs:575-599 run_process_source_loop *)
Definition run_process_source_loop (host : Host) (now : OffsetDateTime) (ids gap_ids : nat -> Uuid)
    (order : list Z -> list Z) (d : Daemon) : option Daemon :=
  match sr_discovery (dm_sources d), sr_scanned (dm_sources d) with
  | Some discovery, [] =>
    let '(events, discovery) := Discovery.poll host now ids gap_ids order discovery in
    Some (with_sources (set_scanned (Some discovery) events) d)
  | _, _ => None
  end.
(** A turn of the eBPF loop on one event, or on one start. *)
Definition ebpf_loop_state (d : Daemon) : LoopState :=
  mkLoop (dm_health d) (sr_ebpf_backoff (dm_sources d)) [] [] 0 false.
Definition ebpf_env (now : OffsetDateTime) (d : Daemon) : LoopEnv :=
  mkEnv (fun _ => now) (fun _ => dm_index d) (fun _ => true).
Definition after_ebpf (s : LoopState) (d : Daemon) : Daemon :=
  with_sources (set_observed (lo_backoff s) (lo_sent s)) (with_health (lo_health s) d).
(** Taking the next input. *)
Definition ingest_next (w : World) (d : Daemon) : option Daemon :=
  match ch_queue (dm_channel d) with
  | [] => None
  | input :: queue =>
    let '(r, (t, lane)) := ingest_input input w (dm_tick d, dm_lane d) in
    let d := mkDaemon t lane (mkChannel queue (ch_sent (dm_channel d)) (ch_taken (dm_channel d) ++ [input]))
               (dm_sources d) (dm_health d) (dm_backoff d) (dm_ended d) in
    match r with
    | Ok _ => Some d
    | Err e => Some (ended (DaemonError_Lane e) d)
    end
  end.
(* src: src/crates/client/src/service.rs:264-432 run_daemon_with_components *)
Definition move (m : Move) (d : Daemon) : option Daemon :=
  if is_some (dm_ended d) then None else
  match m with
  | Move_Recv now reads clock pending_order order => run_capture_source_loop now reads clock pending_order order d
  | Move_Scan host now ids gap_ids order => run_process_source_loop host now ids gap_ids order d
  | Move_Ebpf now event =>
    match sr_observed (dm_sources d) with
    | [] => Some (after_ebpf (runtime_loop (ebpf_env now d) [event] (ebpf_loop_state d)).2 d)
    | _ => None
    end
  | Move_EbpfStart now start =>
    match sr_observed (dm_sources d), start with
    | [], Ok runtime =>
      Some (after_ebpf (run_ebpf_loop (ebpf_env now d) 1000
        [Ok (mkRuntime (er_uprobe_active runtime) (er_profile_supported runtime) [])] (ebpf_loop_state d)) d)
    | [], Err e => Some (after_ebpf (run_ebpf_loop (ebpf_env now d) 1000 [Err e] (ebpf_loop_state d)) d)
    | _, _ => None
    end
  | Move_Send CaptureTask => send_from (sr_captured (dm_sources d)) (fun rest s => set_captured (sr_capture s) rest s) d
  | Move_Send DiscoveryTask => send_from (sr_scanned (dm_sources d)) (fun rest s => set_scanned (sr_discovery s) rest s) d
  | Move_Send EbpfTask => send_from (sr_observed (dm_sources d)) (fun rest s => set_observed (sr_ebpf_backoff s) rest s) d
  | Move_Ingest w => ingest_next w d
  | Move_Flush api net ck => Some (after_round FlushLoop (flush_round api net ck (dm_store d)) d)
  | Move_Command api net wait_seconds now ck =>
    Some (after_round CommandLoop (command_round api net wait_seconds now ck (dm_store d)) d)
  | Move_Cleanup now => Some (after_round CleanupLoop (cleanup_round now (dm_store d)) d)
  | Move_Heartbeat sp now =>
    Some (after_round HeartbeatLoop (heartbeat_round (dm_config d) (dm_health d) sp now (dm_store d)) d)
  | Move_Title sp session_id title =>
    match sync_conversation_title sp session_id title (dm_store d) with
    | (Ok _, s) => Some (with_store s d)
    | (Err e, s) => Some (ended (DaemonError_Store e) (with_store s d))
    end
  end.
Definition daemon_step (d d' : Daemon) : Prop := exists m, move m d = Some d'.

(** ** Every round is a run of store operations *)
Lemma op_run op s s' : s' = run_op op s -> rtc store_step s s'.
Proof. intros ->. apply rtc_once. constructor. Qed.
Lemma next_batch_reads now s : (run_db (next_due_batch now) s).2 = s.
Proof. apply run_read. by intros db a db' [= _ <-]. Qed.
Lemma next_command_reads now s : (run_db (next_due_command now) s).2 = s.
Proof. apply run_read. by intros db a db' [= _ <-]. Qed.
Lemma flush_runs api net ck s : rtc store_step s (flush_round api net ck s).2.
Proof.
  unfold flush_round, round_of, flush_outbox_once, and_then, on_store. cbn [snd].
  pose proof (next_batch_reads (ck_due ck) s) as Hr.
  destruct (run_db (next_due_batch _) s) as [[[batch|]|e] s1]; cbn [fst snd map_err] in *; subst s1; try done.
  destruct (post_ingest _ _ _ _) as [[ack|]|e]; cbn [snd]; [| done |].
  - by apply (op_run (OpAcked (ck_done ck) ack)).
  - by apply (op_run (OpRetry (ck_retry ck) (pb_batch_id batch) (error_text e))).
Qed.
Lemma save_commands_Ok now i cmds db : exists db', save_commands now i cmds db = Ok (tt, db').
Proof.
  revert i db. induction cmds as [|command cmds IH]; intros i db; [by exists db|]. cbn [save_commands].
  destruct (command_meta command) as [id expires]. unfold mbind, tx_bind, insert_or_update. apply IH.
Qed.
Lemma save_commands_cons now i command cmds s :
  (run_db (save_commands now i (command :: cmds)) s).2
  = (run_db (save_commands now (S i) cmds) (run_db (save_commands now i [command]) s).2).2.
Proof.
  unfold run_db, run_tx. cbn [save_commands]. destruct (command_meta command) as [id expires].
  unfold mbind, tx_bind, insert_or_update. cbn [mret tx_ret].
  cbn [snd set_db cs_db].
  match goal with |- context [save_commands now (S i) cmds ?db] =>
    destruct (save_commands_Ok now (S i) cmds db) as [db' ->] end. reflexivity.
Qed.
Lemma save_commands_runs now i cmds s : rtc store_step s (run_db (save_commands now i cmds) s).2.
Proof.
  revert i s. induction cmds as [|command cmds IH]; intros i s.
  { replace (run_db _ s).2 with s; [done|]. symmetry. apply (set_db_same s). }
  rewrite save_commands_cons. etrans; [by apply (op_run (OpSaveCommand now i command)) | apply IH].
Qed.
Lemma execute_runs api net ck s : rtc store_step s (execute_due_command_once api net ck s).2.
Proof.
  unfold execute_due_command_once, and_then, on_store. cbn [snd].
  pose proof (next_command_reads (ck_due ck) s) as Hr.
  destruct (run_db (next_due_command _) s) as [[[stored|]|e] s1]; cbn [fst snd map_err] in *; subst s1; try done.
  pose proof (op_run (OpPrepare (ck_step ck) (sq_command stored)) s _ eq_refl) as Hp. cbn [run_op] in Hp.
  destruct (run_db (prepare_upload _ _) s) as [[[work|command_id result]|e] s1]; cbn [fst snd map_err] in *; [| |exact Hp].
  - assert (forall error, rtc store_step s (run_db (fail_command (ck_retry ck) (uk_command_id work) error true) s1).2) as Hf.
    { intros error. etrans; [exact Hp | by apply (op_run (OpFail (ck_retry ck) (uk_command_id work) error true))]. }
    destruct (post_manifests _ _ _ _) as [u|e]; [|apply Hf].
    destruct (upload_objects _ _ _ _ _) as [[e|]|e]; [apply Hf | | exact Hp].
    destruct (post_upload_result _ _ _ _) as [u'|e]; [|exact Hp].
    etrans; [exact Hp | by apply (op_run (OpComplete (ck_done ck) (ck_next ck) (uk_command_id work)
      (mkContentUploadResult (uk_request_id work) ContentUploadStatus_Stored None) false))].
  - destruct (post_upload_result _ _ _ _) as [u'|e]; [|exact Hp].
    etrans; [exact Hp | by apply (op_run (OpComplete (ck_done ck) (ck_next ck) command_id result false))].
Qed.
Lemma command_runs api net wait now ck s : rtc store_step s (command_round api net wait now ck s).2.
Proof.
  unfold command_round, poll_command_once, on_store. destruct (poll_commands _ _ _) as [response|e]; [|done].
  pose proof (save_commands_runs now 0 (cp_commands response) s) as Hs.
  destruct (run_db _ s) as [[u|e] s1]; cbn [fst snd map_err is_ok] in *; [|exact Hs].
  etrans; [exact Hs | apply execute_runs].
Qed.
Lemma remove_blobs_runs shas s :
  rtc store_step s (set_fs s (remove_blobs (cs_root s) shas (cs_fs s)).1).
Proof.
  revert s. induction shas as [|sha shas IH]; intros s; cbn [remove_blobs].
  { replace (set_fs s _) with s; [done | by destruct s]. }
  destruct (Blob.remove (cs_root s) sha (cs_fs s)) as [fs|] eqn:E.
  - etrans; [apply (op_run (OpRemoveBlob sha)); reflexivity|]. cbn [run_op]. rewrite E. cbn [unwrap_or].
    exact (IH (set_fs s fs)).
  - replace (set_fs s _) with s; [done | by destruct s].
Qed.
Lemma delete_after_runs (days : Transaction Row StoreError Z) t (p : Z -> Row t -> bool) s :
  (forall db a db', days db = Ok (a, db') -> db' = db) ->
  (forall a, rtc store_step s (run_db (delete_from t (p a)) s).2) ->
  rtc store_step s (run_db (a ← days; delete_from t (p a)) s).2.
Proof.
  intros Hd Hp. unfold run_db, run_tx, mbind, tx_bind. destruct (days (cs_db s)) as [[a db]|e] eqn:E.
  - rewrite (Hd _ _ _ E). apply Hp.
  - cbn. by rewrite set_db_same.
Qed.

Lemma days_before_reads now n db a db' : days_before now n db = Ok (a, db') -> db' = db.
Proof. unfold days_before, some_or. destruct (add_seconds now _); [by intros [= _ <-] | discriminate]. Qed.
Lemma cleanup_runs now s : rtc store_step s (cleanup_round now s).2.
Proof.
  unfold cleanup_round, round_of, cleanup_once, on_store, cleanup. cbn [snd].
  pose proof (remove_blobs_runs (map ro_object_sha256 (select (disposable now) (cs_db s raw_objects))) s) as Hb.
  destruct (remove_blobs _ _ _) as [fs [u|]]; cbn [fst snd] in *; [|exact Hb].
  set (s1 := (run_db (delete_from raw_objects (disposable now)) (set_fs s fs)).2).
  assert (rtc store_step s s1) as Hs1 by (etrans; [exact Hb | by apply (op_run (OpDeleteObjects (disposable now)))]).
  pose proof (delete_after_runs (days_before now ACK_RETENTION_DAYS) acked_batches
    (fun acked_before r => ab_acked_at r <=? acked_before) s1 (days_before_reads now ACK_RETENTION_DAYS)
    (fun a => op_run (OpDeleteAcked (fun r => ab_acked_at r <=? a)) s1 _ eq_refl)) as Hs2.
  destruct (run_db _ s1) as [[u'|e] s2]; cbn [fst snd] in *; [|etrans; [exact Hs1 | exact Hs2]].
  etrans; [exact Hs1|]. etrans; [exact Hs2|].
  apply (delete_after_runs (days_before now 30) commands
    (fun completed_before r => bool_decide (qc_status r = CommandStatus_Completed)
       && is_some_and (fun t => t <=? completed_before) (qc_completed_at r)) s2 (days_before_reads now 30)).
  intros a. by apply (op_run (OpDeleteCommands (fun r => bool_decide (qc_status r = CommandStatus_Completed)
       && is_some_and (fun t => t <=? a) (qc_completed_at r)))).
Qed.
Lemma heartbeat_runs config health sp now s : rtc store_step s (heartbeat_round config health sp now s).2.
Proof.
  unfold heartbeat_round, round_of, emit_heartbeat_once, and_then, on_store. cbn [snd].
  match goal with |- context [persist_ingress sp ?records [] s] =>
    pose proof (op_run (OpPersist sp records []) s _ eq_refl) as Hp end. cbn [run_op] in Hp.
  destruct (persist_ingress _ _ _ _) as [[o|e] s1]; exact Hp.
Qed.
Lemma title_runs sp session_id title s : rtc store_step s (sync_conversation_title sp session_id title s).2.
Proof.
  unfold sync_conversation_title. set (p := fun r => _ && _). destruct (select p _) as [|row rows]; [done|].
  pose proof (op_run (OpSetTitle p title) s _ eq_refl) as Ht. cbn [run_op] in Ht.
  destruct (mapM title_record _) as [records|]; [|exact Ht].
  set (s1 := (run_db _ s).2) in *. pose proof (op_run (OpPersist sp records []) s1 _ eq_refl) as Hp. cbn [run_op] in Hp.
  destruct (persist_ingress _ _ _ _) as [[o|e] s2]; (etrans; [exact Ht | exact Hp]).
Qed.
(** The lane never changes its configuration. *)
Definition same_config (l l' : LiveCaptureLane) : Prop := ln_config l' = ln_config l.
#[local] Instance same_config_preorder : PreOrder same_config.
Proof. split; [by intros l|]. intros l1 l2 l3. unfold same_config. congruence. Qed.
Lemma config_access {A} (m : World -> nat -> ClientStore -> result StoreError A * ClientStore) :
  lane_rel same_config (access m).
Proof. apply lane_rel_access. intros w t l. reflexivity. Qed.
Lemma config_modify f : (forall l, ln_config (f l) = ln_config l) -> lane_rel same_config (modify f).
Proof. intros Hf. apply lane_rel_modify, Hf. Qed.
#[local] Instance same_config_quiet : Quiet same_config.
Proof.
  split; [apply _ | intros; apply config_access | intros; apply config_access |].
  intros [p|] task; [by apply config_modify | apply lane_rel_ret, _].
Qed.
#[local] Hint Resolve config_access quiet_reassemble quiet_close_side quiet_project_gap quiet_process_exit : lane.
#[local] Hint Extern 1 (lane_rel same_config (modify _)) => by apply config_modify : lane.
Lemma config_segment segment p a : lane_rel same_config (handle_segment segment p a).
Proof. unfold handle_segment, on_db, now, now_v7. lane_walk. Qed.
#[local] Hint Resolve config_segment : lane.
Lemma ingest_config w input t l : ln_config (ingest_input input w (t, l)).2.2 = ln_config l.
Proof.
  assert (lane_rel same_config (ingest_input input)) as Hc by (unfold ingest_input, handle_input; lane_walk).
  apply Hc.
Qed.
Lemma ingest_runs w input t l : rtc store_step (ln_store l) (ln_store (ingest_input input w (t, l)).2.2).
Proof. apply runs_ingest. Qed.

(** So is every command of the command line. *)
Lemma and_then_runs {A B} (m : result ClientError A * ClientStore) (k : A -> ClientStore -> result ClientError B * ClientStore) s :
  rtc store_step s m.2 -> (forall a s, rtc store_step s (k a s).2) -> rtc store_step s (and_then m k).2.
Proof. intros Hm Hk. destruct m as [[a|e] s1]; cbn in *; [by etrans | done]. Qed.
Lemma cli_runs api net config rd fixture command s :
  rtc store_step s (run_cli api net config rd fixture command s).2.
Proof.
  assert (forall ck s, rtc store_step s (flush_outbox_once api net ck s).2) as Hflush by (intros; apply flush_runs).
  unfold run_cli, run_once. destruct (unwrap_or _ command) as [[]|input flush| |]; try done.
  - apply and_then_runs; [apply Hflush|]. intros _ s1. apply and_then_runs.
    + unfold poll_command_once, on_store. destruct (poll_commands _ _ _); [apply save_commands_runs | done].
    + intros _ s2. apply and_then_runs; [apply execute_runs|]. intros _ s3. apply cleanup_runs.
  - destruct (fixture input) as [bundle|e]; [|done]. apply and_then_runs; [|by destruct flush].
    unfold ingest_fixture. destruct (fixture_contents _) as [contents|e]; [|done].
    by apply (op_run (OpPersist (rd_supply rd) (fb_records bundle) contents)).
  - apply cleanup_runs.
Qed.

(** ** Every interleaving *)
(** What all tasks keep of the daemon's state. *)
Record daemon_ok (d : Daemon) : Prop := {
  ok_capacity : (length (ch_queue (dm_channel d)) <= CHANNEL_CAPACITY)%nat;
  ok_order : ch_sent (dm_channel d) = ch_taken (dm_channel d) ++ ch_queue (dm_channel d);
  ok_backoff l : 1 <= dm_backoff d l <= 30;
  ok_ebpf : 1000 <= sr_ebpf_backoff (dm_sources d) <= MAX_BACKOFF }.
Definition step_ok (d d' : Daemon) : Prop :=
  (daemon_ok d -> daemon_ok d') /\ rtc store_step (dm_store d) (dm_store d')
  /\ ln_config (dm_lane d') = ln_config (dm_lane d) /\ kept (dm_health d) (dm_health d')
  /\ ch_sent (dm_channel d) `prefix_of` ch_sent (dm_channel d') /\ ch_taken (dm_channel d) `prefix_of` ch_taken (dm_channel d').
#[local] Instance step_ok_preorder : PreOrder step_ok.
Proof.
  split; [intros d; split; [done|]; split; [done|]; split; [done|]; split; [by split | by split]|].
  intros d1 d2 d3 (Ha & Hb & Hc & [Hd1 Hd2] & He & Hf) (Ha' & Hb' & Hc' & [Hd1' Hd2'] & He' & Hf').
  split; [auto|]. split; [by etrans|]. split; [congruence|]. split; [split; congruence|]. split; by etrans.
Qed.
(** A move that only changes what one of the records holds. *)
Lemma step_sources f d : (daemon_ok d -> 1000 <= sr_ebpf_backoff (f (dm_sources d)) <= MAX_BACKOFF) ->
  step_ok d (with_sources f d).
Proof.
  intros Hf. split; [|split; [done|]; split; [done|]; split; [by split | by split]].
  intros Hok. destruct Hok as [Hc Ho Hb He] eqn:E. split; [done | done | done | by apply Hf].
Qed.
Lemma step_ended e d : step_ok d (ended e d).
Proof. split; [by intros []|]. split; [done|]. split; [done|]. split; [by split | by split]. Qed.
Lemma step_store s d : rtc store_step (dm_store d) s -> step_ok d (with_store s d).
Proof. intros Hs. split; [by intros []|]. split; [done|]. split; [done|]. split; [by split | by split]. Qed.
Lemma step_round l r d : rtc store_step (dm_store d) r.2 -> step_ok d (after_round l r d).
Proof.
  intros Hs. split; [|split; [done|]; split; [done|]; split; [by split | by split]].
  intros [Hc Ho Hb He]. split; [done | done | | done]. intros l'. cbn. case_decide; [|done].
  subst. specialize (Hb l). destruct r.1; lia.
Qed.
Lemma step_send held rest d d' : send_from held rest d = Some d' ->
  (forall l s, sr_ebpf_backoff (rest l s) = sr_ebpf_backoff s) -> step_ok d d'.
Proof.
  unfold send_from. destruct held as [|input held]; [discriminate|].
  destruct (Nat.ltb _ CHANNEL_CAPACITY) eqn:Hlt; [|discriminate]. intros [= <-] Hrest.
  split; [|split; [done|]; split; [done|]; split; [by split|]; split; [by eexists | done]].
  intros [Hc Ho Hb He]. split; cbn [dm_channel ch_queue ch_sent ch_taken dm_backoff dm_sources].
  - apply Nat.ltb_lt in Hlt. rewrite length_app. cbn [length]. lia.
  - by rewrite Ho, app_assoc.
  - done.
  - by rewrite Hrest.
Qed.
Lemma step_ebpf d s : kept (dm_health d) (lo_health s) ->
  (1000 <= sr_ebpf_backoff (dm_sources d) <= MAX_BACKOFF -> 1000 <= lo_backoff s <= MAX_BACKOFF) ->
  step_ok d (after_ebpf s d).
Proof.
  intros Hk Hb. split; [|split; [done|]; split; [done|]; split; [done | by split]].
  intros [Hc Ho Hl He]. split; [done | done | done | by apply Hb].
Qed.
Lemma fail_backoff reason s : 1000 <= lo_backoff s <= MAX_BACKOFF -> 1000 <= lo_backoff (fail reason s) <= MAX_BACKOFF.
Proof. cbn. unfold MAX_BACKOFF. lia. Qed.
Lemma event_backoff env event s : 1000 <= lo_backoff s <= MAX_BACKOFF ->
  1000 <= lo_backoff (runtime_loop env [event] s).2 <= MAX_BACKOFF.
Proof.
  intros Hs. cbn [runtime_loop]. destruct event as [[[record|fp]|]|error]; try exact Hs; [|by apply fail_backoff].
  destruct (map_loader_record _ _ _) as [input|]; [|exact Hs]. unfold send.
  destruct (le_open _ _); cbn [lo_returned]; [|exact Hs]. by destruct (lo_returned _).
Qed.
Lemma step_ingest w d d' : ingest_next w d = Some d' -> step_ok d d'.
Proof.
  unfold ingest_next. destruct (ch_queue (dm_channel d)) as [|input queue] eqn:Eq; [discriminate|].
  pose proof (ingest_runs w input (dm_tick d) (dm_lane d)) as Hr.
  pose proof (ingest_config w input (dm_tick d) (dm_lane d)) as Hconf.
  destruct (ingest_input _ _ _) as [r [t lane]]. cbn [fst snd] in Hr, Hconf. intros E.
  assert (step_ok d (mkDaemon t lane (mkChannel queue (ch_sent (dm_channel d)) (ch_taken (dm_channel d) ++ [input]))
               (dm_sources d) (dm_health d) (dm_backoff d) (dm_ended d))) as Hs.
  { split; [|split; [exact Hr|]; split; [exact Hconf|]; split; [by split|]; split; [done | by eexists]].
    intros [Hc Ho Hb He]. rewrite Eq in Hc, Ho. split; cbn [dm_channel ch_queue ch_sent ch_taken]; [|by rewrite <- app_assoc|done|done].
    cbn [length] in Hc. lia. }
  destruct r as [o|e]; injection E as <-; [exact Hs|]. etrans; [exact Hs | apply step_ended].
Qed.
Lemma step_capture now reads clock po o d d' : run_capture_source_loop now reads clock po o d = Some d' -> step_ok d d'.
Proof.
  unfold run_capture_source_loop. destruct (sr_capture (dm_sources d)) as [source|], (sr_captured (dm_sources d)); try discriminate.
  assert (forall c l, step_ok d (with_sources (set_captured c l) d)) as Hs by (intros; apply step_sources; by intros []).
  destruct (recv _ _ _ _ _ _) as [[[input|]|e] source']; intros [= <-]; [apply Hs | apply Hs |].
  etrans; [apply Hs | apply step_ended].
Qed.
Lemma step_scan host now ids gap_ids order d d' : run_process_source_loop host now ids gap_ids order d = Some d' ->
  step_ok d d'.
Proof.
  unfold run_process_source_loop. destruct (sr_discovery (dm_sources d)) as [x|], (sr_scanned (dm_sources d)); try discriminate.
  destruct (Discovery.poll _ _ _ _ _ _) as [events x']. intros [= <-]. apply step_sources. by intros [].
Qed.
Lemma step_ebpf_start now start d d' : move (Move_EbpfStart now start) d = Some d' -> step_ok d d'.
Proof.
  unfold move. destruct (is_some (dm_ended d)); [discriminate|]. destruct (sr_observed (dm_sources d)); [|discriminate].
  destruct start as [runtime|e]; intros [= <-]; (apply step_ebpf; [by split | intros Hb]).
  - cbn. unfold MAX_BACKOFF. lia.
  - exact (fail_backoff ("ebpf_loader_error:" +:+ e) (ebpf_loop_state d) Hb).
Qed.
Lemma move_ok m d d' : move m d = Some d' -> step_ok d d'.
Proof.
  intros E. pose proof E as E0. unfold move in E. destruct (is_some (dm_ended d)); [discriminate E|]. destruct m.
  - by eapply step_capture.
  - by eapply step_scan.
  - destruct (sr_observed (dm_sources d)); [|discriminate E]. injection E as <-. apply step_ebpf.
    + apply (runtime_loop_kept (ebpf_env now d) [event] (ebpf_loop_state d)).
    + apply (event_backoff (ebpf_env now d) event (ebpf_loop_state d)).
  - by eapply step_ebpf_start.
  - destruct task; by eapply step_send.
  - by eapply step_ingest.
  - injection E as <-. apply step_round, flush_runs.
  - injection E as <-. apply step_round, command_runs.
  - injection E as <-. apply step_round, cleanup_runs.
  - injection E as <-. apply step_round, heartbeat_runs.
  - pose proof (title_runs sp session_id title (dm_store d)) as Ht.
    destruct (sync_conversation_title _ _ _ _) as [[o|e] s]; injection E as <-; [by apply step_store|].
    etrans; [by apply step_store | apply step_ended].
Qed.
Lemma daemon_runs d d' : rtc daemon_step d d' -> step_ok d d'.
Proof. induction 1 as [|d1 d2 d3 [m Hm] _ IH]; [reflexivity|]. etrans; [by eapply move_ok | done]. Qed.

(** [C5] The daemon, whatever its tasks do in whatever order, and whatever the
    machine, the network and the clock answer.  The store makes only its own steps,
    so its invariant holds, no task is lost and none goes back.  The channel holds
    at most 512 inputs, and the lane takes the inputs in the order they were sent,
    each once.  The delays of the loops stay between one and thirty seconds, and
    the health says whether packets are captured as the configuration has it. *)
Theorem daemon_safe `{!DigestLaws} `{!BlobLaws} config store read d0 d :
  daemon_start config store read = Ok d0 -> store_reachable store -> rtc daemon_step d0 d ->
  (store_reachable (dm_store d) /\ store_inv (dm_store d)
   /\ tasks_advance (cs_db store) (cs_db (dm_store d)))
  /\ ((length (ch_queue (dm_channel d)) <= 512)%nat
      /\ ch_sent (dm_channel d) = ch_taken (dm_channel d) ++ ch_queue (dm_channel d))
  /\ (forall l, 1 <= dm_backoff d l <= 30)
  /\ rh_af_packet_active (dm_health d) = is_some (cf_capture_interface_index config)
  /\ rh_ring_buffer_drops (dm_health d) = 0.
Proof.
  intros Hstart (root & client & Hr) Hd. unfold daemon_start in Hstart.
  apply bind_Ok in Hstart as (u & _ & [= <-]).
  destruct (daemon_runs _ _ Hd) as (Hok & Hs & _ & [Hdrops Hactive] & _). cbn in Hs, Hdrops, Hactive.
  destruct Hok as [Hcap Hord Hb _].
  { split; cbn; [apply Nat.le_0_l | done | lia | unfold MAX_BACKOFF; lia]. }
  assert (store_reachable (dm_store d)) as Hs' by (exists root, client; by etrans).
  split; [split; [done|]; split; [by apply reachable_store_inv | by apply run_advance]|].
  split; [by split|]. by split.
Qed.
(** An error of the lane, of the packet source or of the titles ends the daemon:
    nothing moves any more. *)
Lemma ended_stays m d : is_some (dm_ended d) = true -> move m d = None.
Proof. unfold move. by intros ->. Qed.
(** No order holds between senders: a segment attributed before a scan can be queued
    after the exit that scan found, when its task has not been able to send it. *)
Lemma exit_overtakes_segment d segment exit :
  dm_ended d = None -> sr_captured (dm_sources d) = [segment] -> sr_scanned (dm_sources d) = [exit] ->
  (length (ch_queue (dm_channel d)) + 2 <= CHANNEL_CAPACITY)%nat ->
  exists d', rtc daemon_step d d' /\ ch_queue (dm_channel d') = ch_queue (dm_channel d) ++ [exit; segment].
Proof.
  intros He Hc Hsc Hlen.
  assert (forall n, (n + 1 <= CHANNEL_CAPACITY)%nat -> Nat.ltb n CHANNEL_CAPACITY = true) as Hlt.
  { intros n Hn. apply Nat.ltb_lt. lia. }
  eexists. split.
  - eapply rtc_l; [exists (Move_Send DiscoveryTask); unfold move, send_from; rewrite He, Hsc, Hlt by lia; reflexivity|].
    eapply rtc_l; [exists (Move_Send CaptureTask); unfold move, send_from;
      cbn [dm_ended dm_sources set_scanned sr_captured dm_channel ch_queue]; rewrite ?He, Hc, length_app;
      rewrite Hlt by (cbn [length]; lia); reflexivity|]. reflexivity.
  - cbn. by rewrite <- app_assoc.
Qed.
(** Moves one after another. *)
Fixpoint moves (ms : list Move) (d : Daemon) : option Daemon :=
  match ms with
  | [] => Some d
  | m :: ms => d ← move m d; moves ms d
  end.
Lemma moves_run ms d d' : moves ms d = Some d' -> rtc daemon_step d d'.
Proof.
  revert d. induction ms as [|m ms IH]; intros d; cbn [moves]; [by intros [= ->]|].
  destruct (move m d) as [d1|] eqn:E; [|discriminate]. intros Hd. eapply rtc_l; [by exists m | by apply IH].
Qed.
End daemon.

Module DaemonFixture.
Import TimeFixture CodecFixture BlobFixture HttpFixture ResponsesFixture.
Import LaneFixture.
#[local] Instance reqwest : ReqwestApi := {|
  reqwest_error := Z; error_text := show_Z; status_error z := z;
  json_of_manifests _ := []; json_of_chunk _ := []; json_of_result _ := [];
  ack_of_json _ := Err 0; poll_of_json _ := Err 0 |}.
#[local] Instance etherparse : EtherparseApi := {|
  from_ethernet _ := Err "no packet"; from_ip _ := Err "no packet" |}.
Definition watched : ClientConfig :=
  mkClientConfig "client" (uuid7 2) "/data" "/data/db" "/blobs" "https://server" "token" 25 60 1000 30 5 100
    None (Some 77) "codex" [443] None None None "0.1".
(** Process 77 runs and has no sockets. *)
Definition host : Host :=
  mkHost ["77"] (fun _ => Some "codex") (fun _ => Some "/usr/bin/codex") (fun _ => Ok [x7f])
    (mkProcFs (fun _ => Ok []) (fun _ => Ok "sl local_address rem_address") (Ok [])).
Definition empty_store : ClientStore := open_empty "/blobs" client.
Definition started : result ConfigError Daemon := daemon_start watched empty_store (fun _ => Err "not found").
(** A scan finds the process, the network refuses two polls of the commands, and a
    heartbeat is queued. *)
Definition clock : Clock := mkClock (6 * 10 ^ 9) (fun _ => 6000) (6 * 10 ^ 9) 6000 6000.
Definition offline : Move :=
  Move_Command (ServerApi_new "https://server" "token") (fun _ => Err 7) 25 (fun _ => 6000) clock.
Definition trace : list Move :=
  [Move_Scan host (5 * 10 ^ 9) (fun _ => uuid7 7) (fun _ => uuid7 8) (fun l => l); offline;
   Move_Send DiscoveryTask; offline; Move_Ingest LaneFixture.world;
   Move_Heartbeat (w_supply LaneFixture.world 0) (9 * 10 ^ 9)].
Definition later (d : result ConfigError Daemon) : option Daemon :=
  match d with Ok d => moves trace d | Err _ => None end.
Definition summary (d : option Daemon) : option (nat * nat * Z * nat) :=
  (fun d => (length (ch_taken (dm_channel d)), length (ch_queue (dm_channel d)), dm_backoff d CommandLoop,
             length (cs_db (dm_store d) outbox))) <$> d.
Lemma daemon_safe_witness : exists d, later started = Some d
  /\ store_inv (dm_store d) /\ ch_sent (dm_channel d) = ch_taken (dm_channel d) ++ ch_queue (dm_channel d)
  /\ summary (Some d) = Some (1%nat, 0%nat, 4, 1%nat).
Proof.
  assert (summary (later started) = Some (1%nat, 0%nat, 4, 1%nat)) as Hs by (vm_compute; reflexivity).
  destruct (later started) as [d|] eqn:E; [|discriminate Hs]. exists d. split; [reflexivity|].
  unfold later in E. destruct started as [d0|] eqn:E0; [|discriminate E].
  destruct (daemon_safe watched empty_store (fun _ => Err "not found") d0 d E0) as ((_ & Hi & _) & (_ & Hq) & _).
  - exists "/blobs", client. constructor.
  - exact (moves_run trace d0 d E).
  - split; [exact Hi|]. split; [exact Hq | exact Hs].
Defined.
End DaemonFixture.
