(* ===== verification/Uploads.v ===== *)
(** * What the outbox carries

    The batches [persist_ingress] queues, and what they show: every upload is
    the snapshot of a task's row as it is in the store when the transaction ends,
    each task is in a batch at most once, and no task that a record names is left
    out.  Used by [EndToEnd], which follows a batch to the server. *)
From Stdlib Require Import ZArith Lia Strings.Byte Strings.String.
From S2P Require Import Tcp H2 WebSocket Discovery.
From S2P Require Import Prelude RustStr Digest Types Validation Codec Json Http1 Sse Responses Table Sql Model Mapping.
From S2P Require Import Blob Store StoreSteps Ip Attribution Config Lane LaneFlow LaneStore.
Local Open Scope string_scope.
Local Open Scope list_scope.
Local Open Scope Z_scope.

(** ** The records of a batch *)
(** The task a record puts into its batch. *)
Definition record_ref `{TimeApi} (record : SummaryRecord) : option string :=
  match record with
  | SummaryRecord_Session s => Some (task_ref (sns_task s))
  | SummaryRecord_Task s => Some (task_ref (tsm_task s))
  | SummaryRecord_TaskTransition t => Some (task_ref (trn_task t))
  | SummaryRecord_Attempt a => Some (task_ref (ats_task a))
  | SummaryRecord_CaptureGap g => task_ref <$> cgs_task g
  | SummaryRecord_Heartbeat _ | SummaryRecord_HttpExchange _ | SummaryRecord_Process _ => None
  end.

Section uploads.
Context `{UuidApi} `{DigestApi} `{CborApi} `{ZstdApi} `{TimeApi}.
#[local] Abbreviation StoreTx := (Transaction Row StoreError).

Lemma split_loop_concat chunks current records :
  concat (split_loop chunks current records) = concat chunks ++ current ++ records.
Proof.
  revert chunks current. induction records as [|r records IH]; intros chunks current; cbn [split_loop].
  - rewrite app_nil_r. destruct current; [by rewrite app_nil_r|].
    rewrite concat_app. cbn [concat]. by rewrite app_nil_r.
  - destruct (Nat.leb 128 _); rewrite IH; [rewrite concat_app; cbn [concat]|];
      rewrite ?app_nil_r, <- ?app_assoc; done.
Qed.
(** Splitting loses no record. *)
Lemma split_records_concat records : concat (split_records records) = records.
Proof. apply split_loop_concat. Qed.

Lemma gather_refs client ids i records g db g' db' :
  gather client ids i records g db = Ok (g', db') ->
  ga_task_refs g' = ga_task_refs g ++ omap record_ref records.
Proof.
  revert i g db. induction records as [|r records IH]; intros i g db; cbn [gather].
  { intros [-> _]%tx_ret_Ok. cbn. by rewrite app_nil_r. }
  intros (g1 & db1 & E1 & E)%tx_bind_Ok. apply IH in E. rewrite E. clear E IH.
  assert (ga_task_refs g1 = ga_task_refs g ++ option_list (record_ref r)) as ->.
  { destruct r as [s|s|t|a|x|gap|p|h]; cbn [record_ref option_list] in *;
      [| | |apply tx_bind_Ok in E1 as (rec & ? & _ & E1)|..];
      apply tx_ret_Ok in E1 as [-> _]; cbn; rewrite ?app_nil_r; try done.
    destruct (cgs_task gap); cbn; by rewrite ?app_nil_r. }
  rewrite <- app_assoc. f_equal. cbn. by destruct (record_ref r).
Qed.

Definition beats (record : SummaryRecord) : bool :=
  match record with SummaryRecord_Heartbeat _ => true | _ => false end.
Lemma gather_beats client ids i records g db g' db' :
  gather client ids i records g db = Ok (g', db') -> existsb beats records = false ->
  ga_heartbeats g' = ga_heartbeats g.
Proof.
  revert i g db. induction records as [|r records IH]; intros i g db; cbn [gather existsb].
  { by intros [-> _]%tx_ret_Ok. }
  intros (g1 & db1 & E1 & E)%tx_bind_Ok [Hr Hrs]%orb_false_iff. rewrite (IH _ _ _ E Hrs).
  destruct r as [s|s|t|a|x|gap|p|h]; [| | |apply tx_bind_Ok in E1 as (rec & ? & _ & E1)|..];
    try discriminate Hr; apply tx_ret_Ok in E1 as [-> _]; try done. by destruct (cgs_task gap).
Qed.

(** ** The uploads of a batch *)
Definition upload_ref (u : TaskUpload) : string := ts_task_ref (tu_snapshot u).
(** An upload shows the row of its task. *)
Definition shows (db : Database Row) (u : TaskUpload) : Prop :=
  exists id row, task_at (upload_ref u) db = Some row
    /\ tu_snapshot u = snapshot_of id (upload_ref u) row.
Lemma shows_task_at db db' u :
  (forall tref, task_at tref db' = task_at tref db) -> shows db u -> shows db' u.
Proof. intros Ht (id & row & Hr & Hs). exists id, row. by rewrite Ht. Qed.

Lemma build_uploads_show ids i tasks refs db us db' :
  build_uploads ids i tasks refs db = Ok (us, db') ->
  Forall (shows db) us
  /\ map upload_ref us = List.filter (fun tref => is_some (task_at tref db)) refs.
Proof.
  revert i us db'. induction refs as [|tref refs IH]; intros i us db'; cbn [build_uploads].
  { intros [-> _]%tx_ret_Ok. by split; [constructor|]. }
  intros (snapshot & db1 & E1 & E)%tx_bind_Ok. unfold load_snapshot_tx in E1.
  apply tx_bind_Ok in E1 as (row & ? & [-> ->]%(@Sql.fetch_optional_Ok Tab StoreError Row active_tasks) & [-> ->]%tx_ret_Ok).
  apply tx_bind_Ok in E as (us' & db2 & E2 & [-> _]%tx_ret_Ok). apply IH in E2 as [Hs Hm].
  cbn [Row] in *. rewrite find_task. fold (task_at tref db). cbn [List.filter].
  destruct (task_at tref db) as [row|] eqn:Er; cbn; [|done]. split.
  - constructor; [|done]. exists (ids i), row. done.
  - by rewrite <- Hm.
Qed.
Lemma build_wire_batch_show client sp b records db w db' :
  build_wire_batch_tx client sp b records db = Ok (w, db') ->
  Forall (shows db) (ib_tasks w) /\ NoDup (map upload_ref (ib_tasks w))
  /\ (forall r tref, r ∈ records -> record_ref r = Some tref -> is_some (task_at tref db) = true ->
       tref ∈ map upload_ref (ib_tasks w))
  /\ (existsb beats records = false -> ib_heartbeats w = []).
Proof.
  intros E. unfold build_wire_batch_tx in E.
  apply tx_bind_Ok in E as (g & ? & E1 & E).
  assert (db = x) as <- by exact (gather_rel eq _ _ _ _ _ _ _ _ E1).
  pose proof (gather_beats _ _ _ _ _ _ _ _ E1) as Hb.
  apply gather_refs in E1. cbn [ga_task_refs app] in E1.
  apply tx_bind_Ok in E as (us & ? & [Hs Hm]%build_uploads_show & [-> _]%tx_ret_Ok). cbn [ib_tasks ib_heartbeats].
  split; [done|]. rewrite Hm, E1. unfold btree_set. split.
  - apply NoDup_ListNoDup, List.NoDup_filter, NoDup_ListNoDup. rewrite order_by_perm. apply NoDup_remove_dups.
  - split; [|exact Hb]. intros r tref Hr Href Ht. apply list_elem_of_In, filter_In. split; [|done].
    apply list_elem_of_In. rewrite order_by_perm. apply elem_of_remove_dups, list_elem_of_omap. by exists r.
Qed.

(** ** The rows of the outbox *)
(** A row that carries a batch of snapshots. *)
Record carries (client_id : string) (db : Database Row) (r : OutboxRow) (b : IngestBatch) : Prop := mk_carries {
  ca_queued : queued client_id r b;
  ca_shows : Forall (shows db) (ib_tasks b);
  ca_once : NoDup (map upload_ref (ib_tasks b)) }.
(** What queueing [records] adds: [rows], with the batches [ws] they carry. *)
Record carried (client_id : string) (records : list SummaryRecord) (db db' : Database Row)
    (rows : list OutboxRow) (ws : list IngestBatch) : Prop := mk_carried {
  cd_outbox : db' outbox = db outbox ++ rows;
  cd_rows : Forall2 (carries client_id db) rows ws;
  cd_tasks : forall r tref, r ∈ records -> record_ref r = Some tref -> is_some (task_at tref db) = true ->
    exists w, w ∈ ws /\ tref ∈ map upload_ref (ib_tasks w);
  cd_beats : existsb beats records = false -> Forall (fun w => ib_heartbeats w = []) ws }.

Lemma task_at_set_outbox tref rows (db : Database Row) :
  task_at tref (set_table (Row := Row) outbox rows db) = task_at tref db.
Proof. unfold task_at. by tab_simpl. Qed.
Lemma enqueue_batches_carry client sp p b batches db n db' :
  enqueue_batches client sp p b batches db = Ok (n, db') ->
  exists rows ws, carried (ci_client_id client) (concat batches) db db' rows ws
    /\ (length rows <= length batches)%nat.
Proof.
  revert b db n. induction batches as [|rec batches IH]; intros b db n; cbn [enqueue_batches].
  { intros [_ ->]%tx_ret_Ok. exists [], []. split; [|done]. split; cbn; [by rewrite app_nil_r | done | set_solver | done]. }
  intros (w & ? & Ew & E)%tx_bind_Ok.
  pose proof (build_wire_batch_client _ _ _ _ _ _ _ Ew) as (-> & Hc & _).
  pose proof (build_wire_batch_show _ _ _ _ _ _ _ Ew) as (Hs & Hnd & Hin & Hbt).
  cbn [concat length]. destruct (_ && _) eqn:Hempty.
  - apply andb_true_iff in Hempty as [Ht _]. apply bool_decide_eq_true in Ht.
    destruct (IH _ _ _ E) as (rows & ws & [Ho Hr Hts Hb] & Hl). exists rows, ws. split; [|lia].
    split; [done | done | |].
    + intros r tref [Hrec|?]%elem_of_app Href Hat; [|by eapply Hts].
      pose proof (Hin _ _ Hrec Href Hat) as Hx. rewrite Ht in Hx. set_solver.
    + rewrite existsb_app. by intros [_ ?]%orb_false_iff; apply Hb.
  - apply tx_bind_Ok in E as (e & ? & [He%map_err_Ok ->]%tx_lift_Ok & E).
    apply tx_bind_Ok in E as ([] & ? & (-> & _)%ensure_capacity_Ok & E).
    apply tx_bind_Ok in E as ([] & db1 & [_ ->]%(insert_Ok (Row := Row) (Er := StoreError) outbox) & E).
    apply tx_bind_Ok in E as (m & ? & E & [_ ->]%tx_ret_Ok).
    destruct (IH _ _ _ E) as (rows & ws & [Ho Hr Hts Hb] & Hl). eexists (_ :: rows), (w :: ws).
    split; [|cbn; lia]. split.
    + rewrite Ho. tab_simpl. rewrite <- app_assoc. reflexivity.
    + constructor.
      * split; [|done|done]. exists e. split; [done|]. split; [by rewrite Hc|]. split; [|done].
        intros [E1 E2]. by rewrite E1, E2, !bool_decide_eq_true_2 in Hempty.
      * eapply Forall2_impl; [exact Hr|]. intros r w' [Hq Hsh Hn]. split; [done| |done].
        eapply Forall_impl; [exact Hsh|]. intros u. apply shows_task_at. intros k. by rewrite task_at_set_outbox.
    + intros r tref [Hrec|?]%elem_of_app Href Hat.
      * exists w. split; [set_solver | by eapply Hin].
      * destruct (Hts r tref) as (w' & ? & ?); [done..|by rewrite task_at_set_outbox|]. exists w'. split; [set_solver|done].
    + rewrite existsb_app. intros [? ?]%orb_false_iff. constructor; [by apply Hbt | by apply Hb].
Qed.

(** ** Persisting *)
Lemma normalize_ref r : record_ref (normalize_record r) = record_ref r.
Proof. by destruct r. Qed.
Lemma normalize_beats r : beats (normalize_record r) = beats r.
Proof. by destruct r. Qed.
(** A transition is always accepted; what is accepted was given. *)
Lemma apply_records_accepts records db acc dup db' :
  apply_records records db = Ok ((acc, dup), db') ->
  sublist acc records /\ forall t, SummaryRecord_TaskTransition t ∈ records -> SummaryRecord_TaskTransition t ∈ acc.
Proof.
  revert db acc dup db'. induction records as [|r records IH]; intros db acc dup db'; cbn [apply_records].
  { intros [[= -> _] _]%tx_ret_Ok. split; [done | set_solver]. }
  intros (b & db1 & E1 & E)%tx_bind_Ok.
  apply tx_bind_Ok in E as ([acc' dup'] & db2 & [Hs Ht]%IH & [E _]%tx_ret_Ok). cbn [fst snd] in E.
  assert (forall t, r = SummaryRecord_TaskTransition t -> b = true) as Hb.
  { intros t ->. cbn [apply_record_tx] in E1. by apply tx_bind_Ok in E1 as (? & ? & _ & [-> _]%tx_ret_Ok). }
  destruct b; injection E as -> _; split; try by constructor.
  - intros t [->|?]%elem_of_cons; set_solver.
  - intros t [<-|?]%elem_of_cons; [by specialize (Hb t eq_refl) | by apply Ht].
Qed.
Lemma split_loop_one records current :
  (length current + length records < 128)%nat -> (length (split_loop [] current records) <= 1)%nat.
Proof.
  revert current. induction records as [|r records IH]; intros current Hl; cbn [split_loop length] in *.
  - destruct current; cbn; lia.
  - rewrite (proj2 (Nat.leb_gt _ _)) by (rewrite length_app; cbn; lia).
    apply IH. rewrite length_app. cbn. lia.
Qed.
(** What a persisted batch leaves in the outbox. *)
Lemma persist_carries sp records contents s o s' :
  persist_ingress sp records contents s = (Ok o, s') ->
  exists rows ws,
    cs_db s' outbox = cs_db s outbox ++ rows
    /\ Forall2 (carries (ci_client_id (cs_client s)) (cs_db s')) rows ws
    /\ (forall t, SummaryRecord_TaskTransition t ∈ records ->
         is_some (task_at (task_ref (trn_task t)) (cs_db s')) = true ->
         exists w, w ∈ ws /\ task_ref (trn_task t) ∈ map upload_ref (ib_tasks w))
    /\ (existsb beats records = false -> Forall (fun w => ib_heartbeats w = []) ws)
    /\ ((length records < 128)%nat -> (length rows <= 1)%nat).
Proof.
  unfold persist_ingress. destruct (apply_records _ (cs_db s)) as [[[acc dup] db1]|e] eqn:E1; [|done].
  destruct (store_contents _ _ _ db1) as [fs' [db2|e]] eqn:E2; [|done].
  destruct (enqueue_records_tx _ _ _ db2) as [[n db3]|e] eqn:E3; [|done]. intros [= _ <-].
  cbn [cs_db set_fs set_db].
  assert (db2 outbox = cs_db s outbox) as <-.
  { etrans; [|apply (apply_records_rel (frame [active_tasks; attempts; capture_gaps; processes])
               _ (fun r => part_frame (cs_client s) _ _ (part_apply _ r)) _ _ _ E1); set_solver].
    eapply (store_contents_rel (frame [raw_objects])); [|exact E2|set_solver].
    intros b Hb. exact (part_frame (cs_client s) _ _ (part_object (cs_client s) b Hb)). }
  assert (forall tref, task_at tref db3 = task_at tref db2) as Hat by (intros; by eapply enqueue_task_at).
  apply apply_records_accepts in E1 as [Hsub Htr]. unfold enqueue_records_tx in E3.
  assert (exists rows ws, carried (ci_client_id (cs_client s)) acc db2 db3 rows ws
    /\ (length rows <= length (split_records acc))%nat) as (rows & ws & [Ho Hr Ht Hb] & Hl).
  { destruct acc as [|r acc].
    - apply tx_ret_Ok in E3 as [_ ->]. exists [], []. split; [|done].
      split; [by rewrite app_nil_r | done | set_solver | done].
    - apply enqueue_batches_carry in E3. by rewrite split_records_concat in E3. }
  exists rows, ws. split; [exact Ho|]. split; [|split; [|split]].
  - eapply Forall2_impl; [exact Hr|]. intros r w [Hq Hs Hn]. split; [done| |done].
    eapply Forall_impl; [exact Hs|]. intros u. by apply shows_task_at.
  - intros t Hin Hsome. rewrite Hat in Hsome.
    apply (Ht (normalize_record (SummaryRecord_TaskTransition t))); [|done|done]. apply Htr.
    apply list_elem_of_fmap. by exists (SummaryRecord_TaskTransition t).
  - intros Hnb. apply Hb. apply not_true_iff_false. intros (r & Hin & Hbt)%existsb_exists.
    rewrite <- list_elem_of_In in Hin. apply (elem_of_sublist _ _ _ Hin) in Hsub as Hin'.
    apply list_elem_of_fmap in Hin' as (r' & -> & Hr'). rewrite normalize_beats in Hbt.
    rewrite (proj2 (existsb_exists _ _)) in Hnb; [done|]. exists r'. by rewrite <- list_elem_of_In.
  - intros Hlen. apply sublist_length in Hsub. rewrite length_map in Hsub.
    assert (length acc < 128)%nat as Hx by (clear -Hlen Hsub; lia).
    etrans; [exact Hl|]. by apply split_loop_one.
Qed.
End uploads.
