(* ===== verification/EndToEnd.v ===== *)
(** * From a captured exchange to a reader

    The lane, the client's store, its flush, the server's ingest and its queries
    composed: what a captured exchange says of a task is what a reader of the
    server is shown ([captured_turn_shown]).  And what the composition does not
    guarantee: a batch that is retried overtakes nothing but overwrites what came
    after it ([late_batch_rewinds]), and a task is stored under a name that
    any client may write ([task_taken_over]). *)
From Stdlib Require Import ZArith Lia Strings.Byte Strings.String.
From S2P Require Import Tcp H2 WebSocket Discovery.
From S2P Require Import Prelude RustStr Digest Types Fixtures Validation Codec Json Http1 Sse Responses Table Sql Db Server ServerSteps.
From S2P Require Import Model Mapping Blob Store StoreSteps Service Delivery Ip Attribution Config Lane LaneFlow LaneStore Uploads.
Local Open Scope string_scope.
Local Open Scope list_scope.
Local Open Scope Z_scope.

#[local] Abbreviation ServerDb := (Database Db.Row).
#[local] Abbreviation receipts := (Db.IngestReceipts).
#[local] Abbreviation Tasks := (Db.Tasks).

(** ** The server's side *)
Section server_side.
Context `{UuidApi} `{DigestApi} `{CborApi} `{ZstdApi} `{HttpApi}.

(** A principal that may read the tasks of [client_id]. *)
Definition reads_client (client_id : string) (q : Principal) : Prop :=
  can_query (pr_role q) = true /\ (is_admin (pr_role q) = true \/ pr_client_id q = client_id).
Lemma find_task_row tref (t : list Db.TaskRow) :
  List.find (fun r => String.eqb (Db.tr_task_ref r) tref) t = find_key (Db.row_key Tasks) tref t.
Proof. apply find_ext. intros r. cbn. by destruct (String.eqb_spec (Db.tr_task_ref r) tref); case_bool_decide. Qed.

(** A new batch leaves the row of each of its uploads. *)
Lemma ingest_task now headers body (db : ServerDb) ack db' d u :
  db_wf db -> Server.ingest now headers body db = Ok (IngestAccepted ack, db') ->
  ak_duplicate ack = false -> decode_body body = Ok d ->
  NoDup (map upload_ref (ib_tasks (db_batch d))) -> u ∈ ib_tasks (db_batch d) ->
  find_key (Db.row_key Tasks) (upload_ref u) (db' Tasks) = Some (Server.task_row (batch_client d) u).
Proof.
  intros Hwf E Hdup Hd Hnd Hu. destruct (ingest_puts _ _ _ _ _ _ _ Hwf E Hdup Hd) as [Hrows _].
  rewrite (Hrows Tasks) by (unfold batch_tables, upload_tables; set_solver). rewrite puts_find.
  assert (batch_rows (db_batch d) Tasks = map (Server.task_row (batch_client d)) (ib_tasks (db_batch d))) as ->.
  { cbn [batch_rows upload_rows]. unfold batch_client. generalize (ib_tasks (db_batch d)) as us.
    induction us as [|x us IH]; [done|]. cbn [map concat app]. f_equal. exact IH. }
  change (upload_ref u) with (Db.row_key Tasks (Server.task_row (batch_client d) u)).
  rewrite find_key_elem; [done| |].
  - unfold keyed. rewrite map_rev, map_map. apply NoDup_ListNoDup, List.NoDup_rev, NoDup_ListNoDup. exact Hnd.
  - apply list_elem_of_In, in_rev. rewrite rev_involutive. apply in_map. by apply list_elem_of_In.
Qed.
Lemma ingest_tokens now headers body (db : ServerDb) resp db' :
  Server.ingest now headers body db = Ok (resp, db') -> db' Db.ApiTokens = db Db.ApiTokens.
Proof. intros E. apply (ingest_frame _ _ _ _ _ _ E). unfold ingest_tables. set_solver. Qed.

(** What the detail of a task shows. *)
Definition detail_at (tref : string) (row : Db.TaskRow) (db : ServerDb) : TaskDetail :=
  mkTaskDetail (Db.tr_snapshot row) (stored Db.Attempts id tref db) (stored Db.TaskEvents id tref db)
    (stored Db.Errors id tref db) (stored Db.CaptureGaps id tref db).
Lemma detail_iff headers tref (db : ServerDb) d db' :
  undisturbed (task_detail headers tref) db = Ok (d, db') <->
  db' = db /\ exists q row, auth_of headers (db Db.ApiTokens) = Ok q
    /\ find_key (Db.row_key Tasks) tref (db Tasks) = Some row /\ reads_client (Db.tr_client_id row) q
    /\ d = detail_at tref row db.
Proof.
  rewrite undisturbed_Ok. unfold task_detail, task_detail_inner. split.
  - intros (log & E & ->). st_inv E.
    repeat match goal with
    | E : authorize _ _ = Ok _ |- _ => apply authorize_Ok in E as [E ->]
    | E : ensure_query_role _ = Ok _ |- _ => apply guard_or_Ok in E
    | E : ensure_task_visible _ _ _ = Ok _ |- _ => apply ensure_task_visible_Ok in E as (-> & row & Hrow & Hc)
    | E : fetch_snapshot _ _ = Ok _ |- _ => apply fetch_snapshot_Ok in E as (-> & row' & Hrow' & ->)
    | E : fetch_payloads _ _ _ _ = Ok _ |- _ => apply fetch_payloads_Ok in E as [-> ->]
    end.
    rewrite find_task_row in Hrow, Hrow'. assert (row' = row) as -> by congruence.
    split; [done|]. eexists _, row. split; [eassumption|]. split_and!; try done. split; [done|].
    destruct Hc; auto.
  - intros [-> (q & row & Ha & Hrow & [Hq Hc] & ->)]. eexists. split.
    + apply st_bind_Ok. eexists _, _. split; [by apply statement_Ok; eexists; split; [apply authorize_Ok|]|].
      apply st_bind_Ok. eexists tt, _. split; [apply st_lift_Ok; by split; [apply guard_or_Ok|]|].
      apply st_bind_Ok. eexists tt, _. split; [apply statement_Ok; eexists; split; [|done]|].
      { apply ensure_task_visible_Ok. split; [done|]. exists row. rewrite find_task_row.
        split; [done|]. destruct Hc; auto. }
      apply st_bind_Ok. eexists _, _. split; [apply statement_Ok; eexists; split; [|done]|].
      { apply fetch_snapshot_Ok. split; [done|]. exists row. by rewrite find_task_row. }
      apply st_bind_Ok. eexists _, _. split; [by apply statement_Ok; eexists; split; [apply fetch_payloads_Ok|]|].
      apply st_bind_Ok. eexists _, _. split; [by apply statement_Ok; eexists; split; [apply fetch_payloads_Ok|]|].
      apply st_bind_Ok. eexists _, _. split; [by apply statement_Ok; eexists; split; [apply fetch_payloads_Ok|]|].
      apply st_bind_Ok. eexists _, _. split; [by apply statement_Ok; eexists; split; [apply fetch_payloads_Ok|]|].
      by apply st_ret_Ok.
    + done.
Qed.
Lemma detail_of_row headers q tref (db : ServerDb) row :
  auth_of headers (db Db.ApiTokens) = Ok q ->
  find_key (Db.row_key Tasks) tref (db Tasks) = Some row -> reads_client (Db.tr_client_id row) q ->
  exists detail, undisturbed (task_detail headers tref) db = Ok (detail, db) /\ td_snapshot detail = Db.tr_snapshot row.
Proof.
  intros Ha Hrow Hq. exists (detail_at tref row db). split; [|done]. apply detail_iff. split; [done|].
  by exists q, row.
Qed.
Lemma detail_forbidden headers q tref (db : ServerDb) row :
  auth_of headers (db Db.ApiTokens) = Ok q -> can_query (pr_role q) = true ->
  find_key (Db.row_key Tasks) tref (db Tasks) = Some row ->
  is_admin (pr_role q) = false -> Db.tr_client_id row <> pr_client_id q ->
  undisturbed (task_detail headers tref) db = Err FORBIDDEN.
Proof.
  intros Ha Hq Hrow Hadm Hc. unfold undisturbed, task_detail, task_detail_inner, ensure_query_role, ensure_task_visible.
  unfold mbind, statements_bind, statement, st_lift, tx_bind. rewrite (proj2 (authorize_Ok headers db q db)) by done.
  rewrite Hq. cbn. rewrite find_task_row, Hrow. cbn. by rewrite Hadm, (proj2 (String.eqb_neq _ _) Hc).
Qed.

(** The batch writes nothing but snapshots. *)
Definition bare (u : TaskUpload) : Prop :=
  tu_attempts u = [] /\ tu_events u = [] /\ tu_errors u = [] /\ tu_gaps u = [].
Lemma bare_rows b t : Forall bare (ib_tasks b) ->
  t ∈ [Db.Attempts; Db.TaskEvents; Db.Errors; Db.CaptureGaps] -> batch_rows b t = [].
Proof.
  intros Hb Ht.
  assert (concat (map (fun u => upload_rows (ci_client_id (ib_client b)) u t) (ib_tasks b)) = []) as E.
  { induction Hb as [|u us (E1 & E2 & E3 & E4) _ IH]; [done|]. cbn [map concat]. rewrite IH, app_nil_r.
    rewrite !elem_of_cons, elem_of_nil in Ht.
    destruct Ht as [->|[->|[->|[->|[]]]]]; cbn [upload_rows]; unfold payload_rows; by rewrite ?E1, ?E2, ?E3, ?E4. }
  rewrite !elem_of_cons, elem_of_nil in Ht. by destruct Ht as [->|[->|[->|[->|[]]]]].
Qed.

(** [C34] A task has no owner.  Tasks are stored under their reference alone, which
    names no client, and an upload replaces the row with its client: when a batch
    of one client has a snapshot with the reference of a task of another, the
    readers of the other are refused the task they could read before, and those
    of the first are shown it, with every attempt, event, error and gap that
    the other had recorded. *)
Theorem task_taken_over now headers body (db : ServerDb) ack db' d u reader q before :
  db_wf db -> Server.ingest now headers body db = Ok (IngestAccepted ack, db') ->
  ak_duplicate ack = false -> decode_body body = Ok d ->
  NoDup (map upload_ref (ib_tasks (db_batch d))) -> Forall bare (ib_tasks (db_batch d)) ->
  u ∈ ib_tasks (db_batch d) ->
  undisturbed (task_detail reader (upload_ref u)) db = Ok (before, db) ->
  auth_of reader (db Db.ApiTokens) = Ok q -> is_admin (pr_role q) = false ->
  pr_client_id q <> batch_client d ->
  undisturbed (task_detail reader (upload_ref u)) db' = Err FORBIDDEN
  /\ forall other t, auth_of other (db Db.ApiTokens) = Ok t -> reads_client (batch_client d) t ->
       undisturbed (task_detail other (upload_ref u)) db'
       = Ok (mkTaskDetail (tu_snapshot u) (td_attempts before) (td_events before) (td_errors before)
               (td_gaps before), db').
Proof.
  intros Hwf E Hdup Hd Hnd Hbare Hu Hbefore Ha Hadm Hne.
  pose proof (ingest_tokens _ _ _ _ _ _ E) as Htok.
  pose proof (ingest_task _ _ _ _ _ _ _ u Hwf E Hdup Hd Hnd Hu) as Hrow.
  destruct (ingest_puts _ _ _ _ _ _ _ Hwf E Hdup Hd) as [Hputs _].
  apply detail_iff in Hbefore as [_ (q' & row & Ha' & _ & [Hq _] & ->)].
  assert (q' = q) as -> by congruence. split.
  - eapply (detail_forbidden reader q); [by rewrite Htok | done | exact Hrow | done|]. cbn. congruence.
  - intros other t Ht Hsees. apply detail_iff. split; [done|].
    exists t, (Server.task_row (batch_client d) u). rewrite Htok. split_and!; try done.
    unfold detail_at, stored. cbn [td_attempts td_events td_errors td_gaps].
    rewrite !Hputs by (unfold batch_tables, upload_tables; set_solver).
    by rewrite !bare_rows by (done || set_solver).
Qed.
End server_side.

(** ** A flush, from the outbox to a reader *)
Section flush.
Context `{UuidApi} `{DigestApi} `{CborApi} `{ZstdApi} `{HttpApi} `{TimeApi} `{ReqwestApi} `{!CodecLaws}.

(** The client's token is good on the server. *)
Record linked (headers : HeaderMap) (server : ServerDb) (client_id : string) : Prop := mk_linked {
  lk_wf : db_wf server;
  lk_auth : exists p, auth_of headers (server Db.ApiTokens) = Ok p /\ can_ingest (pr_role p) = true
    /\ pr_client_id p = client_id }.
(** The batch of a row is one the server does not know. *)
Definition unknown (server : ServerDb) (client_id : string) (r : OutboxRow) : Prop :=
  find_key (Db.row_key receipts) (client_id, ox_batch_id r) (server receipts) = None.
(** The network brings the answer of the server. *)
Definition answered (api : ServerApi) (net : Network) (now : Z) (headers : HeaderMap) (server : ServerDb)
    (r : OutboxRow) : Prop :=
  forall ack server', Server.ingest now headers (ox_body r) server = Ok (IngestAccepted ack, server') ->
    exists a, net (ingest_request api (ox_payload_sha256 r) (ox_body r)) = Ok a
      /\ hs_status a = 200 /\ ack_of_json (hs_body a) = Ok ack.
(** A batch of snapshots without heartbeats, each task once. *)
Record only_tasks (client_id : string) (r : OutboxRow) (b : IngestBatch) : Prop := mk_only_tasks {
  ot_queued : queued client_id r b;
  ot_once : NoDup (map upload_ref (ib_tasks b));
  ot_quiet : ib_heartbeats b = [] }.
(** What every reader of the client is shown of a task. *)
Definition all_shown (server : ServerDb) (client_id tref : string) (snapshot : TaskSnapshot) : Prop :=
  forall reader q, auth_of reader (server Db.ApiTokens) = Ok q -> reads_client client_id q ->
    exists detail, undisturbed (task_detail reader tref) server = Ok (detail, server) /\ td_snapshot detail = snapshot.

Lemma ingest_linked now headers body (server : ServerDb) resp server' client_id :
  Server.ingest now headers body server = Ok (resp, server') -> linked headers server client_id ->
  linked headers server' client_id.
Proof.
  intros E [Hwf Ha]. split; [by eapply (ingest_wf now headers body)|].
  by rewrite (ingest_tokens _ _ _ _ _ _ E).
Qed.
Lemma flush_shows api net ck headers now s r b (server : ServerDb) :
  let c := ci_client_id (cs_client s) in
  linked headers server c -> only_tasks c r b -> unknown server c r -> answered api net now headers server r ->
  next_due_batch (ck_due ck) (cs_db s) = Ok (Some (pending r), cs_db s) ->
  exists ack server' s',
    Server.ingest now headers (ox_body r) server = Ok (IngestAccepted ack, server')
    /\ flush_outbox_once api net ck s = (Ok tt, s')
    /\ cs_db s' outbox = delete_where (is_batch (pending r)) (cs_db s outbox)
    /\ linked headers server' c
    /\ (forall r', ox_batch_id r' <> ox_batch_id r -> unknown server c r' -> unknown server' c r')
    /\ forall u, u ∈ ib_tasks b -> all_shown server' c (upload_ref u) (tu_snapshot u).
Proof.
  intros c Hlink [Hq Hnd Hb] Hun Hans Hdue. pose proof Hlink as [Hwf (p & Ha & Hrole & Hp)].
  destruct (flush_run api net ck headers now p s r b server Hq Hdue Ha Hrole Hp)
    as (d & ack & server' & s' & Hd & Hdb & E & Hdup & _ & Hf & Ho & _).
  { unfold unknown in Hun. rewrite Hp. fold c. rewrite Hun. done. }
  { rewrite Hb, app_nil_r. exact (Hwf Db.Heartbeats). }
  { exact Hans. }
  rewrite Hp in Hdup. fold c in Hdup. unfold unknown in Hun. rewrite Hun in Hdup. cbn [is_some] in Hdup.
  assert (Hc : batch_client d = c).
  { destruct Hq as (e & _ & Hc & _). unfold batch_client. by rewrite Hdb, Hc. }
  exists ack, server', s'. split; [done|]. split; [done|]. split; [done|].
  split; [by eapply ingest_linked|]. split.
  - intros r' Hne Hun'. unfold unknown in *.
    destruct (ingest_puts _ _ _ _ _ _ _ Hwf E Hdup Hd) as [_ ->].
    apply find_key_None. rewrite map_app. apply find_key_None in Hun'. intros [?|Hx]%elem_of_app; [done|].
    apply list_elem_of_singleton in Hx. cbn in Hx. injection Hx as _ Hx. apply Hne. rewrite Hx.
    destruct (queued_decodes _ _ _ Hq) as (d' & Hd' & _ & _ & Hi & _). congruence.
  - intros u Hu reader q Hread Hsees. rewrite (ingest_tokens _ _ _ _ _ _ E) in Hread.
    eapply (detail_of_row reader q _ server' (Server.task_row c u)).
    + by rewrite (ingest_tokens _ _ _ _ _ _ E).
    + rewrite <- Hc. eapply ingest_task; try done; by rewrite Hdb.
    + exact Hsees.
Qed.

Lemma flush_client api (net : Network) ck s :
  ci_client_id (cs_client (flush_outbox_once api net ck s).2) = ci_client_id (cs_client s).
Proof.
  unfold flush_outbox_once, run_db, on_store, and_then. destruct (run_tx _ _) as [[[batch|]|e] db]; try done.
  cbn. destruct (post_ingest _ _ _ _) as [[ack|]|e]; [|done|]; by destruct (run_tx _ _) as [[?|?] ?].
Qed.

(** ** A flush that fails *)
Definition retried (next_attempt : Z) (error : string) (r : OutboxRow) : OutboxRow :=
  mkOutboxRow (ox_batch_id r) (ox_payload_sha256 r) (ox_body r) (ox_record_count r) (ox_created_at r)
    next_attempt (ox_attempt_count r + 1) (Some (truncate_message error)) (ox_is_priority r).
Definition same_id (r r' : OutboxRow) : bool := bool_decide (ox_batch_id r' = ox_batch_id r).
Lemma flush_fails api (net : Network) ck s r e t :
  next_due_batch (ck_due ck) (cs_db s) = Ok (Some (pending r), cs_db s) ->
  net (ingest_request api (ox_payload_sha256 r) (ox_body r)) = Err e ->
  List.find (same_id r) (cs_db s outbox) = Some r ->
  add_seconds (ck_retry ck) (backoff_delay (ox_attempt_count r)) = Some t ->
  exists s', flush_outbox_once api net ck s = (Ok tt, s') /\ cs_client s' = cs_client s
    /\ cs_db s' outbox = update_where (same_id r) (retried (ts t) (error_text e)) (cs_db s outbox).
Proof.
  intros Hdue Hnet Hfind Ht. eexists. split; [|split].
  - unfold flush_outbox_once. unfold run_db at 1. unfold run_tx. rewrite Hdue.
    replace (set_db s (cs_db s)) with s by (by destruct s).
    cbn [on_store and_then map_err fst snd pb_payload_sha256 pb_body pb_batch_id pending].
    unfold post_ingest. rewrite Hnet. cbn [mbind result_bind].
    unfold run_db, run_tx, mark_batch_retry, retry_at, mbind, tx_bind, fetch_optional.
    fold (same_id r). cbn [Row]. rewrite Hfind. cbn -[set_table]. rewrite Ht. reflexivity.
  - reflexivity.
  - cbn [set_db cs_db]. tab_simpl. reflexivity.
Qed.
End flush.

(** ** What is due *)
Lemma due_one `{UuidApi} `{DigestApi} `{CborApi} `{ZstdApi} `{TimeApi} now (db : Database Row) r :
  select (fun r => ox_next_attempt_at r <=? ts now) (db outbox) = [r] ->
  next_due_batch now db = Ok (Some (pending r), db).
Proof.
  intros E. unfold next_due_batch, mbind, tx_bind, fetch_all. cbn [Row] in *.
  by rewrite E.
Qed.
Section overtaken.
Context `{UuidApi} `{DigestApi} `{CborApi} `{ZstdApi} `{HttpApi} `{TimeApi} `{ReqwestApi} `{!CodecLaws}.

(** [C39] A batch that is retried rewinds what came after it.  Two batches of the
    client are due, the first fails on the network and backs off, the second is
    delivered meanwhile, then the first: both are accepted, as new, and the
    outbox is empty; but of a task that both carry the server shows first the
    snapshot of the second and then, for good, the older one of the first. *)
Theorem late_batch_rewinds api (net1 net2 net3 : Network) ck1 ck2 ck3 headers now2 now3 s r1 r2 b1 b2 u1 u2
    (server : ServerDb) e retry :
  let c := ci_client_id (cs_client s) in
  cs_db s outbox = [r1; r2] -> ox_batch_id r1 <> ox_batch_id r2 -> ox_created_at r1 <= ox_created_at r2 ->
  only_tasks c r1 b1 -> only_tasks c r2 b2 -> linked headers server c -> unknown server c r1 -> unknown server c r2 ->
  ox_next_attempt_at r1 <= ts (ck_due ck1) ->
  net1 (ingest_request api (ox_payload_sha256 r1) (ox_body r1)) = Err e ->
  add_seconds (ck_retry ck1) (backoff_delay (ox_attempt_count r1)) = Some retry ->
  ox_next_attempt_at r2 <= ts (ck_due ck2) < ts retry -> ts retry <= ts (ck_due ck3) ->
  answered api net2 now2 headers server r2 ->
  (forall ack2 server2, Server.ingest now2 headers (ox_body r2) server = Ok (IngestAccepted ack2, server2) ->
     answered api net3 now3 headers server2 r1) ->
  u1 ∈ ib_tasks b1 -> u2 ∈ ib_tasks b2 -> upload_ref u1 = upload_ref u2 ->
  exists s1 s2 s3 ack2 ack3 server2 server3,
    flush_outbox_once api net1 ck1 s = (Ok tt, s1)
    /\ flush_outbox_once api net2 ck2 s1 = (Ok tt, s2)
    /\ Server.ingest now2 headers (ox_body r2) server = Ok (IngestAccepted ack2, server2)
    /\ all_shown server2 c (upload_ref u2) (tu_snapshot u2)
    /\ flush_outbox_once api net3 ck3 s2 = (Ok tt, s3)
    /\ Server.ingest now3 headers (ox_body r1) server2 = Ok (IngestAccepted ack3, server3)
    /\ cs_db s3 outbox = []
    /\ all_shown server3 c (upload_ref u2) (tu_snapshot u1).
Proof.
  intros c Hout Hne Hcr Hb1 Hb2 Hlink Hun1 Hun2 Hd1 Hn1 Hretry [Hd2 Hlate] Hd3 Ha2 Ha3 Hu1 Hu2 Href.
  assert (Hdue1 : next_due_batch (ck_due ck1) (cs_db s) = Ok (Some (pending r1), cs_db s)).
  { unfold next_due_batch, mbind, tx_bind, fetch_all. cbn [Row]. rewrite Hout, !select_cons.
    rewrite (proj2 (Z.leb_le _ _)) by done. destruct (_ <=? _); [|done].
    cbn. by rewrite (proj2 (Z.leb_le _ _)). }
  destruct (flush_fails api net1 ck1 s r1 e retry Hdue1 Hn1) as (s1 & Ef1 & Hc1 & Ho1); [|done|].
  { rewrite Hout. cbn. unfold same_id. by rewrite bool_decide_eq_true_2. }
  rewrite Hout in Ho1. cbn in Ho1. unfold same_id in Ho1.
  rewrite bool_decide_eq_true_2, bool_decide_eq_false_2 in Ho1 by done.
  set (r1' := retried (ts retry) (error_text e) r1) in *.
  assert (Hc : ci_client_id (cs_client s1) = c) by by rewrite Hc1.
  destruct (flush_shows api net2 ck2 headers now2 s1 r2 b2 server)
    as (ack2 & server2 & s2 & Ei2 & Ef2 & Ho2 & Hlink2 & Hun & Hshow2); rewrite ?Hc; try done.
  { apply due_one. rewrite Ho1, !select_cons. cbn [r1' retried ox_next_attempt_at].
    by rewrite (proj2 (Z.leb_gt _ _)), (proj2 (Z.leb_le _ _)). }
  rewrite Hc in Hlink2, Hun, Hshow2. rewrite Ho1 in Ho2. cbn in Ho2. unfold is_batch in Ho2.
  cbn [r1' retried pending ox_batch_id pb_batch_id pb_payload_sha256] in Ho2.
  rewrite bool_decide_eq_false_2, bool_decide_eq_true_2, String.eqb_refl in Ho2 by done. cbn in Ho2.
  fold r1' in Ho2.
  assert (Hc2 : ci_client_id (cs_client s2) = c).
  { rewrite <- Hc. by pose proof (flush_client api net2 ck2 s1) as Hk; rewrite Ef2 in Hk. }
  destruct (flush_shows api net3 ck3 headers now3 s2 r1' b1 server2)
    as (ack3 & server3 & s3 & Ei3 & Ef3 & Ho3 & _ & _ & Hshow3); rewrite ?Hc2; try done.
  { destruct Hb1. by split. }
  { exact (Hun r1 Hne Hun1). }
  { exact (Ha3 _ _ Ei2). }
  { apply due_one. rewrite Ho2, select_cons. cbn [r1' retried ox_next_attempt_at].
    by rewrite (proj2 (Z.leb_le _ _)). }
  exists s1, s2, s3, ack2, ack3, server2, server3. split_and!; try done.
  - by apply Hshow2.
  - rewrite Ho3, Ho2. cbn. unfold is_batch. cbn. by rewrite bool_decide_eq_true_2, String.eqb_refl.
  - rewrite <- Href. rewrite Hc2 in Hshow3. by apply Hshow3.
Qed.
End overtaken.

(** ** Captured and shown *)
Section captured.
Context `{UuidApi} `{DigestApi} `{CborApi} `{ZstdApi} `{TimeApi}
  `{HttparseApi} `{HttpApi} `{!UriApi} `{DecompressApi} `{JsonApi} `{!JsonViewApi} `{H2.HpackApi}
  `{ReqwestApi} `{!CodecLaws}.

(** The batch of a projected exchange: one row, with the snapshot of its task. *)
Lemma exchange_queued x w t l batch t' l' sp o s' :
  alone w -> project_exchange x w (t, l) = (Ok batch, (t', l')) -> is_empty batch = false ->
  persist_ingress sp (cb_records batch) (cb_contents batch) (ln_store l') = (Ok o, s') ->
  cs_db (ln_store l') outbox = [] ->
  forall row, task_at (task_ref (lane_task l x)) (cs_db s') = Some row ->
  exists r b u id, cs_db s' outbox = [r] /\ only_tasks (ci_client_id (cs_client s')) r b
    /\ u ∈ ib_tasks b /\ upload_ref u = task_ref (lane_task l x)
    /\ tu_snapshot u = snapshot_of id (task_ref (lane_task l x)) row.
Proof.
  intros Hw E Hne Es Hout row Hrow.
  destruct (exchange_records _ _ _ _ _ _ _ Hw E) as [-> [->|(cur & name & st & id & up & te & fin & h & _ & Er)]];
    [done|].
  assert (Hc : ci_client_id (cs_client s') = ci_client_id (cs_client (ln_store l)))
    by (pose proof (persist_keeps_client sp (cb_records batch) (cb_contents batch) (ln_store l)) as Hk;
        rewrite Es in Hk; cbn in Hk; by rewrite Hk).
  destruct (persist_carries _ _ _ _ _ _ Es) as (rows & ws & Ho & Hr & Ht & Hb & Hl).
  rewrite Hout in Ho. cbn [app] in Ho. rewrite <- Hc in Hr.
  edestruct Ht as (b & Hin & Href).
  { rewrite Er. do 4 (apply elem_of_cons; right). by apply elem_of_cons; left. }
  { cbn [trn_task transition_of exchange_summary tsm_task]. by rewrite Hrow. }
  cbn [trn_task transition_of exchange_summary tsm_task] in Href.
  specialize (Hb ltac:(by rewrite Er)). specialize (Hl ltac:(rewrite Er; cbn; lia)).
  destruct Hr as [|r b' rows ws [Hq Hs Hnd] Hr]; [set_solver|].
  destruct rows; [|cbn in Hl; lia]. apply Forall2_nil_inv_l in Hr as ->.
  apply list_elem_of_singleton in Hin as ->. apply list_elem_of_fmap in Href as (u & Href & Hu).
  rewrite Forall_forall in Hs. destruct (Hs u Hu) as (i & row' & Hrow' & Hsn).
  rewrite <- Href, Hrow in Hrow'. injection Hrow' as <-. rewrite <- Href in Hsn.
  exists r, b', u, i. split; [done|]. split; [|done]. split; [done..|].
  by apply Forall_cons in Hb as [? _].
Qed.

(** [C4] From the wire to the reader.  When an exchange of a turn that was not known
    yet has been captured and persisted, and the outbox held nothing else, one
    flush over a working network brings it to the server, and every reader of
    the client is then shown the task as the exchange left it: moved on by exactly
    one sequence number and one attempt, in the phase, with the outcome, the
    completeness and the usage the projection of the exchange has, and with its
    tools and response identifiers added to those before.  The parent and the root
    turn are shown only if the task was known before: the session record is
    applied first, so those of the first exchange of a task are lost. *)
Theorem captured_turn_shown x w t l batch t' l' sp o s1 api net ck headers now (server : ServerDb) :
  alone w -> project_exchange x w (t, l) = (Ok batch, (t', l')) -> is_empty batch = false ->
  persist_ingress sp (cb_records batch) (cb_contents batch) (ln_store l') = (Ok o, s1) ->
  let task := lane_task l x in
  let a := dx_attempt x in
  let p := map_attempt_projection a in
  let old := task_row task l in
  (forall r, old = Some r -> 0 <= at_sequence r < u64_max /\ 0 <= at_attempt_count r < u32_max) ->
  let c := ci_client_id (cs_client s1) in
  cs_db (ln_store l') outbox = [] -> linked headers server c ->
  (forall r, r ∈ cs_db s1 outbox -> ox_next_attempt_at r <= ts (ck_due ck) /\ unknown server c r
     /\ answered api net now headers server r) ->
  exists r ack server' s2 snapshot,
    cs_db s1 outbox = [r]
    /\ Server.ingest now headers (ox_body r) server = Ok (IngestAccepted ack, server')
    /\ flush_outbox_once api net ck s1 = (Ok tt, s2) /\ cs_db s2 outbox = []
    /\ all_shown server' c (task_ref task) snapshot
    /\ ts_sequence snapshot = from_option (fun r => at_sequence r + 1) 1 old
    /\ ts_attempt_count snapshot = from_option (fun r => at_attempt_count r + 1) 1 old
    /\ ts_phase snapshot = map_phase (pj_task_phase p)
    /\ ts_terminal snapshot = map_outcome <$> pj_task_outcome p
    /\ ts_integrity snapshot = map_integrity (pj_completeness p)
    /\ ts_tool_names snapshot = Lane.merge_unique (from_option at_tool_names [] old) (pj_tool_names p)
    /\ ts_response_ids snapshot
       = Lane.merge_unique (from_option at_response_ids [] old) (option_list (pj_response_id p))
    /\ ts_usage snapshot = map_usage (merge_usage (at_usage <$> old) (Some (pj_usage p)))
    /\ is_some (ts_last_error snapshot) = is_some (pj_error p)
    /\ cm_parent_turn_id (ts_codex snapshot)
       = from_option (fun r => opt_or (cm_parent_turn_id (da_codex a)) (at_parent_turn_id r)) None old
    /\ cm_root_turn_id (ts_codex snapshot)
       = from_option (fun r => opt_or (cm_root_turn_id (da_codex a)) (at_root_turn_id r)) None old.
Proof.
  intros Hw E Hne Es task a p old Hold c Hout Hlink Hrows.
  destruct (exchange_recorded _ _ _ _ _ _ _ _ _ _ Hw E Hne Es Hold)
    as (row & Hrow & Hq & Hn & Hp & Ho & Hcm & He & Htn & Hri & Hu & Hpt & Hrt).
  destruct (exchange_queued _ _ _ _ _ _ _ _ _ _ Hw E Hne Es Hout row Hrow) as (r & b & u & id & Hr & Hb & Hin & Href & Hsn).
  fold c in Hb. destruct (Hrows r) as (Hdue & Hun & Hans); [rewrite Hr; set_solver|].
  destruct (flush_shows api net ck headers now s1 r b server Hlink Hb Hun Hans)
    as (ack & server' & s2 & Ei & Ef & Hs2 & _ & _ & Hshow).
  { apply due_one. rewrite Hr. cbn [select List.filter]. by rewrite (proj2 (Z.leb_le _ _)). }
  exists r, ack, server', s2, (tu_snapshot u). split; [done|]. split; [done|]. split; [done|].
  split. { rewrite Hs2, Hr. cbn. unfold is_batch, pending. cbn. by rewrite bool_decide_eq_true_2, String.eqb_refl. }
  fold task in Href. split; [rewrite <- Href; by apply Hshow|]. rewrite Hsn. cbn [snapshot_of ts_sequence ts_attempt_count ts_phase
    ts_terminal ts_integrity ts_tool_names ts_response_ids ts_usage ts_last_error ts_codex cm_parent_turn_id cm_root_turn_id].
  rewrite Hq, Hn, Hp, Ho, Hcm, He, Htn, Hri, Hu, Hpt, Hrt. split_and!; try done. by destruct (pj_error _).
Qed.
End captured.
