(* ===== verification/EndToEndFixture.v ===== *)
(** * Concrete runs from the client to the reader

    A client, a network and a server with small concrete parameters, and the
    witnesses of the theorems of [EndToEnd] on them.  Nothing here models code. *)
From Stdlib Require Import ZArith Lia Strings.Byte Strings.String.
From S2P Require Import H2 Discovery.
From S2P Require Import Prelude RustStr Digest Types Fixtures Validation Reducer Codec Json Http1 Sse Responses Table Sql Db Server ServerSteps.
From S2P Require Import Model Mapping Blob Store StoreSteps Service Delivery Ip Attribution Config Lane LaneFlow LaneStore LaneFixture Uploads EndToEnd.
Local Open Scope string_scope.
Local Open Scope list_scope.
Local Open Scope Z_scope.

(** ** The batches, built before anything encodes them *)
Module Batches.
Import TimeFixture CodecFixture BlobFixture HttpFixture ResponsesFixture LaneFixture.
Definition supply (n : N) : Supply :=
  mkSupply (fun b => uuid7 (n + N.of_nat b)) (fun b i => uuid7 (10 * n + 1000 * N.of_nat (S b) + N.of_nat i))
    (fun b i => uuid7 (20 * n + 2000 * N.of_nat (S b) + N.of_nat i)) (fun _ => 5000) (fun _ => 5000) (fun _ => 5000).
Definition summary (sequence : Z) (phase : TaskPhase) (outcome : option TaskOutcome) : SummaryRecord :=
  SummaryRecord_Task
    {| tsm_task := StoreFixture.key; tsm_conversation_title := Some "title"; tsm_phase := phase;
       tsm_outcome := outcome; tsm_sequence := sequence; tsm_last_event_id := uuid7 40;
       tsm_started_at := 5 * 10 ^ 9; tsm_updated_at := 5 * 10 ^ 9;
       tsm_terminal_at := if outcome then Some (5 * 10 ^ 9) else None; tsm_attempt_count := 1;
       tsm_model := None; tsm_tool_names := []; tsm_response_ids := []; tsm_usage := no_usage;
       tsm_completeness := Completeness_Complete; tsm_last_error := None |}.
Definition running : list SummaryRecord := [summary 1 TaskPhase_Running None].
Definition ended : list SummaryRecord := [summary 3 TaskPhase_Terminal (Some TaskOutcome_Completed)].
(** The database after records and contents, and the batch of the records. *)
Definition apply (records : list SummaryRecord) (contents : list StoredContentInput) (db : Database Row)
    : list SummaryRecord * Database Row :=
  match apply_records (map normalize_record records) db with
  | Ok ((accepted, _), db1) =>
    match store_contents "/blobs" contents ∅ db1 with
    | (_, Ok db2) => (accepted, db2)
    | (_, Err _) => ([], db1)
    end
  | Err _ => ([], db)
  end.
Definition build (n : N) (r : list SummaryRecord * Database Row) : IngestBatch :=
  match build_wire_batch_tx StoreFixture.client (supply n) 0 r.1 r.2 with
  | Ok (w, _) => w
  | Err _ => sample_batch
  end.
Definition batch_running : IngestBatch := build 100 (apply running [] no_rows).
Definition batch_ended : IngestBatch := build 200 (apply ended [] (apply running [] no_rows).2).
Definition projected : result LaneError CaptureBatch * (nat * LiveCaptureLane) :=
  (x ← exchange2; project_exchange x) world (200%nat, lane0).
Definition batch_captured : IngestBatch :=
  match projected.1 with
  | Ok b => build 300 (apply (cb_records b) (cb_contents b) no_rows)
  | Err _ => sample_batch
  end.
(** The upload of a reduced task, and a bare one under the same reference by another
    client. *)
Definition reduced : TaskSnapshot :=
  fold_left (fun s e => (Reducer.apply s e).1) sample_events sample_snapshot.
Definition batch_owner : IngestBatch :=
  mkIngestBatch 1 (uuid7 400) 1000 (mkClientInstance "client" (uuid7 2) "host" "linux" "0.1" 900)
    [mkTaskUpload reduced [] sample_events [] []] [].
Definition batch_other : IngestBatch :=
  mkIngestBatch 1 (uuid7 500) 1000 (mkClientInstance "other" (uuid7 9) "host" "linux" "0.1" 900)
    [mkTaskUpload sample_snapshot [] [] [] []] [].
End Batches.

Module EndToEndFixture.
Import TimeFixture CodecFixture BlobFixture HttpFixture ResponsesFixture LaneFixture ServerFixture Batches.
(** A CBOR writer that knows the five batches. *)
#[export] Instance cbor : CborApi := {|
  ser_error := unit; de_error := unit;
  into_writer b :=
    if decide (b = batch_running) then Ok [x2a; x01] else
    if decide (b = batch_ended) then Ok [x2a; x02] else
    if decide (b = batch_captured) then Ok [x2a; x03] else
    if decide (b = batch_owner) then Ok [x2a; x04] else
    if decide (b = batch_other) then Ok [x2a; x05] else Err tt;
  from_reader p :=
    if decide (take 2 p = [x2a; x01]) then Ok (batch_running, 2%nat) else
    if decide (take 2 p = [x2a; x02]) then Ok (batch_ended, 2%nat) else
    if decide (take 2 p = [x2a; x03]) then Ok (batch_captured, 2%nat) else
    if decide (take 2 p = [x2a; x04]) then Ok (batch_owner, 2%nat) else
    if decide (take 2 p = [x2a; x05]) then Ok (batch_other, 2%nat) else Err tt |}.
#[export] Instance laws : CodecLaws.
Proof.
  split.
  - intros b p. cbn -[batch_running batch_ended batch_captured batch_owner batch_other].
    repeat (case_decide; [intros [= <-]; subst; reflexivity|]). done.
  - intros p level c [= <-]. done.
Qed.
Example encodes : forallb (fun b => is_ok (encode_batch b))
  [batch_running; batch_ended; batch_captured; batch_owner; batch_other] = true.
Proof. vm_compute. reflexivity. Qed.

(** ** Checks of what the theorems ask for *)
Definition queued_check (client_id : string) (r : OutboxRow) (b : IngestBatch) : bool :=
  match encode_batch b with
  | Ok e => bool_decide (ci_client_id (ib_client b) = client_id) && negb (bool_decide (ib_tasks b = []))
            && bool_decide (ox_batch_id r = eb_batch_id e) && String.eqb (ox_payload_sha256 r) (eb_payload_sha256 e)
            && bool_decide (ox_body r = eb_bytes e) && bool_decide (NoDup (map upload_ref (ib_tasks b)))
            && bool_decide (ib_heartbeats b = [])
  | Err _ => false
  end.
Lemma only_tasks_check client_id r b : queued_check client_id r b = true -> only_tasks client_id r b.
Proof.
  unfold queued_check. destruct (encode_batch b) as [e|] eqn:E; [|done]. rewrite !andb_true_iff.
  intros ((((((H1%bool_decide_eq_true & H2%negb_true_iff) & H3%bool_decide_eq_true) & H4%String.eqb_eq)
    & H5%bool_decide_eq_true) & H6%bool_decide_eq_true) & H7%bool_decide_eq_true).
  apply bool_decide_eq_false in H2. split; [|done|done]. exists e. split_and!; try done. by intros [? _].
Qed.
Definition headers : HeaderMap := bearer_of "secret".
Lemma linked_client : linked headers db0 "client".
Proof. split; [exact db0_wf|]. exists ServerFixture.client. split; [|done]. vm_compute. reflexivity. Qed.
Definition take_in (body : bytes) (db : Database Db.Row) : IngestAck * Database Db.Row :=
  match Server.ingest 7000 headers body db with
  | Ok (IngestAccepted a, db') => (a, db')
  | _ => (mkIngestAck 0 "" 0 0 true, db)
  end.
Definition no_row : OutboxRow := mkOutboxRow 0%N "" [] 0 0 0 0 None false.
Definition rows_of (s : ClientStore) : list OutboxRow := cs_db s outbox.

(** ** A retried batch *)
Definition store_two : ClientStore :=
  run_op (OpPersist (supply 200) ended [])
    (run_op (OpPersist (supply 100) running []) (open_empty "/blobs" StoreFixture.client)).
Definition row1 : OutboxRow := hd no_row (rows_of store_two).
Definition row2 : OutboxRow := hd no_row (tl (rows_of store_two)).
Definition server2 : Database Db.Row := (take_in (ox_body row2) db0).2.
Definition ack1 : IngestAck := (take_in (ox_body row1) server2).1.
Definition ack2 : IngestAck := (take_in (ox_body row2) db0).1.
(** The captured exchange, persisted. *)
Definition exchange : LaneM DecodedExchange :=
  request_msg ← http (parse_http_request request);
  response_msg ← http (parse_http_response response2);
  decode_exchange request response2 request_msg response_msg 5000.
Lemma exchange_lane w t l x t' l' : exchange w (t, l) = (Ok x, (t', l')) -> l' = l.
Proof.
  intros E. unfold exchange, decode_exchange, http, LaneFlow.lift in E.
  do 4 (apply lane_bind_Ok in E as (? & ? & [= _ <-] & E)). by injection E as _ _ <-.
Qed.
Definition captured : result LaneError CaptureBatch * (nat * LiveCaptureLane) :=
  (x ← exchange; project_exchange x) world (200%nat, lane0).
Definition store_captured : ClientStore :=
  match captured.1 with
  | Ok b => (persist_ingress (supply 300) (cb_records b) (cb_contents b) (ln_store captured.2.2)).2
  | Err _ => store_two
  end.
Lemma store_captured_eq b t l : captured = (Ok b, (t, l)) ->
  store_captured = (persist_ingress (supply 300) (cb_records b) (cb_contents b) (ln_store l)).2.
Proof. unfold store_captured. by intros ->. Qed.
Lemma captured_parts b t l : captured = (Ok b, (t, l)) ->
  exists x t1, exchange world (200%nat, lane0) = (Ok x, (t1, lane0))
    /\ project_exchange x world (t1, lane0) = (Ok b, (t, l)).
Proof.
  unfold captured. intros (x & [t1 l1] & E1 & E2)%lane_bind_Ok.
  pose proof (exchange_lane _ _ _ _ _ _ E1) as ->. by exists x, t1.
Qed.
Definition row3 : OutboxRow := hd no_row (rows_of store_captured).
Definition ack3 : IngestAck := (take_in (ox_body row3) db0).1.
#[export] Instance reqwest : ReqwestApi := {|
  reqwest_error := Z; error_text := show_Z; status_error z := z;
  json_of_manifests _ := []; json_of_chunk _ := []; json_of_result _ := [];
  ack_of_json b := Ok (match b with [x01] => ack1 | [x02] => ack2 | _ => ack3 end);
  poll_of_json _ := Ok (mkCommandPollResponse 0 []) |}.
Definition api : ServerApi := ServerApi_new "https://watch.example/" "secret".
Definition at_ (seconds : Z) : Clock :=
  mkClock (seconds * 10 ^ 9) (fun _ => 1000 * seconds) (seconds * 10 ^ 9) (1000 * seconds) (1000 * seconds).
Definition down : Network := fun _ => Err 7.
Definition up (b : byte) : Network := fun _ => Ok (mkHttpResponse 200 [b]).
Lemma take_in_answer body db ack db' :
  Server.ingest 7000 headers body db = Ok (IngestAccepted ack, db') -> take_in body db = (ack, db').
Proof. unfold take_in. by intros ->. Qed.

(** What the network [up] brings is what the server answers. *)
Lemma up_answers b server row :
  ack_of_json [b] = Ok (take_in (ox_body row) server).1 -> answered api (up b) 7000 headers server row.
Proof.
  intros Hb ack v E. exists (mkHttpResponse 200 [b]). split; [reflexivity|]. split; [reflexivity|].
  cbn [hs_body]. by rewrite Hb, (take_in_answer _ _ _ _ E).
Qed.
Lemma reader_sees tref snapshot (v : Database Db.Row) :
  all_shown v "client" tref snapshot -> v Db.ApiTokens = db0 Db.ApiTokens ->
  exists d, undisturbed (task_detail (bearer_of "reader") tref) v = Ok (d, v) /\ td_snapshot d = snapshot.
Proof.
  intros Hs Ht. apply (Hs _ (mkPrincipal "client" TokenRole_Reader)).
  - rewrite Ht. vm_compute. reflexivity.
  - split; [reflexivity | right; reflexivity].
Qed.
Lemma unknown_to_db0 client_id row : unknown db0 client_id row.
Proof. unfold unknown. assert (db0 Db.IngestReceipts = []) as -> by (vm_compute; reflexivity). reflexivity. Qed.
Definition told (u : TaskUpload) : string * Z * Types.TaskPhase :=
  (upload_ref u, ts_sequence (tu_snapshot u), ts_phase (tu_snapshot u)).
Lemma first_told b x : told <$> hd_error (ib_tasks b) = Some x -> exists u, u ∈ ib_tasks b /\ told u = x.
Proof.
  destruct (ib_tasks b) as [|u us]; [discriminate|]. cbn. intros [= <-]. exists u.
  split; [apply elem_of_cons; by left | reflexivity].
Qed.
Lemma two_rows : cs_db store_two outbox = [row1; row2].
Proof.
  unfold row1, row2, rows_of. assert (length (cs_db store_two outbox) = 2%nat) as Hl by (vm_compute; reflexivity).
  destruct (cs_db store_two outbox) as [|? [|? [|? ?]]]; try discriminate Hl. reflexivity.
Qed.

Lemma late_batch_rewinds_witness : exists server2 server3 d2 d3,
  undisturbed (task_detail (bearer_of "reader") "session:thread:turn") server2 = Ok (d2, server2)
  /\ (ts_sequence (td_snapshot d2), ts_phase (td_snapshot d2)) = (3, Types.TaskPhase_Terminal)
  /\ undisturbed (task_detail (bearer_of "reader") "session:thread:turn") server3 = Ok (d3, server3)
  /\ (ts_sequence (td_snapshot d3), ts_phase (td_snapshot d3)) = (1, Types.TaskPhase_Running).
Proof.
  assert (ci_client_id (cs_client store_two) = "client") as Hc by (vm_compute; reflexivity).
  destruct (first_told batch_running ("session:thread:turn", 1, Types.TaskPhase_Running)) as (u1 & I1 & S1);
    [vm_compute; reflexivity|]. injection S1 as R1 Q1 P1.
  destruct (first_told batch_ended ("session:thread:turn", 3, Types.TaskPhase_Terminal)) as (u2 & I2 & S2);
    [vm_compute; reflexivity|]. injection S2 as R2 Q2 P2.
  destruct (late_batch_rewinds api down (up x02) (up x01) (at_ 6) (at_ 7) (at_ 1000) headers 7000 7000 store_two
              row1 row2 batch_running batch_ended u1 u2 db0 7 (6 * 10 ^ 9 + backoff_delay 0 * 10 ^ 9))
    as (s1 & s2 & s3 & a2 & a3 & v2 & v3 & _ & _ & Ei2 & Hs2 & _ & Ei3 & _ & Hs3).
  all: rewrite ?Hc.
  - exact two_rows.
  - assert (bool_decide (ox_batch_id row1 <> ox_batch_id row2) = true) as Hne%bool_decide_eq_true
      by (vm_compute; reflexivity). exact Hne.
  - apply Z.leb_le. vm_compute. reflexivity.
  - apply only_tasks_check. vm_compute. reflexivity.
  - apply only_tasks_check. vm_compute. reflexivity.
  - exact linked_client.
  - apply unknown_to_db0.
  - apply unknown_to_db0.
  - apply Z.leb_le. vm_compute. reflexivity.
  - reflexivity.
  - vm_compute. reflexivity.
  - split; [apply Z.leb_le | apply Z.ltb_lt]; vm_compute; reflexivity.
  - apply Z.leb_le. vm_compute. reflexivity.
  - apply up_answers. reflexivity.
  - intros ack v E. apply up_answers. unfold server2, ack1.
    cbn [ack_of_json reqwest]. unfold ack1, server2. by rewrite (take_in_answer _ _ _ _ E).
  - exact I1.
  - exact I2.
  - by rewrite R1, R2.
  - rewrite R2, Hc in Hs2, Hs3. pose proof (ingest_tokens _ _ _ _ _ _ Ei2) as T2.
    pose proof (eq_trans (ingest_tokens _ _ _ _ _ _ Ei3) T2) as T3.
    destruct (reader_sees _ _ _ Hs2 T2) as (d2 & D2 & F2).
    destruct (reader_sees _ _ _ Hs3 T3) as (d3 & D3 & F3).
    exists v2, v3, d2, d3. rewrite F2, F3, Q1, P1, Q2, P2.
    exact (conj D2 (conj eq_refl (conj D3 eq_refl))).
Defined.

(** ** A captured exchange *)
Lemma captured_succeeds :
  match captured with
  | (Ok b, (_, l)) =>
    negb (is_empty b) && is_ok (persist_ingress (supply 300) (cb_records b) (cb_contents b) (ln_store l)).1
  | (Err _, _) => false
  end = true.
Proof. vm_compute. reflexivity. Qed.
Lemma captured_tells :
  match (x ← exchange; b ← project_exchange x; LaneFlow.lift (Ok (x, b))) world (200%nat, lane0) with
  | (Ok (x, _), _) =>
    bool_decide (task_ref (lane_task lane0 x) = "s:t:u" /\ task_row (lane_task lane0 x) lane0 = None)
    && bool_decide (pj_task_phase (map_attempt_projection (dx_attempt x)) = TaskPhase_Terminal
         /\ pj_task_outcome (map_attempt_projection (dx_attempt x)) = Some TaskOutcome_Completed
         /\ pj_response_id (map_attempt_projection (dx_attempt x)) = Some "r2")
  | (Err _, _) => false
  end = true.
Proof. vm_compute. reflexivity. Qed.
Lemma captured_row : rows_of store_captured = [row3] /\ ci_client_id (cs_client store_captured) = "client".
Proof.
  split; [|vm_compute; reflexivity]. unfold row3.
  assert (length (rows_of store_captured) = 1%nat) as Hl by (vm_compute; reflexivity).
  destruct (rows_of store_captured) as [|? [|? ?]]; try discriminate Hl. reflexivity.
Qed.
Lemma captured_turn_shown_witness : exists server' detail,
  undisturbed (task_detail (bearer_of "reader") "s:t:u") server' = Ok (detail, server')
  /\ ts_sequence (td_snapshot detail) = 1 /\ ts_phase (td_snapshot detail) = Types.TaskPhase_Terminal
  /\ ts_terminal (td_snapshot detail) = Some TerminalOutcome_Completed
  /\ ts_response_ids (td_snapshot detail) = ["r2"].
Proof.
  pose proof captured_succeeds as Hok. pose proof captured_tells as Hx. destruct captured_row as [Hrow Hc].
  assert (ox_next_attempt_at row3 = 5000) as Hdue by (vm_compute; reflexivity).
  assert (cs_db (ln_store lane0) outbox = []) as Hempty by reflexivity.
  destruct captured as [[b|e] [t l]] eqn:E; [|discriminate Hok].
  rewrite (store_captured_eq _ _ _ E) in Hrow, Hc. apply andb_true_iff in Hok as [He%negb_true_iff Hs].
  apply captured_parts in E as (x & t1 & E1 & E2).
  unfold mbind, lane_bind in Hx. rewrite E1, E2 in Hx. cbn [LaneFlow.lift] in Hx.
  apply andb_true_iff in Hx as [[Href Hnone]%bool_decide_eq_true (Hph & Hoc & Hri)%bool_decide_eq_true].
  destruct (persist_ingress _ _ _ _) as [[o|e] s1] eqn:Es in Hs; [|discriminate Hs].
  rewrite Es in Hrow, Hc. cbn [snd] in Hrow, Hc.
  destruct (exchange_records _ _ _ _ _ _ _ alone_world E2) as [Hl _].
  destruct (captured_turn_shown x world t1 lane0 b t l (supply 300) o s1 api (up x03) (at_ 6) headers 7000 db0
              alone_world E2 He Es)
    as (r & ack & v & s2 & snapshot & _ & Ei & _ & _ & Hshow & Hq & _ & Hp & Ht & _ & _ & Hr & _).
  - intros row Ho. rewrite Hnone in Ho. discriminate Ho.
  - rewrite Hl. exact Hempty.
  - rewrite Hc. exact linked_client.
  - unfold rows_of in Hrow. rewrite Hrow, Hc. intros r Hr. apply list_elem_of_singleton in Hr as ->.
    split; [rewrite Hdue; apply Z.leb_le; vm_compute; reflexivity|].
    split; [apply unknown_to_db0 | apply up_answers; reflexivity].
  - rewrite Hnone in Hq, Hr. rewrite Hri in Hr. rewrite Hph in Hp. rewrite Hoc in Ht. rewrite Hc, Href in Hshow.
    destruct (reader_sees _ _ _ Hshow (ingest_tokens _ _ _ _ _ _ Ei)) as (d & D & F).
    exists v, d. rewrite F. exact (conj D (conj Hq (conj Hp (conj Ht Hr)))).
Defined.

(** ** Two clients *)
Definition bytes_of (b : IngestBatch) : bytes := match encode_batch b with Ok e => eb_bytes e | Err _ => [] end.
(** The server has the owner's task and two tokens of another client. *)
Definition db_owned : Database Db.Row :=
  (run_tx (Server.ingest 2000 (bearer_of "secret") (bytes_of batch_owner))
    (exec (issue_token "other" "peek" (Some TokenRoleArg_Reader) false 1 2)
      (exec (issue_token "other" "theirs" None false 1 2) db0))).2.
Lemma db_owned_wf : db_wf db_owned.
Proof.
  apply (run_tx_rel (keeps db_wf)); [apply ingest_wf|].
  apply (run_tx_rel (keeps db_wf)); [apply issue_token_wf|].
  apply (run_tx_rel (keeps db_wf)); [apply issue_token_wf | exact db0_wf].
Qed.
Lemma task_taken_over_witness : exists before db' detail,
  undisturbed (task_detail (bearer_of "reader") "session:thread:turn") db_owned = Ok (before, db_owned)
  /\ length (td_events before) = 4%nat
  /\ undisturbed (task_detail (bearer_of "reader") "session:thread:turn") db' = Err FORBIDDEN
  /\ undisturbed (task_detail (bearer_of "peek") "session:thread:turn") db' = Ok (detail, db')
  /\ td_events detail = td_events before.
Proof.
  assert (match Server.ingest 3000 (bearer_of "theirs") (bytes_of batch_other) db_owned with
          | Ok (IngestAccepted a, _) => negb (ak_duplicate a)
          | _ => false
          end = true) as Hok by (vm_compute; reflexivity).
  assert (match undisturbed (task_detail (bearer_of "reader") "session:thread:turn") db_owned with
          | Ok (d, _) => Nat.eqb (length (td_events d)) 4
          | Err _ => false
          end = true) as Hbefore by (vm_compute; reflexivity).
  assert (match decode_body (bytes_of batch_other) with
          | Ok d => bool_decide (db_batch d = batch_other)
          | Err _ => false
          end = true) as Hdec by (vm_compute; reflexivity).
  destruct (Server.ingest 3000 _ _ _) as [[[?|a] db']|?] eqn:E; try discriminate Hok. apply negb_true_iff in Hok.
  destruct (undisturbed _ _) as [[before v]|?] eqn:Eb; [|discriminate Hbefore]. apply Nat.eqb_eq in Hbefore.
  assert (v = db_owned) as -> by (apply detail_iff in Eb as [Hv _]; exact Hv).
  destruct (decode_body _) as [d|?] eqn:Ed; [|discriminate Hdec]. apply bool_decide_eq_true in Hdec.
  destruct (task_taken_over 3000 (bearer_of "theirs") (bytes_of batch_other) db_owned a db' d
              (mkTaskUpload sample_snapshot [] [] [] []) (bearer_of "reader")
              (mkPrincipal "client" TokenRole_Reader) before db_owned_wf E Hok Ed)
    as [Href Hpeek]; try (rewrite Hdec); try (unfold batch_client; rewrite Hdec).
  - apply (bool_decide_unpack _). vm_compute. exact I.
  - constructor; [|constructor]. split_and!; reflexivity.
  - apply elem_of_cons. by left.
  - exact Eb.
  - vm_compute. reflexivity.
  - reflexivity.
  - discriminate.
  - assert (auth_of (bearer_of "peek") (db_owned Db.ApiTokens) = Ok (mkPrincipal "other" TokenRole_Reader)) as Hp
      by (vm_compute; reflexivity).
    unfold batch_client in Hpeek. rewrite Hdec in Hpeek.
    pose proof (Hpeek _ _ Hp (conj eq_refl (or_intror eq_refl))) as Hd.
    exists before, db', (mkTaskDetail sample_snapshot (td_attempts before) (td_events before) (td_errors before) (td_gaps before)).
    exact (conj eq_refl (conj Hbefore (conj Href (conj Hd eq_refl)))).
Defined.
End EndToEndFixture.
