(* ===== verification/Announce.v ===== *)
(** * From the server to the notifier

    The notifier polls one page of the tasks of its client, the newest five
    hundred.  A task that calls for a notice is announced by the next poll that
    goes well, if it is on that page ([stored_task_announced]); what lies beyond is
    never looked at, since the notifier follows no cursor and the server ignores
    it. *)
From Stdlib Require Import ZArith Lia Sorting.Sorted Strings.Byte Strings.String.
From S2P Require Import Model Prelude RustStr Digest Types Fixtures Codec Http1 Table Sql Db Server Mapping.
From S2P Require Import Notifier.
Local Open Scope string_scope.
Local Open Scope list_scope.
Local Open Scope Z_scope.

(** ** The first elements of a sorted list *)
Lemma sorted_take {A} (le : A -> A -> bool) (l : list A) (x : A) n :
  StronglySorted (fun a b => le a b = true) l -> le x x = true -> x ∈ l ->
  (length (select (fun y => le y x) l) <= n)%nat -> x ∈ take n l.
Proof.
  intros Hs Hx. revert n. induction Hs as [|y l Hs IH Hy]; intros n Hin; [set_solver|].
  rewrite select_cons. apply elem_of_cons in Hin as [->|Hin].
  - rewrite Hx. destruct n as [|n]; cbn; [lia|]. intros _. by apply elem_of_cons; left.
  - rewrite Forall_forall in Hy. rewrite (Hy x Hin).
    destruct n as [|n]; cbn; [lia|]. intros Hl%le_S_n. apply elem_of_cons. right. by apply IH.
Qed.

Section announce.
Context `{UuidApi} `{DigestApi} `{CborApi} `{ZstdApi} `{HttpApi} `{StateJsonLaws}.
(** The query the notifier's poll asks for. *)
Definition poll_query (client_id : string) : TaskListQuery :=
  mkTaskListQuery (Some client_id) None None None None None (Some 500).
(** The tasks of the client that come no later in the list than [row]. *)
Definition ahead (client_id : string) (row : TaskRow) (db : Db) : list TaskRow :=
  select (fun r => newest_first r row)
    (select (fun r => String.eqb (tr_client_id r) client_id) (db Tasks)).
Lemma newest_first_refl r : newest_first r r = true.
Proof. by destruct (newest_first r r) eqn:E; [|rewrite (newest_first_total _ _ E) in E]. Qed.

Lemma listed_row headers client_id (views : nat -> Db) r log row :
  let db := views 1%nat in
  list_tasks headers (poll_query client_id) views [] = Ok (r, log) ->
  row ∈ db Tasks -> tr_client_id row = client_id -> (length (ahead client_id row db) <= 500)%nat ->
  tr_snapshot row ∈ lr_tasks r.
Proof.
  intros db E Hin Hc Hl. unfold list_tasks in E. apply st_bind_Ok in E as (p & log1 & E1 & E).
  apply statement_Ok in E1 as (db1 & _ & ->). apply statement_Ok in E as (db2 & E & _).
  change (views (length ([] ++ [db1]))) with db in E. apply list_tasks_Ok in E as (_ & _ & Hown & ->). cbn [lr_tasks].
  apply list_elem_of_fmap. exists row. split; [done|].
  change (Z.to_nat (list_limit (poll_query client_id))) with 500%nat.
  assert (forall r, list_matches (effective_query p (poll_query client_id)) r = String.eqb (tr_client_id r) client_id) as Hm.
  { intros x. unfold effective_query, list_matches, own_list in *. destruct (is_admin _) eqn:Ha.
    - cbn. rewrite !andb_true_r. by destruct (String.eqb_spec (tr_client_id x) client_id); case_bool_decide.
    - destruct Hown as [?|Hown]; [done|]. cbn in Hown. apply negb_false_iff, String.eqb_eq in Hown. subst client_id.
      cbn. rewrite !andb_true_r. by destruct (String.eqb_spec (tr_client_id x) (pr_client_id p)); case_bool_decide. }
  unfold listed. apply (sorted_take newest_first).
  - apply order_by_sorted; [apply newest_first_total | apply newest_first_trans].
  - apply newest_first_refl.
  - rewrite order_by_perm. apply select_elem. rewrite Hm. split; [done|]. by apply String.eqb_eq.
  - rewrite order_by_perm. unfold ahead in Hl. unfold select in *. by rewrite (List.filter_ext _ _ Hm).
Qed.

(** [C20] A task on the server is announced.  When the server holds a task of the
    client that calls for a notice, of a kind that is sent, and at most five
    hundred of the client's tasks come before it or with it in the order of their last
    change, then after the next poll that goes well the notice has been sent, by
    this poll or before it was marked; and if it was not marked, it is sent
    exactly once by this poll, with the text made of a listed task.  [views 1] is
    the server's database when the list is read.  The poll must not be the first
    one on a fresh state file ([initialized]): that one only marks what it finds
    and announces nothing. *)
Theorem stored_task_announced headers c (views : nat -> Db) r log row k s w s' w' :
  let db := views 1%nat in
  list_tasks headers (poll_query (nc_client_id c)) views [] = Ok (r, log) ->
  row ∈ db Tasks -> tr_client_id row = nc_client_id c ->
  (length (ahead (nc_client_id c) row db) <= 500)%nat ->
  noticed (tr_snapshot row) = Some k -> k.1 = Abnormal \/ notify_completed c = true ->
  at_file s w -> initialized s = true -> poll c (Ok r) s w = (Ok s', w') ->
  at_file s' w' /\ seen s' k = true
  /\ exists l, wd_sent w' = wd_sent w ++ l /\ NoDup (map no_about l)
     /\ (k ∈ map no_about l <-> seen s k = false)
     /\ forall n, n ∈ l -> exists task, task ∈ lr_tasks r /\ noticed task = Some (no_about n)
                                /\ n = notice_of c task (no_about n).
Proof.
  intros db El Hin Hc Hl Hk Hloud%loud_spec Hf Hi E.
  pose proof (listed_row _ _ _ _ _ _ El Hin Hc Hl) as Hlisted.
  assert (called (rev (lr_tasks r)) k) as Hcalled by (apply called_rev; by exists (tr_snapshot row)).
  unfold poll, process_tasks in E. rewrite Hi in E. apply bind_run_Ok in E as (s1 & w1 & E1 & E).
  destruct (process_exact _ _ _ _ _ _ _ E1 Hf) as (Hf1 & l & Es & Hnd & Hall & Hfor & Hseen & Hi1).
  rewrite Hi1, Hi in E. injection E as <- <-. split; [done|]. split; [apply Hseen; by right|].
  exists l. split; [done|]. split; [done|]. split.
  - rewrite Hall. cbn [andb]. rewrite Hloud. tauto.
  - intros n Hn. rewrite Forall_forall in Hfor. destruct (Hfor n Hn) as (t & Ht & Hnt & Hno).
    exists t. by rewrite <- elem_rev.
Qed.
End announce.

(** ** Witness *)
Module AnnounceFixture.
Import CodecFixture HttpFixture ServerFixture TimeFixture NotifierFixture.
#[local] Existing Instance notifier.
#[local] Existing Instance json.
#[local] Existing Instance json_laws.
(** A server with three tasks of the notifier's client. *)
Definition row_of (s : TaskSnapshot) : TaskRow :=
  Server.task_row "local" (mkTaskUpload s [] [] [] []).
Definition served : Db :=
  set_table Tasks (map row_of [finished; broken; untitled])
    (exec (issue_token "local" "reader" (Some TokenRoleArg_Reader) false 1 2) db_empty).
Definition answer : result Status (TaskListResponse * list Db) :=
  list_tasks (bearer_of "reader") (poll_query "local") (fun _ => served) [].
Lemma stored_task_announced_witness : exists r log s' w',
  answer = Ok (r, log) /\ length (lr_tasks r) = 3%nat
  /\ poll config (Ok r) known (start [Done; Done]) = (Ok s', w')
  /\ seen s' broken_key = true /\ broken_key ∈ map no_about (wd_sent w').
Proof.
  assert (match answer with
          | Ok (r, _) => Nat.eqb (length (lr_tasks r)) 3 && is_ok (poll config (Ok r) known (start [Done; Done])).1
          | Err _ => false
          end = true) as Hok by (vm_compute; reflexivity).
  destruct answer as [[r log]|] eqn:E; [|discriminate Hok]. apply andb_true_iff in Hok as [Hn%Nat.eqb_eq Hp].
  destruct (poll config (Ok r) known (start [Done; Done])) as [[s'|] w'] eqn:Ep; [|discriminate Hp].
  exists r, log, s', w'. split; [reflexivity|]. split; [exact Hn|]. split; [exact Ep|].
  destruct (stored_task_announced (bearer_of "reader") config (fun _ => served) r log (row_of broken) broken_key known
              (start [Done; Done]) s' w' E) as (_ & Hs & l & El & _ & Hin & _).
  - apply elem_of_cons. right. apply elem_of_cons. by left.
  - reflexivity.
  - apply Nat.leb_le. vm_compute. reflexivity.
  - reflexivity.
  - left. reflexivity.
  - reflexivity.
  - reflexivity.
  - exact Ep.
  - split; [exact Hs|]. rewrite El. apply Hin. reflexivity.
Defined.
End AnnounceFixture.
